(** * DSMV firmware: acquisition, filtering and host hand-off

    A shallow embedding of the signal path of the DSMV exercises
    (SpectralProcessingDSMV.ino and its filter headers, the lock-in
    variants of fir.h / iir.h) together with the properties the design
    document states about it.

    Conventions.
    - C integers are [Z] with the wrap-around of their width written out
      ([int32], [int64], [uint32], [uint16]).
    - C arrays are total maps from the index to the element; the lemmas
      that speak about memory safety state the index ranges explicitly.
    - [float] and [double] are IEEE-754 binary32 / binary64 values of the
      standard library's [SpecFloat], every C operation rounded once (to
      nearest even), with the usual arithmetic conversions of C++ made
      explicit ([to_double], [to_float], [b32_of_Z], ...).
    - The Teensy 4.0 target is a little-endian 32-bit ARM: [long] and
      [int] are 32 bits wide, and the byte at the lowest address of a
      [float] is the least significant byte of its encoding. *)

From Stdlib Require Import ZArith Lia List Bool.
From Stdlib Require Import Floats.SpecFloat.
From Stdlib Require String Ascii.
Import ListNotations.
Local Open Scope Z_scope.

(* ================================================================== *)
(** * Machine integers *)

Definition wrap (w x : Z) : Z := (x + 2 ^ (w - 1)) mod 2 ^ w - 2 ^ (w - 1).

Definition int32 (x : Z) : Z := wrap 32 x.
Definition int64 (x : Z) : Z := wrap 64 x.
Definition uint32 (x : Z) : Z := x mod 2 ^ 32.
Definition uint16 (x : Z) : Z := x mod 2 ^ 16.

Definition INT32_MAX : Z := 2 ^ 31 - 1.

Definition in_int32 (x : Z) : Prop := - 2 ^ 31 <= x < 2 ^ 31.
Definition in_int64 (x : Z) : Prop := - 2 ^ 63 <= x < 2 ^ 63.

(** Sum of a list of raw values (unbounded, used in statements only). *)
Definition zsum (l : list Z) : Z := fold_right Z.add 0 l.

(* ================================================================== *)
(** * Arrays *)

(** [upd a i v] is the array [a] after [a[i] = v]. *)
Definition upd {A : Type} (a : Z -> A) (i : Z) (v : A) : Z -> A :=
  fun j => if j =? i then v else a j.

(** [upd2 a c i v] is the two-dimensional array [a] after [a[c][i] = v]. *)
Definition upd2 {A : Type} (a : Z -> Z -> A) (c i : Z) (v : A)
  : Z -> Z -> A :=
  fun c' j => if (c' =? c) && (j =? i) then v else a c' j.

(* ================================================================== *)
(** * Floating point *)

Definition float32 := spec_float.
Definition float64 := spec_float.

Definition b32_add : float32 -> float32 -> float32 := SFadd 24 128.
Definition b32_sub : float32 -> float32 -> float32 := SFsub 24 128.
Definition b32_mul : float32 -> float32 -> float32 := SFmul 24 128.
Definition b32_div : float32 -> float32 -> float32 := SFdiv 24 128.
Definition b64_add : float64 -> float64 -> float64 := SFadd 53 1024.
Definition b64_sub : float64 -> float64 -> float64 := SFsub 53 1024.
Definition b64_mul : float64 -> float64 -> float64 := SFmul 53 1024.
Definition b64_div : float64 -> float64 -> float64 := SFdiv 53 1024.

(** Conversion between formats: exact when widening, rounded when
    narrowing. *)
Definition SFconv (prec emax : Z) (x : spec_float) : spec_float :=
  match x with
  | S754_finite s m e => binary_round prec emax s m e
  | _ => x
  end.

Definition to_double (x : float32) : float64 := SFconv 53 1024 x.
Definition to_float (x : float64) : float32 := SFconv 24 128 x.

(** Integer to floating point. *)
Definition b32_of_Z (z : Z) : float32 := binary_normalize 24 128 z 0 false.
Definition b64_of_Z (z : Z) : float64 := binary_normalize 53 1024 z 0 false.

(** Floating point to integer, truncating toward zero (the value of a
    NaN or an infinity is not defined by C++; the FPU yields 0 for NaN). *)
Definition trunc_Z (x : spec_float) : Z :=
  match x with
  | S754_finite s m e =>
      let a := if 0 <=? e then Zpos m * 2 ^ e else Zpos m / 2 ^ (- e) in
      if s then - a else a
  | _ => 0
  end.

(** Decimal literals: [n/d] rounded once is the literal's value whenever
    [n] and [d] are exactly representable. *)
Definition dec32 (n d : Z) : float32 := b32_div (b32_of_Z n) (b32_of_Z d).
Definition dec64 (n d : Z) : float64 := b64_div (b64_of_Z n) (b64_of_Z d).

Definition f32_zero : float32 := S754_zero false.

(** Arduino's [PI], 3.1415926535897932384626433832795 as a double. *)
Definition PI : float64 := S754_finite false 7074237752028440 (-51).

(** [|a - b| <= tol] on binary32 values (false on NaN). *)
Definition within (tol a b : float32) : bool :=
  SFleb (SFabs (b32_sub a b)) tol.

(** IEEE-754 binary32 encoding of a [float]. *)
Definition bits32 (x : float32) : Z :=
  let sign (s : bool) := if s then 2 ^ 31 else 0 in
  match x with
  | S754_zero s => sign s
  | S754_infinity s => sign s + 2139095040
  | S754_nan => 2143289344
  | S754_finite s m e =>
      sign s + (if 2 ^ 23 <=? Zpos m
                then (e + 150) * 2 ^ 23 + (Zpos m - 2 ^ 23)
                else Zpos m)
  end.

(** T4.h: [LBYTE], [HBYTE], [H2BYTE], [H3BYTE] read the bytes at offsets
    0..3 of the object; [byte_at k] is the byte at offset [k] of a 32-bit
    object with encoding [w]. *)
Definition byte_at (k : Z) (w : Z) : Z := Z.land (Z.shiftr w (8 * k)) 255.

Definition LBYTE (v : float32) : Z := byte_at 0 (bits32 v).
Definition HBYTE (v : float32) : Z := byte_at 1 (bits32 v).
Definition H2BYTE (v : float32) : Z := byte_at 2 (bits32 v).
Definition H3BYTE (v : float32) : Z := byte_at 3 (bits32 v).

(** Little-endian reading of four bytes of a buffer. *)
Definition le32 (buf : Z -> Z) (pos : Z) : Z :=
  buf pos + 2 ^ 8 * buf (pos + 1) + 2 ^ 16 * buf (pos + 2)
  + 2 ^ 24 * buf (pos + 3).

(* ================================================================== *)
(** * Host capture: the part shared by both sketches *)

Inductive signal_type := signalVoltage | signalRaw.

Inductive op_mode := spectral | shortPulse | turnOn | turnOff.

Definition is_spectral (m : op_mode) : bool :=
  match m with spectral => true | _ => false end.

(** #define RES_AD4020 0.0000190734863 and RES_LTC2500 0.0000011920929 *)
Definition RES_AD4020 : float64 := dec64 190734863 10000000000000.
Definition RES_LTC2500 : float64 := dec64 11920929 10000000000000.

(** const uint32_t maxLen = 4*32768 *)
Definition maxLen : Z := 4 * 32768.

(** The globals of the capture path (the same in both sketches). *)
Record acq := {
  offsetAD4020 : float32;
  gainAD4020 : float32;
  bufLen : Z;                 (* uint32_t *)
  bufAD4020 : Z -> Z;         (* uint8_t [maxLen] *)
  bufPos : Z;                 (* int32_t *)
  full : bool;
  request : bool;
  sampleStart : bool;
  samplerate : float32;
  processingRate : float32;
  oversamples : Z;            (* int *)
  samples : Z;                (* int *)
  signalType : signal_type;
  voltageAD4020 : float32;
  sumAD4020 : Z               (* int64_t *)
}.

Definition set_bufLen (v : Z) (s : acq) : acq :=
  {| offsetAD4020 := offsetAD4020 s; gainAD4020 := gainAD4020 s;
     bufLen := v; bufAD4020 := bufAD4020 s; bufPos := bufPos s;
     full := full s; request := request s; sampleStart := sampleStart s;
     samplerate := samplerate s; processingRate := processingRate s;
     oversamples := oversamples s; samples := samples s;
     signalType := signalType s; voltageAD4020 := voltageAD4020 s;
     sumAD4020 := sumAD4020 s |}.

Definition set_bufAD4020 (v : Z -> Z) (s : acq) : acq :=
  {| offsetAD4020 := offsetAD4020 s; gainAD4020 := gainAD4020 s;
     bufLen := bufLen s; bufAD4020 := v; bufPos := bufPos s;
     full := full s; request := request s; sampleStart := sampleStart s;
     samplerate := samplerate s; processingRate := processingRate s;
     oversamples := oversamples s; samples := samples s;
     signalType := signalType s; voltageAD4020 := voltageAD4020 s;
     sumAD4020 := sumAD4020 s |}.

Definition set_bufPos (v : Z) (s : acq) : acq :=
  {| offsetAD4020 := offsetAD4020 s; gainAD4020 := gainAD4020 s;
     bufLen := bufLen s; bufAD4020 := bufAD4020 s; bufPos := v;
     full := full s; request := request s; sampleStart := sampleStart s;
     samplerate := samplerate s; processingRate := processingRate s;
     oversamples := oversamples s; samples := samples s;
     signalType := signalType s; voltageAD4020 := voltageAD4020 s;
     sumAD4020 := sumAD4020 s |}.

Definition set_full (v : bool) (s : acq) : acq :=
  {| offsetAD4020 := offsetAD4020 s; gainAD4020 := gainAD4020 s;
     bufLen := bufLen s; bufAD4020 := bufAD4020 s; bufPos := bufPos s;
     full := v; request := request s; sampleStart := sampleStart s;
     samplerate := samplerate s; processingRate := processingRate s;
     oversamples := oversamples s; samples := samples s;
     signalType := signalType s; voltageAD4020 := voltageAD4020 s;
     sumAD4020 := sumAD4020 s |}.

Definition set_request (v : bool) (s : acq) : acq :=
  {| offsetAD4020 := offsetAD4020 s; gainAD4020 := gainAD4020 s;
     bufLen := bufLen s; bufAD4020 := bufAD4020 s; bufPos := bufPos s;
     full := full s; request := v; sampleStart := sampleStart s;
     samplerate := samplerate s; processingRate := processingRate s;
     oversamples := oversamples s; samples := samples s;
     signalType := signalType s; voltageAD4020 := voltageAD4020 s;
     sumAD4020 := sumAD4020 s |}.

Definition set_sampleStart (v : bool) (s : acq) : acq :=
  {| offsetAD4020 := offsetAD4020 s; gainAD4020 := gainAD4020 s;
     bufLen := bufLen s; bufAD4020 := bufAD4020 s; bufPos := bufPos s;
     full := full s; request := request s; sampleStart := v;
     samplerate := samplerate s; processingRate := processingRate s;
     oversamples := oversamples s; samples := samples s;
     signalType := signalType s; voltageAD4020 := voltageAD4020 s;
     sumAD4020 := sumAD4020 s |}.

Definition set_samplerate (v : float32) (s : acq) : acq :=
  {| offsetAD4020 := offsetAD4020 s; gainAD4020 := gainAD4020 s;
     bufLen := bufLen s; bufAD4020 := bufAD4020 s; bufPos := bufPos s;
     full := full s; request := request s; sampleStart := sampleStart s;
     samplerate := v; processingRate := processingRate s;
     oversamples := oversamples s; samples := samples s;
     signalType := signalType s; voltageAD4020 := voltageAD4020 s;
     sumAD4020 := sumAD4020 s |}.

Definition set_processingRate (v : float32) (s : acq) : acq :=
  {| offsetAD4020 := offsetAD4020 s; gainAD4020 := gainAD4020 s;
     bufLen := bufLen s; bufAD4020 := bufAD4020 s; bufPos := bufPos s;
     full := full s; request := request s; sampleStart := sampleStart s;
     samplerate := samplerate s; processingRate := v;
     oversamples := oversamples s; samples := samples s;
     signalType := signalType s; voltageAD4020 := voltageAD4020 s;
     sumAD4020 := sumAD4020 s |}.

Definition set_oversamples (v : Z) (s : acq) : acq :=
  {| offsetAD4020 := offsetAD4020 s; gainAD4020 := gainAD4020 s;
     bufLen := bufLen s; bufAD4020 := bufAD4020 s; bufPos := bufPos s;
     full := full s; request := request s; sampleStart := sampleStart s;
     samplerate := samplerate s; processingRate := processingRate s;
     oversamples := v; samples := samples s;
     signalType := signalType s; voltageAD4020 := voltageAD4020 s;
     sumAD4020 := sumAD4020 s |}.

Definition set_samples (v : Z) (s : acq) : acq :=
  {| offsetAD4020 := offsetAD4020 s; gainAD4020 := gainAD4020 s;
     bufLen := bufLen s; bufAD4020 := bufAD4020 s; bufPos := bufPos s;
     full := full s; request := request s; sampleStart := sampleStart s;
     samplerate := samplerate s; processingRate := processingRate s;
     oversamples := oversamples s; samples := v;
     signalType := signalType s; voltageAD4020 := voltageAD4020 s;
     sumAD4020 := sumAD4020 s |}.

Definition set_signalType (v : signal_type) (s : acq) : acq :=
  {| offsetAD4020 := offsetAD4020 s; gainAD4020 := gainAD4020 s;
     bufLen := bufLen s; bufAD4020 := bufAD4020 s; bufPos := bufPos s;
     full := full s; request := request s; sampleStart := sampleStart s;
     samplerate := samplerate s; processingRate := processingRate s;
     oversamples := oversamples s; samples := samples s;
     signalType := v; voltageAD4020 := voltageAD4020 s;
     sumAD4020 := sumAD4020 s |}.

Definition set_voltageAD4020 (v : float32) (s : acq) : acq :=
  {| offsetAD4020 := offsetAD4020 s; gainAD4020 := gainAD4020 s;
     bufLen := bufLen s; bufAD4020 := bufAD4020 s; bufPos := bufPos s;
     full := full s; request := request s; sampleStart := sampleStart s;
     samplerate := samplerate s; processingRate := processingRate s;
     oversamples := oversamples s; samples := samples s;
     signalType := signalType s; voltageAD4020 := v;
     sumAD4020 := sumAD4020 s |}.

Definition set_sumAD4020 (v : Z) (s : acq) : acq :=
  {| offsetAD4020 := offsetAD4020 s; gainAD4020 := gainAD4020 s;
     bufLen := bufLen s; bufAD4020 := bufAD4020 s; bufPos := bufPos s;
     full := full s; request := request s; sampleStart := sampleStart s;
     samplerate := samplerate s; processingRate := processingRate s;
     oversamples := oversamples s; samples := samples s;
     signalType := signalType s; voltageAD4020 := voltageAD4020 s;
     sumAD4020 := v |}.

(** The globals as initialised by both sketches. *)
Definition acq_init : acq :=
  {| offsetAD4020 := f32_zero; gainAD4020 := b32_of_Z 1;
     bufLen := 4 * 100; bufAD4020 := fun _ => 0; bufPos := 0;
     full := false; request := false; sampleStart := true;
     samplerate := b32_of_Z 20000; processingRate := b32_of_Z 5000;
     oversamples := 1; samples := 0; signalType := signalVoltage;
     voltageAD4020 := f32_zero; sumAD4020 := 0 |}.

(** The value reported for an averaged raw sum [mean]:
    [RES_AD4020 * gainAD4020 * sumAD4020 + offsetAD4020] in double,
    stored to a float, or the raw mean converted to float. *)
Definition corrected (t : signal_type) (gain offset : float32) (mean : Z)
  : float32 :=
  match t with
  | signalVoltage =>
      to_float (b64_add (b64_mul (b64_mul RES_AD4020 (to_double gain))
                                 (b64_of_Z mean))
                        (to_double offset))
  | signalRaw => b32_of_Z mean
  end.

(** The four stores [bufAD4020[bufPos+k] = byte k of voltageAD4020]. *)
Definition store_record (buf : Z -> Z) (pos : Z) (v : float32) : Z -> Z :=
  upd (upd (upd (upd buf pos (LBYTE v)) (pos + 1) (HBYTE v))
           (pos + 2) (H2BYTE v))
      (pos + 3) (H3BYTE v).

(** [T4sw(buf, len)]: the bytes handed to the USB transport. *)
Definition T4sw (buf : Z -> Z) (len : Z) : list Z :=
  map (fun i => buf (Z.of_nat i)) (seq 0 (Z.to_nat len)).

(** [min(a, maxLen)] with [a] a [long] and [maxLen] a [uint32_t]: the
    comparison and the result are unsigned. *)
Definition min_u32 (a b : Z) : Z :=
  if uint32 a <? b then uint32 a else b.

(** [max(1, x)] on floats, as [1 > x ? 1 : x]. *)
Definition max1 (x : float32) : float32 :=
  if SFltb x (b32_of_Z 1) then b32_of_Z 1 else x.

(* ================================================================== *)
(** * unnamed/part_003: the spectral sketch without pulse modes *)

Module Part003.

(** void spectralRead(): one firing of the sampling interrupt with the
    ADC delivering [val].  The second component is the record stored in
    this firing, if any. *)
Definition spectralRead (st : acq) (val : Z) : acq * option float32 :=
  if full st then (st, None)
  else
    let st := set_sumAD4020 (int64 (sumAD4020 st + val)) st in
    if sampleStart st then
      (set_sampleStart false (set_sumAD4020 0 st), None)
    else
      let st := set_samples (int32 (samples st + 1)) st in
      if oversamples st <=? samples st then
        let st :=
          set_sumAD4020 (int64 (Z.quot (sumAD4020 st) (oversamples st))) st in
        let st :=
          set_voltageAD4020
            (corrected (signalType st) (gainAD4020 st) (offsetAD4020 st)
                       (sumAD4020 st)) st in
        let st :=
          set_bufAD4020
            (store_record (bufAD4020 st) (bufPos st) (voltageAD4020 st)) st in
        let st := set_sumAD4020 0 st in
        let st := set_bufPos (int32 (bufPos st + 4)) st in
        let st := set_samples 0 st in
        let st :=
          if bufLen st <=? uint32 (bufPos st) then set_full true st else st in
        (st, Some (voltageAD4020 st))
      else (st, None).

(** void sendDataToPC(): the second component is what was transmitted. *)
Definition sendDataToPC (st : acq) : acq * option (list Z) :=
  if negb (full st) then (st, None)
  else
    let st := set_bufPos 0 st in
    let st := set_sampleStart true st in
    if negb (request st) then (set_full false st, None)
    else
      let tx := T4sw (bufAD4020 st) (bufLen st) in
      let st := set_request false st in
      let st := set_full false st in
      (st, Some tx).

(** The commands of the USB protocol after [checkCommand] and the
    numeric parsing ([toInt], [toFloat], [checkSignalType]). *)
Inductive command :=
| settingOversamples (n : Z)
| settingSize (n : Z)
| settingSpectralFreq (f : float32)
| settingProcessingFreq (f : float32)
| settingSignalType (t : option signal_type)
| commandRequest
| INVALID.

(** bool checkUpdateUSB(String command) *)
Definition checkUpdateUSB (st : acq) (c : command) : acq * bool :=
  match c with
  | settingOversamples n => (set_oversamples n st, true)
  | settingSize n => (set_bufLen (min_u32 (int32 (4 * n)) maxLen) st, true)
  | settingSpectralFreq f => (set_samplerate (max1 f) st, true)
  | settingProcessingFreq f => (set_processingRate (max1 f) st, true)
  | settingSignalType (Some t) => (set_signalType t st, true)
  | settingSignalType None => (st, false)
  | commandRequest => (set_request true st, true)
  | INVALID => (st, false)
  end.

(** A run of the interrupt over a sequence of raw values: final state
    and the records stored, in order. *)
Fixpoint run (st : acq) (vals : list Z) : acq * list float32 :=
  match vals with
  | [] => (st, [])
  | v :: vs =>
      let '(st1, o) := spectralRead st v in
      let '(st2, os) := run st1 vs in
      (st2, match o with Some x => x :: os | None => os end)
  end.

End Part003.

(* ================================================================== *)
(** * Loops *)

(** [for (int i = i0; ...; i++) body], executed [n] times. *)
Fixpoint for_up {S : Type} (n : nat) (i : Z) (body : Z -> S -> S) (s : S)
  : S :=
  match n with
  | O => s
  | S n' => for_up n' (i + 1) body (body i s)
  end.

(** [for (int i = i0; ...; i--) body], executed [n] times. *)
Fixpoint for_down {S : Type} (n : nat) (i : Z) (body : Z -> S -> S) (s : S)
  : S :=
  match n with
  | O => s
  | S n' => for_down n' (i - 1) body (body i s)
  end.

(* ================================================================== *)
(** * scale.h (unnamed/part_000, unnamed/part_004) *)

Module Scale.

(** float proc_scale(float value, float props[]) *)
Definition proc_scale (value : float32) (props : Z -> float32) : float32 :=
  b32_mul value (props 0).

(** The product and shift of the integer overload, before the result is
    converted to the [float] return type. *)
Definition scale_fixed (value : Z) (props : Z -> Z) : Z :=
  Z.shiftr (int64 (value * props 0)) 32.

(** float proc_scale(int32_t value, int64_t props[]) *)
Definition proc_scale_int (value : Z) (props : Z -> Z) : float32 :=
  b32_of_Z (scale_fixed value props).

End Scale.

(* ================================================================== *)
(** * The moving average *)

(** #define Nmax 256 *)
Definition Nmax : Z := 256.

Record avg_state := {
  dbuffer : Z -> float32;     (* float [Nmax] *)
  idbuffer : Z                (* int *)
}.

Definition avg_init : avg_state :=
  {| dbuffer := fun _ => f32_zero; idbuffer := 0 |}.

(** The slot read in iteration [i] of the summation loop. *)
Definition avg_index (idbuffer i : Z) : Z :=
  if 0 <=? idbuffer - i then idbuffer - i else Nmax + (idbuffer - i).

(** advance pointer *)
Definition avg_advance (idbuffer : Z) : Z :=
  let i := int32 (idbuffer + 1) in
  if Nmax <=? i then 0 else i.

(** ** avg.h with the standardized property array (unnamed/part_001) *)
Module Avg.

(** [for(int i=0; i<props[0]; i++)]: the bound is a float, so the loop
    is run on fuel; [None] when the fuel does not suffice.  The third
    component lists the slots read, latest first. *)
Fixpoint avg_loop (fuel : nat) (d : Z -> float32) (idb : Z) (n : float32)
  (i : Z) (avg : float32) (reads : list Z) : option (float32 * list Z) :=
  if SFltb (b32_of_Z i) n then
    match fuel with
    | O => None
    | S fuel' =>
        let k := avg_index idb i in
        avg_loop fuel' d idb n (int32 (i + 1)) (b32_add avg (d k))
                 (k :: reads)
    end
  else Some (avg, reads).

(** Fuel for the loop: it stops at the first integer not below
    [props[0]]; a result, once reached, does not depend on the fuel
    (lemma [avg_loop_more_fuel]). *)
Definition avg_fuel (n : float32) : nat := Z.to_nat (trunc_Z n + 1).

(** float proc_avg(float value, float props[]), with the slots read in
    the summation.  [None]: the loop does not finish ([props[0]] is
    +infinity). *)
Definition proc_avg_reads (st : avg_state) (value : float32)
  (props : Z -> float32) : option (avg_state * float32 * list Z) :=
  let d := upd (dbuffer st) (idbuffer st) value in
  match avg_loop (avg_fuel (props 0)) d (idbuffer st) (props 0) 0
                 f32_zero [] with
  | None => None
  | Some (avg, reads) =>
      let avg := b32_div avg (props 0) in
      Some ({| dbuffer := d; idbuffer := avg_advance (idbuffer st) |},
            avg, reads)
  end.

Definition proc_avg (st : avg_state) (value : float32)
  (props : Z -> float32) : option (avg_state * float32) :=
  match proc_avg_reads st value props with
  | Some (st', avg, _) => Some (st', avg)
  | None => None
  end.

End Avg.

(** ** proc_avg(float value, int samples) of unnamed/part_003 *)
Module Avg003.

(** The clamping of the requested count. *)
Definition clamp_samples (samples : Z) : Z :=
  let samples := if Nmax <? samples then Nmax else samples in
  if samples <=? 0 then 1 else samples.

(** One iteration of the summation loop: the sum and the slots read. *)
Definition avg_step (d : Z -> float32) (idb : Z) (i : Z)
  (s : float32 * list Z) : float32 * list Z :=
  let k := avg_index idb i in (b32_add (fst s) (d k), k :: snd s).

(** The summation loop: accumulated sum and the slots read. *)
Definition avg_sum (d : Z -> float32) (idb : Z) (samples : Z)
  : float32 * list Z :=
  for_up (Z.to_nat samples) 0 (avg_step d idb) (f32_zero, []).

Definition proc_avg_reads (st : avg_state) (value : float32) (samples : Z)
  : avg_state * float32 * list Z :=
  let samples := clamp_samples samples in
  let d := upd (dbuffer st) (idbuffer st) value in
  let '(avg, reads) := avg_sum d (idbuffer st) samples in
  let avg := b32_div avg (b32_of_Z samples) in
  ({| dbuffer := d; idbuffer := avg_advance (idbuffer st) |}, avg, reads).

Definition proc_avg (st : avg_state) (value : float32) (samples : Z)
  : avg_state * float32 :=
  let '(st', avg, _) := proc_avg_reads st value samples in (st', avg).

End Avg003.

(* ================================================================== *)
(** * The recursive filters of first to third order *)

Definition one64 : float64 := b64_of_Z 1.

(** [2.0*PI*f] and [2*PI*f] with [f] a float: a double. *)
Definition two_pi_times (f : float32) : float64 :=
  b64_mul (b64_mul (b64_of_Z 2) PI) (to_double f).

(** [1.0/d*(e)] with [e] a float expression: a double, stored to float. *)
Definition inv_times (d : float64) (e : float32) : float32 :=
  to_float (b64_mul (b64_div one64 d) (to_double e)).

(** float proc_lpf1(float xn, float props[]) on the history yln_1 *)
Definition proc_lpf1 (yln_1 : float32) (xn : float32)
  (props : Z -> float32) : float32 * float32 :=
  let fac := to_float (b64_div (to_double (props 5)) (two_pi_times (props 0))) in
  let out := inv_times (b64_add (to_double fac) one64)
                       (b32_add xn (b32_mul fac yln_1)) in
  (out, out).

Record hpf1_state := { xhn_1 : float32; yhn_1 : float32 }.

(** float proc_hpf1(float xn, float props[]) *)
Definition proc_hpf1 (st : hpf1_state) (xn : float32)
  (props : Z -> float32) : hpf1_state * float32 :=
  let fac := to_float (b64_div (two_pi_times (props 0)) (to_double (props 5))) in
  let out := inv_times (b64_add (to_double fac) one64)
                       (b32_sub (b32_add xn (yhn_1 st)) (xhn_1 st)) in
  ({| xhn_1 := xn; yhn_1 := out |}, out).

Record lpf2_state := { yl2n_1 : float32; yl2n_2 : float32 }.

(** float proc_lpf2(float xn, float props[]) *)
Definition proc_lpf2 (st : lpf2_state) (xn : float32)
  (props : Z -> float32) : lpf2_state * float32 :=
  let k (n : Z) := b32_of_Z n in
  let fswc := to_float (b64_div (to_double (props 5)) (two_pi_times (props 0))) in
  let fac := b32_add (b32_add (k 1) (b32_mul (k 2) fswc)) (b32_mul fswc fswc) in
  let fac2 := b32_add (b32_mul (k 2) fswc)
                      (b32_mul (b32_mul (k 2) fswc) fswc) in
  let fac3 := b32_mul fswc fswc in
  let out :=
    inv_times (to_double fac)
      (b32_add (b32_sub (b32_mul fac2 (yl2n_1 st)) (b32_mul fac3 (yl2n_2 st)))
               xn) in
  ({| yl2n_1 := out; yl2n_2 := yl2n_1 st |}, out).

Record lpf3_state := { yl3n_1 : float32; yl3n_2 : float32; yl3n_3 : float32 }.

(** float proc_lpf3(float xn, float props[]) (proc_lpf3.h; the rate is
    read from props[3]) *)
Definition proc_lpf3 (st : lpf3_state) (xn : float32)
  (props : Z -> float32) : lpf3_state * float32 :=
  let k (n : Z) := b32_of_Z n in
  let fswc := to_float (b64_div (to_double (props 3)) (two_pi_times (props 0))) in
  let sq := b32_mul fswc fswc in
  let fac := b32_add (b32_add (b32_add (k 1) (b32_mul (k 3) fswc))
                              (b32_mul (b32_mul (k 3) fswc) fswc))
                     (b32_mul sq fswc) in
  let fac1 := b32_add (b32_add (b32_mul (k 3) fswc)
                               (b32_mul (b32_mul (k 6) fswc) fswc))
                      (b32_mul (b32_mul (b32_mul (k 3) fswc) fswc) fswc) in
  let fac2 := b32_add (b32_mul (b32_mul (k 3) fswc) fswc)
                      (b32_mul (b32_mul (b32_mul (k 3) fswc) fswc) fswc) in
  let fac3 := b32_mul sq fswc in
  let out :=
    inv_times (to_double fac)
      (b32_add (b32_add (b32_sub (b32_mul fac1 (yl3n_1 st))
                                 (b32_mul fac2 (yl3n_2 st)))
                        (b32_mul fac3 (yl3n_3 st)))
               xn) in
  ({| yl3n_1 := out; yl3n_2 := yl3n_1 st; yl3n_3 := yl3n_2 st |}, out).

Record own_state := { yown_n1 : float32; yown_n2 : float32 }.

(** float proc_ownDef(float xn, float props[]) (ownDef.h, first version):
    the placeholder returns its input and records it. *)
Definition proc_ownDef (st : own_state) (xn : float32)
  (props : Z -> float32) : own_state * float32 :=
  let yn := xn in
  ({| yown_n1 := yn; yown_n2 := yown_n1 st |}, yn).

(* ================================================================== *)
(** * iir.h: the programmable recursive filter *)

(** const int Niirmax = 200 *)
Definition Niirmax : Z := 200.

(** The externally supplied tables (fdacoeffs.h, or the tables written
    in the header): [bn] weighs the inputs, [an] the outputs. *)
Record iir_coeffs := {
  bn : Z -> float32; Nb : Z;
  an : Z -> float32; Na : Z
}.

Record iir_state := {
  xnhist : Z -> float32;      (* float [Niirmax] *)
  ynhist : Z -> float32       (* float [Niirmax] *)
}.

Definition iir_init : iir_state :=
  {| xnhist := fun _ => f32_zero; ynhist := fun _ => f32_zero |}.

(** Number of iterations of [for(int i=hi; i>lo; i--)]. *)
Definition down_count (hi lo : Z) : nat := Z.to_nat (hi - lo).

(** The two loop bodies for the input history. *)
Definition x_mul_then_shift (c : iir_coeffs) (i : Z)
  (s : float32 * (Z -> float32)) : float32 * (Z -> float32) :=
  let '(yn, xh) := s in
  let yn := b32_add yn (b32_mul (bn c i) (xh i)) in
  (yn, upd xh i (xh (i - 1))).

Definition x_shift_then_mul (c : iir_coeffs) (i : Z)
  (s : float32 * (Z -> float32)) : float32 * (Z -> float32) :=
  let '(yn, xh) := s in
  let xh := upd xh i (xh (i - 1)) in
  (b32_add yn (b32_mul (bn c i) (xh i)), xh).

(** The two loop bodies for the output history. *)
Definition y_mul_then_shift (c : iir_coeffs) (i : Z)
  (s : float32 * (Z -> float32)) : float32 * (Z -> float32) :=
  let '(yn, yh) := s in
  let yn := b32_sub yn (b32_mul (an c i) (yh (i - 1))) in
  (yn, upd yh (i - 1) (yh (i - 2))).

Definition y_shift_then_mul (c : iir_coeffs) (i : Z)
  (s : float32 * (Z -> float32)) : float32 * (Z -> float32) :=
  let '(yn, yh) := s in
  let yh := upd yh (i - 1) (yh (i - 2)) in
  (b32_sub yn (b32_mul (an c i) (yh (i - 1))), yh).

(** The closing statements shared by all versions:
    [yn -= an[1]*ynhist[0]; ynhist[0] = yn; return yn;] *)
Definition iir_finish (c : iir_coeffs) (xh : Z -> float32)
  (s : float32 * (Z -> float32)) : iir_state * float32 :=
  let '(yn, yh) := s in
  let yn := b32_sub yn (b32_mul (an c 1) (yh 0)) in
  ({| xnhist := xh; ynhist := upd yh 0 yn |}, yn).

(** ** iir.h, lines 39-62 *)
Module Iir1.

Definition proc_iir (c : iir_coeffs) (st : iir_state) (xn : float32)
  : iir_state * float32 :=
  let hiB := Z.min Niirmax (Nb c) - 1 in
  let '(yn, xh) :=
    for_down (down_count hiB 0) hiB (x_mul_then_shift c)
             (f32_zero, xnhist st) in
  (* current sample *)
  let xh := upd xh 0 xn in
  let yn := b32_add yn (b32_mul (bn c 0) xn) in
  let hiA := Z.min Niirmax (Na c) - 1 in
  iir_finish c xh
    (for_down (down_count hiA 1) hiA (y_mul_then_shift c) (yn, ynhist st)).

End Iir1.

(** ** iir.h, lines 76-100 *)
Module Iir2.

Definition proc_iir (c : iir_coeffs) (st : iir_state) (xn : float32)
  : iir_state * float32 :=
  let hiB := Z.min Niirmax (Nb c) - 1 in
  let '(yn, xh) :=
    for_down (down_count hiB 0) hiB (x_shift_then_mul c)
             (f32_zero, xnhist st) in
  (* current sample *)
  let xh := upd xh 0 xn in
  let yn := b32_add yn (b32_mul (bn c 0) (xh 0)) in
  let hiA := Z.min Niirmax (Na c) - 1 in
  iir_finish c xh
    (for_down (down_count hiA 1) hiA (y_mul_then_shift c) (yn, ynhist st)).

End Iir2.

(** ** iir.h, lines 114-137 *)
Module Iir3.

Definition proc_iir (c : iir_coeffs) (st : iir_state) (xn : float32)
  : iir_state * float32 :=
  let hiB := Z.min Niirmax (Nb c) - 1 in
  let '(yn, xh) :=
    for_down (down_count hiB 0) hiB (x_mul_then_shift c)
             (f32_zero, xnhist st) in
  (* current sample *)
  let yn := b32_add yn (b32_mul (bn c 0) (xh 0)) in
  let xh := upd xh 0 xn in
  let hiA := Z.min Niirmax (Na c) - 1 in
  iir_finish c xh
    (for_down (down_count hiA 1) hiA (y_shift_then_mul c) (yn, ynhist st)).

End Iir3.

(** ** The two-channel filter of the lock-in (unnamed/part_007) *)
Module Iir007.

(** [xnhist[2][Niirmax]], [ynhist[2][Niirmax]]: one history per channel. *)
Record state := { ch0 : iir_state; ch1 : iir_state }.

Definition init : state := {| ch0 := iir_init; ch1 := iir_init |}.

(** Loop state: both sums and both histories. *)
Definition both : Type :=
  (float32 * (Z -> float32)) * (float32 * (Z -> float32)).

Definition x_body (c : iir_coeffs) (i : Z) (s : both) : both :=
  (x_shift_then_mul c i (fst s), x_shift_then_mul c i (snd s)).

Definition y_body (c : iir_coeffs) (i : Z) (s : both) : both :=
  (y_shift_then_mul c i (fst s), y_shift_then_mul c i (snd s)).

(** float* proc_iir(float xn[], float props[]) *)
Definition proc_iir (c : iir_coeffs) (st : state) (xn0 xn1 : float32)
  : state * (float32 * float32) :=
  let hiB := Z.min Niirmax (Nb c) - 1 in
  let '((y0, xh0), (y1, xh1)) :=
    for_down (down_count hiB 0) hiB (x_body c)
             ((f32_zero, xnhist (ch0 st)), (f32_zero, xnhist (ch1 st))) in
  (* current sample *)
  let xh0 := upd xh0 0 xn0 in
  let xh1 := upd xh1 0 xn1 in
  let y0 := b32_add y0 (b32_mul (bn c 0) (xh0 0)) in
  let y1 := b32_add y1 (b32_mul (bn c 0) (xh1 0)) in
  let hiA := Z.min Niirmax (Na c) - 1 in
  let '(s0, s1) :=
    for_down (down_count hiA 1) hiA (y_body c)
             ((y0, ynhist (ch0 st)), (y1, ynhist (ch1 st))) in
  let '(st0, r0) := iir_finish c xh0 s0 in
  let '(st1, r1) := iir_finish c xh1 s1 in
  ({| ch0 := st0; ch1 := st1 |}, (r0, r1)).

End Iir007.

(* ================================================================== *)
(** * fir.h: windowed-sinc FIR filters *)

(** The names shared by the FIR headers. *)
Definition rectWin : Z := 0.
Definition hammingWin : Z := 1.
Definition integerDoubleBuffer : Z := 0.
Definition integerIfModulo : Z := 1.
Definition integerModulo : Z := 2.
Definition floatDoubleBuffer : Z := 3.
Definition floatIfModulo : Z := 4.
Definition floatModulo : Z := 5.
Definition coeffPrec : Z := 9.

(** The three ways of addressing the ring of [N] samples from the read
    position [p]. *)
Definition idx_double (p N i : Z) : Z := p + i.
Definition idx_if (p N i : Z) : Z :=
  if N <=? p + i then p + i - N else p + i.
Definition idx_mod (p N i : Z) : Z := Z.rem (p + i) N.

(** [uint16_t Nfilter = props[2]] *)
Definition Nfilter_of (props : Z -> float32) : Z := uint16 (trunc_Z (props 2)).

(** [uint16_t Mfilter = (Nfilter-1)/2] *)
Definition Mfilter_of (Nfilter : Z) : Z := uint16 (Z.quot (Nfilter - 1) 2).

(** ** Exercise11/LockIn/fir.h: two channels, six arithmetic kinds *)
Module Fir.

(** LockIn.ino: #define FIRlow 0, and #define MfilterMax 100 *)
Definition FIRlow : Z := 0.
Definition MfilterMax : Z := 100.
Definition NfilterMax : Z := 2 * MfilterMax + 1.

Record state := {
  filtercoeff : Z -> float32;          (* float [NfilterMax] *)
  dataBuffer : Z -> Z -> float32;      (* float [2][2*NfilterMax] *)
  dataBufferInt : Z -> Z -> Z;         (* int32_t [2][2*NfilterMax] *)
  filtercoeffInt : Z -> Z;             (* int32_t [NfilterMax] *)
  fir_bufPos : Z;                      (* uint16_t *)
  phi : float64;
  phihigh : float64
}.

Definition init : state :=
  {| filtercoeff := fun _ => f32_zero;
     dataBuffer := fun _ _ => f32_zero;
     dataBufferInt := fun _ _ => 0;
     filtercoeffInt := fun _ => 0;
     fir_bufPos := 0;
     phi := S754_zero false; phihigh := S754_zero false |}.

Section Trig.

(** [sin] and [cos] of the C library, on doubles. *)
Variables fsin fcos : float64 -> float64.

(** float windowfunc(float hi, int i, float props[]) *)
Definition windowfunc (hi : float32) (i : Z) (props : Z -> float32)
  : float32 :=
  if SFeqb (props 3) (b32_of_Z hammingWin) then
    let arg := b64_div (b64_mul (b64_mul (b64_of_Z 2) PI) (b64_of_Z i))
                       (to_double (b32_sub (props 2) (b32_of_Z 1))) in
    to_float
      (b64_mul (to_double hi)
               (b64_sub (dec64 54 100) (b64_mul (dec64 46 100) (fcos arg))))
  else hi.

(** One iteration of the coefficient loop of the low pass. *)
Definition low_tap (ph : float64) (M : Z) (props : Z -> float32) (i : Z)
  (s : (Z -> float32) * (Z -> Z)) : (Z -> float32) * (Z -> Z) :=
  let '(fc, fci) := s in
  let d := b64_of_Z (i - M) in
  let hk := b64_div (fsin (b64_mul ph d)) (b64_mul PI d) in
  (upd fc i (windowfunc (to_float hk) i props),
   upd fci i
       (int32 (trunc_Z (windowfunc
                          (to_float (b64_mul (b64_of_Z (2 ^ coeffPrec)) hk))
                          i props)))).

(** void init_fir(uint8_t type, float props[]) *)
Definition init_fir (type : Z) (props : Z -> float32) (st : state) : state :=
  let N := Nfilter_of props in
  let M := Mfilter_of N in
  if type =? FIRlow then
    let ph := b64_div (b64_mul (b64_mul (b64_of_Z 2) PI) (to_double (props 0)))
                      (to_double (props 5)) in
    let '(fc, fci) :=
      for_up (Z.to_nat N) 0 (low_tap ph M props)
             (filtercoeff st, filtercoeffInt st) in
    let fc := upd fc M (to_float (b64_div ph PI)) in
    let fci :=
      upd fci M
          (int32 (trunc_Z (b64_div (b64_mul (b64_of_Z (2 ^ coeffPrec)) ph)
                                   PI))) in
    {| filtercoeff := fc; dataBuffer := dataBuffer st;
       dataBufferInt := dataBufferInt st; filtercoeffInt := fci;
       fir_bufPos := fir_bufPos st; phi := ph; phihigh := phihigh st |}
  else st.

End Trig.

(** One tap of the integer and of the float accumulation, both channels
    at once, with the slot of tap [i] given by [idx]. *)
Definition int_step (st : state) (idx : Z -> Z) (i : Z) (a : Z * Z)
  : Z * Z :=
  (int32 (fst a + int32 (dataBufferInt st 0 (idx i) * filtercoeffInt st i)),
   int32 (snd a + int32 (dataBufferInt st 1 (idx i) * filtercoeffInt st i))).

Definition float_step (st : state) (idx : Z -> Z) (i : Z)
  (f : float32 * float32) : float32 * float32 :=
  (b32_add (fst f) (b32_mul (dataBuffer st 0 (idx i)) (filtercoeff st i)),
   b32_add (snd f) (b32_mul (dataBuffer st 1 (idx i)) (filtercoeff st i))).

(** [for(int i = 0; i < Nfilter; i++)] over the taps. *)
Definition int_sum (st : state) (N : Z) (idx : Z -> Z) : Z * Z :=
  for_up (Z.to_nat N) 0 (int_step st idx) (0, 0).

Definition float_sum (st : state) (N : Z) (idx : Z -> Z)
  : float32 * float32 :=
  for_up (Z.to_nat N) 0 (float_step st idx) (f32_zero, f32_zero).

(** [filtered[c] = filteredInt[c] >> 7] *)
Definition shifted (a : Z * Z) : float32 * float32 :=
  (b32_of_Z (Z.shiftr (fst a) 7), b32_of_Z (Z.shiftr (snd a) 7)).

(** The statements of proc_fir up to the switch: both copies of the new
    sample are stored and the position advances. *)
Definition push (xn0 xn1 : float32) (raw0 raw1 : Z) (N : Z) (st : state)
  : state :=
  let p := fir_bufPos st in
  let db := upd2 (dataBuffer st) 0 p xn0 in
  let db := upd2 db 1 p xn1 in
  let db := upd2 db 0 (p + N) xn0 in
  let db := upd2 db 1 (p + N) xn1 in
  let s := coeffPrec - 7 in
  let di := upd2 (dataBufferInt st) 0 p (Z.shiftr raw0 s) in
  let di := upd2 di 1 p (Z.shiftr raw1 s) in
  let di := upd2 di 0 (p + N) (Z.shiftr raw0 s) in
  let di := upd2 di 1 (p + N) (Z.shiftr raw1 s) in
  {| filtercoeff := filtercoeff st; dataBuffer := db; dataBufferInt := di;
     filtercoeffInt := filtercoeffInt st;
     fir_bufPos := uint16 (Z.rem (p + 1) N);
     phi := phi st; phihigh := phihigh st |}.

(** The switch over [(int) props[4]]. *)
Definition evaluate (arith : Z) (N : Z) (st : state) : float32 * float32 :=
  let p := fir_bufPos st in
  if arith =? integerDoubleBuffer then shifted (int_sum st N (idx_double p N))
  else if arith =? integerIfModulo then shifted (int_sum st N (idx_if p N))
  else if arith =? integerModulo then shifted (int_sum st N (idx_mod p N))
  else if arith =? floatDoubleBuffer then float_sum st N (idx_double p N)
  else if arith =? floatIfModulo then float_sum st N (idx_if p N)
  else if arith =? floatModulo then float_sum st N (idx_mod p N)
  else (f32_zero, f32_zero).

(** float* proc_fir(float xn[], int32_t xnRaw[], float props[]) *)
Definition proc_fir (xn0 xn1 : float32) (raw0 raw1 : Z)
  (props : Z -> float32) (st : state) : state * (float32 * float32) :=
  let N := Nfilter_of props in
  let st := push xn0 xn1 raw0 raw1 N st in
  (st, evaluate (int32 (trunc_Z (props 4))) N st).

(** A run over a sequence of input pairs [((xn0, xn1), (raw0, raw1))]. *)
Fixpoint run (props : Z -> float32) (st : state)
  (xs : list ((float32 * float32) * (Z * Z)))
  : state * list (float32 * float32) :=
  match xs with
  | [] => (st, [])
  | ((x0, x1), (r0, r1)) :: xs' =>
      let '(st1, y) := proc_fir x0 x1 r0 r1 props st in
      let '(st2, ys) := run props st1 xs' in
      (st2, y :: ys)
  end.

End Fir.

(* ================================================================== *)
(** * SpectralProcessingDSMV.ino (Exercise07-11): the filter engine *)

(** The filters, in the order of their #define'd numbers 0..11. *)
Inductive filter_kind :=
| scaling | movingAvg | lpf1 | hpf1 | bandpass | bandstop
| FIRlow | FIRhigh | lpf2 | lpf3 | progIIR | ownDef.

Definition filter_index (k : filter_kind) : Z :=
  match k with
  | scaling => 0 | movingAvg => 1 | lpf1 => 2 | hpf1 => 3
  | bandpass => 4 | bandstop => 5 | FIRlow => 6 | FIRhigh => 7
  | lpf2 => 8 | lpf3 => 9 | progIIR => 10 | ownDef => 11
  end.

Definition is_scaling (k : filter_kind) : bool :=
  match k with scaling => true | _ => false end.

Definition is_fir (k : filter_kind) : bool :=
  match k with
  | bandpass | bandstop | FIRlow | FIRhigh => true
  | _ => false
  end.

(** ** The scalar FIR header (the fir.h stored with iir.h, lines 138-349) *)
Module FirScalar.

Definition MfilterMax : Z := 70.
Definition NfilterMax : Z := 2 * MfilterMax + 1.
Definition integerArithmetic : Z := 0.
Definition floatArithmetic : Z := 1.

Record state := {
  filtercoeff : Z -> float32;      (* float [NfilterMax] *)
  dataBuffer : Z -> float32;       (* float [2*NfilterMax] *)
  dataBufferInt : Z -> Z;          (* int32_t [2*NfilterMax] *)
  filtercoeffInt : Z -> Z;         (* int32_t [NfilterMax] *)
  fir_bufPos : Z;                  (* uint16_t *)
  phi : float64;
  phihigh : float64
}.

Definition init : state :=
  {| filtercoeff := fun _ => f32_zero; dataBuffer := fun _ => f32_zero;
     dataBufferInt := fun _ => 0; filtercoeffInt := fun _ => 0;
     fir_bufPos := 0; phi := S754_zero false; phihigh := S754_zero false |}.

Definition with_coeffs (fc : Z -> float32) (fci : Z -> Z)
  (ph phh : float64) (st : state) : state :=
  {| filtercoeff := fc; dataBuffer := dataBuffer st;
     dataBufferInt := dataBufferInt st; filtercoeffInt := fci;
     fir_bufPos := fir_bufPos st; phi := ph; phihigh := phh |}.

Section Trig.

Variables fsin fcos : float64 -> float64.

(** [2 * PI * f / props[5]] *)
Definition digital_freq (f : float32) (props : Z -> float32) : float64 :=
  b64_div (b64_mul (b64_mul (b64_of_Z 2) PI) (to_double f))
          (to_double (props 5)).

Definition scale512 (x : float64) : float64 :=
  b64_mul (b64_of_Z (2 ^ coeffPrec)) x.

(** The two stores of one iteration of a coefficient loop, for the
    ideal tap [hk]. *)
Definition store_tap (hk : float64) (props : Z -> float32) (i : Z)
  (s : (Z -> float32) * (Z -> Z)) : (Z -> float32) * (Z -> Z) :=
  let '(fc, fci) := s in
  (upd fc i (Fir.windowfunc fcos (to_float hk) i props),
   upd fci i
       (int32 (trunc_Z (Fir.windowfunc fcos (to_float (scale512 hk))
                                       i props)))).

(** [sin(ph * (i - Mfilter))] and [PI * (i - Mfilter)] *)
Definition sin_at (ph : float64) (i M : Z) : float64 :=
  fsin (b64_mul ph (b64_of_Z (i - M))).
Definition pi_at (i M : Z) : float64 := b64_mul PI (b64_of_Z (i - M)).

(** void init_fir(uint8_t type, float props[]) *)
Definition init_fir (type : filter_kind) (props : Z -> float32) (st : state)
  : state :=
  let N := Nfilter_of props in
  let M := Mfilter_of N in
  let fill (tap : Z -> float64) :=
    for_up (Z.to_nat N) 0 (fun i => store_tap (tap i) props i)
           (filtercoeff st, filtercoeffInt st) in
  match type with
  | movingAvg =>
      let '(fc, fci) :=
        for_up (Z.to_nat N) 0
          (fun i '(fc, fci) =>
             (upd fc i (to_float (b64_div one64 (b64_of_Z N))),
              upd fci i (Z.quot (2 ^ coeffPrec) N)))
          (filtercoeff st, filtercoeffInt st) in
      with_coeffs fc fci (phi st) (phihigh st) st
  | FIRlow =>
      let ph := digital_freq (props 0) props in
      let '(fc, fci) :=
        fill (fun i => b64_div (sin_at ph i M) (pi_at i M)) in
      let fc := upd fc M (to_float (b64_div ph PI)) in
      let fci := upd fci M (int32 (trunc_Z (b64_div (scale512 ph) PI))) in
      with_coeffs fc fci ph (phihigh st) st
  | FIRhigh =>
      let ph := digital_freq (props 0) props in
      let '(fc, fci) :=
        fill (fun i => b64_div (SFopp (sin_at ph i M)) (pi_at i M)) in
      let c := b64_sub one64 (b64_div ph PI) in
      let fc := upd fc M (to_float c) in
      let fci := upd fci M (int32 (trunc_Z (scale512 c))) in
      with_coeffs fc fci ph (phihigh st) st
  | bandpass =>
      let ph := digital_freq (props 0) props in
      let phh := digital_freq (props 1) props in
      let '(fc, fci) :=
        fill (fun i => b64_div (b64_sub (sin_at phh i M) (sin_at ph i M))
                               (pi_at i M)) in
      let c := b64_div (b64_sub phh ph) PI in
      let fci := upd fci M (int32 (trunc_Z (scale512 c))) in
      let fc := upd fc M (to_float c) in
      with_coeffs fc fci ph phh st
  | bandstop =>
      let ph := digital_freq (props 0) props in
      let phh := digital_freq (props 1) props in
      let '(fc, fci) :=
        fill (fun i =>
                SFopp (b64_div (b64_sub (sin_at phh i M) (sin_at ph i M))
                               (pi_at i M))) in
      let c := b64_sub one64 (b64_div (b64_sub phh ph) PI) in
      let fc := upd fc M (to_float c) in
      let fci := upd fci M (int32 (trunc_Z (scale512 c))) in
      with_coeffs fc fci ph phh st
  | _ => st
  end.

End Trig.

(** float proc_fir(float xn, int32_t xnRaw, float props[]); the integer
    branch converts its result with the gain and offset of the LTC2500. *)
Definition proc_fir (gain offset : float32) (xn : float32) (xnRaw : Z)
  (props : Z -> float32) (st : state) : state * float32 :=
  let N := Nfilter_of props in
  let p := fir_bufPos st in
  let db := upd (upd (dataBuffer st) p xn) (p + N) xn in
  let raw := Z.shiftr xnRaw (coeffPrec - 7) in
  let di := upd (upd (dataBufferInt st) p raw) (p + N) raw in
  let p := uint16 (Z.rem (p + 1) N) in
  let st := {| filtercoeff := filtercoeff st; dataBuffer := db;
               dataBufferInt := di; filtercoeffInt := filtercoeffInt st;
               fir_bufPos := p; phi := phi st; phihigh := phihigh st |} in
  let arith := int32 (trunc_Z (props 4)) in
  if arith =? integerArithmetic then
    let acc :=
      for_up (Z.to_nat N) 0
        (fun i a => int32 (a + int32 (di (p + i) * filtercoeffInt st i))) 0 in
    let filtered := b32_of_Z (Z.shiftr acc 7) in
    let filtered := to_float (b64_mul RES_LTC2500 (to_double filtered)) in
    (st, b32_add (b32_mul filtered gain) offset)
  else if arith =? floatArithmetic then
    (st, for_up (Z.to_nat N) 0
           (fun i f => b32_add f (b32_mul (db (p + i)) (filtercoeff st i)))
           f32_zero)
  else (st, f32_zero).

End FirScalar.

(** ** The globals of the filter engine *)

Record engine := {
  filter : filter_kind;  (* int filter *)
  scalingGain : float32;
  filterProperties : Z -> Z -> float32;  (* float [numFilters][numProps] *)
  offsetLTC2500 : float32;
  gainLTC2500 : float32;
  voltageLTC2500 : float32;
  avg : avg_state;  (* dbuffer, idbuffer *)
  yln_1 : float32;
  hp1 : hpf1_state;  (* xhn_1, yhn_1 *)
  lp2 : lpf2_state;  (* yl2n_1, yl2n_2 *)
  lp3 : lpf3_state;  (* yl3n_1 .. yl3n_3 *)
  fir : FirScalar.state;
  iir : iir_state;  (* xnhist, ynhist *)
  own : own_state;  (* yown_n1, yown_n2 *)
  coeffs : iir_coeffs  (* bn, Nb, an, Na *)
}.

Definition set_filter (v : filter_kind) (e : engine) : engine :=
  {| filter := v; scalingGain := scalingGain e;
     filterProperties := filterProperties e;
     offsetLTC2500 := offsetLTC2500 e; gainLTC2500 := gainLTC2500 e;
     voltageLTC2500 := voltageLTC2500 e; avg := avg e; yln_1 := yln_1 e;
     hp1 := hp1 e; lp2 := lp2 e; lp3 := lp3 e; fir := fir e; iir := iir e;
     own := own e; coeffs := coeffs e |}.

Definition set_scalingGain (v : float32) (e : engine) : engine :=
  {| filter := filter e; scalingGain := v;
     filterProperties := filterProperties e;
     offsetLTC2500 := offsetLTC2500 e; gainLTC2500 := gainLTC2500 e;
     voltageLTC2500 := voltageLTC2500 e; avg := avg e; yln_1 := yln_1 e;
     hp1 := hp1 e; lp2 := lp2 e; lp3 := lp3 e; fir := fir e; iir := iir e;
     own := own e; coeffs := coeffs e |}.

Definition set_filterProperties (v : Z -> Z -> float32) (e : engine) : engine :=
  {| filter := filter e; scalingGain := scalingGain e;
     filterProperties := v; offsetLTC2500 := offsetLTC2500 e;
     gainLTC2500 := gainLTC2500 e; voltageLTC2500 := voltageLTC2500 e;
     avg := avg e; yln_1 := yln_1 e; hp1 := hp1 e; lp2 := lp2 e;
     lp3 := lp3 e; fir := fir e; iir := iir e; own := own e;
     coeffs := coeffs e |}.

Definition set_voltageLTC2500 (v : float32) (e : engine) : engine :=
  {| filter := filter e; scalingGain := scalingGain e;
     filterProperties := filterProperties e;
     offsetLTC2500 := offsetLTC2500 e; gainLTC2500 := gainLTC2500 e;
     voltageLTC2500 := v; avg := avg e; yln_1 := yln_1 e; hp1 := hp1 e;
     lp2 := lp2 e; lp3 := lp3 e; fir := fir e; iir := iir e; own := own e;
     coeffs := coeffs e |}.

Definition set_avg (v : avg_state) (e : engine) : engine :=
  {| filter := filter e; scalingGain := scalingGain e;
     filterProperties := filterProperties e;
     offsetLTC2500 := offsetLTC2500 e; gainLTC2500 := gainLTC2500 e;
     voltageLTC2500 := voltageLTC2500 e; avg := v; yln_1 := yln_1 e;
     hp1 := hp1 e; lp2 := lp2 e; lp3 := lp3 e; fir := fir e; iir := iir e;
     own := own e; coeffs := coeffs e |}.

Definition set_yln_1 (v : float32) (e : engine) : engine :=
  {| filter := filter e; scalingGain := scalingGain e;
     filterProperties := filterProperties e;
     offsetLTC2500 := offsetLTC2500 e; gainLTC2500 := gainLTC2500 e;
     voltageLTC2500 := voltageLTC2500 e; avg := avg e; yln_1 := v;
     hp1 := hp1 e; lp2 := lp2 e; lp3 := lp3 e; fir := fir e; iir := iir e;
     own := own e; coeffs := coeffs e |}.

Definition set_hp1 (v : hpf1_state) (e : engine) : engine :=
  {| filter := filter e; scalingGain := scalingGain e;
     filterProperties := filterProperties e;
     offsetLTC2500 := offsetLTC2500 e; gainLTC2500 := gainLTC2500 e;
     voltageLTC2500 := voltageLTC2500 e; avg := avg e; yln_1 := yln_1 e;
     hp1 := v; lp2 := lp2 e; lp3 := lp3 e; fir := fir e; iir := iir e;
     own := own e; coeffs := coeffs e |}.

Definition set_lp2 (v : lpf2_state) (e : engine) : engine :=
  {| filter := filter e; scalingGain := scalingGain e;
     filterProperties := filterProperties e;
     offsetLTC2500 := offsetLTC2500 e; gainLTC2500 := gainLTC2500 e;
     voltageLTC2500 := voltageLTC2500 e; avg := avg e; yln_1 := yln_1 e;
     hp1 := hp1 e; lp2 := v; lp3 := lp3 e; fir := fir e; iir := iir e;
     own := own e; coeffs := coeffs e |}.

Definition set_lp3 (v : lpf3_state) (e : engine) : engine :=
  {| filter := filter e; scalingGain := scalingGain e;
     filterProperties := filterProperties e;
     offsetLTC2500 := offsetLTC2500 e; gainLTC2500 := gainLTC2500 e;
     voltageLTC2500 := voltageLTC2500 e; avg := avg e; yln_1 := yln_1 e;
     hp1 := hp1 e; lp2 := lp2 e; lp3 := v; fir := fir e; iir := iir e;
     own := own e; coeffs := coeffs e |}.

Definition set_fir (v : FirScalar.state) (e : engine) : engine :=
  {| filter := filter e; scalingGain := scalingGain e;
     filterProperties := filterProperties e;
     offsetLTC2500 := offsetLTC2500 e; gainLTC2500 := gainLTC2500 e;
     voltageLTC2500 := voltageLTC2500 e; avg := avg e; yln_1 := yln_1 e;
     hp1 := hp1 e; lp2 := lp2 e; lp3 := lp3 e; fir := v; iir := iir e;
     own := own e; coeffs := coeffs e |}.

Definition set_iir (v : iir_state) (e : engine) : engine :=
  {| filter := filter e; scalingGain := scalingGain e;
     filterProperties := filterProperties e;
     offsetLTC2500 := offsetLTC2500 e; gainLTC2500 := gainLTC2500 e;
     voltageLTC2500 := voltageLTC2500 e; avg := avg e; yln_1 := yln_1 e;
     hp1 := hp1 e; lp2 := lp2 e; lp3 := lp3 e; fir := fir e; iir := v;
     own := own e; coeffs := coeffs e |}.

Definition set_own (v : own_state) (e : engine) : engine :=
  {| filter := filter e; scalingGain := scalingGain e;
     filterProperties := filterProperties e;
     offsetLTC2500 := offsetLTC2500 e; gainLTC2500 := gainLTC2500 e;
     voltageLTC2500 := voltageLTC2500 e; avg := avg e; yln_1 := yln_1 e;
     hp1 := hp1 e; lp2 := lp2 e; lp3 := lp3 e; fir := fir e; iir := iir e;
     own := v; coeffs := coeffs e |}.

(** The default property rows ([NULL] is 0). *)
Definition props_row (p0 p2 p5 : Z) : Z -> float32 :=
  fun j =>
    if j =? 0 then b32_of_Z p0
    else if j =? 2 then b32_of_Z p2
    else if j =? 5 then b32_of_Z p5
    else f32_zero.

Definition defaultProcessingRate : Z := 5000.
Definition defaultSamplerate : Z := 20000.

Definition default_properties : Z -> Z -> float32 :=
  fun k =>
    if (k =? 0) || (k =? 1) then props_row 1 0 0
    else if (k =? 2) || (k =? 3) || (k =? 8) || (k =? 9)
    then props_row 0 0 defaultProcessingRate
    else if (k =? 4) || (k =? 5) || (k =? 6) || (k =? 7)
    then props_row 0 1 defaultProcessingRate
    else props_row 0 0 0.

(** The engine after [setup()], for the coefficient tables [c]. *)
Definition engine_init (c : iir_coeffs) : engine :=
  {| filter := ownDef; scalingGain := b32_of_Z 1;
     filterProperties := default_properties;
     offsetLTC2500 := f32_zero; gainLTC2500 := b32_of_Z 1;
     voltageLTC2500 := f32_zero;
     avg := avg_init; yln_1 := f32_zero;
     hp1 := {| xhn_1 := f32_zero; yhn_1 := f32_zero |};
     lp2 := {| yl2n_1 := f32_zero; yl2n_2 := f32_zero |};
     lp3 := {| yl3n_1 := f32_zero; yl3n_2 := f32_zero; yl3n_3 := f32_zero |};
     fir := FirScalar.init; iir := iir_init;
     own := {| yown_n1 := f32_zero; yown_n2 := f32_zero |};
     coeffs := c |}.

(** [filterProperties[filter]] *)
Definition props_of (e : engine) : Z -> float32 :=
  filterProperties e (filter_index (filter e)).

(** [for(int i = 0; i < sizeof(ynhist)/sizeof(ynhist[0]); i++) a[i] = 0] *)
Definition clear_hist (a : Z -> float32) : Z -> float32 :=
  for_up (Z.to_nat Niirmax) 0 (fun i a => upd a i f32_zero) a.

(** void resetHistory() *)
Definition resetHistory (e : engine) : engine :=
  let e := set_yln_1 f32_zero e in
  let e := set_hp1 {| xhn_1 := f32_zero; yhn_1 := f32_zero |} e in
  let e := set_lp2 {| yl2n_1 := f32_zero; yl2n_2 := f32_zero |} e in
  let e := set_lp3 {| yl3n_1 := f32_zero; yl3n_2 := f32_zero;
                      yl3n_3 := f32_zero |} e in
  set_iir {| xnhist := clear_hist (xnhist (iir e));
             ynhist := clear_hist (ynhist (iir e)) |} e.

(** The [switch(filter)] of readProcessOutput: the selected filter is
    applied to [outputValue] (and to the raw value [val] for the FIR
    kinds).  [None]: the filter does not return.  The headers included
    are avg.h of unnamed/part_001, proc_lpf3.h, the scalar fir.h, the
    first version of iir.h and the first version of ownDef.h. *)
Definition apply_filter (e : engine) (outputValue : float32) (val : Z)
  : option (engine * float32) :=
  let props := props_of e in
  match filter e with
  | scaling => Some (e, Scale.proc_scale outputValue props)
  | movingAvg =>
      match Avg.proc_avg (avg e) outputValue props with
      | Some (a, y) => Some (set_avg a e, y)
      | None => None
      end
  | lpf1 =>
      let '(h, y) := proc_lpf1 (yln_1 e) outputValue props in
      Some (set_yln_1 h e, y)
  | hpf1 =>
      let '(h, y) := proc_hpf1 (hp1 e) outputValue props in
      Some (set_hp1 h e, y)
  | bandpass | bandstop | FIRlow | FIRhigh =>
      let '(h, y) :=
        FirScalar.proc_fir (gainLTC2500 e) (offsetLTC2500 e)
                           outputValue val props (fir e) in
      Some (set_fir h e, y)
  | lpf2 =>
      let '(h, y) := proc_lpf2 (lp2 e) outputValue props in
      Some (set_lp2 h e, y)
  | lpf3 =>
      let '(h, y) := proc_lpf3 (lp3 e) outputValue props in
      Some (set_lp3 h e, y)
  | progIIR =>
      let '(h, y) := Iir1.proc_iir (coeffs e) (iir e) outputValue in
      Some (set_iir h e, y)
  | ownDef =>
      let '(h, y) := proc_ownDef (own e) outputValue props in
      Some (set_own h e, y)
  end.

(** The signal path of readProcessOutput for the raw LTC2500 value
    [val]: conversion, correction, filter, scaling gain.  The result is
    the voltage handed to [AD5791setVoltage]. *)
Definition process (e : engine) (val : Z) : option (engine * float32) :=
  let v := to_float (b64_mul RES_LTC2500 (b64_of_Z val)) in
  let v := b32_add (b32_mul v (gainLTC2500 e)) (offsetLTC2500 e) in
  let e := set_voltageLTC2500 v e in
  match apply_filter e v val with
  | None => None
  | Some (e, outputValue) =>
      let outputValue :=
        if negb (is_scaling (filter e))
        then b32_mul outputValue (scalingGain e) else outputValue in
      Some (e, outputValue)
  end.

(* ================================================================== *)
(** * SpectralProcessingDSMV.ino (Exercise07-11): capture with pulse modes *)

Record capture := {
  core : acq;
  mode : op_mode;
  ADready : Z;
  wait : bool
}.

Definition on_core (f : acq -> acq) (st : capture) : capture :=
  {| core := f (core st); mode := mode st; ADready := ADready st;
     wait := wait st |}.

Definition set_mode (v : op_mode) (st : capture) : capture :=
  {| core := core st; mode := v; ADready := ADready st; wait := wait st |}.

Definition set_ADready (v : Z) (st : capture) : capture :=
  {| core := core st; mode := mode st; ADready := v; wait := wait st |}.

Definition set_wait (v : bool) (st : capture) : capture :=
  {| core := core st; mode := mode st; ADready := ADready st; wait := v |}.

Definition capture_init : capture :=
  {| core := acq_init; mode := spectral; ADready := 0; wait := true |}.

(** The early returns of the pulse and step modes: the value read is
    dropped and only [ADready] moves on. *)
Definition pulse_gate (st : capture) : option capture :=
  if negb (is_spectral (mode st)) then
    if ADready st =? 0 then Some (set_ADready 1 st)
    else if (ADready st =? 2) && negb (wait st) then Some (set_ADready 3 st)
    else None
  else None.

(** void spectralRead() *)
Definition spectralRead (st : capture) (val : Z) : capture * option float32 :=
  if full (core st) then (st, None)
  else
    match pulse_gate st with
    | Some st' => (st', None)
    | None =>
      let st :=
        on_core (fun c => set_sumAD4020 (int64 (sumAD4020 c + val)) c) st in
      if sampleStart (core st) then
        (on_core (fun c => set_sampleStart false (set_sumAD4020 0 c)) st, None)
      else
        let st := on_core (fun c => set_samples (int32 (samples c + 1)) c) st in
        if oversamples (core st) <=? samples (core st) then
          let st :=
            if negb (is_spectral (mode st)) && (ADready st =? 1)
            then set_ADready 2 st else st in
          let st :=
            on_core (fun c =>
              set_sumAD4020 (int64 (Z.quot (sumAD4020 c) (oversamples c))) c)
              st in
          let st :=
            on_core (fun c =>
              set_voltageAD4020
                (corrected (signalType c) (gainAD4020 c) (offsetAD4020 c)
                           (sumAD4020 c)) c) st in
          let st :=
            on_core (fun c =>
              set_bufAD4020
                (store_record (bufAD4020 c) (bufPos c) (voltageAD4020 c)) c)
              st in
          let st := on_core (set_sumAD4020 0) st in
          let st :=
            if is_spectral (mode st) || negb (wait st)
            then on_core (fun c => set_bufPos (int32 (bufPos c + 4)) c) st
            else st in
          let st := on_core (set_samples 0) st in
          let st :=
            if bufLen (core st) <=? uint32 (bufPos (core st))
            then set_wait true (on_core (set_full true) st) else st in
          (st, Some (voltageAD4020 (core st)))
        else (st, None)
    end.

(** void sendDataToPC() *)
Definition sendDataToPC (st : capture) : capture * option (list Z) :=
  if negb (full (core st)) then (st, None)
  else
    let st := on_core (set_bufPos 0) st in
    let st := on_core (set_sampleStart true) st in
    if negb (request (core st)) then
      (set_ADready 0 (on_core (set_full false) (set_wait true st)), None)
    else
      let tx := T4sw (bufAD4020 (core st)) (bufLen (core st)) in
      let st := on_core (set_request false) st in
      let st := set_wait true st in
      let st := on_core (set_full false) st in
      (set_ADready 0 st, Some tx).

(** A run of the sampling interrupt over a sequence of raw values. *)
Fixpoint run (st : capture) (vals : list Z) : capture * list float32 :=
  match vals with
  | [] => (st, [])
  | v :: vs =>
      let '(st1, o) := spectralRead st v in
      let '(st2, os) := run st1 vs in
      (st2, match o with Some x => x :: os | None => os end)
  end.

(** The sketch of unnamed/part_003 seen inside this one. *)
Definition lift (a : acq) : capture :=
  {| core := a; mode := spectral; ADready := 0; wait := true |}.

(* ================================================================== *)
(** * SpectralProcessingDSMV.ino (Exercise07-11): the whole sketch *)

Record system := {
  cap : capture;
  eng : engine;
  nproc : Z;                  (* int *)
  nmax : Z                    (* int, bufLen / 2 *)
}.

Definition on_cap (f : capture -> capture) (s : system) : system :=
  {| cap := f (cap s); eng := eng s; nproc := nproc s; nmax := nmax s |}.

Definition on_eng (f : engine -> engine) (s : system) : system :=
  {| cap := cap s; eng := f (eng s); nproc := nproc s; nmax := nmax s |}.

Definition set_nproc (v : Z) (s : system) : system :=
  {| cap := cap s; eng := eng s; nproc := v; nmax := nmax s |}.

Definition set_nmax (v : Z) (s : system) : system :=
  {| cap := cap s; eng := eng s; nproc := nproc s; nmax := v |}.

Definition system_init (c : iir_coeffs) : system :=
  {| cap := capture_init; eng := engine_init c; nproc := 0;
     nmax := Z.quot (4 * 100) 2 |}.

(** What one firing of readProcessOutput does to the outside: the
    voltage set on the AD5791 and the level written to DAC_TEENSY. *)
Record outputs := { dac : float32; pin : option bool }.

(** The excitation part of readProcessOutput ("Possibly send
    configured"). *)
Definition excite (s : system) : system * option bool :=
  if 2 <=? ADready (cap s) then
    let m := mode (cap s) in
    let '(s, p) :=
      if nproc s =? 0 then
        match m with
        | shortPulse | turnOn => (on_cap (set_wait false) s, Some true)
        | turnOff => (on_cap (set_wait false) s, Some false)
        | spectral => (s, None)
        end
      else if (nproc s =? 1)
              && match m with shortPulse => true | _ => false end
      then (s, Some false)
      else if Z.quot (nmax s) 2 <=? nproc s then
        match m with
        | turnOn => (s, Some false)
        | turnOff => (s, Some true)
        | _ => (s, None)
        end
      else (s, None) in
    let s := set_nproc (int32 (nproc s + 1)) s in
    let s :=
      if nmax s <=? nproc s
      then on_cap (set_wait true) (set_nproc 0 s) else s in
    (s, p)
  else (s, None).

(** void readProcessOutput(), with [ad] the value the AD4020 delivers
    (read in the pulse modes only) and [val] the value of the LTC2500. *)
Definition readProcessOutput (s : system) (ad val : Z)
  : option (system * outputs) :=
  let s :=
    if negb (is_spectral (mode (cap s)))
    then on_cap (fun c => fst (spectralRead c ad)) s else s in
  match process (eng s) val with
  | None => None
  | Some (e, outputValue) =>
      let s := on_eng (fun _ => e) s in
      let '(s, p) := excite s in
      Some (s, {| dac := outputValue; pin := p |})
  end.

(** The commands of the USB protocol after [checkCommand] and the
    parsing of their argument. *)
Inductive command :=
| settingMode (m : option op_mode)
| settingOversamples (n : Z)
| settingSize (n : Z)
| settingSpectralFreq (f : float32)
| settingProcessingFreq (f : float32)
| settingSignalType (t : option signal_type)
| settingFilter (k : option filter_kind)
| settingFilterProperty1 (f : float32)
| settingFilterProperty2 (f : float32)
| settingFilterProperty3 (n : Z)
| settingFilterProperty4 (w : Z)
| settingFilterProperty5 (a : Z)
| commandRequest
| INVALID.

Section Commands.

Variables fsin fcos : float64 -> float64.

(** [init_fir(filter, filterProperties[filter])] *)
Definition reinit_fir (e : engine) : engine :=
  set_fir (FirScalar.init_fir fsin fcos (filter e) (props_of e) (fir e)) e.

(** [filterProperties[filter][j] = v] *)
Definition set_prop (j : Z) (v : float32) (e : engine) : engine :=
  set_filterProperties
    (upd (filterProperties e) (filter_index (filter e))
         (upd (props_of e) j v)) e.

(** The inner [switch(filter)] of the property commands: the FIR kinds
    recompute their coefficients and report success. *)
Definition after_prop (dflt : bool) (e : engine) : engine * bool :=
  if is_fir (filter e) then (reinit_fir e, true) else (e, dflt).

(** bool checkUpdateUSB(String command) *)
Definition checkUpdateUSB (s : system) (c : command) : system * bool :=
  match c with
  | settingMode (Some spectral) => (on_cap (set_mode spectral) s, true)
  | settingMode (Some m) =>
      (on_cap (fun c =>
                 on_core (fun a => set_samplerate (processingRate a) a)
                         (set_mode m c)) s, true)
  | settingMode None => (s, false)
  | settingOversamples n =>
      (on_cap (on_core (set_oversamples n)) s, true)
  | settingSize n =>
      let s :=
        on_cap (on_core (set_bufLen (min_u32 (int32 (4 * n)) maxLen))) s in
      (set_nmax (int32 (Z.quot (bufLen (core (cap s))) 2)) s, true)
  | settingSpectralFreq f =>
      (on_cap (on_core (set_samplerate (max1 f))) s, true)
  | settingProcessingFreq f =>
      let s := on_cap (on_core (set_processingRate (max1 f))) s in
      let rate := processingRate (core (cap s)) in
      let s :=
        on_eng (fun e =>
                  set_filterProperties
                    (fun k =>
                       if (0 <=? k) && (k <? 12)
                       then upd (filterProperties e k) 5 rate
                       else filterProperties e k) e) s in
      (on_eng reinit_fir s, true)
  | settingSignalType (Some t) =>
      (on_cap (on_core (set_signalType t)) s, true)
  | settingSignalType None => (s, false)
  | settingFilter (Some k) =>
      match k with
      | scaling | movingAvg => (on_eng (set_filter k) s, true)
      | bandpass | bandstop | FIRlow | FIRhigh =>
          (on_eng (fun e => reinit_fir (set_filter k e)) s, true)
      | lpf1 | hpf1 | lpf2 | lpf3 | progIIR | ownDef =>
          (on_eng (fun e => resetHistory (set_filter k e)) s, true)
      end
  | settingFilter None => (s, false)
  | settingFilterProperty1 f =>
      let e := set_prop 0 f (eng s) in
      let e := resetHistory e in
      let e :=
        if is_scaling (filter e)
        then set_scalingGain (props_of e 0) e else e in
      let '(e, b) := after_prop false e in
      (on_eng (fun _ => e) s, b)
  | settingFilterProperty2 f =>
      let '(e, b) := after_prop false (set_prop 1 f (eng s)) in
      (on_eng (fun _ => e) s, b)
  | settingFilterProperty3 n =>
      let Mfilter :=
        uint16 (Z.min (Z.quot (Z.max n 0) 2) FirScalar.MfilterMax) in
      let Nfilter := uint16 (2 * Mfilter + 1) in
      let '(e, _) := after_prop true (set_prop 2 (b32_of_Z Nfilter) (eng s)) in
      (on_eng (fun _ => e) s, true)
  | settingFilterProperty4 w =>
      if (w =? rectWin) || (w =? hammingWin) then
        (on_eng (fun e => reinit_fir (set_prop 3 (b32_of_Z w) e)) s, true)
      else (s, true)
  | settingFilterProperty5 a =>
      if (0 <=? a) && (a <=? 5) then
        (on_eng (set_prop 4 (b32_of_Z a)) s, true)
      else (s, false)
  | commandRequest => (on_cap (on_core (set_request true)) s, true)
  | INVALID => (s, false)
  end.

End Commands.

(* ================================================================== *)
(** * Vocabulary of the statements *)

(** The capture globals after a record for the averaged sum [mean] has
    been stored (used to describe the state reached by [spectralRead]). *)
Definition stored (st : acq) (mean : Z) : acq :=
  let v := corrected (signalType st) (gainAD4020 st) (offsetAD4020 st) mean in
  let p := int32 (bufPos st + 4) in
  {| offsetAD4020 := offsetAD4020 st; gainAD4020 := gainAD4020 st;
     bufLen := bufLen st;
     bufAD4020 := store_record (bufAD4020 st) (bufPos st) v;
     bufPos := p;
     full := if bufLen st <=? uint32 p then true else full st;
     request := request st; sampleStart := sampleStart st;
     samplerate := samplerate st; processingRate := processingRate st;
     oversamples := oversamples st; samples := 0;
     signalType := signalType st; voltageAD4020 := v; sumAD4020 := 0 |}.

(** The record reported for a block [b] of raw values: the truncated
    integer mean, corrected according to the signal type. *)
Definition mean_record (st : acq) (b : list Z) : float32 :=
  corrected (signalType st) (gainAD4020 st) (offsetAD4020 st)
            (Z.quot (zsum b) (oversamples st)).

(** A block of [N] raw ADC values. *)
Definition block_ok (N : Z) (b : list Z) : Prop :=
  Z.of_nat (length b) = N /\ Forall in_int32 b.

(** The capture globals after one record per block has been stored. *)
Definition stored_all (st : acq) (blocks : list (list Z)) : acq :=
  fold_left (fun s b => stored s (Z.quot (zsum b) (oversamples s))) blocks st.

(** A firing of [spectralRead] reaches the accumulator when the buffer
    is open and, in the pulse and step modes, the value of the
    converter is valid; its value is then a fold. *)
Definition counted_firing (c : capture) : bool :=
  negb (full (core c))
  && (is_spectral (mode c)
      || negb ((ADready c =? 0) || ((ADready c =? 2) && negb (wait c)))).

(** The raw values that reach the accumulator in a run of the sampling
    interrupt, in order. *)
Fixpoint folds (c : capture) (vals : list Z) : list Z :=
  match vals with
  | [] => []
  | v :: vs =>
      let c' := fst (spectralRead c v) in
      if counted_firing c then v :: folds c' vs else folds c' vs
  end.

(** The same for the sketch of unnamed/part_003, which has no pulse
    modes: every firing that finds the buffer open is a fold. *)
Fixpoint folds003 (st : acq) (vals : list Z) : list Z :=
  match vals with
  | [] => []
  | v :: vs =>
      let st' := fst (Part003.spectralRead st v) in
      if negb (full st) then v :: folds003 st' vs else folds003 st' vs
  end.

(** What the accumulator owes for the folds [counted]: the first one is
    dropped when a discard is pending, the others form consecutive
    blocks of [N] and a shorter rest; there is one record per block, the
    transform [T] of the truncated integer mean of the block, and the
    counter and the sum hold the rest alone. *)
Definition accumulated (N : Z) (T : Z -> float32) (discard : bool)
  (counted : list Z) (records : list float32) (count sum : Z) : Prop :=
  exists (blocks : list (list Z)) (rest : list Z),
    (if discard then tl counted else counted) = concat blocks ++ rest
    /\ Forall (fun b => Z.of_nat (length b) = N) blocks
    /\ Z.of_nat (length rest) < N
    /\ records = map (fun b => T (Z.quot (zsum b) N)) blocks
    /\ count = Z.of_nat (length rest)
    /\ sum = zsum rest.

(** The property array with the arithmetic kind [a] selected. *)
Definition with_arith (a : Z) (props : Z -> float32) : Z -> float32 :=
  upd props 4 (b32_of_Z a).

(** Both copies of every slot of the doubled ring of [N] samples agree
    and the position lies inside the ring. *)
Definition mirrored (N : Z) (st : Fir.state) : Prop :=
  0 <= Fir.fir_bufPos st < N
  /\ forall c j, 0 <= j < N ->
       Fir.dataBuffer st c (j + N) = Fir.dataBuffer st c j
       /\ Fir.dataBufferInt st c (j + N) = Fir.dataBufferInt st c j.

(** The engine after the command "set filter [k]". *)
Definition select (fsin fcos : float64 -> float64) (k : filter_kind)
  (e : engine) : engine :=
  eng (fst (checkUpdateUSB fsin fcos
              {| cap := capture_init; eng := e; nproc := 0; nmax := 0 |}
              (settingFilter (Some k)))).

(** The engine after the raw values [vals] have been processed. *)
Fixpoint feed (e : engine) (vals : list Z) : option engine :=
  match vals with
  | [] => Some e
  | v :: vs =>
      match process e v with
      | Some (e', _) => feed e' vs
      | None => None
      end
  end.

(** A freshly set up engine with filter [k] selected and the
    configuration (properties, gains, coefficient tables) of [e]. *)
Definition fresh (fsin fcos : float64 -> float64) (k : filter_kind)
  (e : engine) : engine :=
  let e0 := engine_init (coeffs e) in
  let e1 :=
    {| filter := k; scalingGain := scalingGain e;
       filterProperties := filterProperties e;
       offsetLTC2500 := offsetLTC2500 e; gainLTC2500 := gainLTC2500 e;
       voltageLTC2500 := voltageLTC2500 e0;
       avg := avg e0; yln_1 := yln_1 e0; hp1 := hp1 e0; lp2 := lp2 e0;
       lp3 := lp3 e0; fir := fir e0; iir := iir e0; own := own e0;
       coeffs := coeffs e |} in
  if is_fir k then reinit_fir fsin fcos e1 else e1.

(** The output of the first sample of [A] after [A] has processed
    [xsA], [B] has been selected and has processed [xsB], and [A] has
    been selected again. *)
Definition switch_back_output (fsin fcos : float64 -> float64)
  (e : engine) (A B : filter_kind) (xsA xsB : list Z) (val : Z)
  : option float32 :=
  match feed (select fsin fcos A e) xsA with
  | Some e1 =>
      match feed (select fsin fcos B e1) xsB with
      | Some e2 => option_map snd (process (select fsin fcos A e2) val)
      | None => None
      end
  | None => None
  end.

(** The filters whose state is cleared by [resetHistory], or that have
    none. *)
Definition resets_on_select (k : filter_kind) : bool :=
  match k with
  | movingAvg | bandpass | bandstop | FIRlow | FIRhigh => false
  | _ => true
  end.

(** The cursor and the configured length stay inside the buffer, on
    multiples of the record width; an open buffer has room for a
    record. *)
Definition acq_inv (a : acq) : Prop :=
  0 <= bufPos a <= maxLen /\ bufPos a mod 4 = 0
  /\ 0 <= bufLen a <= maxLen /\ bufLen a mod 4 = 0
  /\ (full a = false -> bufPos a <= maxLen - 4).

(** Two engines with the same configuration. *)
Definition same_config (e e' : engine) : Prop :=
  filterProperties e = filterProperties e'
  /\ scalingGain e = scalingGain e'
  /\ offsetLTC2500 e = offsetLTC2500 e'
  /\ gainLTC2500 e = gainLTC2500 e'
  /\ coeffs e = coeffs e'.

(** Two histories agree on the slots of the array. *)
Definition agree_hist (a b : Z -> float32) : Prop :=
  forall j, 0 <= j < Niirmax -> a j = b j.

(** The programmable filter in two parts: the sum over the older inputs
    (the first loop, started from 0), and what the second loop and the
    closing statements make of a partial sum [y]. *)
Definition iir_x_sum (c : iir_coeffs)
  (body : Z -> float32 * (Z -> float32) -> float32 * (Z -> float32))
  (xh : Z -> float32) : float32 :=
  let hiB := Z.min Niirmax (Nb c) - 1 in
  fst (for_down (down_count hiB 0) hiB body (f32_zero, xh)).

Definition iir_tail (c : iir_coeffs)
  (body : Z -> float32 * (Z -> float32) -> float32 * (Z -> float32))
  (yh : Z -> float32) (y : float32) : float32 :=
  let hiA := Z.min Niirmax (Na c) - 1 in
  snd (iir_finish c yh (for_down (down_count hiA 1) hiA body (y, yh))).

(** Empty coefficient tables, for the states that do not run the
    programmable filter. *)
Definition no_coeffs : iir_coeffs :=
  {| bn := fun _ => f32_zero; Nb := 0; an := fun _ => f32_zero; Na := 0 |}.

Ltac pow_consts :=
  change (2 ^ (32 - 1)) with 2147483648 in *;
  change (2 ^ (64 - 1)) with 9223372036854775808 in *;
  change (2 ^ 31) with 2147483648 in *;
  change (2 ^ 32) with 4294967296 in *;
  change (2 ^ 63) with 9223372036854775808 in *;
  change (2 ^ 64) with 18446744073709551616 in *;
  change (2 ^ 16) with 65536 in *.

(* ================================================================== *)
(** * Pins of the board (DSMV_Board.h, DSMV_Board.cpp) *)

(** A pin is its number on the Teensy 4.0; a level is [true] for HIGH. *)
Module Pin.

Definition AD4020_CNV : Z := 0.
Definition LTC2500_RDLB : Z := 1.
Definition LTC2500_RDLA : Z := 2.
Definition LTC2500_BUSY : Z := 3.
Definition LTC2500_DRL : Z := 4.
Definition LTC2500_SYNC : Z := 5.
Definition LTC2500_MCLK : Z := 6.
Definition LTC2500_PRE : Z := 7.
Definition SCHMITT_TRIGGER : Z := 8.
Definition LED_1 : Z := 9.
Definition MOSI_ADC : Z := 11.
Definition MISO_ADC : Z := 12.
Definition SCLK_ADC : Z := 13.
Definition LED_2 : Z := 16.
Definition LED_3 : Z := 18.
Definition AD5791_SYNC : Z := 20.
Definition AD5791_RESET : Z := 21.
Definition AD5791_CLR : Z := 22.
Definition AD5791_LDAC : Z := 23.
Definition MISO_DAC : Z := 34.
Definition MOSI_DAC : Z := 35.
Definition SCLK_DAC : Z := 37.

(** The external variables of the libraries, as DSMV_Board.cpp sets them. *)
Definition T4mosi : Z := MOSI_DAC.
Definition T4miso : Z := MISO_DAC.
Definition T4sclk : Z := SCLK_DAC.
Definition TimerPin : Z := LED_1.
Definition DebugPin : Z := LED_2.
Definition SucessPin : Z := LED_3.
Definition FailPin : Z := LED_2.
Definition CNV_AD4020 : Z := AD4020_CNV.
Definition SCLK_AD4020 : Z := SCLK_ADC.
Definition MOSI_AD4020 : Z := MOSI_ADC.
Definition MISO_AD4020 : Z := MISO_ADC.
Definition MCLK_LTC2500 : Z := LTC2500_MCLK.
Definition RDLA_LTC2500 : Z := LTC2500_RDLA.
Definition RDLB_LTC2500 : Z := LTC2500_RDLB.
Definition PRE_LTC2500 : Z := LTC2500_PRE.
Definition DRL_LTC2500 : Z := LTC2500_DRL.
Definition BUSY_LTC2500 : Z := LTC2500_BUSY.
Definition SCLK_LTC2500 : Z := SCLK_ADC.
Definition MOSI_LTC2500 : Z := MOSI_ADC.
Definition MISO_LTC2500 : Z := MISO_ADC.
Definition SYNC_AD5791 : Z := AD5791_SYNC.
Definition RESET_AD5791 : Z := AD5791_RESET.
Definition CLR_AD5791 : Z := AD5791_CLR.
Definition LDAC_AD5791 : Z := AD5791_LDAC.
Definition SCLK_AD5791 : Z := SCLK_DAC.
Definition MOSI_AD5791 : Z := MOSI_DAC.

End Pin.

(** The pins as the program sees them: the writes it has made, the
    latest first, and for every pin the level it shows at the program's
    successive reads of it. *)
Record world := {
  writes : list (Z * bool);
  level_at : Z -> nat -> bool;
  reads : Z -> nat
}.

(** [digitalWriteFast(pin, val)]: the pin is set for every non-zero
    [val]. *)
Definition digitalWriteFast (pin : Z) (val : bool) (w : world) : world :=
  {| writes := (pin, val) :: writes w;
     level_at := level_at w; reads := reads w |}.

(** [digitalReadFast(pin)] *)
Definition digitalReadFast (pin : Z) (w : world) : bool * world :=
  (level_at w pin (reads w pin),
   {| writes := writes w; level_at := level_at w;
      reads := fun p => if p =? pin then S (reads w p) else reads w p |}).

(** The value of a level in an integer expression. *)
Definition Z_of_level (b : bool) : Z := if b then 1 else 0.

(** [val += level << x] on an [int32_t val]. *)
Definition add_bit (val : Z) (b : bool) (x : Z) : Z :=
  int32 (val + int32 (Z.shiftl (Z_of_level b) x)).

(** [(x >> i) % 2] as the value handed to [digitalWriteFast]. *)
Definition bit_level (x i : Z) : bool :=
  negb (Z.rem (Z.shiftr x i) 2 =? 0).

(* ================================================================== *)
(** * T4.cpp: number formats and the software SPI *)

Module T4lib.

(** int32_t T4toSignMag(int32_t a); the constant [(1 << 31) - 1] is
    evaluated in 32-bit [int] arithmetic with wrap-around. *)
Definition T4toSignMag (a : Z) : Z :=
  if a <? 0 then
    let a := int32 (Z.lxor a (int32 (int32 (Z.shiftl 1 31) - 1))) in
    int32 (a + 1)
  else a.

(** int32_t T4toExzess(int32_t a) *)
Definition T4toExzess (a : Z) : Z := int32 (a + int32 (Z.shiftl 1 31)).

(** int32_t T4to1Comp(int32_t a) *)
Definition T4to1Comp (a : Z) : Z := if a <? 0 then int32 (a - 1) else a.

(** void T4awr(int res): the new value of [pwmRes]. *)
Definition T4awr (res : Z) : Z :=
  let res := if res <? 1 then 1 else if 12 <? res then 12 else res in
  int32 (Z.shiftl 1 res).

(** void T4arr(int res): the new value of [arRes]. *)
Definition T4arr (res : Z) : Z :=
  let res := if negb (res =? 10) then 12 else res in
  int32 (Z.shiftl 1 (res - 1)).

(** void T4setSerialPulseTime(int t): the new value of [pulseTime]. *)
Definition T4setSerialPulseTime (t : Z) : Z := if t <? 0 then 0 else t.

(** One iteration of the loop of [T4SPIsend]. *)
Definition send_step (byte : Z) (i : Z) (s : Z * world) : Z * world :=
  let '(readByte, w) := s in
  let w := digitalWriteFast Pin.T4mosi (bit_level byte i) w in
  let w := digitalWriteFast Pin.T4sclk true w in
  let w := digitalWriteFast Pin.T4sclk false w in
  let '(b, w) := digitalReadFast Pin.T4miso w in
  ((readByte + Z.shiftl (Z_of_level b) (7 - i)) mod 2 ^ 8, w).

(** uint8_t T4SPIsend(uint8_t byte, uint8_t clkSpeed) *)
Definition T4SPIsend (byte : Z) (w : world) : Z * world :=
  for_up 8 0 (send_step byte) (0, w).

(** One iteration of the loop of [T4SPIsendFast]. *)
Definition fast_step (byte : Z) (i : Z) (w : world) : world :=
  let w := digitalWriteFast Pin.T4sclk false w in
  let w := digitalWriteFast Pin.T4mosi (bit_level byte i) w in
  digitalWriteFast Pin.T4sclk true w.

(** void T4SPIsendFast(uint8_t byte, uint8_t clkSpeed) *)
Definition T4SPIsendFast (byte : Z) (w : world) : world :=
  digitalWriteFast Pin.T4sclk false (for_down 8 7 (fast_step byte) w).

(** One iteration of the loop of [T4SPIread]. *)
Definition read_step (i : Z) (s : Z * world) : Z * world :=
  let '(readByte, w) := s in
  let w := digitalWriteFast Pin.T4sclk true w in
  let w := digitalWriteFast Pin.T4sclk false w in
  let '(b, w) := digitalReadFast Pin.T4miso w in
  ((readByte + Z.shiftl (Z_of_level b) (7 - i)) mod 2 ^ 8, w).

(** uint8_t T4SPIread(uint8_t clkSpeed) *)
Definition T4SPIread (w : world) : Z * world :=
  for_up 8 0 read_step (0, w).

End T4lib.

(* ================================================================== *)
(** * Arduino's String, as the libraries use it *)

Module Str.
Import String Ascii.

(** [a.startsWith(p)] *)
Definition startsWith (a p : string) : bool := prefix p a.

(** [a.remove(0, n)]: the first [n] characters go, all of them when the
    string is shorter. *)
Fixpoint remove0 (n : nat) (a : string) : string :=
  match n, a with
  | O, _ => a
  | S n', EmptyString => EmptyString
  | S n', String _ a' => remove0 n' a'
  end.

End Str.

(* ================================================================== *)
(** * AD5791.cpp: the digital-analog converter *)

(** [(uint32_t) x] for a floating-point [x]: the value truncated toward
    zero; C++ leaves the conversion undefined when that value is no
    [uint32_t] ([None]). *)
Definition to_uint32 (x : spec_float) : option Z :=
  match x with
  | S754_nan | S754_infinity _ => None
  | _ => let t := trunc_Z x in
         if (0 <=? t) && (t <? 2 ^ 32) then Some t else None
  end.

Module AD5791.
Import String Ascii.
Local Open Scope string_scope.
Local Open Scope Z_scope.

Definition dacWrite : Z := Z.shiftl 1 20.
Definition ctrlWrite : Z := Z.shiftl 2 20.
Definition clearCode : Z := Z.shiftl 3 20.
Definition linComp : Z := Z.shiftl 3 8.
Definition opgnd : Z := Z.shiftl 1 2.
Definition dactri : Z := Z.shiftl 1 3.
Definition outAmp : Z := 0.
Definition ZERO : Z := Z.shiftl 1 18 - 1.
Definition stdCtrl : Z := Z.lor (Z.lor ctrlWrite linComp) outAmp.
Definition INIT : Z := Z.lor clearCode ZERO.
Definition DAC0 : Z := Z.lor dacWrite ZERO.
Definition noOutput : Z := Z.lor (Z.lor ctrlWrite opgnd) dactri.

Definition settingVoltage : Z := 0.
Definition settingDefaultVoltage : Z := 1.
Definition commandStd : Z := 2.
Definition commandClear : Z := 3.
Definition commandOff : Z := 4.
(** [invalid] is -1, returned as a [uint8_t]. *)
Definition invalid : Z := 255.

Record state := {
  minVoltage : float32;
  maxVoltage : float32;
  outputRange : float32;
  pins : world
}.

Definition on_pins (f : world -> world) (st : state) : state :=
  {| minVoltage := minVoltage st; maxVoltage := maxVoltage st;
     outputRange := outputRange st; pins := f (pins st) |}.

Definition init (w : world) : state :=
  {| minVoltage := f32_zero; maxVoltage := f32_zero;
     outputRange := f32_zero; pins := w |}.

(** One bit of [AD5791sendSPI]. *)
Definition spi_step (byte : Z) (i : Z) (w : world) : world :=
  let w := digitalWriteFast Pin.SCLK_AD5791 false w in
  let w := digitalWriteFast Pin.MOSI_AD5791 (bit_level byte i) w in
  digitalWriteFast Pin.SCLK_AD5791 true w.

(** void AD5791sendSPI(uint8_t byte) *)
Definition AD5791sendSPI (byte : Z) (w : world) : world :=
  digitalWriteFast Pin.SCLK_AD5791 false (for_down 8 7 (spi_step byte) w).

(** void AD5791regWrite(uint32_t data) *)
Definition AD5791regWrite (data : Z) (w : world) : world :=
  let w := digitalWriteFast Pin.SYNC_AD5791 false w in
  let byte1 := byte_at 2 data in
  let byte2 := byte_at 1 data in
  let byte3 := byte_at 0 data in
  let w := AD5791sendSPI byte1 w in
  let w := AD5791sendSPI byte2 w in
  let w := AD5791sendSPI byte3 w in
  let w := digitalWriteFast Pin.SYNC_AD5791 true w in
  let w := digitalWriteFast Pin.LDAC_AD5791 false w in
  digitalWriteFast Pin.LDAC_AD5791 true w.

(** void AD5791standardMode() *)
Definition AD5791standardMode (w : world) : world := AD5791regWrite stdCtrl w.

(** void AD5791clearOutput() *)
Definition AD5791clearOutput (w : world) : world :=
  digitalWriteFast Pin.CLR_AD5791 true
    (digitalWriteFast Pin.CLR_AD5791 false w).

(** void AD5791off() *)
Definition AD5791off (w : world) : world := AD5791regWrite noOutput w.

(** float checkVoltage(float voltage) *)
Definition checkVoltage (st : state) (voltage : float32) : float32 :=
  if SFltb (maxVoltage st) voltage then maxVoltage st
  else if SFltb voltage (minVoltage st) then minVoltage st
  else voltage.

(** [(uint32_t) ((voltage - minVoltage)*((1 << 19) - 1)/outputRange)] *)
Definition code_of (st : state) (voltage : float32) : option Z :=
  to_uint32
    (b32_div (b32_mul (b32_sub voltage (minVoltage st))
                      (b32_of_Z (Z.shiftl 1 19 - 1)))
             (outputRange st)).

(** void AD5791setVoltage(float voltage) *)
Definition AD5791setVoltage (voltage : float32) (st : state) : option state :=
  let voltage := checkVoltage st voltage in
  match code_of st voltage with
  | Some c => Some (on_pins (AD5791regWrite (Z.lor dacWrite c)) st)
  | None => None
  end.

(** void AD5791setDefaultVoltage(float defaultVoltage) *)
Definition AD5791setDefaultVoltage (defaultVoltage : float32) (st : state)
  : option state :=
  let defaultVoltage := checkVoltage st defaultVoltage in
  match code_of st defaultVoltage with
  | Some c => Some (on_pins (AD5791regWrite (Z.lor clearCode c)) st)
  | None => None
  end.

(** void AD5791initialize(float minV, float maxV) *)
Definition AD5791initialize (minV maxV : float32) (st : state) : state :=
  let st := {| minVoltage := minV; maxVoltage := maxV;
               outputRange := b32_sub maxV minV; pins := pins st |} in
  let st := on_pins (digitalWriteFast Pin.RESET_AD5791 true) st in
  let st := on_pins (digitalWriteFast Pin.SYNC_AD5791 true) st in
  let st := on_pins (AD5791regWrite INIT) st in
  let st := on_pins (AD5791regWrite DAC0) st in
  let st := on_pins AD5791clearOutput st in
  on_pins AD5791standardMode st.

(** uint8_t checkParam(String a) *)
Definition checkParam (a : string) : Z :=
  if Str.startsWith a "voltage=" then settingVoltage
  else if Str.startsWith a "defaultVoltage=" then settingDefaultVoltage
  else if Str.startsWith a "standard" then commandStd
  else if Str.startsWith a "default" then commandClear
  else if Str.startsWith a "off" then commandOff
  else invalid.

Section Update.

(** [String::toFloat] of the Arduino core. *)
Variable toFloat : string -> float32.

(** bool AD5791checkUpdate(String a); [None] where a conversion of the
    voltage is undefined. *)
Definition AD5791checkUpdate (a : string) (st : state) : option (state * bool) :=
  if Str.startsWith a "AD5791." then
    let a := Str.remove0 7 a in
    let p := checkParam a in
    if p =? settingVoltage then
      match AD5791setVoltage (toFloat (Str.remove0 8 a)) st with
      | Some st => Some (st, true)
      | None => None
      end
    else if p =? settingDefaultVoltage then
      match AD5791setDefaultVoltage (toFloat (Str.remove0 15 a)) st with
      | Some st => Some (on_pins AD5791clearOutput st, true)
      | None => None
      end
    else if p =? commandStd then Some (on_pins AD5791standardMode st, true)
    else if p =? commandClear then Some (on_pins AD5791clearOutput st, true)
    else if p =? commandOff then Some (on_pins AD5791off st, true)
    else Some (st, true)
  else Some (st, false).

End Update.

End AD5791.

(* ================================================================== *)
(** * The Teensy 4.0 as the converter libraries use it *)

(** The registers of the two general purpose timers the libraries
    write.  A register keeps the value written to it. *)
Inductive hwreg :=
| GPT1_OCR1 | GPT2_OCR1 | GPT1_IR | GPT2_IR | GPT1_SR | GPT2_SR.

Inductive irqn := IRQ_GPT1 | IRQ_GPT2.

(** The interrupt service routines of the libraries. *)
Inductive handler := AD4020_readISR | LTC2500_readISR.

Definition hwreg_eqb (a b : hwreg) : bool :=
  match a, b with
  | GPT1_OCR1, GPT1_OCR1 | GPT2_OCR1, GPT2_OCR1 | GPT1_IR, GPT1_IR
  | GPT2_IR, GPT2_IR | GPT1_SR, GPT1_SR | GPT2_SR, GPT2_SR => true
  | _, _ => false
  end.

Definition irqn_eqb (a b : irqn) : bool :=
  match a, b with
  | IRQ_GPT1, IRQ_GPT1 | IRQ_GPT2, IRQ_GPT2 => true
  | _, _ => false
  end.

Record machine := {
  pins : world;
  hw : hwreg -> Z;   (* memory-mapped registers of the timers *)
  vector : irqn -> option handler;   (* attachInterruptVector *)
  nvic : irqn -> bool;   (* NVIC_ENABLE_IRQ *)
  irq : bool;   (* interrupts() / noInterrupts() *)
  sent : list (list Z);   (* blocks written to Serial, the latest first *)
  printed : list String.string   (* lines printed to Serial, the latest first *)
}.

Definition set_pins (v : world) (s : machine) : machine :=
  {| pins := v; hw := hw s; vector := vector s; nvic := nvic s; irq := irq s;
     sent := sent s; printed := printed s |}.

Definition set_hw (v : hwreg -> Z) (s : machine) : machine :=
  {| pins := pins s; hw := v; vector := vector s; nvic := nvic s;
     irq := irq s; sent := sent s; printed := printed s |}.

Definition set_vector (v : irqn -> option handler) (s : machine) : machine :=
  {| pins := pins s; hw := hw s; vector := v; nvic := nvic s; irq := irq s;
     sent := sent s; printed := printed s |}.

Definition set_nvic (v : irqn -> bool) (s : machine) : machine :=
  {| pins := pins s; hw := hw s; vector := vector s; nvic := v; irq := irq s;
     sent := sent s; printed := printed s |}.

Definition set_irq (v : bool) (s : machine) : machine :=
  {| pins := pins s; hw := hw s; vector := vector s; nvic := nvic s;
     irq := v; sent := sent s; printed := printed s |}.

Definition set_sent (v : list (list Z)) (s : machine) : machine :=
  {| pins := pins s; hw := hw s; vector := vector s; nvic := nvic s;
     irq := irq s; sent := v; printed := printed s |}.

Definition set_printed (v : list String.string) (s : machine) : machine :=
  {| pins := pins s; hw := hw s; vector := vector s; nvic := nvic s;
     irq := irq s; sent := sent s; printed := v |}.

Definition on_pins (f : world -> world) (m : machine) : machine :=
  set_pins (f (pins m)) m.

(** [reg = v] *)
Definition poke (r : hwreg) (v : Z) (m : machine) : machine :=
  set_hw (fun r' => if hwreg_eqb r' r then v else hw m r') m.

(** [attachInterruptVector(n, h); NVIC_ENABLE_IRQ(n)] *)
Definition attach (n : irqn) (h : handler) (m : machine) : machine :=
  let m := set_vector (fun n' => if irqn_eqb n' n then Some h else vector m n') m in
  set_nvic (fun n' => if irqn_eqb n' n then true else nvic m n') m.

Definition machine_init (w : world) : machine :=
  {| pins := w; hw := fun _ => 0; vector := fun _ => None;
     nvic := fun _ => false; irq := true; sent := []; printed := [] |}.

(** T4.h: the rate of the timer counters, [T4ccRate], the value of the
    external variable [ccRate]. *)
Definition ccRate : Z := 150000000.

(** [a / b] on [uint32_t]; undefined for [b = 0]. *)
Definition udiv (a b : Z) : option Z :=
  if b =? 0 then None else Some (a / b).

(** [Serial.write(buf, len)] *)
Definition Serial_write (buf : Z -> Z) (len : Z) (m : machine) : machine :=
  set_sent (T4sw buf len :: sent m) m.

(* ================================================================== *)
(** * AD4020.cpp *)

Module AD4020.
Import String Ascii.
Local Open Scope string_scope.
Local Open Scope Z_scope.

Definition settingSamplerate : Z := 0.
Definition settingOversamples : Z := 1.
Definition settingTimer : Z := 2.
Definition settingTiming : Z := 3.
Definition settingNoSkip : Z := 4.
(** [settingInvalid] is -1, returned as a [uint8_t]. *)
Definition settingInvalid : Z := 255.

Definition regLen : Z := 4 * 4096.

Record state := {
  samplerate : Z;   (* static uint32_t *)
  oversamples : Z;   (* uint32_t *)
  sampleCycle : Z;   (* uint32_t *)
  readVal : Z;   (* uint32_t *)
  offsetCorrection : Z;   (* int32_t *)
  regs : Z -> Z -> Z;   (* register1, register2, register3 as 0, 1, 2 *)
  posReg : Z;   (* int16_t *)
  writeReg : Z;   (* uint8_t *)
  readReg : Z;   (* uint8_t *)
  full : bool;   (* uint8_t, 0 or 1 *)
  initial : Z;   (* uint8_t *)
  timerCounter : Z;   (* uint8_t *)
  useTiming : bool;
  noSkipping : bool;
  mach : machine
}.

Definition set_samplerate (v : Z) (s : state) : state :=
  {| samplerate := v; oversamples := oversamples s;
     sampleCycle := sampleCycle s; readVal := readVal s;
     offsetCorrection := offsetCorrection s; regs := regs s;
     posReg := posReg s; writeReg := writeReg s; readReg := readReg s;
     full := full s; initial := initial s; timerCounter := timerCounter s;
     useTiming := useTiming s; noSkipping := noSkipping s; mach := mach s |}.

Definition set_oversamples (v : Z) (s : state) : state :=
  {| samplerate := samplerate s; oversamples := v;
     sampleCycle := sampleCycle s; readVal := readVal s;
     offsetCorrection := offsetCorrection s; regs := regs s;
     posReg := posReg s; writeReg := writeReg s; readReg := readReg s;
     full := full s; initial := initial s; timerCounter := timerCounter s;
     useTiming := useTiming s; noSkipping := noSkipping s; mach := mach s |}.

Definition set_sampleCycle (v : Z) (s : state) : state :=
  {| samplerate := samplerate s; oversamples := oversamples s;
     sampleCycle := v; readVal := readVal s;
     offsetCorrection := offsetCorrection s; regs := regs s;
     posReg := posReg s; writeReg := writeReg s; readReg := readReg s;
     full := full s; initial := initial s; timerCounter := timerCounter s;
     useTiming := useTiming s; noSkipping := noSkipping s; mach := mach s |}.

Definition set_readVal (v : Z) (s : state) : state :=
  {| samplerate := samplerate s; oversamples := oversamples s;
     sampleCycle := sampleCycle s; readVal := v;
     offsetCorrection := offsetCorrection s; regs := regs s;
     posReg := posReg s; writeReg := writeReg s; readReg := readReg s;
     full := full s; initial := initial s; timerCounter := timerCounter s;
     useTiming := useTiming s; noSkipping := noSkipping s; mach := mach s |}.

Definition set_offsetCorrection (v : Z) (s : state) : state :=
  {| samplerate := samplerate s; oversamples := oversamples s;
     sampleCycle := sampleCycle s; readVal := readVal s;
     offsetCorrection := v; regs := regs s; posReg := posReg s;
     writeReg := writeReg s; readReg := readReg s; full := full s;
     initial := initial s; timerCounter := timerCounter s;
     useTiming := useTiming s; noSkipping := noSkipping s; mach := mach s |}.

Definition set_regs (v : Z -> Z -> Z) (s : state) : state :=
  {| samplerate := samplerate s; oversamples := oversamples s;
     sampleCycle := sampleCycle s; readVal := readVal s;
     offsetCorrection := offsetCorrection s; regs := v; posReg := posReg s;
     writeReg := writeReg s; readReg := readReg s; full := full s;
     initial := initial s; timerCounter := timerCounter s;
     useTiming := useTiming s; noSkipping := noSkipping s; mach := mach s |}.

Definition set_posReg (v : Z) (s : state) : state :=
  {| samplerate := samplerate s; oversamples := oversamples s;
     sampleCycle := sampleCycle s; readVal := readVal s;
     offsetCorrection := offsetCorrection s; regs := regs s; posReg := v;
     writeReg := writeReg s; readReg := readReg s; full := full s;
     initial := initial s; timerCounter := timerCounter s;
     useTiming := useTiming s; noSkipping := noSkipping s; mach := mach s |}.

Definition set_writeReg (v : Z) (s : state) : state :=
  {| samplerate := samplerate s; oversamples := oversamples s;
     sampleCycle := sampleCycle s; readVal := readVal s;
     offsetCorrection := offsetCorrection s; regs := regs s;
     posReg := posReg s; writeReg := v; readReg := readReg s; full := full s;
     initial := initial s; timerCounter := timerCounter s;
     useTiming := useTiming s; noSkipping := noSkipping s; mach := mach s |}.

Definition set_readReg (v : Z) (s : state) : state :=
  {| samplerate := samplerate s; oversamples := oversamples s;
     sampleCycle := sampleCycle s; readVal := readVal s;
     offsetCorrection := offsetCorrection s; regs := regs s;
     posReg := posReg s; writeReg := writeReg s; readReg := v;
     full := full s; initial := initial s; timerCounter := timerCounter s;
     useTiming := useTiming s; noSkipping := noSkipping s; mach := mach s |}.

Definition set_full (v : bool) (s : state) : state :=
  {| samplerate := samplerate s; oversamples := oversamples s;
     sampleCycle := sampleCycle s; readVal := readVal s;
     offsetCorrection := offsetCorrection s; regs := regs s;
     posReg := posReg s; writeReg := writeReg s; readReg := readReg s;
     full := v; initial := initial s; timerCounter := timerCounter s;
     useTiming := useTiming s; noSkipping := noSkipping s; mach := mach s |}.

Definition set_initial (v : Z) (s : state) : state :=
  {| samplerate := samplerate s; oversamples := oversamples s;
     sampleCycle := sampleCycle s; readVal := readVal s;
     offsetCorrection := offsetCorrection s; regs := regs s;
     posReg := posReg s; writeReg := writeReg s; readReg := readReg s;
     full := full s; initial := v; timerCounter := timerCounter s;
     useTiming := useTiming s; noSkipping := noSkipping s; mach := mach s |}.

Definition set_timerCounter (v : Z) (s : state) : state :=
  {| samplerate := samplerate s; oversamples := oversamples s;
     sampleCycle := sampleCycle s; readVal := readVal s;
     offsetCorrection := offsetCorrection s; regs := regs s;
     posReg := posReg s; writeReg := writeReg s; readReg := readReg s;
     full := full s; initial := initial s; timerCounter := v;
     useTiming := useTiming s; noSkipping := noSkipping s; mach := mach s |}.

Definition set_useTiming (v : bool) (s : state) : state :=
  {| samplerate := samplerate s; oversamples := oversamples s;
     sampleCycle := sampleCycle s; readVal := readVal s;
     offsetCorrection := offsetCorrection s; regs := regs s;
     posReg := posReg s; writeReg := writeReg s; readReg := readReg s;
     full := full s; initial := initial s; timerCounter := timerCounter s;
     useTiming := v; noSkipping := noSkipping s; mach := mach s |}.

Definition set_noSkipping (v : bool) (s : state) : state :=
  {| samplerate := samplerate s; oversamples := oversamples s;
     sampleCycle := sampleCycle s; readVal := readVal s;
     offsetCorrection := offsetCorrection s; regs := regs s;
     posReg := posReg s; writeReg := writeReg s; readReg := readReg s;
     full := full s; initial := initial s; timerCounter := timerCounter s;
     useTiming := useTiming s; noSkipping := v; mach := mach s |}.

Definition set_mach (v : machine) (s : state) : state :=
  {| samplerate := samplerate s; oversamples := oversamples s;
     sampleCycle := sampleCycle s; readVal := readVal s;
     offsetCorrection := offsetCorrection s; regs := regs s;
     posReg := posReg s; writeReg := writeReg s; readReg := readReg s;
     full := full s; initial := initial s; timerCounter := timerCounter s;
     useTiming := useTiming s; noSkipping := noSkipping s; mach := v |}.

Definition on_mach (f : machine -> machine) (s : state) : state :=
  set_mach (f (mach s)) s.

Definition dw (pin : Z) (v : bool) (s : state) : state :=
  on_mach (on_pins (digitalWriteFast pin v)) s.

(** The statics as the file initialises them. *)
Definition init (m : machine) : state :=
  {| samplerate := 0; oversamples := 1; sampleCycle := 0; readVal := 0;
     offsetCorrection := 0; regs := fun _ _ => 0; posReg := 0;
     writeReg := 0; readReg := 0; full := false; initial := 2;
     timerCounter := 0; useTiming := false; noSkipping := true;
     mach := m |}.

(** [if(useTiming) {digitalWriteFast(TimerPin, v);}] *)
Definition timing (v : bool) (s : state) : state :=
  if useTiming s then dw Pin.TimerPin v s else s.

(** The compare value [ccRate/rate - 1] written to the timer selected
    by [timerCounter]; nothing is written for another timer number. *)
Definition set_compare (rate : Z) (s : state) : option state :=
  if timerCounter s =? 0 then
    match udiv ccRate rate with
    | Some q => Some (on_mach (poke GPT1_OCR1 (uint32 (q - 1))) s)
    | None => None
    end
  else if timerCounter s =? 1 then
    match udiv ccRate rate with
    | Some q => Some (on_mach (poke GPT2_OCR1 (uint32 (q - 1))) s)
    | None => None
    end
  else Some s.

(** The [switch(timerCounter)] of [AD4020updateTimer] and
    [AD4020update]. *)
Definition select_timer (rate : Z) (s : state) : option state :=
  if timerCounter s =? 0 then
    let s := on_mach (attach IRQ_GPT1 AD4020_readISR) s in
    match udiv ccRate rate with
    | Some q =>
        let s := on_mach (poke GPT1_OCR1 (uint32 (q - 1))) s in
        Some (on_mach (fun m => poke GPT2_IR
                                  (Z.land (hw m GPT2_IR) 4294967294) m) s)
    | None => None
    end
  else if timerCounter s =? 1 then
    let s := on_mach (attach IRQ_GPT2 AD4020_readISR) s in
    match udiv ccRate rate with
    | Some q =>
        let s := on_mach (poke GPT2_OCR1 (uint32 (q - 1))) s in
        Some (on_mach (fun m => poke GPT1_IR
                                  (Z.land (hw m GPT1_IR) 4294967294) m) s)
    | None => None
    end
  else Some s.

(** void AD4020initialize() *)
Definition AD4020initialize0 (s : state) : state :=
  let s := dw Pin.MOSI_AD4020 true s in
  let s := dw Pin.CNV_AD4020 true s in
  let s := dw Pin.CNV_AD4020 false s in
  dw Pin.CNV_AD4020 true s.

(** void interSetup(uint32_t compare, uint8_t timer) *)
Definition interSetup (compare : Z) (timer : Z) (s : state) : state :=
  let s := set_timerCounter timer s in
  if timer =? 0 then
    let s := on_mach (attach IRQ_GPT1 AD4020_readISR) s in
    on_mach (poke GPT1_OCR1 (uint32 (compare - 1))) s
  else if timer =? 1 then
    let s := on_mach (attach IRQ_GPT2 AD4020_readISR) s in
    on_mach (poke GPT2_OCR1 (uint32 (compare - 1))) s
  else s.

(** void AD4020initialize(uint32_t samplerate, uint32_t numOversamples,
    uint8_t timer): the parameter hides the static [samplerate]. *)
Definition AD4020initialize3 (rate numOversamples timer : Z) (s : state)
  : option state :=
  let s := AD4020initialize0 s in
  let s := set_oversamples numOversamples s in
  match udiv ccRate rate with
  | Some q => Some (interSetup q timer s)
  | None => None
  end.

(** void AD4020initialize(uint32_t samplerate, uint32_t numOversamples,
    uint8_t timer, bool timing, bool noSkip) *)
Definition AD4020initialize5 (rate numOversamples timer : Z)
  (timing noSkip : bool) (s : state) : option state :=
  match AD4020initialize3 rate numOversamples timer s with
  | Some s => Some (set_noSkipping noSkip (set_useTiming timing s))
  | None => None
  end.

(** void AD4020initialize(bool timing) *)
Definition AD4020initialize1 (timing : bool) (s : state) : state :=
  AD4020initialize0 (set_useTiming timing s).

(** void AD4020updateSamplerate(uint32_t samplerate): the parameter
    hides the static [samplerate]. *)
Definition AD4020updateSamplerate (rate : Z) (s : state) : option state :=
  let s := on_mach (set_irq false) s in
  match set_compare rate s with
  | Some s => Some (on_mach (set_irq true) s)
  | None => None
  end.

(** void AD4020updateOversamples(uint32_t numOversamples) *)
Definition AD4020updateOversamples (numOversamples : Z) (s : state) : state :=
  set_oversamples numOversamples s.

(** void AD4020updateTimer(uint8_t timer): the compare value is
    computed from the static [samplerate]. *)
Definition AD4020updateTimer (timer : Z) (s : state) : option state :=
  let s := on_mach (set_irq false) s in
  let s := set_timerCounter timer s in
  match select_timer (samplerate s) s with
  | Some s => Some (on_mach (set_irq true) s)
  | None => None
  end.

(** void AD4020updateTiming(bool timing) *)
Definition AD4020updateTiming (timing : bool) (s : state) : state :=
  set_useTiming timing s.

(** void AD4020updateNoSkip(bool noSkip) *)
Definition AD4020updateNoSkip (noSkip : bool) (s : state) : state :=
  set_noSkipping noSkip s.

(** void AD4020update(uint32_t samplerate, uint32_t numOversamples,
    uint8_t timer, bool timing, bool noSkip) *)
Definition AD4020update (rate numOversamples timer : Z)
  (timing_ noSkip : bool) (s : state) : option state :=
  let s := timing true s in
  let s := on_mach (set_irq false) s in
  let s := set_oversamples numOversamples s in
  let s := set_timerCounter timer s in
  let s := set_useTiming timing_ s in
  let s := set_noSkipping noSkip s in
  match select_timer rate s with
  | Some s => Some (timing false (on_mach (set_irq true) s))
  | None => None
  end.

(** uint8_t checkParam(String a) *)
Definition checkParam (a : string) : Z :=
  if Str.startsWith a "samplerate=" then settingSamplerate
  else if Str.startsWith a "oversamples=" then settingOversamples
  else if Str.startsWith a "timer=" then settingTimer
  else if Str.startsWith a "timing=" then settingTiming
  else if Str.startsWith a "noSkip=" then settingNoSkip
  else settingInvalid.

(** The body of [case settingNoSkip], which [case settingTiming] falls
    into for want of a [break]. *)
Definition case_noSkip (a : string) (b : bool) (s : state) : state * bool :=
  let a := Str.remove0 7 a in
  if (a =? "true")%string then (AD4020updateNoSkip true s, true)
  else if (a =? "false")%string then (AD4020updateNoSkip false s, true)
  else (s, b).

Section Update.

(** [String::toInt] of the Arduino core. *)
Variable toInt : string -> Z.

(** bool AD4020checkUpdate(String a); the integer arguments are
    converted to the parameter types [uint32_t] and [uint8_t]. *)
Definition AD4020checkUpdate (a : string) (s : state) : option (state * bool) :=
  if Str.startsWith a "AD4020." then
    let a := Str.remove0 7 a in
    let p := checkParam a in
    if p =? settingSamplerate then
      match AD4020updateSamplerate (uint32 (toInt (Str.remove0 11 a))) s with
      | Some s => Some (s, true)
      | None => None
      end
    else if p =? settingOversamples then
      Some (AD4020updateOversamples (uint32 (toInt (Str.remove0 12 a))) s, true)
    else if p =? settingTimer then
      match AD4020updateTimer (toInt (Str.remove0 6 a) mod 2 ^ 8) s with
      | Some s => Some (s, true)
      | None => None
      end
    else if p =? settingTiming then
      let a := Str.remove0 7 a in
      let '(s, b) :=
        if (a =? "true")%string then (AD4020updateTiming true s, true)
        else if (a =? "false")%string then (AD4020updateTiming false s, true)
        else (s, false) in
      Some (case_noSkip a b s)
    else if p =? settingNoSkip then Some (case_noSkip a false s)
    else Some (s, false)
  else Some (s, false).

End Update.

(** One bit of the conversion result: the clock goes low and high, the
    level of MISO is added at position [x]. *)
Definition read_bit (x : Z) (a : Z * world) : Z * world :=
  let '(val, w) := a in
  let w := digitalWriteFast Pin.SCLK_AD4020 false w in
  let w := digitalWriteFast Pin.SCLK_AD4020 true w in
  let '(b, w) := digitalReadFast Pin.MISO_AD4020 w in
  (add_bit val b x, w).

(** [if (val & 0b1000...0) val += 0b1111 1111 1111 0000 ...;] with the
    sum formed in [unsigned int] and stored in the [int32_t]. *)
Definition sign_extend (val : Z) : Z :=
  if negb (Z.land val 524288 =? 0)
  then int32 (uint32 val + 4293918720) else val.

(** The part of [readISR] between the selection of the converter and
    the correction of the offset: the conversion result. *)
Definition isr_read (w : world) : Z * world :=
  let '(b, w) := digitalReadFast Pin.MISO_AD4020 w in
  let val := add_bit 0 b 19 in
  let w := digitalWriteFast Pin.SCLK_AD4020 true w in
  let '(val, w) := for_down 19 18 read_bit (val, w) in
  let w := digitalWriteFast Pin.SCLK_AD4020 false w in
  let w := digitalWriteFast Pin.CNV_AD4020 true w in
  (sign_extend val, w).

(** void AD4020sendDataToPC() *)
Definition AD4020sendDataToPC (s : state) : state :=
  if negb (full s) then s
  else
    let s := timing true s in
    let s :=
      if (0 <=? readReg s) && (readReg s <=? 2)
      then on_mach (Serial_write (regs s (readReg s)) regLen) s else s in
    let s := set_full false s in
    let s := set_readReg (Z.rem (readReg s + 1) 3) s in
    timing false s.

(** [registerN[posReg] = byte; posReg++;] *)
Definition put (byte : Z) (s : state) : state :=
  let s := set_regs (upd2 (regs s) (writeReg s) (posReg s) byte) s in
  set_posReg (wrap 16 (posReg s + 1)) s.

(** The [switch (writeReg)] of [readISR]. *)
Definition store_sum (s : state) : state :=
  if (0 <=? writeReg s) && (writeReg s <=? 2) then
    let v := readVal s in
    put (byte_at 3 v) (put (byte_at 2 v) (put (byte_at 1 v)
      (put (byte_at 0 v) s)))
  else s.

Definition overrun_message : string :=
  "Data is being read faster than it can be sent! Programm will terminate.".

(** [readISR], the entry: timing, selection of the converter, reset of
    the interrupt flag of the timer in use. *)
Definition isr_enter (s : state) : state :=
  let s := timing true s in
  let s := dw Pin.CNV_AD4020 false s in
  if timerCounter s =? 0 then on_mach (poke GPT1_SR 1) s
  else if timerCounter s =? 1 then on_mach (poke GPT2_SR 1) s
  else s.

(** [readISR]: the conversion result with the offset corrected. *)
Definition isr_convert (s : state) : Z * state :=
  let '(val, w) := isr_read (pins (mach s)) in
  (int32 (val + offsetCorrection s), on_mach (set_pins w) s).

(** [readISR], the end of a record: [readVal = 0; sampleCycle = 0;] and
    the end of the timing. *)
Definition isr_finish (s : state) : state :=
  timing false (set_sampleCycle 0 (set_readVal 0 s)).

(** [readISR]: the register to be written next has not been sent. *)
Definition isr_overrun (s : state) : state :=
  if 0 <? initial s then
    let s := on_mach (set_irq false) s in
    let s := AD4020sendDataToPC s in
    let s := set_initial ((initial s - 1) mod 2 ^ 8) s in
    on_mach (set_irq true) s
  else
    let s := on_mach (set_printed (overrun_message :: printed (mach s))) s in
    let s := dw Pin.DebugPin true s in
    let s :=
      if timerCounter s =? 0 then
        let s := on_mach (fun m => poke GPT1_IR (Z.lxor (hw m GPT1_IR) 1) m) s in
        on_mach (fun m => poke GPT2_IR (Z.lxor (hw m GPT2_IR) 1) m) s
      else if timerCounter s =? 1 then
        on_mach (fun m => poke GPT2_IR (Z.lxor (hw m GPT2_IR) 1) m) s
      else s in
    isr_finish s.

(** [readISR]: the current register is full. *)
Definition isr_switch (s : state) : state :=
  let s := set_writeReg (Z.rem (writeReg s + 1) 3) s in
  let s := set_posReg 0 s in
  let s := set_full true s in
  if noSkipping s && (writeReg s =? readReg s)
  then isr_overrun s else isr_finish s.

(** void readISR() *)
Definition readISR (s : state) : state :=
  let s := isr_enter s in
  let '(val, s) := isr_convert s in
  let s := set_readVal (uint32 (readVal s + val)) s in
  let s := set_sampleCycle (uint32 (sampleCycle s + 1)) s in
  if oversamples s <=? sampleCycle s then
    let s := store_sum s in
    if regLen <=? posReg s then isr_switch s else isr_finish s
  else timing false s.

(** int32_t AD4020readValue() *)
Definition AD4020readValue (s : state) : Z * state :=
  let s := timing true s in
  let s := dw Pin.CNV_AD4020 false s in
  let w := pins (mach s) in
  let val := 0 in
  let w := digitalWriteFast Pin.SCLK_AD4020 true w in
  let '(b, w) := digitalReadFast Pin.MISO_AD4020 w in
  let val := add_bit val b 19 in
  let '(val, w) := for_down 19 18 read_bit (val, w) in
  let w := digitalWriteFast Pin.SCLK_AD4020 false w in
  let w := digitalWriteFast Pin.CNV_AD4020 true w in
  let val := sign_extend val in
  let val := int32 (val + offsetCorrection s) in
  let s := on_mach (set_pins w) s in
  (val, timing false s).

End AD4020.

(* ================================================================== *)
(** * LTC2500.cpp: reading a value and configuring the filter *)

Module LTC2500.

Definition noLatencyOutput : Z := 0.
Definition filteredOutput : Z := 1.
Definition silent : Z := 2.
Definition controlWord : Z := 2048.

(** The statics that reading and configuring use. *)
Record state := {
  outputMode : Z;          (* uint8_t *)
  offsetCorrection : Z;    (* int32_t *)
  useTiming : bool;
  pins : world
}.

Definition on_pins (f : world -> world) (s : state) : state :=
  {| outputMode := outputMode s; offsetCorrection := offsetCorrection s;
     useTiming := useTiming s; pins := f (pins s) |}.

Definition set_outputMode (v : Z) (s : state) : state :=
  {| outputMode := v; offsetCorrection := offsetCorrection s;
     useTiming := useTiming s; pins := pins s |}.

Definition set_useTiming (v : bool) (s : state) : state :=
  {| outputMode := outputMode s; offsetCorrection := offsetCorrection s;
     useTiming := v; pins := pins s |}.

Definition dw (pin : Z) (v : bool) (s : state) : state :=
  on_pins (digitalWriteFast pin v) s.

Definition init (w : world) : state :=
  {| outputMode := noLatencyOutput; offsetCorrection := 0;
     useTiming := false; pins := w |}.

Definition timing (v : bool) (s : state) : state :=
  if useTiming s then dw Pin.TimerPin v s else s.

(** void LTC2500updateOutputMode(uint8_t mode) *)
Definition LTC2500updateOutputMode (mode : Z) (s : state) : state :=
  let s :=
    if (mode =? noLatencyOutput) || (mode =? filteredOutput)
    then set_outputMode mode s else s in
  if mode =? noLatencyOutput then
    dw Pin.PRE_LTC2500 false
      (dw Pin.RDLB_LTC2500 false (dw Pin.RDLA_LTC2500 true s))
  else if mode =? filteredOutput then
    dw Pin.PRE_LTC2500 true
      (dw Pin.RDLB_LTC2500 true (dw Pin.RDLA_LTC2500 false s))
  else if mode =? silent then
    dw Pin.RDLB_LTC2500 true (dw Pin.RDLA_LTC2500 true s)
  else s.

(** void LTC2500initialize(uint8_t mode, bool timing) *)
Definition LTC2500initialize2 (mode : Z) (timing : bool) (s : state) : state :=
  let s := dw Pin.MOSI_LTC2500 true s in
  let s := LTC2500updateOutputMode mode s in
  set_useTiming timing s.

(** void LTC2500initialize() *)
Definition LTC2500initialize0 (s : state) : state :=
  LTC2500updateOutputMode noLatencyOutput (dw Pin.MOSI_LTC2500 true s).

(** [while(digitalRead(BUSY_LTC2500));] for at most [fuel] reads;
    [None] if the converter is busy at all of them. *)
Fixpoint wait_ready (fuel : nat) (w : world) : option world :=
  match fuel with
  | O => None
  | S fuel' =>
      let '(b, w) := digitalReadFast Pin.BUSY_LTC2500 w in
      if b then wait_ready fuel' w else Some w
  end.

(** One bit: the clock goes high and low, the level of MISO is added
    at position [x]. *)
Definition read_bit (x : Z) (a : Z * world) : Z * world :=
  let '(val, w) := a in
  let w := digitalWriteFast Pin.SCLK_LTC2500 true w in
  let w := digitalWriteFast Pin.SCLK_LTC2500 false w in
  let '(b, w) := digitalReadFast Pin.MISO_LTC2500 w in
  (add_bit val b x, w).

(** [if (outputMode == noLatencyOutput && (val & 0b1000...0))
    val += 0b1111 1111 0000 ...;] *)
Definition sign_extend (mode val : Z) : Z :=
  if (mode =? noLatencyOutput) && negb (Z.land val 8388608 =? 0)
  then int32 (uint32 val + 4278190080) else val.

(** int32_t LTC2500readValue() *)
Definition LTC2500readValue (fuel : nat) (s : state) : option (Z * state) :=
  let s := timing true s in
  let s := dw Pin.MCLK_LTC2500 true s in
  let s := dw Pin.MCLK_LTC2500 false s in
  let s := LTC2500updateOutputMode (outputMode s) s in
  let val := 0 in
  match wait_ready fuel (pins s) with
  | None => None
  | Some w =>
      let '(val, w) :=
        if outputMode s =? filteredOutput then
          let '(b, w) := digitalReadFast Pin.MISO_LTC2500 w in
          let val := add_bit val b 31 in
          for_down 31 30 read_bit (val, w)
        else for_down 24 23 read_bit (val, w) in
      let s := on_pins (fun _ => w) s in
      let s := LTC2500updateOutputMode silent s in
      let val := sign_extend (outputMode s) val in
      let val := int32 (val + offsetCorrection s) in
      Some (val, timing false s)
  end.

(** One bit of [LTC2500sendCommand]. *)
Definition command_bit (command : Z) (x : Z) (w : world) : world :=
  let w := digitalWriteFast Pin.MOSI_LTC2500 (bit_level command x) w in
  let w := digitalWriteFast Pin.SCLK_LTC2500 true w in
  digitalWriteFast Pin.SCLK_LTC2500 false w.

(** void LTC2500sendCommand(int command) *)
Definition LTC2500sendCommand (command : Z) (w : world) : world :=
  let w := digitalWriteFast Pin.DRL_LTC2500 true w in
  let w := digitalWriteFast Pin.MCLK_LTC2500 false w in
  let w := digitalWriteFast Pin.DRL_LTC2500 false w in
  let w := for_down 12 11 (command_bit command) w in
  let w := digitalWriteFast Pin.MOSI_LTC2500 false w in
  digitalWriteFast Pin.MCLK_LTC2500 true w.

(** void LTC2500configureFilter(int type, int downsampling, bool DGE,
    bool DGC) *)
Definition LTC2500configureFilter (type downsampling : Z) (DGE DGC : bool)
  (w : world) : world :=
  let command := controlWord in
  if (type <? 1) || (7 <? type) then w
  else
    let command := uint16 (command + type) in
    if (downsampling <? 2) || (14 <? downsampling) then w
    else
      let command := uint16 (command + int32 (Z.shiftl downsampling 4)) in
      let command := uint16 (command + Z.shiftl (Z_of_level DGE) 8) in
      let command := uint16 (command + Z.shiftl (Z_of_level DGC) 9) in
      LTC2500sendCommand command w.

End LTC2500.

(* ================================================================== *)
(** * T4.cpp: the serial command line *)

Module Serial.
Import String Ascii.
Local Open Scope string_scope.
Local Open Scope Z_scope.

Definition bufferLen : Z := 100.
Definition T4maxSerialFuncs : Z := 20.

Definition NUL : ascii := Ascii.zero.
Definition newline : ascii := "010"%char.

Section Handlers.

(** The globals of the sketch that the registered functions work on. *)
Variable G : Type.

(** A function [bool func(String a)], passed by pointer. *)
Definition handler : Type := string -> G -> G * bool.

Record state := {
  serialBuffer : Z -> ascii;       (* char [bufferLen + 1] *)
  bufferPos : Z;                   (* int *)
  newCommand : bool;
  checkingBuffer : bool;
  serialFuncs : list handler;      (* the first numSerialFuncs entries *)
  pins : world;
  globals : G
}.

Definition set_serialBuffer (v : Z -> ascii) (s : state) : state :=
  {| serialBuffer := v; bufferPos := bufferPos s;
     newCommand := newCommand s; checkingBuffer := checkingBuffer s;
     serialFuncs := serialFuncs s; pins := pins s; globals := globals s |}.

Definition set_bufferPos (v : Z) (s : state) : state :=
  {| serialBuffer := serialBuffer s; bufferPos := v;
     newCommand := newCommand s; checkingBuffer := checkingBuffer s;
     serialFuncs := serialFuncs s; pins := pins s; globals := globals s |}.

Definition set_newCommand (v : bool) (s : state) : state :=
  {| serialBuffer := serialBuffer s; bufferPos := bufferPos s;
     newCommand := v; checkingBuffer := checkingBuffer s;
     serialFuncs := serialFuncs s; pins := pins s; globals := globals s |}.

Definition set_serialFuncs (v : list handler) (s : state) : state :=
  {| serialBuffer := serialBuffer s; bufferPos := bufferPos s;
     newCommand := newCommand s; checkingBuffer := checkingBuffer s;
     serialFuncs := v; pins := pins s; globals := globals s |}.

Definition set_pins (v : world) (s : state) : state :=
  {| serialBuffer := serialBuffer s; bufferPos := bufferPos s;
     newCommand := newCommand s; checkingBuffer := checkingBuffer s;
     serialFuncs := serialFuncs s; pins := v; globals := globals s |}.

Definition set_globals (v : G) (s : state) : state :=
  {| serialBuffer := serialBuffer s; bufferPos := bufferPos s;
     newCommand := newCommand s; checkingBuffer := checkingBuffer s;
     serialFuncs := serialFuncs s; pins := pins s; globals := v |}.

Definition init (w : world) (g : G) : state :=
  {| serialBuffer := fun _ => NUL; bufferPos := 0; newCommand := false;
     checkingBuffer := false; serialFuncs := []; pins := w; globals := g |}.

(** [T4dw(pin, value)] *)
Definition T4dw (pin : Z) (v : bool) (s : state) : state :=
  set_pins (digitalWriteFast pin v (pins s)) s.

(** The [String] made from the [char] array: the characters before
    the first NUL, looked for in the [n] elements from [i] on. *)
Fixpoint string_at (n : nat) (buf : Z -> ascii) (i : Z) : string :=
  match n with
  | O => EmptyString
  | S n' =>
      if Ascii.eqb (buf i) NUL then EmptyString
      else String (buf i) (string_at n' buf (i + 1))
  end.

(** The [String] a handler receives for [serialBuffer]. *)
Definition buffer_string (s : state) : string :=
  string_at (Z.to_nat (bufferLen + 1)) (serialBuffer s) 0.

(** void T4clearSerialBuffer() *)
Definition T4clearSerialBuffer (s : state) : state :=
  set_serialBuffer (upd (serialBuffer s) 0 NUL) s.

(** The loop of [T4checkSerialBuffer] over the handlers still to be
    asked. *)
Fixpoint ask (fs : list handler) (s : state) : state :=
  match fs with
  | [] => s
  | f :: fs' =>
      let '(g, b) := f (buffer_string s) (globals s) in
      let s := set_globals g s in
      if b then T4dw Pin.FailPin false (T4dw Pin.SucessPin true s)
      else ask fs' (T4dw Pin.FailPin true s)
  end.

(** void T4checkSerialBuffer() *)
Definition T4checkSerialBuffer (s : state) : state :=
  if negb (newCommand s) then s
  else
    let s := ask (serialFuncs s) s in
    let s := T4clearSerialBuffer s in
    let s := set_newCommand false s in
    T4dw Pin.SucessPin false (T4dw Pin.FailPin false s).

(** void T4addSerialFunc(func), [func] a pointer to a
    [bool func(String a)]. *)
Definition T4addSerialFunc (f : handler) (s : state) : state :=
  if T4maxSerialFuncs <=? Z.of_nat (List.length (serialFuncs s)) then s
  else set_serialFuncs (serialFuncs s ++ [f])%list s.

(** The loop of [serialEvent] over the characters available on the
    serial bus; the second component is what is left on the bus. *)
Fixpoint take_chars (avail : list ascii) (s : state) : state * list ascii :=
  match avail with
  | [] => (s, [])
  | val :: rest =>
      if Ascii.eqb val newline then
        let s := set_serialBuffer (upd (serialBuffer s) (bufferPos s) NUL) s in
        let s := set_bufferPos 0 s in
        (set_newCommand true s, rest)
      else
        let s := set_serialBuffer (upd (serialBuffer s) (bufferPos s) val) s in
        take_chars rest (set_bufferPos (Z.rem (bufferPos s + 1) bufferLen) s)
  end.

(** void serialEvent() *)
Definition serialEvent (avail : list ascii) (s : state) : state * list ascii :=
  if checkingBuffer s then (s, avail) else take_chars avail s.

End Handlers.

End Serial.

(* ================================================================== *)
(** * Vocabulary for the pins *)

(** The writes made from [w] to [w'], in the order they were made. *)
Definition made (w w' : world) : list (Z * bool) :=
  rev (firstn (length (writes w') - length (writes w)) (writes w')).

(** What a device on a serial bus samples: the level of [dat] at every
    rising edge of [clk], for the writes [tr] in the order made; [c] and
    [d] are the levels of the two lines before. *)
Fixpoint rising_bits (clk dat : Z) (c d : bool) (tr : list (Z * bool))
  : list bool :=
  match tr with
  | [] => []
  | (p, v) :: tr' =>
      if p =? clk then
        if negb c && v then d :: rising_bits clk dat v d tr'
        else rising_bits clk dat v d tr'
      else if p =? dat then rising_bits clk dat c v tr'
      else rising_bits clk dat c d tr'
  end.

(** The number a bit string spells, most significant bit first. *)
Fixpoint msb_value (l : list bool) : Z :=
  match l with
  | [] => 0
  | b :: l' => Z_of_level b * 2 ^ Z.of_nat (length l') + msb_value l'
  end.

(** The number a bit string spells, least significant bit first. *)
Fixpoint lsb_value (l : list bool) : Z :=
  match l with
  | [] => 0
  | b :: l' => Z_of_level b + 2 * lsb_value l'
  end.

(** The levels a pin shows at the next [n] reads. *)
Definition next_levels (w : world) (pin : Z) (n : nat) : list bool :=
  map (fun k => level_at w pin (k + reads w pin)%nat) (seq 0 n).

(** The last level written to a pin, [dflt] if there is none. *)
Fixpoint last_level (pin : Z) (dflt : bool) (ws : list (Z * bool)) : bool :=
  match ws with
  | [] => dflt
  | (p, v) :: ws' => if p =? pin then v else last_level pin dflt ws'
  end.

(** The value of a 32-bit word in sign-and-magnitude format. *)
Definition signmag_value (w : Z) : Z :=
  if Z.testbit w 31 then - (w mod 2 ^ 31) else w mod 2 ^ 31.

(** The bits [n-1 .. 0] of [x], the highest first. *)
Fixpoint bits_down (x : Z) (n : nat) : list bool :=
  match n with
  | O => []
  | S n' => bit_level x (Z.of_nat n') :: bits_down x n'
  end.

(** The bits [i .. i+n-1] of [x], the lowest first. *)
Fixpoint bits_up (x i : Z) (n : nat) : list bool :=
  match n with
  | O => []
  | S n' => bit_level x i :: bits_up x (i + 1) n'
  end.

(** The writes of one byte on a bus that is clocked low, set, clocked
    high for every bit and left low. *)
Definition byte_events (clk dat : Z) (bits : list bool) : list (Z * bool) :=
  flat_map (fun b => [(clk, false); (dat, b); (clk, true)]) bits
  ++ [(clk, false)].

(** Pins that have not been written and read low. *)
Definition idle_world : world :=
  {| writes := []; level_at := fun _ _ => false; reads := fun _ => O |}.

(** The value of an [n]-bit word in two's complement. *)
Definition signed (n v : Z) : Z :=
  if v <? 2 ^ (n - 1) then v else v - 2 ^ n.


(** Pins on which [pin] shows the levels [bits] at the next reads and
    low afterwards. *)
Definition world_showing (pin : Z) (bits : list bool) : world :=
  {| writes := [];
     level_at := fun p k => if p =? pin then nth k bits false else false;
     reads := fun _ => O |}.

(** ** Vocabulary for AD4020.cpp *)

(** The value the next interrupt reads from the converter. *)
Definition ad4020_sample (s : AD4020.state) : Z :=
  int32 (signed 20 (msb_value (next_levels (pins (AD4020.mach s))
                                           Pin.MISO_AD4020 20))
         + AD4020.offsetCorrection s).

(** [f] applied [n] times. *)
Fixpoint iterate {A : Type} (f : A -> A) (n : nat) (s : A) : A :=
  match n with
  | O => s
  | S n' => iterate f n' (f s)
  end.

(** What [g] shows in the [n] states that [f] runs through from [s]. *)
Fixpoint observe {A B : Type} (f : A -> A) (g : A -> B) (n : nat) (s : A)
  : list B :=
  match n with
  | O => []
  | S n' => g s :: observe f g n' (f s)
  end.

(** The state after [n] interrupts. *)
Definition ad4020_ticks (n : nat) (s : AD4020.state) : AD4020.state :=
  iterate AD4020.readISR n s.

(** The values the next [n] interrupts read. *)
Definition ad4020_samples (n : nat) (s : AD4020.state) : list Z :=
  observe AD4020.readISR ad4020_sample n s.

(** The write position lies inside a register, on a record boundary,
    and both register numbers are valid. *)
Definition ad4020_ring_ok (s : AD4020.state) : Prop :=
  0 <= AD4020.posReg s /\ AD4020.posReg s + 4 <= AD4020.regLen
  /\ AD4020.posReg s mod 4 = 0
  /\ 0 <= AD4020.writeReg s < 3 /\ 0 <= AD4020.readReg s < 3.

(** Two states with the same statics of the library; the pins, the
    timers and the serial line may differ. *)
Definition ad4020_same (s s' : AD4020.state) : Prop :=
  AD4020.samplerate s' = AD4020.samplerate s
  /\ AD4020.oversamples s' = AD4020.oversamples s
  /\ AD4020.sampleCycle s' = AD4020.sampleCycle s
  /\ AD4020.readVal s' = AD4020.readVal s
  /\ AD4020.offsetCorrection s' = AD4020.offsetCorrection s
  /\ AD4020.regs s' = AD4020.regs s
  /\ AD4020.posReg s' = AD4020.posReg s
  /\ AD4020.writeReg s' = AD4020.writeReg s
  /\ AD4020.readReg s' = AD4020.readReg s
  /\ AD4020.full s' = AD4020.full s
  /\ AD4020.initial s' = AD4020.initial s
  /\ AD4020.timerCounter s' = AD4020.timerCounter s
  /\ AD4020.useTiming s' = AD4020.useTiming s
  /\ AD4020.noSkipping s' = AD4020.noSkipping s.

(** Two states whose pins show the same levels at the coming reads. *)
Definition ad4020_same_inputs (s s' : AD4020.state) : Prop :=
  level_at (pins (AD4020.mach s')) = level_at (pins (AD4020.mach s))
  /\ reads (pins (AD4020.mach s')) = reads (pins (AD4020.mach s)).

(** ** Vocabulary for LTC2500.cpp *)

(** The busy line reads high at the next [j] reads and low at the one
    after. *)
Definition ready_after (w : world) (j : nat) : Prop :=
  (forall k, (k < j)%nat ->
     level_at w Pin.BUSY_LTC2500 (k + reads w Pin.BUSY_LTC2500)%nat = true)
  /\ level_at w Pin.BUSY_LTC2500 (j + reads w Pin.BUSY_LTC2500)%nat = false.

(** The number of bits of a result in an output mode. *)
Definition ltc2500_width (mode : Z) : Z :=
  if mode =? LTC2500.filteredOutput then 32 else 24.

(** Pins on which the busy line reads high [j] times and low
    afterwards, and the data line shows [bits]. *)
Definition ltc2500_world (j : nat) (bits : list bool) : world :=
  {| writes := [];
     level_at := fun p k =>
       if p =? Pin.BUSY_LTC2500 then (k <? j)%nat
       else if p =? Pin.MISO_LTC2500 then nth k bits false
       else false;
     reads := fun _ => O |}.

(** ** Vocabulary for the serial command line *)

(** The characters [l] stored from position [pos] on, the position
    wrapping at [bufferLen]; the second component is the position
    reached. *)
Fixpoint fill (l : list Ascii.ascii) (buf : Z -> Ascii.ascii) (pos : Z)
  : (Z -> Ascii.ascii) * Z :=
  match l with
  | [] => (buf, pos)
  | c :: l' => fill l' (upd buf pos c) (Z.rem (pos + 1) Serial.bufferLen)
  end.

(** ** The interface of AD4020.cpp *)

(** A call of a function of the library, or an interrupt of its
    timer. *)
Inductive ad4020_call : Type :=
| call_initialize0
| call_initialize1 (timing : bool)
| call_initialize3 (rate numOversamples timer : Z)
| call_initialize5 (rate numOversamples timer : Z) (timing noSkip : bool)
| call_updateSamplerate (rate : Z)
| call_updateOversamples (numOversamples : Z)
| call_updateTimer (timer : Z)
| call_updateTiming (timing : bool)
| call_updateNoSkip (noSkip : bool)
| call_update (rate numOversamples timer : Z) (timing noSkip : bool)
| call_checkUpdate (a : String.string)
| call_readValue
| call_sendDataToPC
| call_interrupt.

(** The state after a call; [None] where the call has no defined
    result. *)
Definition ad4020_do (toInt : String.string -> Z) (c : ad4020_call)
  (s : AD4020.state) : option AD4020.state :=
  match c with
  | call_initialize0 => Some (AD4020.AD4020initialize0 s)
  | call_initialize1 t => Some (AD4020.AD4020initialize1 t s)
  | call_initialize3 r n t => AD4020.AD4020initialize3 r n t s
  | call_initialize5 r n t tm ns => AD4020.AD4020initialize5 r n t tm ns s
  | call_updateSamplerate r => AD4020.AD4020updateSamplerate r s
  | call_updateOversamples n => Some (AD4020.AD4020updateOversamples n s)
  | call_updateTimer t => AD4020.AD4020updateTimer t s
  | call_updateTiming t => Some (AD4020.AD4020updateTiming t s)
  | call_updateNoSkip n => Some (AD4020.AD4020updateNoSkip n s)
  | call_update r n t tm ns => AD4020.AD4020update r n t tm ns s
  | call_checkUpdate a => option_map fst (AD4020.AD4020checkUpdate toInt a s)
  | call_readValue => Some (snd (AD4020.AD4020readValue s))
  | call_sendDataToPC => Some (AD4020.AD4020sendDataToPC s)
  | call_interrupt => Some (AD4020.readISR s)
  end.

(** The state after a sequence of calls. *)
Fixpoint ad4020_calls (toInt : String.string -> Z) (cs : list ad4020_call)
  (s : AD4020.state) : option AD4020.state :=
  match cs with
  | [] => Some s
  | c :: cs' =>
      match ad4020_do toInt c s with
      | Some s' => ad4020_calls toInt cs' s'
      | None => None
      end
  end.

(** ** The sketch as a whole *)

(** What happens to the sketch: a firing of the capture timer with the
    value read, a firing of the processing timer with the values of the
    two converters, a pass of [loop] through [sendDataToPC], a command
    of the host. *)
Inductive sketch_event : Type :=
| ev_capture (v : Z)
| ev_process (ad val : Z)
| ev_send
| ev_command (c : command).

Section SketchRun.

Variables fsin fcos : float64 -> float64.

Definition sketch_step (e : sketch_event) (s : system) : option system :=
  match e with
  | ev_capture v => Some (on_cap (fun c => fst (spectralRead c v)) s)
  | ev_process ad val => option_map fst (readProcessOutput s ad val)
  | ev_send => Some (on_cap (fun c => fst (sendDataToPC c)) s)
  | ev_command c => Some (fst (checkUpdateUSB fsin fcos s c))
  end.

Fixpoint sketch_run (es : list sketch_event) (s : system) : option system :=
  match es with
  | [] => Some s
  | e :: es' =>
      match sketch_step e s with
      | Some s' => sketch_run es' s'
      | None => None
      end
  end.

End SketchRun.

(** ** The excitation of the pulse and step modes *)


(* ================================================================== *)
(** * Properties *)

(** ** Machine integers and arrays *)

Lemma int32_id (x : Z) : in_int32 x -> int32 x = x.
Proof.
  unfold int32, wrap, in_int32; pow_consts; intros H.
  rewrite Z.mod_small; lia.
Qed.

Lemma int64_id (x : Z) : in_int64 x -> int64 x = x.
Proof.
  unfold int64, wrap, in_int64; pow_consts; intros H.
  rewrite Z.mod_small; lia.
Qed.

Lemma int64_range (x : Z) : in_int64 (int64 x).
Proof.
  unfold int64, wrap, in_int64; pow_consts.
  pose proof (Z.mod_pos_bound (x + 9223372036854775808) 18446744073709551616).
  lia.
Qed.

Lemma int32_range (x : Z) : in_int32 (int32 x).
Proof.
  unfold int32, wrap, in_int32; pow_consts.
  pose proof (Z.mod_pos_bound (x + 2147483648) 4294967296).
  lia.
Qed.

Lemma uint32_id (x : Z) : 0 <= x < 2 ^ 32 -> uint32 x = x.
Proof. unfold uint32; intros H; now rewrite Z.mod_small. Qed.

Lemma uint16_id (x : Z) : 0 <= x < 2 ^ 16 -> uint16 x = x.
Proof. unfold uint16; intros H; now rewrite Z.mod_small. Qed.

Lemma upd_same {A : Type} (a : Z -> A) (i : Z) (v : A) : upd a i v i = v.
Proof. unfold upd; now rewrite Z.eqb_refl. Qed.

Lemma upd_other {A : Type} (a : Z -> A) (i j : Z) (v : A) :
  j <> i -> upd a i v j = a j.
Proof.
  intros H; unfold upd.
  destruct (Z.eqb_spec j i); [contradiction | reflexivity].
Qed.

(** Truncating division in terms of the magnitude. *)
Lemma quot_sgn_abs (s n : Z) :
  0 < n -> Z.quot s n = Z.sgn s * (Z.abs s / n).
Proof.
  intros Hn.
  destruct (Z.lt_trichotomy s 0) as [Hs | [Hs | Hs]].
  - rewrite (Z.sgn_neg s Hs), (Z.abs_neq s) by lia.
    replace s with (- (- s)) at 1 by lia.
    rewrite Z.quot_opp_l by lia.
    rewrite Z.quot_div_nonneg by lia. lia.
  - subst s. now rewrite Z.quot_0_l by lia.
  - rewrite (Z.sgn_pos s Hs), (Z.abs_eq s) by lia.
    rewrite Z.quot_div_nonneg by lia. lia.
Qed.

Lemma quot_small (s n : Z) : Z.abs s < n -> Z.quot s n = 0.
Proof. intros H; apply Z.quot_small_iff; lia. Qed.

Lemma quot_in_int64 (s n : Z) : in_int64 s -> 1 <= n -> in_int64 (Z.quot s n).
Proof.
  unfold in_int64; intros Hs Hn.
  rewrite quot_sgn_abs by lia.
  assert (0 <= Z.abs s / n <= Z.abs s).
  { split; [apply Z.div_pos; lia |].
    apply Z.div_le_upper_bound; nia. }
  destruct (Z.lt_trichotomy s 0) as [H0 | [H0 | H0]].
  - rewrite (Z.sgn_neg s H0). lia.
  - subst s. simpl. lia.
  - rewrite (Z.sgn_pos s H0). lia.
Qed.

(** ** The capture path *)

Lemma spectralRead_spectral (c : capture) (v : Z) :
  mode c = spectral ->
  core (fst (spectralRead c v)) = fst (Part003.spectralRead (core c) v)
  /\ snd (spectralRead c v) = snd (Part003.spectralRead (core c) v)
  /\ mode (fst (spectralRead c v)) = spectral.
Proof.
  destruct c as [a m r w]; simpl; intros ->.
  unfold spectralRead, Part003.spectralRead, pulse_gate; simpl.
  destruct (full a) eqn:Hf; simpl; [auto |].
  destruct (sampleStart a) eqn:Hs; simpl; [auto |].
  destruct (oversamples a <=? int32 (samples a + 1)) eqn:Ho; simpl; [| auto].
  destruct (bufLen a <=? uint32 (int32 (bufPos a + 4))) eqn:Hb; simpl; auto.
Qed.

Lemma run_spectral (vs : list Z) (c : capture) :
  mode c = spectral ->
  core (fst (run c vs)) = fst (Part003.run (core c) vs)
  /\ snd (run c vs) = snd (Part003.run (core c) vs)
  /\ mode (fst (run c vs)) = spectral.
Proof.
  revert c; induction vs as [| v vs IH]; intros c Hm; simpl; [auto |].
  destruct (spectralRead_spectral c v Hm) as (H1 & H2 & H3).
  destruct (spectralRead c v) as [c1 o] eqn:E1.
  destruct (Part003.spectralRead (core c) v) as [a1 o'] eqn:E2.
  simpl in *. subst a1 o'.
  destruct (IH c1 H3) as (I1 & I2 & I3).
  destruct (run c1 vs) as [c2 os] eqn:E3.
  destruct (Part003.run (core c1) vs) as [a2 os'] eqn:E4.
  simpl in *. subst. auto.
Qed.

Lemma zsum_bound (vs : list Z) :
  Forall in_int32 vs -> Z.abs (zsum vs) <= Z.of_nat (length vs) * 2 ^ 31.
Proof.
  induction 1 as [| v vs Hv _ IH]; simpl zsum; simpl length.
  - simpl. lia.
  - unfold in_int32 in Hv. pow_consts. lia.
Qed.

Lemma count_step (st : acq) (v : Z) :
  full st = false -> sampleStart st = false ->
  int32 (samples st + 1) < oversamples st ->
  Part003.spectralRead st v =
  (set_samples (int32 (samples st + 1))
               (set_sumAD4020 (int64 (sumAD4020 st + v)) st), None).
Proof.
  intros Hf Hs Hlt. unfold Part003.spectralRead.
  rewrite Hf. simpl. rewrite Hs.
  destruct (Z.leb_spec (oversamples st) (int32 (samples st + 1))); [lia |].
  reflexivity.
Qed.

Lemma emit_step (st : acq) (v : Z) :
  full st = false -> sampleStart st = false ->
  oversamples st <= int32 (samples st + 1) ->
  Part003.spectralRead st v =
  (stored st (int64 (Z.quot (int64 (sumAD4020 st + v)) (oversamples st))),
   Some (corrected (signalType st) (gainAD4020 st) (offsetAD4020 st)
           (int64 (Z.quot (int64 (sumAD4020 st + v)) (oversamples st))))).
Proof.
  intros Hf Hs Hle. unfold Part003.spectralRead, stored.
  destruct st; simpl in *; subst.
  destruct (Z.leb_spec oversamples0 (int32 (samples0 + 1))); [| lia].
  destruct (bufLen0 <=? uint32 (int32 (bufPos0 + 4))); reflexivity.
Qed.

Lemma discard_step (st : acq) (v : Z) :
  full st = false -> sampleStart st = true ->
  Part003.spectralRead st v =
  (set_sampleStart false (set_sumAD4020 0 st), None).
Proof.
  intros Hf Hs. unfold Part003.spectralRead. rewrite Hf. simpl. rewrite Hs.
  destruct st; reflexivity.
Qed.

Lemma full_step (st : acq) (v : Z) :
  full st = true -> Part003.spectralRead st v = (st, None).
Proof. intros Hf. unfold Part003.spectralRead. now rewrite Hf. Qed.

Lemma block_run (vs : list Z) : forall st : acq,
  full st = false -> sampleStart st = false ->
  1 <= oversamples st <= INT32_MAX ->
  0 <= samples st ->
  samples st + Z.of_nat (length vs) = oversamples st ->
  vs <> [] -> Forall in_int32 vs ->
  Z.abs (sumAD4020 st) <= samples st * 2 ^ 31 ->
  Part003.run st vs =
  (stored st (Z.quot (sumAD4020 st + zsum vs) (oversamples st)),
   [corrected (signalType st) (gainAD4020 st) (offsetAD4020 st)
              (Z.quot (sumAD4020 st + zsum vs) (oversamples st))]).
Proof.
  induction vs as [| v vs IH]; intros st Hf Hs HN Hk Hlen Hne Hall Hsum;
    [congruence |].
  inversion Hall as [| ? ? Hv Hall']; subst.
  unfold INT32_MAX in HN. unfold in_int32 in Hv. pow_consts.
  assert (Hi32 : int32 (samples st + 1) = samples st + 1).
  { apply int32_id. unfold in_int32. pow_consts.
    simpl length in Hlen. lia. }
  assert (Hi64 : int64 (sumAD4020 st + v) = sumAD4020 st + v).
  { apply int64_id. unfold in_int64. pow_consts. nia. }
  simpl Part003.run.
  destruct vs as [| w vs].
  - (* last value of the block *)
    simpl length in Hlen.
    rewrite emit_step by (rewrite ?Hi32; auto; lia).
    rewrite Hi64. simpl zsum. rewrite Z.add_0_r.
    rewrite int64_id.
    + reflexivity.
    + apply quot_in_int64; [| lia]. unfold in_int64. pow_consts. nia.
  - rewrite count_step by (rewrite ?Hi32; auto; simpl length in Hlen; lia).
    rewrite Hi32, Hi64.
    set (st1 := set_samples _ _).
    assert (E : Part003.run st1 (w :: vs) =
      (stored st1 (Z.quot (sumAD4020 st1 + zsum (w :: vs)) (oversamples st1)),
       [corrected (signalType st1) (gainAD4020 st1) (offsetAD4020 st1)
          (Z.quot (sumAD4020 st1 + zsum (w :: vs)) (oversamples st1))])).
    { apply IH; subst st1; simpl; auto; try lia; try congruence.
      simpl length in Hlen. lia. }
    rewrite E. subst st1. simpl.
    replace (sumAD4020 st + v + (w + zsum vs))
      with (sumAD4020 st + (v + (w + zsum vs))) by lia.
    reflexivity.
Qed.

Lemma run_app (a b : list Z) (st : acq) :
  Part003.run st (a ++ b) =
  (fst (Part003.run (fst (Part003.run st a)) b),
   snd (Part003.run st a) ++ snd (Part003.run (fst (Part003.run st a)) b)).
Proof.
  revert st; induction a as [| v a IH]; intros st; simpl.
  - now destruct (Part003.run st b).
  - destruct (Part003.spectralRead st v) as [st1 o].
    rewrite IH.
    destruct (Part003.run st1 a) as [st2 os]; simpl.
    destruct (Part003.run st2 b) as [st3 os']; simpl.
    now destruct o.
Qed.

Lemma stored_bufPos (st : acq) (m : Z) :
  0 <= bufPos st <= maxLen -> bufPos (stored st m) = bufPos st + 4.
Proof.
  intros H. unfold maxLen in H. simpl.
  apply int32_id. unfold in_int32. pow_consts. lia.
Qed.

Lemma stored_full (st : acq) (m : Z) :
  0 <= bufPos st <= maxLen -> full st = false ->
  full (stored st m) = (bufLen st <=? bufPos st + 4).
Proof.
  intros H Hf. unfold maxLen in H. simpl. rewrite Hf.
  rewrite int32_id by (unfold in_int32; pow_consts; lia).
  rewrite uint32_id by (pow_consts; lia).
  now destruct (bufLen st <=? bufPos st + 4).
Qed.

Lemma blocks_run (blocks : list (list Z)) : forall st : acq,
  full st = false -> sampleStart st = false ->
  1 <= oversamples st <= INT32_MAX ->
  samples st = 0 -> sumAD4020 st = 0 ->
  0 <= bufPos st -> bufLen st <= maxLen ->
  bufPos st + 4 * Z.of_nat (length blocks) < bufLen st + 4 ->
  Forall (block_ok (oversamples st)) blocks ->
  Part003.run st (concat blocks) =
  (stored_all st blocks, map (mean_record st) blocks).
Proof.
  induction blocks as [| b bs IH];
    intros st Hf Hs HN Hk Hsum Hp Hl Hroom Hall; [reflexivity |].
  inversion Hall as [| ? ? [Hlen Hb] Hall']; subst.
  assert (Hne : b <> []).
  { intros ->. simpl in Hlen. lia. }
  simpl concat. rewrite run_app.
  rewrite (block_run b st) by (auto; rewrite ?Hk, ?Hsum; simpl; lia).
  rewrite Hsum. simpl fst. simpl snd. cbn [map app].
  set (st1 := stored st (Z.quot (0 + zsum b) (oversamples st))).
  simpl stored_all. fold st1.
  replace (stored st (Z.quot (zsum b) (oversamples st))) with st1
    by (subst st1; reflexivity).
  destruct bs as [| b' bs].
  - reflexivity.
  - assert (Hpos : 0 <= bufPos st <= maxLen).
    { simpl length in Hroom. lia. }
    rewrite IH.
    + reflexivity.
    + subst st1. rewrite stored_full by auto.
      simpl length in Hroom. apply Z.leb_gt. lia.
    + exact Hs.
    + exact HN.
    + reflexivity.
    + reflexivity.
    + subst st1. rewrite stored_bufPos by auto. lia.
    + exact Hl.
    + subst st1. rewrite stored_bufPos by auto.
      change (bufLen (stored st (Z.quot (0 + zsum b) (oversamples st))))
        with (bufLen st).
      simpl length in *. lia.
    + exact Hall'.
Qed.

Lemma stored_all_spec (blocks : list (list Z)) : forall st : acq,
  full st = false -> 0 <= bufPos st -> bufLen st <= maxLen ->
  bufPos st + 4 * Z.of_nat (length blocks) < bufLen st + 4 ->
  bufPos (stored_all st blocks) = bufPos st + 4 * Z.of_nat (length blocks)
  /\ full (stored_all st blocks) =
     match blocks with
     | [] => false
     | _ => bufLen st <=? bufPos st + 4 * Z.of_nat (length blocks)
     end
  /\ bufLen (stored_all st blocks) = bufLen st
  /\ (samples st = 0 -> samples (stored_all st blocks) = 0)
  /\ (sumAD4020 st = 0 -> sumAD4020 (stored_all st blocks) = 0).
Proof.
  induction blocks as [| b bs IH]; intros st Hf Hp Hl Hroom.
  - simpl. repeat split; auto; lia.
  - unfold stored_all. cbn [fold_left].
    set (st1 := stored st (Z.quot (zsum b) (oversamples st))).
    fold (stored_all st1 bs).
    assert (Hpos : 0 <= bufPos st <= maxLen) by (simpl length in Hroom; lia).
    assert (Hp1 : bufPos st1 = bufPos st + 4)
      by (subst st1; now apply stored_bufPos).
    assert (Hf1 : full st1 = (bufLen st <=? bufPos st + 4))
      by (subst st1; now apply stored_full).
    destruct bs as [| b' bs].
    + change (stored_all st1 []) with st1. cbn [length].
      rewrite Hp1, Hf1.
      change (bufLen st1) with (bufLen st).
      change (Z.of_nat 1) with 1. rewrite Z.mul_1_r.
      repeat split; auto.
    + assert (Hlt : full st1 = false).
      { rewrite Hf1. apply Z.leb_gt. simpl length in Hroom. lia. }
      assert (Hroom1 : bufPos st1 + 4 * Z.of_nat (length (b' :: bs))
                       < bufLen st1 + 4).
      { change (bufLen st1) with (bufLen st). rewrite Hp1.
        simpl length in *. lia. }
      assert (Hp1' : 0 <= bufPos st1) by lia.
      destruct (IH st1 Hlt Hp1' Hl Hroom1) as (I1 & I2 & I3 & I4 & I5).
      change (bufLen st1) with (bufLen st) in *.
      rewrite I1, I2, I3, Hp1.
      replace (bufPos st + 4 + 4 * Z.of_nat (length (b' :: bs)))
        with (bufPos st + 4 * Z.of_nat (length (b :: b' :: bs)))
        by (simpl length; lia).
      repeat split; auto.
Qed.

(** ** C1: the oversampling accumulator *)

(** In every mode and whatever the state of the buffer, a firing with
    a pending discard stores nothing, leaves the counter alone, and its
    effect does not depend on the value read. *)
Lemma discard_in_every_mode (c : capture) (v v' : Z) :
  sampleStart (core c) = true ->
  snd (spectralRead c v) = None
  /\ samples (core (fst (spectralRead c v))) = samples (core c)
  /\ spectralRead c v = spectralRead c v'.
Proof.
  intros Hs. unfold spectralRead, pulse_gate.
  destruct c as [a m r w]. destruct a. cbn in Hs. subst.
  destruct m, w; cbn;
    repeat match goal with
           | |- context [if ?b then _ else _] => destruct b; cbn
           end; repeat split.
Qed.

(** One firing, in every mode. *)
Lemma spectralRead_fold (c : capture) (v : Z) :
  let c' := fst (spectralRead c v) in
  let o := snd (spectralRead c v) in
  let a := core c in
  (oversamples (core c') = oversamples a
   /\ signalType (core c') = signalType a
   /\ gainAD4020 (core c') = gainAD4020 a
   /\ offsetAD4020 (core c') = offsetAD4020 a)
  /\ (counted_firing c = false ->
      o = None /\ samples (core c') = samples a
      /\ sumAD4020 (core c') = sumAD4020 a
      /\ sampleStart (core c') = sampleStart a)
  /\ (counted_firing c = true -> sampleStart a = true ->
      o = None /\ samples (core c') = samples a
      /\ sumAD4020 (core c') = 0 /\ sampleStart (core c') = false)
  /\ (counted_firing c = true -> sampleStart a = false ->
      sampleStart (core c') = false
      /\ if oversamples a <=? int32 (samples a + 1) then
           o = Some (corrected (signalType a) (gainAD4020 a) (offsetAD4020 a)
                       (int64 (Z.quot (int64 (sumAD4020 a + v))
                                      (oversamples a))))
           /\ samples (core c') = 0 /\ sumAD4020 (core c') = 0
         else
           o = None /\ samples (core c') = int32 (samples a + 1)
           /\ sumAD4020 (core c') = int64 (sumAD4020 a + v)).
Proof.
  unfold spectralRead, pulse_gate, counted_firing.
  destruct c as [a m r w].
  destruct a as [off gn bl buf bp fl rq ss sr pr os sm sty vo su].
  cbn -[corrected Z.quot int64 int32 uint32 store_record Z.add].
  destruct fl; cbn -[corrected Z.quot int64 int32 uint32 store_record Z.add].
  { repeat split; intros; try discriminate; auto. }
  destruct m, w, (r =? 0), (r =? 2), ss;
    cbn -[corrected Z.quot int64 int32 uint32 store_record Z.add];
    repeat match goal with
           | |- context [if ?b then _ else _] =>
               destruct b eqn:?;
               cbn -[corrected Z.quot int64 int32 uint32 store_record Z.add]
           end;
    repeat split; intros; try discriminate; auto.
Qed.

Lemma zsum_app (a b : list Z) : zsum (a ++ b) = zsum a + zsum b.
Proof. induction a as [| x a IH]; simpl; [reflexivity | rewrite IH; lia]. Qed.

(** A run that starts inside a block: [pre] are the folds already
    counted. *)
Lemma run_accumulates (N : Z) (t : signal_type) (g o : float32)
  (vals : list Z) :
  1 <= N <= INT32_MAX -> Forall in_int32 vals ->
  forall (c : capture) (pre : list Z),
    oversamples (core c) = N -> signalType (core c) = t ->
    gainAD4020 (core c) = g -> offsetAD4020 (core c) = o ->
    sampleStart (core c) = false ->
    samples (core c) = Z.of_nat (length pre) ->
    sumAD4020 (core c) = zsum pre ->
    Z.of_nat (length pre) < N -> Forall in_int32 pre ->
    exists (blocks : list (list Z)) (rest : list Z),
      pre ++ folds c vals = concat blocks ++ rest
      /\ Forall (fun b => Z.of_nat (length b) = N) blocks
      /\ Z.of_nat (length rest) < N
      /\ snd (run c vals)
         = map (fun b => corrected t g o (Z.quot (zsum b) N)) blocks
      /\ samples (core (fst (run c vals))) = Z.of_nat (length rest)
      /\ sumAD4020 (core (fst (run c vals))) = zsum rest.
Proof.
  intros HN Hvals. unfold INT32_MAX in HN.
  induction Hvals as [| v vs Hv Hvs IH];
    intros c pre Ho Ht Hg Hoff Hs Hk Hsum Hlen Hpre.
  - exists [], pre. cbn. rewrite app_nil_r. repeat split; auto.
  - cbn [folds run].
    destruct (spectralRead_fold c v)
      as ((C1 & C2 & C3 & C4) & Hskip & _ & Hcount).
    destruct (spectralRead c v) as [c1 o1] eqn:E.
    cbn [fst snd] in *.
    destruct (counted_firing c) eqn:Hcf.
    + destruct (Hcount eq_refl Hs) as (Hs1 & Hcase). clear Hskip Hcount.
      assert (Hi32 : int32 (samples (core c) + 1) = Z.of_nat (length pre) + 1).
      { rewrite Hk. apply int32_id. unfold in_int32. pow_consts. lia. }
      assert (Hb : Z.abs (zsum pre) <= Z.of_nat (length pre) * 2 ^ 31)
        by (apply zsum_bound; exact Hpre).
      assert (Hi64 : int64 (sumAD4020 (core c) + v) = zsum pre + v).
      { rewrite Hsum. apply int64_id. unfold in_int64, in_int32 in *.
        pow_consts. nia. }
      rewrite Hi32, Hi64, Ho in Hcase.
      assert (Hpre1 : Forall in_int32 (pre ++ [v]))
        by (apply Forall_app; split; [exact Hpre | constructor; auto]).
      assert (Hz : zsum (pre ++ [v]) = zsum pre + v)
        by (rewrite zsum_app; simpl; lia).
      destruct (Z.leb_spec N (Z.of_nat (length pre) + 1)) as [Hfull | Hmore].
      * destruct Hcase as (-> & Hk1 & Hsum1).
        assert (IH1 := IH c1 [] (eq_trans C1 Ho) (eq_trans C2 Ht)
                          (eq_trans C3 Hg) (eq_trans C4 Hoff) Hs1 Hk1 Hsum1
                          ltac:(cbn; lia) (Forall_nil _)).
        destruct IH1 as (blocks & rest & B1 & B2 & B3 & B4 & B5 & B6).
        destruct (run c1 vs) as [c2 os] eqn:E2. cbn [fst snd] in *.
        exists ((pre ++ [v]) :: blocks), rest.
        cbn [app] in B1.
        split; [cbn [concat]; rewrite <- !app_assoc; cbn [app];
                rewrite B1; reflexivity |].
        split; [constructor; [rewrite length_app; cbn; lia | exact B2] |].
        split; [exact B3 |].
        split; [| split; assumption].
        cbn [map]. rewrite B4, Hz, Ht, Hg, Hoff. f_equal. f_equal.
        apply int64_id.
        apply quot_in_int64; [| lia].
        unfold in_int64, in_int32 in *. pow_consts. nia.
      * destruct Hcase as (-> & Hk1 & Hsum1).
        assert (Hk2 : samples (core c1) = Z.of_nat (length (pre ++ [v])))
          by (rewrite Hk1, length_app; cbn [length]; lia).
        assert (Hsum2 : sumAD4020 (core c1) = zsum (pre ++ [v]))
          by (rewrite Hsum1, Hz; reflexivity).
        assert (Hlen2 : Z.of_nat (length (pre ++ [v])) < N)
          by (rewrite length_app; cbn [length]; lia).
        assert (IH1 := IH c1 (pre ++ [v]) (eq_trans C1 Ho) (eq_trans C2 Ht)
                          (eq_trans C3 Hg) (eq_trans C4 Hoff) Hs1 Hk2 Hsum2
                          Hlen2 Hpre1).
        destruct IH1 as (blocks & rest & B1 & B2 & B3 & B4 & B5 & B6).
        destruct (run c1 vs) as [c2 os] eqn:E2. cbn [fst snd] in *.
        exists blocks, rest.
        split; [rewrite <- B1, <- app_assoc; reflexivity |].
        repeat split; assumption.
    + destruct (Hskip eq_refl) as (-> & Hk1 & Hsum1 & Hs1).
      assert (IH1 := IH c1 pre (eq_trans C1 Ho) (eq_trans C2 Ht)
                        (eq_trans C3 Hg) (eq_trans C4 Hoff)
                        (eq_trans Hs1 Hs) (eq_trans Hk1 Hk)
                        (eq_trans Hsum1 Hsum) Hlen Hpre).
      destruct IH1 as (blocks & rest & B1 & B2 & B3 & B4 & B5 & B6).
      destruct (run c1 vs) as [c2 os] eqn:E2. cbn [fst snd] in *.
      exists blocks, rest. repeat split; assumption.
Qed.

(** A run from the start of a period, with or without a pending
    discard. *)
Lemma run_accumulated (N : Z) (t : signal_type) (g o : float32)
  (vals : list Z) :
  1 <= N <= INT32_MAX -> Forall in_int32 vals ->
  forall c : capture,
    oversamples (core c) = N -> signalType (core c) = t ->
    gainAD4020 (core c) = g -> offsetAD4020 (core c) = o ->
    samples (core c) = 0 -> sumAD4020 (core c) = 0 ->
    accumulated N (corrected t g o) (sampleStart (core c)) (folds c vals)
                (snd (run c vals))
                (samples (core (fst (run c vals))))
                (sumAD4020 (core (fst (run c vals)))).
Proof.
  intros HN Hvals c Ho Ht Hg Hoff Hk Hsum. unfold accumulated.
  destruct (sampleStart (core c)) eqn:Hs.
  - revert c Ho Ht Hg Hoff Hk Hsum Hs.
    induction Hvals as [| v vs Hv Hvs IH];
      intros c Ho Ht Hg Hoff Hk Hsum Hs.
    + exists [], []. cbn. repeat split; auto. lia.
    + cbn [folds run].
      destruct (spectralRead_fold c v)
        as ((C1 & C2 & C3 & C4) & Hskip & Hdrop & _).
      destruct (spectralRead c v) as [c1 o1] eqn:E.
      cbn [fst snd] in *.
      destruct (counted_firing c) eqn:Hcf.
      * destruct (Hdrop eq_refl Hs) as (-> & Hk1 & Hsum1 & Hs1).
        cbn [tl].
        destruct (run_accumulates N t g o vs HN Hvs c1 []
                    (eq_trans C1 Ho) (eq_trans C2 Ht) (eq_trans C3 Hg)
                    (eq_trans C4 Hoff) Hs1 (eq_trans Hk1 Hk) Hsum1
                    ltac:(cbn; lia) (Forall_nil _))
          as (blocks & rest & B1 & B2 & B3 & B4 & B5 & B6).
        destruct (run c1 vs) as [c2 os] eqn:E2. cbn [fst snd] in *.
        exists blocks, rest. repeat split; assumption.
      * destruct (Hskip eq_refl) as (-> & Hk1 & Hsum1 & Hs1).
        destruct (IH c1 (eq_trans C1 Ho) (eq_trans C2 Ht) (eq_trans C3 Hg)
                     (eq_trans C4 Hoff) (eq_trans Hk1 Hk)
                     (eq_trans Hsum1 Hsum) (eq_trans Hs1 Hs))
          as (blocks & rest & B1 & B2 & B3 & B4 & B5 & B6).
        destruct (run c1 vs) as [c2 os] eqn:E2. cbn [fst snd] in *.
        exists blocks, rest. repeat split; assumption.
  - apply (run_accumulates N t g o vals HN Hvals c []); auto.
    + unfold INT32_MAX in HN. cbn. lia.
Qed.

Lemma folds_spectral (vals : list Z) :
  forall c : capture,
    mode c = spectral -> folds c vals = folds003 (core c) vals.
Proof.
  induction vals as [| v vs IH]; intros c Hm; [reflexivity |].
  cbn [folds folds003].
  destruct (spectralRead_spectral c v Hm) as (E1 & _ & E3).
  rewrite <- E1, <- (IH _ E3).
  unfold counted_firing. rewrite Hm. cbn [is_spectral orb].
  rewrite andb_true_r. reflexivity.
Qed.

(** C1.  For every oversample factor [N >= 1], every mode of operation
    and every sequence of raw values, the firings of the sampling
    interrupt that reach the accumulator (the folds) are served as
    follows: with a discard pending ([sampleStart]) the first fold is
    dropped, the remaining folds form consecutive blocks of [N] and a
    shorter rest, and the records produced are exactly one per block,
    namely [RES_AD4020 * gain * mean + offset] for the signal type
    Voltage and the mean itself for Raw, where the mean is the
    truncated integer quotient of the block's sum by [N]; afterwards
    counter and sum hold the rest alone, so both are reset by every
    record.  The same holds for the sketch of unnamed/part_003.  A
    firing with a pending discard yields no record, leaves the counter
    alone, and its effect does not depend on the value read. *)
Theorem C1_oversampling_accumulator :
  forall (c : capture) (N : Z) (vals : list Z) (v0 v1 : Z),
    1 <= N <= INT32_MAX ->
    oversamples (core c) = N ->
    samples (core c) = 0 -> sumAD4020 (core c) = 0 ->
    Forall in_int32 vals ->
    let st := core c in
    let T := fun mean : Z =>
      match signalType st with
      | signalVoltage =>
          to_float
            (b64_add (b64_mul (b64_mul RES_AD4020 (to_double (gainAD4020 st)))
                              (b64_of_Z mean))
                     (to_double (offsetAD4020 st)))
      | signalRaw => b32_of_Z mean
      end in
    accumulated N T (sampleStart st) (folds c vals)
                (snd (run c vals))
                (samples (core (fst (run c vals))))
                (sumAD4020 (core (fst (run c vals))))
    /\ accumulated N T (sampleStart st) (folds003 st vals)
                   (snd (Part003.run st vals))
                   (samples (fst (Part003.run st vals)))
                   (sumAD4020 (fst (Part003.run st vals)))
    /\ (sampleStart st = true ->
        snd (spectralRead c v0) = None
        /\ samples (core (fst (spectralRead c v0))) = samples st
        /\ spectralRead c v0 = spectralRead c v1
        /\ snd (Part003.spectralRead st v0) = None
        /\ samples (fst (Part003.spectralRead st v0)) = samples st
        /\ Part003.spectralRead st v0 = Part003.spectralRead st v1).
Proof.
  intros c N vals v0 v1 HN Ho Hk Hsum Hvals st T.
  assert (HT : corrected (signalType st) (gainAD4020 st) (offsetAD4020 st)
               = T)
    by (subst T; unfold corrected; destruct (signalType st); reflexivity).
  split; [| split].
  - rewrite <- HT.
    apply (run_accumulated N _ _ _ vals HN Hvals c); auto.
  - rewrite <- HT.
    pose proof (run_accumulated N (signalType st) (gainAD4020 st)
                  (offsetAD4020 st) vals HN Hvals (lift st)
                  Ho eq_refl eq_refl eq_refl Hk Hsum) as H.
    destruct (run_spectral vals (lift st) eq_refl) as (R1 & R2 & _).
    rewrite (folds_spectral vals (lift st) eq_refl) in H.
    rewrite R1, R2 in H. exact H.
  - intros Hs.
    destruct (discard_in_every_mode c v0 v1 Hs) as (D1 & D2 & D3).
    destruct (discard_in_every_mode (lift st) v0 v1 Hs) as (L1 & L2 & L3).
    destruct (spectralRead_spectral (lift st) v0 eq_refl) as (S1 & S2 & _).
    destruct (spectralRead_spectral (lift st) v1 eq_refl) as (S3 & S4 & _).
    cbn [lift core] in *.
    repeat split; try assumption.
    + rewrite <- S2. exact L1.
    + rewrite <- S1. exact L2.
    + rewrite (surjective_pairing (Part003.spectralRead st v0)),
              (surjective_pairing (Part003.spectralRead st v1)).
      rewrite <- S1, <- S2, <- S3, <- S4, L3. reflexivity.
Qed.

(** Two concrete runs with factor 2 and a pending discard, in the
    spectral mode and in the pulse mode (where the first firing finds
    the converter not ready). *)
Lemma C1_oversampling_accumulator_witness :
  let T := fun mean : Z =>
    to_float (b64_add (b64_mul (b64_mul RES_AD4020 (to_double (b32_of_Z 1)))
                               (b64_of_Z mean))
                      (to_double f32_zero)) in
  let vals := [999; 10; 21; -4; -3] in
  let c := on_core (set_oversamples 2) capture_init in
  let p := set_mode shortPulse c in
  (accumulated 2 T true (folds c vals) (snd (run c vals))
               (samples (core (fst (run c vals))))
               (sumAD4020 (core (fst (run c vals))))
   /\ folds c vals = vals
   /\ snd (run c vals) = [T 15; T (-3)])
  /\ (accumulated 2 T true (folds p vals) (snd (run p vals))
                  (samples (core (fst (run p vals))))
                  (sumAD4020 (core (fst (run p vals))))
      /\ folds p vals = [10; 21; -4; -3]
      /\ snd (run p vals) = [T 8]).
Proof.
  intros T vals c p.
  assert (Hv : Forall in_int32 vals)
    by (repeat constructor; unfold in_int32; lia).
  assert (HN : 1 <= 2 <= INT32_MAX) by (unfold INT32_MAX; lia).
  split; (split; [| split; vm_compute; reflexivity]).
  - exact (proj1 (C1_oversampling_accumulator c 2 vals 0 0 HN eq_refl
                    eq_refl eq_refl Hv)).
  - exact (proj1 (C1_oversampling_accumulator p 2 vals 0 0 HN eq_refl
                    eq_refl eq_refl Hv)).
Defined.

(** ** C10: the mean is the truncated integer quotient *)

Lemma emit_output (c : capture) (val : Z) :
  full (core c) = false -> pulse_gate c = None ->
  sampleStart (core c) = false ->
  oversamples (core c) <= int32 (samples (core c) + 1) ->
  snd (spectralRead c val) =
  Some (corrected (signalType (core c)) (gainAD4020 (core c))
          (offsetAD4020 (core c))
          (int64 (Z.quot (int64 (sumAD4020 (core c) + val))
                         (oversamples (core c))))).
Proof.
  intros Hf Hg Hs Hle. unfold spectralRead.
  rewrite Hf, Hg. destruct c as [a m r w]. destruct a. simpl in *. subst.
  destruct (Z.leb_spec oversamples0 (int32 (samples0 + 1))); [| lia].
  simpl.
  destruct (negb (is_spectral m) && (r =? 1)); simpl;
    destruct (is_spectral m || negb w); simpl;
    match goal with
    | |- context [if ?b then _ else _] => destruct b
    end; reflexivity.
Qed.

(** C10.  When the oversample target is reached, the record stored is
    computed from the quotient of the 64-bit sum by [N] truncated toward
    zero: its magnitude is the floor of [|sum| / N] and its sign that of
    the sum; a sum with [|sum| < N] is reported as 0. *)
Theorem C10_mean_truncates_toward_zero :
  forall (c : capture) (val : Z),
    full (core c) = false -> sampleStart (core c) = false ->
    pulse_gate c = None ->
    1 <= oversamples (core c) ->
    0 <= samples (core c) < INT32_MAX ->
    oversamples (core c) <= samples (core c) + 1 ->
    let st := core c in
    let s := int64 (sumAD4020 st + val) in
    let N := oversamples st in
    let q := Z.sgn s * (Z.abs s / N) in
    snd (Part003.spectralRead st val)
    = Some (corrected (signalType st) (gainAD4020 st) (offsetAD4020 st) q)
    /\ snd (spectralRead c val)
       = Some (corrected (signalType st) (gainAD4020 st) (offsetAD4020 st) q)
    /\ Z.quot s N = q
    /\ (N * Z.abs q <= Z.abs s < N * Z.abs q + N)
    /\ (Z.abs s < N -> q = 0).
Proof.
  intros c val Hf Hs Hg HN Hk Hle st s N q.
  fold st in Hf, Hs, HN, Hk, Hle. fold N in HN, Hle.
  assert (Hi32 : int32 (samples st + 1) = samples st + 1).
  { apply int32_id. unfold in_int32, INT32_MAX in *. pow_consts. lia. }
  assert (Hq : Z.quot s N = q) by (apply quot_sgn_abs; lia).
  assert (Hi64 : int64 (Z.quot s N) = Z.quot s N).
  { apply int64_id, quot_in_int64; [apply int64_range | lia]. }
  split; [| split; [| split; [| split]]].
  - rewrite emit_step by (auto; rewrite Hi32; auto).
    fold st s N. simpl snd. now rewrite Hi64, Hq.
  - rewrite emit_output by (auto; fold st; rewrite Hi32; auto).
    fold st s N. now rewrite Hi64, Hq.
  - exact Hq.
  - subst q.
    assert (H0 : 0 <= Z.abs s / N) by (apply Z.div_pos; lia).
    pose proof (Z.mul_div_le (Z.abs s) N ltac:(lia)).
    pose proof (Z.mul_succ_div_gt (Z.abs s) N ltac:(lia)).
    destruct (Z.lt_trichotomy s 0) as [Hs0 | [Hs0 | Hs0]].
    + rewrite (Z.sgn_neg s Hs0). lia.
    + rewrite Hs0 in *. simpl in *. rewrite Z.div_0_l in * by lia. lia.
    + rewrite (Z.sgn_pos s Hs0). lia.
  - intros Hsmall. subst q. rewrite Z.div_small by lia. lia.
Qed.

(** A sum of -3 over four samples is reported as 0, not as -1. *)
Lemma C10_mean_truncates_toward_zero_witness :
  let c := on_core (fun a => set_sampleStart false
                      (set_samples 3 (set_sumAD4020 (-5)
                         (set_oversamples 4 a)))) capture_init in
  snd (spectralRead c 2)
  = Some (corrected signalVoltage (b32_of_Z 1) f32_zero 0).
Proof.
  intros c.
  refine (proj1 (proj2 (C10_mean_truncates_toward_zero c 2 _ _ _ _ _ _))).
  - reflexivity.
  - reflexivity.
  - reflexivity.
  - simpl. lia.
  - unfold INT32_MAX. simpl. lia.
  - simpl. lia.
Defined.

(** ** C5: hand-off to the host *)

(** C5.  When the buffer is full, the sampling interrupt returns at once
    and leaves everything as it is, and [sendDataToPC] always resets the
    write position, re-arms the discard and clears [full], so the
    interrupt is admitted again at its next firing; the buffer is
    transmitted exactly when a request is pending, and then the request
    is cleared; without a request nothing is sent and the content is
    left to be overwritten. *)
Theorem C5_drop_or_transmit :
  forall c : capture,
    full (core c) = true ->
    let st := core c in
    let c' := fst (sendDataToPC c) in
    let st' := fst (Part003.sendDataToPC st) in
    (bufPos (core c') = 0 /\ full (core c') = false
     /\ sampleStart (core c') = true /\ request (core c') = false
     /\ bufAD4020 (core c') = bufAD4020 st)
    /\ (bufPos st' = 0 /\ full st' = false /\ sampleStart st' = true
        /\ request st' = false /\ bufAD4020 st' = bufAD4020 st)
    /\ (request st = false ->
        snd (sendDataToPC c) = None /\ snd (Part003.sendDataToPC st) = None)
    /\ (request st = true ->
        snd (sendDataToPC c) = Some (T4sw (bufAD4020 st) (bufLen st))
        /\ snd (Part003.sendDataToPC st)
           = Some (T4sw (bufAD4020 st) (bufLen st)))
    /\ (forall v,
          spectralRead c v = (c, None)
          /\ Part003.spectralRead st v = (st, None)).
Proof.
  intros c Hf st c' st'. subst st c' st'.
  unfold sendDataToPC, Part003.sendDataToPC.
  unfold spectralRead, Part003.spectralRead.
  destruct c as [a m r w]. destruct a. simpl in *. subst.
  destruct request0; simpl; repeat split; auto; discriminate.
Qed.

(** A full buffer without a pending request is dropped. *)
Lemma C5_drop_or_transmit_witness :
  let c := on_core (set_full true) capture_init in
  snd (sendDataToPC c) = None /\ full (core (fst (sendDataToPC c))) = false.
Proof.
  intros c.
  pose proof (C5_drop_or_transmit c eq_refl) as H.
  split.
  - exact (proj1 (proj1 (proj2 (proj2 H)) eq_refl)).
  - exact (proj1 (proj2 (proj1 H))).
Defined.

Lemma sendDataToPC_not_full (c : capture) :
  full (core c) = false ->
  sendDataToPC c = (c, None)
  /\ Part003.sendDataToPC (core c) = (core c, None).
Proof.
  intros Hf. unfold sendDataToPC, Part003.sendDataToPC. now rewrite Hf.
Qed.

(** ** C4: the fill cycle of the capture buffer (unnamed/part_003) *)

Lemma run_full (vs : list Z) (st : acq) :
  full st = true -> Part003.run st vs = (st, []).
Proof.
  intros Hf. induction vs as [| v vs IH]; simpl; [reflexivity |].
  rewrite full_step by exact Hf. now rewrite IH.
Qed.

Lemma Forall_firstn {A : Type} (P : A -> Prop) (n : nat) (l : list A) :
  Forall P l -> Forall P (firstn n l).
Proof.
  intros H. revert n. induction H as [| x l Hx _ IH]; intros [| n]; simpl;
    auto.
Qed.

Lemma cursor_monotone (st : acq) (v : Z) :
  0 <= bufPos st <= maxLen ->
  bufPos st <= bufPos (fst (Part003.spectralRead st v)).
Proof.
  intros Hp. unfold maxLen in Hp. unfold Part003.spectralRead.
  destruct st; simpl in *.
  assert (int32 (bufPos0 + 4) = bufPos0 + 4)
    by (apply int32_id; unfold in_int32; pow_consts; lia).
  repeat match goal with
         | |- context [if ?b then _ else _] => destruct b; simpl
         end; lia.
Qed.

(** With a configured length of 0 a record is stored all the same. *)
Lemma C4_counterexample :
  let st := set_sampleStart false
              (fst (Part003.checkUpdateUSB acq_init (Part003.settingSize 0))) in
  let st' := fst (Part003.spectralRead st 7) in
  bufLen st = 0 /\ full st = false
  /\ snd (Part003.spectralRead st 7) <> None
  /\ bufPos st' = 4 /\ full st' = true.
Proof.
  vm_compute. repeat split; discriminate.
Qed.

(** C4 (amended).  For a configured length of [4 k] bytes, [k >= 1],
    the flag [full] is clear after each of the first [k - 1] records of
    a fill cycle and set by the [k]-th, with the cursor at the
    configured length; while it is set the interrupt changes nothing,
    whatever it reads; the cursor never moves back in the interrupt and
    is reset by [sendDataToPC]. *)
Theorem C4_fill_cycle :
  forall (st : acq) (N : Z) (blocks : list (list Z)),
    1 <= N <= INT32_MAX ->
    oversamples st = N -> samples st = 0 -> sumAD4020 st = 0 ->
    sampleStart st = false -> full st = false -> bufPos st = 0 ->
    0 < bufLen st <= maxLen ->
    bufLen st = 4 * Z.of_nat (length blocks) ->
    Forall (block_ok N) blocks ->
    (forall j : nat, (j < length blocks)%nat ->
       let s := fst (Part003.run st (concat (firstn j blocks))) in
       full s = false /\ bufPos s = 4 * Z.of_nat j)
    /\ (let s := fst (Part003.run st (concat blocks)) in
        full s = true /\ bufPos s = bufLen st
        /\ (forall v, Part003.spectralRead s v = (s, None))
        /\ (forall vs, Part003.run s vs = (s, []))
        /\ bufPos (fst (Part003.sendDataToPC s)) = 0
        /\ full (fst (Part003.sendDataToPC s)) = false)
    /\ (forall (a : acq) (v : Z),
          0 <= bufPos a <= maxLen ->
          bufPos a <= bufPos (fst (Part003.spectralRead a v))).
Proof.
  intros st N blocks HN HoN Hk Hsum Hs Hf Hp Hl Hlen Hall.
  assert (HN1 : 1 <= oversamples st <= INT32_MAX) by now rewrite HoN.
  assert (Hall1 : Forall (block_ok (oversamples st)) blocks)
    by now rewrite HoN.
  assert (Hp0 : 0 <= bufPos st) by lia.
  assert (Hl1 : bufLen st <= maxLen) by lia.
  split; [| split].
  - intros j Hj s. subst s.
    assert (Hlj : length (firstn j blocks) = j)
      by (rewrite length_firstn; lia).
    assert (Hroom : bufPos st + 4 * Z.of_nat (length (firstn j blocks))
                    < bufLen st + 4) by (rewrite Hlj; lia).
    rewrite (blocks_run _ st Hf Hs HN1 Hk Hsum Hp0 Hl1 Hroom
                        (Forall_firstn _ j _ Hall1)).
    destruct (stored_all_spec _ st Hf Hp0 Hl1 Hroom) as (A & B & _).
    simpl fst. rewrite A, B, Hlj, Hp.
    split; [| lia].
    destruct (firstn j blocks); [reflexivity |].
    apply Z.leb_gt. lia.
  - assert (Hroom : bufPos st + 4 * Z.of_nat (length blocks)
                    < bufLen st + 4) by lia.
    rewrite (blocks_run _ st Hf Hs HN1 Hk Hsum Hp0 Hl1 Hroom Hall1).
    destruct (stored_all_spec _ st Hf Hp0 Hl1 Hroom) as (A & B & _).
    simpl fst.
    assert (Hfull : full (stored_all st blocks) = true).
    { rewrite B. destruct blocks; [simpl in Hlen; lia |].
      apply Z.leb_le. lia. }
    repeat split.
    + exact Hfull.
    + rewrite A. lia.
    + intros v. now apply full_step.
    + intros vs. now apply run_full.
    + unfold Part003.sendDataToPC. rewrite Hfull. simpl.
      now destruct (request (stored_all st blocks)).
    + unfold Part003.sendDataToPC. rewrite Hfull. simpl.
      now destruct (request (stored_all st blocks)).
  - intros a v. apply cursor_monotone.
Qed.

(** A buffer of two records filled with a factor of 1. *)
Lemma C4_fill_cycle_witness :
  let st := set_sampleStart false (set_bufLen 8 acq_init) in
  full (fst (Part003.run st [5])) = false
  /\ full (fst (Part003.run st [5; 6])) = true.
Proof.
  intros st.
  pose proof (C4_fill_cycle st 1 [[5]; [6]]) as H.
  assert (H1 : 1 <= 1 <= INT32_MAX) by (unfold INT32_MAX; lia).
  assert (H2 : 0 < bufLen st <= maxLen) by (unfold maxLen; simpl; lia).
  assert (H3 : Forall (block_ok 1) [[5]; [6]])
    by (repeat constructor; unfold in_int32; lia).
  specialize (H H1 eq_refl eq_refl eq_refl eq_refl eq_refl eq_refl H2
                eq_refl H3).
  split.
  - exact (proj1 (proj1 H 1%nat ltac:(simpl; lia))).
  - exact (proj1 (proj1 (proj2 H))).
Defined.

(** ** C9: the record format and the configured length *)

Lemma land_255 (x : Z) : Z.land x 255 = x mod 256.
Proof. change 255 with (Z.ones 8). now rewrite Z.land_ones by lia. Qed.

Lemma byte_at_range (k w : Z) : 0 <= byte_at k w < 256.
Proof. unfold byte_at. rewrite land_255. apply Z.mod_pos_bound. lia. Qed.

(** The four bytes, read back least significant first, are the low 32
    bits of the encoding. *)
Lemma bytes_le32 (w : Z) :
  byte_at 0 w + 2 ^ 8 * byte_at 1 w + 2 ^ 16 * byte_at 2 w
  + 2 ^ 24 * byte_at 3 w = w mod 2 ^ 32.
Proof.
  unfold byte_at. rewrite !land_255, !Z.shiftr_div_pow2 by lia.
  change (2 ^ (8 * 0)) with 1. change (2 ^ (8 * 1)) with 256.
  change (2 ^ (8 * 2)) with (256 * 256).
  change (2 ^ (8 * 3)) with (256 * 256 * 256).
  change (2 ^ 8) with 256. change (2 ^ 16) with 65536.
  change (2 ^ 24) with 16777216. change (2 ^ 32) with 4294967296.
  rewrite Z.div_1_r.
  rewrite <- !Z.div_div by lia.
  set (w1 := w / 256). set (w2 := w1 / 256). set (w3 := w2 / 256).
  pose proof (Z.div_mod w 256 ltac:(lia)) as E0.
  pose proof (Z.div_mod w1 256 ltac:(lia)) as E1.
  pose proof (Z.div_mod w2 256 ltac:(lia)) as E2.
  pose proof (Z.div_mod w3 256 ltac:(lia)) as E3.
  fold w1 in E0. fold w2 in E1. fold w3 in E2.
  pose proof (Z.mod_pos_bound w 256 ltac:(lia)).
  pose proof (Z.mod_pos_bound w1 256 ltac:(lia)).
  pose proof (Z.mod_pos_bound w2 256 ltac:(lia)).
  pose proof (Z.mod_pos_bound w3 256 ltac:(lia)).
  apply (Z.mod_unique w 4294967296 (w3 / 256)); lia.
Qed.

Lemma store_record_bytes (buf : Z -> Z) (p : Z) (v : float32) :
  let buf' := store_record buf p v in
  buf' p = LBYTE v /\ buf' (p + 1) = HBYTE v
  /\ buf' (p + 2) = H2BYTE v /\ buf' (p + 3) = H3BYTE v
  /\ (forall j, j < p \/ p + 3 < j -> buf' j = buf j).
Proof.
  unfold store_record, upd. repeat split.
  - repeat match goal with
           | |- context [?a =? ?b] => destruct (Z.eqb_spec a b); try lia
           end; reflexivity.
  - repeat match goal with
           | |- context [?a =? ?b] => destruct (Z.eqb_spec a b); try lia
           end; reflexivity.
  - repeat match goal with
           | |- context [?a =? ?b] => destruct (Z.eqb_spec a b); try lia
           end; reflexivity.
  - repeat match goal with
           | |- context [?a =? ?b] => destruct (Z.eqb_spec a b); try lia
           end; reflexivity.
  - intros j Hj.
    repeat match goal with
           | |- context [?a =? ?b] => destruct (Z.eqb_spec a b); try lia
           end; reflexivity.
Qed.

(** What a firing that stores a record does to buffer and cursor. *)
Lemma spectralRead_output (c c' : capture) (val : Z) (v : float32) :
  spectralRead c val = (c', Some v) ->
  bufAD4020 (core c') = store_record (bufAD4020 (core c)) (bufPos (core c)) v
  /\ voltageAD4020 (core c') = v
  /\ bufPos (core c') =
     (if is_spectral (mode c) || negb (wait c)
      then int32 (bufPos (core c) + 4) else bufPos (core c))
  /\ samples (core c') = 0 /\ sumAD4020 (core c') = 0.
Proof.
  unfold spectralRead, pulse_gate.
  destruct c as [a m r w]. destruct a. destruct m, w; simpl.
  all: repeat match goal with
         | |- context [if ?b then _ else _] =>
             destruct b eqn:?; simpl; try discriminate
         end;
    intros E; inversion E; subst; simpl; auto.
Qed.

Lemma uint32_int32 (x : Z) : uint32 (int32 x) = x mod 2 ^ 32.
Proof.
  unfold uint32, int32, wrap. pow_consts.
  rewrite Zminus_mod_idemp_l. f_equal. lia.
Qed.

Lemma min_u32_nonneg (n : Z) :
  0 <= n < 2 ^ 30 -> min_u32 (int32 (4 * n)) maxLen = Z.min (4 * n) maxLen.
Proof.
  intros Hn. unfold min_u32. rewrite uint32_int32.
  change (2 ^ 30) with 1073741824 in Hn.
  rewrite Z.mod_small by (pow_consts; lia).
  unfold maxLen.
  destruct (Z.ltb_spec (4 * n) (4 * 32768)); lia.
Qed.

(** Whatever is requested, the configured length is a multiple of 4 and
    does not exceed the buffers. *)
Lemma min_u32_bounds (n : Z) :
  0 <= min_u32 (int32 (4 * n)) maxLen <= maxLen
  /\ (min_u32 (int32 (4 * n)) maxLen) mod 4 = 0.
Proof.
  unfold min_u32. rewrite uint32_int32. unfold maxLen. pow_consts.
  pose proof (Z.mod_pos_bound (4 * n) 4294967296 ltac:(lia)).
  assert (E : (4 * n) mod 4294967296 = 4 * (n mod 1073741824)).
  { change 4294967296 with (4 * 1073741824).
    rewrite Z.mul_mod_distr_l by lia. reflexivity. }
  destruct (Z.ltb_spec ((4 * n) mod 4294967296) (4 * 32768)).
  - split; [lia |]. rewrite E, Z.mul_comm. apply Z.mod_mul. lia.
  - split; [lia | reflexivity].
Qed.

Lemma digits2_pos_bounds (m : positive) :
  2 ^ (Zpos (digits2_pos m) - 1) <= Zpos m < 2 ^ Zpos (digits2_pos m).
Proof.
  induction m as [p IH | p IH |]; cbn [digits2_pos].
  - rewrite Pos2Z.inj_succ.
    replace (Z.succ (Zpos (digits2_pos p)) - 1)
      with (Z.succ (Zpos (digits2_pos p) - 1)) by lia.
    rewrite !Z.pow_succ_r by lia. lia.
  - rewrite Pos2Z.inj_succ.
    replace (Z.succ (Zpos (digits2_pos p)) - 1)
      with (Z.succ (Zpos (digits2_pos p) - 1)) by lia.
    rewrite !Z.pow_succ_r by lia. lia.
  - simpl. lia.
Qed.

(** The encoding of a valid binary32 value fits 32 bits. *)
Lemma bits32_range (v : float32) :
  valid_binary 24 128 v = true -> 0 <= bits32 v < 2 ^ 32.
Proof.
  destruct v as [s | s | | s m e]; cbn [valid_binary bits32].
  - intros _. destruct s; simpl; lia.
  - intros _. destruct s; simpl; lia.
  - intros _. simpl; lia.
  - unfold bounded, canonical_mantissa, fexp, emin.
    intros H. apply andb_prop in H. destruct H as [H1 H2].
    apply Z.eqb_eq in H1. apply Z.leb_le in H2.
    pose proof (digits2_pos_bounds m) as Hd.
    set (d := Zpos (digits2_pos m)) in *.
    assert (Hd0 : 1 <= d) by (subst d; lia).
    change (2 ^ 23) with 8388608. pow_consts.
    assert (Hs : 0 <= (if s then 2147483648 else 0) <= 2147483648)
      by (destruct s; lia).
    destruct (Z.leb_spec 8388608 (Zpos m)) as [Hn | Hn].
    + (* normal *)
      assert (d = 24).
      { destruct (Z.le_gt_cases d 23) as [Hle | Hgt].
        - pose proof (Z.pow_le_mono_r 2 d 23 ltac:(lia) Hle) as Hp.
          change (2 ^ 23) with 8388608 in Hp. lia.
        - lia. }
      assert (Hm : Zpos m < 16777216).
      { replace d with 24 in Hd by lia.
        change (2 ^ 24) with 16777216 in Hd. lia. }
      lia.
    + lia.
Qed.

(** A negative request selects the full length, and a request of 2^30
    samples the length 0. *)
Lemma C9_counterexample :
  let configured (n : Z) :=
    bufLen (core (cap (fst (checkUpdateUSB (fun x => x) (fun x => x)
                              (system_init no_coeffs) (settingSize n))))) in
  (configured (-1) = maxLen /\ Z.min (4 * (-1)) maxLen = -4)
  /\ (configured (2 ^ 30) = 0 /\ Z.min (4 * 2 ^ 30) maxLen = maxLen).
Proof. vm_compute. repeat split. Qed.

(** C9 (amended).  A firing that stores a record writes the four bytes
    of the float's encoding at the cursor, least significant first (read
    back little-endian they give the 32-bit encoding), and nothing else;
    the cursor then stands 4 further (or is held, while a pulse mode
    waits); a request for [n] samples, [0 <= n < 2^30], sets the length
    to [4 n] bytes clamped to [maxLen = 4 * 32768]. *)
Theorem C9_record_format :
  forall (fsin fcos : float64 -> float64) (s : system)
         (c c' : capture) (val n : Z) (v : float32),
    0 <= bufPos (core c) <= maxLen - 4 ->
    spectralRead c val = (c', Some v) ->
    0 <= n < 2 ^ 30 ->
    let p := bufPos (core c) in
    let buf' := bufAD4020 (core c') in
    (buf' p = byte_at 0 (bits32 v) /\ buf' (p + 1) = byte_at 1 (bits32 v)
     /\ buf' (p + 2) = byte_at 2 (bits32 v)
     /\ buf' (p + 3) = byte_at 3 (bits32 v))
    /\ le32 buf' p = bits32 v mod 2 ^ 32
    /\ (valid_binary 24 128 v = true -> le32 buf' p = bits32 v)
    /\ (forall j, j < p \/ p + 3 < j -> buf' j = bufAD4020 (core c) j)
    /\ bufPos (core c') =
       (if is_spectral (mode c) || negb (wait c) then p + 4 else p)
    /\ bufLen (core (cap (fst (checkUpdateUSB fsin fcos s (settingSize n)))))
       = Z.min (4 * n) maxLen
    /\ maxLen = 131072.
Proof.
  intros fsin fcos s c c' val n v Hp Hout Hn p buf'.
  destruct (spectralRead_output c c' val v Hout) as (Hb & _ & Hpos & _).
  destruct (store_record_bytes (bufAD4020 (core c)) p v)
    as (B0 & B1 & B2 & B3 & Bo).
  subst buf'. rewrite Hb. fold p.
  split; [repeat split; assumption |].
  assert (Hle : le32 (store_record (bufAD4020 (core c)) p v) p
                = bits32 v mod 2 ^ 32).
  { unfold le32. rewrite B0, B1, B2, B3.
    unfold LBYTE, HBYTE, H2BYTE, H3BYTE. apply bytes_le32. }
  split; [exact Hle |].
  split.
  - intros Hv. rewrite Hle. apply Z.mod_small. now apply bits32_range.
  - split; [exact Bo |]. split; [| split; [| reflexivity]].
    + rewrite Hpos. fold p.
      rewrite int32_id; [reflexivity |].
      unfold in_int32, maxLen in *. pow_consts. lia.
    + simpl. apply min_u32_nonneg. exact Hn.
Qed.

(** The first record of the sketch, and a request for 50 samples. *)
Lemma C9_record_format_witness :
  let c := on_core (set_sampleStart false) capture_init in
  bufPos (core (fst (spectralRead c 52429))) = 4
  /\ bufLen (core (cap (fst (checkUpdateUSB (fun x => x) (fun x => x)
                               (system_init no_coeffs) (settingSize 50)))))
     = 200.
Proof.
  intros c.
  pose proof (C9_record_format (fun x => x) (fun x => x)
                (system_init no_coeffs) c (fst (spectralRead c 52429))
                52429 50 (voltageAD4020 (core (fst (spectralRead c 52429)))))
    as H.
  assert (H1 : 0 <= bufPos (core c) <= maxLen - 4)
    by (unfold maxLen; simpl; lia).
  assert (H2 : 0 <= 50 < 2 ^ 30) by lia.
  specialize (H H1 eq_refl H2).
  split.
  - exact (proj1 (proj2 (proj2 (proj2 (proj2 H))))).
  - exact (proj1 (proj2 (proj2 (proj2 (proj2 (proj2 H)))))).
Defined.

(** ** C8: the scale filter *)

Lemma shiftr_32_bounds (z : Z) :
  2 ^ 32 * Z.shiftr z 32 <= z < 2 ^ 32 * (Z.shiftr z 32 + 1).
Proof.
  rewrite Z.shiftr_div_pow2 by lia. pow_consts.
  pose proof (Z.mul_div_le z 4294967296 ltac:(lia)).
  pose proof (Z.mul_succ_div_gt z 4294967296 ltac:(lia)).
  lia.
Qed.

(** The result of the integer path is returned as a [float]: for the
    factor 1.0 and the raw value 2^25 + 3 it is 2^25 + 4, above [k * x];
    and for the factor 2.0 and the raw value 2^30 the 64-bit product
    wraps and the result is -2^31. *)
Lemma C8_counterexample :
  Scale.scale_fixed 33554435 (fun _ => 2 ^ 32) = 33554435
  /\ trunc_Z (Scale.proc_scale_int 33554435 (fun _ => 2 ^ 32)) = 33554436
  /\ trunc_Z (Scale.proc_scale_int (2 ^ 30) (fun _ => 2 ^ 33)) = - 2 ^ 31.
Proof. vm_compute. repeat split. Qed.

(** C8 (amended).  The float path is the single IEEE product
    [value * props[0]]; with the factor 2.0 it maps the floats 0.1, 0.2,
    -0.3 to the floats 0.2, 0.4, -0.6.  The integer path returns the
    float conversion of [q = (x * k_fixed) >> 32], and, when the product
    fits the 64-bit arithmetic, [q <= x * k_fixed / 2^32 < q + 1]. *)
Theorem C8_scale :
  forall (value : float32) (fprops : Z -> float32) (x : Z) (props : Z -> Z),
    in_int32 x -> in_int64 (props 0) -> in_int64 (x * props 0) ->
    Scale.proc_scale value fprops = b32_mul value (fprops 0)
    /\ map (fun v => Scale.proc_scale v (fun _ => b32_of_Z 2))
           [dec32 1 10; dec32 2 10; dec32 (-3) 10]
       = [dec32 2 10; dec32 4 10; dec32 (-6) 10]
    /\ (let q := Z.shiftr (x * props 0) 32 in
        Scale.proc_scale_int x props = b32_of_Z q
        /\ 2 ^ 32 * q <= x * props 0 < 2 ^ 32 * (q + 1)).
Proof.
  intros value fprops x props Hx Hk Hprod.
  split; [reflexivity |]. split; [vm_compute; reflexivity |].
  intros q. split.
  - unfold Scale.proc_scale_int, Scale.scale_fixed.
    now rewrite int64_id by exact Hprod.
  - apply shiftr_32_bounds.
Qed.

(** The factor 1/3 in fixed point applied to 10 and to -10. *)
Lemma C8_scale_witness :
  Scale.proc_scale_int 10 (fun _ => 1431655765) = b32_of_Z 3
  /\ Scale.proc_scale_int (-10) (fun _ => 1431655765) = b32_of_Z (-4).
Proof.
  split.
  - refine (proj1 (proj2 (proj2 (C8_scale f32_zero (fun _ => f32_zero)
                                   10 (fun _ => 1431655765) _ _ _))));
      unfold in_int32, in_int64; pow_consts; lia.
  - refine (proj1 (proj2 (proj2 (C8_scale f32_zero (fun _ => f32_zero)
                                   (-10) (fun _ => 1431655765) _ _ _))));
      unfold in_int32, in_int64; pow_consts; lia.
Defined.

(** ** C6: the moving average *)

Lemma avg_index_range (idb i : Z) :
  0 <= idb < Nmax -> 0 <= i < Nmax -> 0 <= avg_index idb i < Nmax.
Proof.
  unfold avg_index, Nmax. intros H1 H2.
  destruct (Z.leb_spec 0 (idb - i)); lia.
Qed.

Lemma avg_sum_reads (d : Z -> float32) (idb : Z) (n : nat) :
  forall (i : Z) (s : float32 * list Z),
    0 <= idb < Nmax -> 0 <= i -> i + Z.of_nat n <= Nmax ->
    Forall (fun k => 0 <= k < Nmax) (snd s) ->
    let r := for_up n i (Avg003.avg_step d idb) s in
    Forall (fun k => 0 <= k < Nmax) (snd r)
    /\ length (snd r) = (n + length (snd s))%nat.
Proof.
  induction n as [| n IH]; intros i s Hidb Hi Hn Hall; simpl.
  - auto.
  - destruct (IH (i + 1) (Avg003.avg_step d idb i s)) as [A B]; try lia.
    + simpl. constructor; [| exact Hall]. apply avg_index_range; lia.
    + split; [exact A |]. rewrite B. simpl. lia.
Qed.

(** The version of unnamed/part_003 clamps the count and stays inside
    the ring. *)
Lemma avg003_clamped (st : avg_state) (value : float32) (samples : Z) :
  0 <= idbuffer st < Nmax ->
  let n := Avg003.clamp_samples samples in
  let r := Avg003.proc_avg_reads st value samples in
  1 <= n <= Nmax
  /\ Forall (fun k => 0 <= k < Nmax) (snd r)
  /\ Z.of_nat (length (snd r)) = n
  /\ snd (fst r)
     = b32_div (fst (Avg003.avg_sum (upd (dbuffer st) (idbuffer st) value)
                                    (idbuffer st) n))
               (b32_of_Z n)
  /\ 0 <= idbuffer (fst (fst r)) < Nmax.
Proof.
  intros Hidb n r.
  assert (Hn : 1 <= n <= Nmax).
  { subst n. unfold Avg003.clamp_samples, Nmax.
    destruct (Z.ltb_spec 256 samples);
      [simpl; lia | destruct (Z.leb_spec samples 0); lia]. }
  split; [exact Hn |].
  subst r. unfold Avg003.proc_avg_reads. fold n.
  set (d := upd (dbuffer st) (idbuffer st) value).
  destruct (avg_sum_reads d (idbuffer st) (Z.to_nat n) 0 (f32_zero, []))
    as [A B]; simpl; auto; try lia.
  unfold Avg003.avg_sum in *.
  destruct (for_up (Z.to_nat n) 0 _ (f32_zero, [])) as [avg reads] eqn:E.
  simpl in *.
  assert (Hadv : 0 <= avg_advance (idbuffer st) < Nmax).
  { unfold avg_advance, Nmax in *.
    rewrite int32_id by (unfold in_int32; pow_consts; lia).
    destruct (Z.leb_spec 256 (idbuffer st + 1)); lia. }
  repeat split; auto; try lia.
Qed.

(** C6.  The version with the property array (unnamed/part_001) does
    not clamp: with [props[0] = 0] the sum of no slots is divided by
    zero and the result is NaN; with [props[0] = 300] and the ring at
    position 0 the loop runs 300 times and its last iteration reads
    slot -43.  The version of unnamed/part_003, from the same position
    and asked for 300 or for 0 samples, divides by 256 resp. 1. *)
Theorem C6_average_not_clamped :
  let props (n : Z) : Z -> float32 := fun _ => b32_of_Z n in
  let one := b32_of_Z 1 in
  option_map (fun r => (snd (fst r), snd r))
             (Avg.proc_avg_reads avg_init one (props 0))
  = Some (S754_nan, [])
  /\ option_map (fun r => (length (snd r), hd 0 (snd r)))
                (Avg.proc_avg_reads avg_init one (props 300))
     = Some (300%nat, -43)
  /\ Avg003.clamp_samples 300 = 256 /\ Avg003.clamp_samples 0 = 1.
Proof. vm_compute. repeat split. Qed.

(** ** C7: the order of latching in the programmable filter *)

(** In the first two versions and in the lock-in version the [b_0] term
    of the current step is the product with the new input, which is
    latched in slot 0 of the input history; the output is stored as the
    newest output only after all terms have been folded in. *)
Lemma iir1_latches_first (c : iir_coeffs) (st : iir_state) (xn : float32) :
  let r := Iir1.proc_iir c st xn in
  snd r = iir_tail c (y_mul_then_shift c) (ynhist st)
            (b32_add (iir_x_sum c (x_mul_then_shift c) (xnhist st))
                     (b32_mul (bn c 0) xn))
  /\ xnhist (fst r) 0 = xn /\ ynhist (fst r) 0 = snd r.
Proof.
  unfold Iir1.proc_iir, iir_tail, iir_x_sum, iir_finish.
  destruct (for_down _ _ (x_mul_then_shift c) _) as [yx xh]. simpl.
  destruct (for_down _ _ (y_mul_then_shift c) _) as [yy yh]. simpl.
  now rewrite !upd_same.
Qed.

Lemma iir2_latches_first (c : iir_coeffs) (st : iir_state) (xn : float32) :
  let r := Iir2.proc_iir c st xn in
  snd r = iir_tail c (y_mul_then_shift c) (ynhist st)
            (b32_add (iir_x_sum c (x_shift_then_mul c) (xnhist st))
                     (b32_mul (bn c 0) xn))
  /\ xnhist (fst r) 0 = xn /\ ynhist (fst r) 0 = snd r.
Proof.
  unfold Iir2.proc_iir, iir_tail, iir_x_sum, iir_finish.
  destruct (for_down _ _ (x_shift_then_mul c) _) as [yx xh]. simpl.
  rewrite upd_same.
  destruct (for_down _ _ (y_mul_then_shift c) _) as [yy yh]. simpl.
  now rewrite !upd_same.
Qed.

Lemma for_down_x_body (c : iir_coeffs) (n : nat) :
  forall (i : Z) (s t : float32 * (Z -> float32)),
  for_down n i (Iir007.x_body c) (s, t)
  = (for_down n i (x_shift_then_mul c) s,
     for_down n i (x_shift_then_mul c) t).
Proof.
  induction n as [| n IH]; intros i s t; simpl; [reflexivity |].
  unfold Iir007.x_body at 2. simpl. now rewrite IH.
Qed.

Lemma for_down_y_body (c : iir_coeffs) (n : nat) :
  forall (i : Z) (s t : float32 * (Z -> float32)),
  for_down n i (Iir007.y_body c) (s, t)
  = (for_down n i (y_shift_then_mul c) s,
     for_down n i (y_shift_then_mul c) t).
Proof.
  induction n as [| n IH]; intros i s t; simpl; [reflexivity |].
  unfold Iir007.y_body at 2. simpl. now rewrite IH.
Qed.

Lemma iir007_latches_first (c : iir_coeffs) (st : Iir007.state)
  (xn0 xn1 : float32) :
  let r := Iir007.proc_iir c st xn0 xn1 in
  fst (snd r) = iir_tail c (y_shift_then_mul c) (ynhist (Iir007.ch0 st))
                  (b32_add (iir_x_sum c (x_shift_then_mul c)
                                      (xnhist (Iir007.ch0 st)))
                           (b32_mul (bn c 0) xn0))
  /\ snd (snd r) = iir_tail c (y_shift_then_mul c) (ynhist (Iir007.ch1 st))
                     (b32_add (iir_x_sum c (x_shift_then_mul c)
                                         (xnhist (Iir007.ch1 st)))
                              (b32_mul (bn c 0) xn1))
  /\ xnhist (Iir007.ch0 (fst r)) 0 = xn0
  /\ xnhist (Iir007.ch1 (fst r)) 0 = xn1
  /\ ynhist (Iir007.ch0 (fst r)) 0 = fst (snd r)
  /\ ynhist (Iir007.ch1 (fst r)) 0 = snd (snd r).
Proof.
  unfold Iir007.proc_iir, iir_tail, iir_x_sum, iir_finish.
  rewrite for_down_x_body.
  destruct (for_down _ _ (x_shift_then_mul c) (_, xnhist (Iir007.ch0 st)))
    as [y0 xh0].
  destruct (for_down _ _ (x_shift_then_mul c) (_, xnhist (Iir007.ch1 st)))
    as [y1 xh1].
  rewrite for_down_y_body. rewrite !upd_same.
  destruct (for_down _ _ (y_shift_then_mul c) (_, ynhist (Iir007.ch0 st)))
    as [z0 yh0].
  destruct (for_down _ _ (y_shift_then_mul c) (_, ynhist (Iir007.ch1 st)))
    as [z1 yh1].
  simpl. now rewrite !upd_same.
Qed.

(** In the third version the [b_0] term is the product with the old
    slot 0, the previous input: the output of a step does not depend on
    the input of that step. *)
Lemma iir3_latches_last (c : iir_coeffs) (st : iir_state) (xn : float32) :
  let r := Iir3.proc_iir c st xn in
  snd r = iir_tail c (y_shift_then_mul c) (ynhist st)
            (b32_add (iir_x_sum c (x_mul_then_shift c) (xnhist st))
                     (b32_mul (bn c 0)
                        (snd (for_down (down_count (Z.min Niirmax (Nb c) - 1) 0)
                                (Z.min Niirmax (Nb c) - 1)
                                (x_mul_then_shift c)
                                (f32_zero, xnhist st)) 0)))
  /\ xnhist (fst r) 0 = xn /\ ynhist (fst r) 0 = snd r.
Proof.
  unfold Iir3.proc_iir, iir_tail, iir_x_sum, iir_finish.
  destruct (for_down _ _ (x_mul_then_shift c) _) as [yx xh]. simpl.
  destruct (for_down _ _ (y_shift_then_mul c) _) as [yy yh]. simpl.
  now rewrite !upd_same.
Qed.

(** C7.  The version of iir.h, lines 114-137, folds the [b_0] term in
    before it latches the input: its output is the same for every
    current input.  With the tables b = (1, 0), a = (1, 0) of the
    identity filter and an empty history, the input 1.0 yields 0 there
    and 1.0 in the other versions. *)
Theorem C7_third_version_latches_after :
  (forall (c : iir_coeffs) (st : iir_state) (xn xn' : float32),
      snd (Iir3.proc_iir c st xn) = snd (Iir3.proc_iir c st xn'))
  /\ (let c := {| bn := fun i => if i =? 0 then b32_of_Z 1 else f32_zero;
                  Nb := 2;
                  an := fun i => if i =? 0 then b32_of_Z 1 else f32_zero;
                  Na := 2 |} in
      let one := b32_of_Z 1 in
      snd (Iir3.proc_iir c iir_init one) = f32_zero
      /\ snd (Iir1.proc_iir c iir_init one) = one
      /\ snd (Iir2.proc_iir c iir_init one) = one
      /\ snd (Iir007.proc_iir c Iir007.init one one) = (one, one)).
Proof.
  split.
  - intros c st xn xn'.
    destruct (iir3_latches_last c st xn) as [E _].
    destruct (iir3_latches_last c st xn') as [E' _].
    cbv zeta in E, E'. now rewrite E, E'.
  - vm_compute. repeat split.
Qed.

(** ** C2: the six evaluation strategies of the FIR filter *)

Lemma for_up_ext {S : Type} (f g : Z -> S -> S) (n : nat) :
  forall (i : Z) (s : S),
    (forall j t, i <= j < i + Z.of_nat n -> f j t = g j t) ->
    for_up n i f s = for_up n i g s.
Proof.
  induction n as [| n IH]; intros i s H; simpl; [reflexivity |].
  rewrite (H i s) by lia. apply IH. intros j t Hj. apply H. lia.
Qed.

Lemma idx_if_mirror (N p i : Z) (st : Fir.state) (c : Z) :
  mirrored N st -> 0 <= p < N -> 0 <= i < N ->
  Fir.dataBuffer st c (idx_if p N i) = Fir.dataBuffer st c (idx_double p N i)
  /\ Fir.dataBufferInt st c (idx_if p N i)
     = Fir.dataBufferInt st c (idx_double p N i).
Proof.
  intros [_ Hm] Hp Hi. unfold idx_if, idx_double.
  destruct (Z.leb_spec N (p + i)); [| split; reflexivity].
  destruct (Hm c (p + i - N) ltac:(lia)) as [A B].
  replace (p + i - N + N) with (p + i) in * by lia.
  now rewrite A, B.
Qed.

Lemma idx_mod_if (N p i : Z) :
  0 <= p < N -> 0 <= i < N -> idx_mod p N i = idx_if p N i.
Proof.
  intros Hp Hi. unfold idx_mod, idx_if.
  rewrite Z.rem_mod_nonneg by lia.
  destruct (Z.leb_spec N (p + i)).
  - symmetry. apply (Z.mod_unique (p + i) N 1); lia.
  - apply Z.mod_small. lia.
Qed.

(** On a mirrored ring the three addressings read the same samples, so
    the sums coincide. *)
Lemma sums_agree (N : Z) (st : Fir.state) :
  mirrored N st ->
  let p := Fir.fir_bufPos st in
  Fir.float_sum st N (idx_if p N) = Fir.float_sum st N (idx_double p N)
  /\ Fir.float_sum st N (idx_mod p N) = Fir.float_sum st N (idx_double p N)
  /\ Fir.int_sum st N (idx_if p N) = Fir.int_sum st N (idx_double p N)
  /\ Fir.int_sum st N (idx_mod p N) = Fir.int_sum st N (idx_double p N).
Proof.
  intros Hm p. assert (Hp : 0 <= p < N) by apply Hm.
  assert (HN : Z.of_nat (Z.to_nat N) = N) by lia.
  unfold Fir.float_sum, Fir.int_sum.
  repeat split; apply for_up_ext; intros j t Hj;
    unfold Fir.float_step, Fir.int_step;
    rewrite ?idx_mod_if by lia;
    destruct (idx_if_mirror N p j st 0 Hm Hp ltac:(lia)) as [A0 B0];
    destruct (idx_if_mirror N p j st 1 Hm Hp ltac:(lia)) as [A1 B1];
    now rewrite ?A0, ?A1, ?B0, ?B1.
Qed.

Lemma evaluate_agree (N : Z) (st : Fir.state) :
  mirrored N st ->
  Fir.evaluate floatIfModulo N st = Fir.evaluate floatDoubleBuffer N st
  /\ Fir.evaluate floatModulo N st = Fir.evaluate floatDoubleBuffer N st
  /\ Fir.evaluate integerIfModulo N st
     = Fir.evaluate integerDoubleBuffer N st
  /\ Fir.evaluate integerModulo N st
     = Fir.evaluate integerDoubleBuffer N st.
Proof.
  intros Hm. destruct (sums_agree N st Hm) as (A & B & C & D).
  unfold Fir.evaluate. simpl. now rewrite A, B, C, D.
Qed.

Lemma mirrored_init (N : Z) : 1 <= N -> mirrored N Fir.init.
Proof. intros HN. split; simpl; [lia | auto]. Qed.

Lemma mirrored_init_fir (fsin fcos : float64 -> float64) (type N : Z)
  (props : Z -> float32) (st : Fir.state) :
  mirrored N st -> mirrored N (Fir.init_fir fsin fcos type props st).
Proof.
  intros Hm. unfold Fir.init_fir.
  destruct (type =? Fir.FIRlow); [| exact Hm].
  destruct (for_up _ _ _ _) as [fc fci]. exact Hm.
Qed.

Lemma mirrored_push (xn0 xn1 : float32) (raw0 raw1 N : Z) (st : Fir.state) :
  1 <= N < 2 ^ 16 -> mirrored N st ->
  mirrored N (Fir.push xn0 xn1 raw0 raw1 N st).
Proof.
  intros HN [Hp Hm]. split.
  - simpl. rewrite Z.rem_mod_nonneg by lia.
    pose proof (Z.mod_pos_bound (Fir.fir_bufPos st + 1) N ltac:(lia)).
    rewrite uint16_id by lia. lia.
  - intros c j Hj. destruct (Hm c j Hj) as [A B]. simpl.
    unfold upd2.
    repeat match goal with
           | |- context [?a =? ?b] =>
               destruct (Z.eqb_spec a b); try lia; simpl
           end; auto.
Qed.

Lemma with_arith_Nfilter (a : Z) (props : Z -> float32) :
  Nfilter_of (with_arith a props) = Nfilter_of props.
Proof. reflexivity. Qed.

(** A run under two arithmetic kinds that agree on mirrored rings. *)
Lemma run_agree (a b : Z) (props : Z -> float32) :
  1 <= Nfilter_of props ->
  (forall st, mirrored (Nfilter_of props) st ->
     Fir.evaluate (int32 (trunc_Z (b32_of_Z a))) (Nfilter_of props) st
     = Fir.evaluate (int32 (trunc_Z (b32_of_Z b))) (Nfilter_of props) st) ->
  forall xs st,
    mirrored (Nfilter_of props) st ->
    Fir.run (with_arith a props) st xs = Fir.run (with_arith b props) st xs.
Proof.
  intros HN Hev xs. induction xs as [| [[x0 x1] [r0 r1]] xs IH];
    intros st Hm; simpl; [reflexivity |].
  unfold Fir.proc_fir. rewrite !with_arith_Nfilter.
  change (with_arith a props 4) with (b32_of_Z a).
  change (with_arith b props 4) with (b32_of_Z b).
  assert (HN16 : 1 <= Nfilter_of props < 2 ^ 16).
  { split; [exact HN |]. unfold Nfilter_of, uint16.
    apply Z.mod_pos_bound. lia. }
  pose proof (mirrored_push x0 x1 r0 r1 _ st HN16 Hm) as Hm'.
  rewrite (Hev _ Hm'). now rewrite (IH _ Hm').
Qed.

(** With a single tap the coefficient loop is overwritten by the centre
    tap: the tables do not depend on [sin] and [cos]. *)
Lemma init_fir_single_tap (fsin fcos : float64 -> float64)
  (props : Z -> float32) (st : Fir.state) :
  Nfilter_of props = 1 ->
  let ph := b64_div (b64_mul (b64_mul (b64_of_Z 2) PI) (to_double (props 0)))
                    (to_double (props 5)) in
  let st' := Fir.init_fir fsin fcos Fir.FIRlow props st in
  Fir.filtercoeff st' 0 = to_float (b64_div ph PI)
  /\ Fir.filtercoeffInt st' 0
     = int32 (trunc_Z (b64_div (b64_mul (b64_of_Z (2 ^ coeffPrec)) ph) PI)).
Proof.
  intros HN ph st'. subst st'. unfold Fir.init_fir. rewrite HN.
  change (Mfilter_of 1) with 0. simpl Z.eqb. cbv iota.
  destruct (for_up _ _ _ _) as [fc fci]. simpl.
  now rewrite !upd_same.
Qed.

(** Low pass with cut-off 4000 Hz at 40 kHz, one tap, rectangular
    window (the tables then do not depend on [sin] and [cos]), and the
    sample 1000000 on channel 0: the integer strategy returns 199218,
    the float strategy 200000. *)
Lemma C2_counterexample :
  let props : Z -> float32 :=
    fun k => if k =? 0 then b32_of_Z 4000
             else if k =? 2 then b32_of_Z 1
             else if k =? 5 then b32_of_Z 40000 else f32_zero in
  let st0 := Fir.init_fir (fun x => x) (fun x => x) Fir.FIRlow props
                          Fir.init in
  let xs := [((b32_of_Z 1000000, f32_zero), (1000000, 0))] in
  let out (a : Z) := snd (Fir.run (with_arith a props) st0 xs) in
  out integerDoubleBuffer = [(b32_of_Z 199218, f32_zero)]
  /\ out floatDoubleBuffer = [(b32_of_Z 200000, f32_zero)]
  /\ within (b32_of_Z 1) (b32_of_Z 199218) (b32_of_Z 200000) = false
  /\ within (b32_of_Z 781) (b32_of_Z 199218) (b32_of_Z 200000) = false.
Proof. vm_compute. repeat split. Qed.

(** C2 (amended).  From a ring whose two halves agree (the zeroed ring
    of the start, with any coefficients), for every configuration of at
    least one tap and every input sequence, the float if-modulo and
    float modulo strategies return exactly the outputs of the float
    double-buffer strategy, and the integer if-modulo and integer modulo
    strategies exactly those of the integer double-buffer strategy. *)
Theorem C2_strategies_agree_within_family :
  forall (fsin fcos : float64 -> float64) (props : Z -> float32)
         (st : Fir.state) (xs : list ((float32 * float32) * (Z * Z))),
    1 <= Nfilter_of props ->
    mirrored (Nfilter_of props) st ->
    let st0 := Fir.init_fir fsin fcos Fir.FIRlow props st in
    let out (a : Z) := snd (Fir.run (with_arith a props) st0 xs) in
    out floatIfModulo = out floatDoubleBuffer
    /\ out floatModulo = out floatDoubleBuffer
    /\ out integerIfModulo = out integerDoubleBuffer
    /\ out integerModulo = out integerDoubleBuffer.
Proof.
  intros fsin fcos props st xs HN Hm st0 out.
  assert (Hm0 : mirrored (Nfilter_of props) st0)
    by (subst st0; now apply mirrored_init_fir).
  subst out. cbv beta.
  repeat split; f_equal; apply run_agree; auto;
    intros s Hs; destruct (evaluate_agree _ s Hs) as (A & B & C & D);
    assumption.
Qed.

(** Three taps, four samples on each channel. *)
Lemma C2_strategies_agree_within_family_witness :
  let props : Z -> float32 :=
    fun k => if k =? 0 then b32_of_Z 4000
             else if k =? 2 then b32_of_Z 3
             else if k =? 5 then b32_of_Z 40000 else f32_zero in
  let st0 := Fir.init_fir (fun x => x) (fun x => x) Fir.FIRlow props
                          Fir.init in
  let xs := [((b32_of_Z 10, b32_of_Z 1), (10, 1));
             ((b32_of_Z 20, b32_of_Z 2), (20, 2));
             ((b32_of_Z 30, b32_of_Z 3), (30, 3));
             ((b32_of_Z 40, b32_of_Z 4), (40, 4))] in
  snd (Fir.run (with_arith floatModulo props) st0 xs)
  = snd (Fir.run (with_arith floatDoubleBuffer props) st0 xs).
Proof.
  intros props st0 xs.
  refine (proj1 (proj2 (C2_strategies_agree_within_family
                          (fun x => x) (fun x => x) props Fir.init xs _ _))).
  - vm_compute. discriminate.
  - split; [vm_compute; split; [discriminate | reflexivity] |].
    intros c j _. split; reflexivity.
Defined.

(** ** C3: what a switch of the filter clears *)

Section Switch.

Variables fsin fcos : float64 -> float64.

Lemma select_eng (s : system) (k : filter_kind) :
  eng (fst (checkUpdateUSB fsin fcos s (settingFilter (Some k))))
  = select fsin fcos k (eng s).
Proof. destruct k; reflexivity. Qed.

Lemma same_config_refl (e : engine) : same_config e e.
Proof. repeat split. Qed.

Lemma same_config_trans (e1 e2 e3 : engine) :
  same_config e1 e2 -> same_config e2 e3 -> same_config e1 e3.
Proof.
  intros (A1 & A2 & A3 & A4 & A5) (B1 & B2 & B3 & B4 & B5).
  repeat split; congruence.
Qed.

Lemma select_config (k : filter_kind) (e : engine) :
  same_config e (select fsin fcos k e).
Proof. destruct k; repeat split. Qed.

Lemma apply_filter_config (e e' : engine) (x : float32) (v : Z)
  (y : float32) :
  apply_filter e x v = Some (e', y) -> same_config e e'.
Proof.
  unfold apply_filter.
  destruct (filter e);
    try match goal with
        | |- context [let '(_, _) := ?p in _] => destruct p as [h y0]
        end;
    try (intros E; inversion E; subst; repeat split; fail).
  destruct (Avg.proc_avg _ _ _) as [[a y0] |]; intros E; inversion E.
  repeat split.
Qed.

Lemma process_config (e e' : engine) (v : Z) (y : float32) :
  process e v = Some (e', y) -> same_config e e'.
Proof.
  unfold process.
  match goal with
  | |- context [apply_filter ?e0 ?x ?v] =>
      destruct (apply_filter e0 x v) as [[e1 y1] |] eqn:E;
        [| discriminate];
      apply apply_filter_config in E
  end.
  intros H; inversion H; subst.
  destruct E as (A1 & A2 & A3 & A4 & A5). repeat split; assumption.
Qed.

Lemma feed_config (vals : list Z) : forall e e' : engine,
  feed e vals = Some e' -> same_config e e'.
Proof.
  induction vals as [| v vs IH]; intros e e' H; simpl in H.
  - inversion H. apply same_config_refl.
  - destruct (process e v) as [[e1 y] |] eqn:E; [| discriminate].
    eapply same_config_trans; [eapply process_config; eassumption |].
    now apply IH.
Qed.

Lemma for_up_clear (n : nat) : forall (i : Z) (a : Z -> float32) (j : Z),
  for_up n i (fun i a => upd a i f32_zero) a j
  = if (i <=? j) && (j <? i + Z.of_nat n) then f32_zero else a j.
Proof.
  induction n as [| n IH]; intros i a j.
  - simpl. destruct (Z.leb_spec i j), (Z.ltb_spec j (i + 0));
      try reflexivity; lia.
  - cbn [for_up]. rewrite IH. unfold upd.
    destruct (Z.leb_spec (i + 1) j), (Z.ltb_spec j (i + 1 + Z.of_nat n)),
      (Z.leb_spec i j), (Z.ltb_spec j (i + Z.of_nat (S n))),
      (Z.eqb_spec j i); simpl; try reflexivity; lia.
Qed.

Lemma clear_hist_zero (a : Z -> float32) (j : Z) :
  0 <= j < Niirmax -> clear_hist a j = f32_zero.
Proof.
  intros Hj. unfold clear_hist. rewrite for_up_clear. unfold Niirmax in *.
  destruct (Z.leb_spec 0 j), (Z.ltb_spec j (0 + Z.of_nat (Z.to_nat 200)));
    simpl; try reflexivity; lia.
Qed.

Lemma upd_agree (a b : Z -> float32) (i : Z) (v : float32) :
  agree_hist a b -> agree_hist (upd a i v) (upd b i v).
Proof.
  intros H j Hj. unfold upd. destruct (j =? i); [reflexivity | now apply H].
Qed.

Lemma x_loop_agree (c : iir_coeffs) (n : nat) :
  forall (i : Z) (y : float32) (xa xb : Z -> float32),
    i < Niirmax -> Z.of_nat n <= Z.max i 0 -> agree_hist xa xb ->
    fst (for_down n i (x_mul_then_shift c) (y, xa))
    = fst (for_down n i (x_mul_then_shift c) (y, xb))
    /\ agree_hist (snd (for_down n i (x_mul_then_shift c) (y, xa)))
                  (snd (for_down n i (x_mul_then_shift c) (y, xb))).
Proof.
  induction n as [| n IH]; intros i y xa xb Hi Hn H; cbn [for_down].
  - split; [reflexivity | exact H].
  - unfold x_mul_then_shift at 2 4 6 8.
    rewrite (H i) by lia. rewrite (H (i - 1)) by lia.
    apply IH; try lia. now apply upd_agree.
Qed.

Lemma y_loop_agree (c : iir_coeffs) (n : nat) :
  forall (i : Z) (y : float32) (ya yb : Z -> float32),
    i < Niirmax -> Z.of_nat n + 1 <= Z.max i 1 -> agree_hist ya yb ->
    fst (for_down n i (y_mul_then_shift c) (y, ya))
    = fst (for_down n i (y_mul_then_shift c) (y, yb))
    /\ agree_hist (snd (for_down n i (y_mul_then_shift c) (y, ya)))
                  (snd (for_down n i (y_mul_then_shift c) (y, yb))).
Proof.
  induction n as [| n IH]; intros i y ya yb Hi Hn H; cbn [for_down].
  - split; [reflexivity | exact H].
  - unfold y_mul_then_shift at 2 4 6 8.
    rewrite (H (i - 1)) by lia. rewrite (H (i - 2)) by lia.
    apply IH; try lia. now apply upd_agree.
Qed.

(** The output of the programmable filter depends on the slots of the
    history arrays only. *)
Lemma proc_iir1_ext (c : iir_coeffs) (s1 s2 : iir_state) (x : float32) :
  agree_hist (xnhist s1) (xnhist s2) ->
  agree_hist (ynhist s1) (ynhist s2) ->
  snd (Iir1.proc_iir c s1 x) = snd (Iir1.proc_iir c s2 x).
Proof.
  intros Hx Hy. unfold Iir1.proc_iir.
  set (hiB := Z.min Niirmax (Nb c) - 1).
  set (hiA := Z.min Niirmax (Na c) - 1).
  assert (HB : hiB < Niirmax) by (subst hiB; lia).
  assert (HA : hiA < Niirmax) by (subst hiA; lia).
  destruct (x_loop_agree c (down_count hiB 0) hiB f32_zero
              (xnhist s1) (xnhist s2) HB) as [E1 _];
    [unfold down_count; lia | exact Hx |].
  destruct (for_down _ hiB _ (f32_zero, xnhist s1)) as [y1 xh1].
  destruct (for_down _ hiB _ (f32_zero, xnhist s2)) as [y2 xh2].
  simpl in E1. subst y2.
  destruct (y_loop_agree c (down_count hiA 1) hiA
              (b32_add y1 (b32_mul (bn c 0) x))
              (ynhist s1) (ynhist s2) HA) as [E2 E3];
    [unfold down_count; lia | exact Hy |].
  destruct (for_down _ hiA _ (_, ynhist s1)) as [z1 yh1].
  destruct (for_down _ hiA _ (_, ynhist s2)) as [z2 yh2].
  simpl in E2, E3. subst z2. unfold iir_finish. cbn [snd].
  rewrite (E3 0) by (unfold Niirmax; lia). reflexivity.
Qed.

Lemma select_is_fresh (e e' : engine) (A : filter_kind) (val : Z) :
  resets_on_select A = true -> same_config e e' ->
  option_map snd (process (select fsin fcos A e') val)
  = option_map snd (process (fresh fsin fcos A e) val).
Proof.
  intros HA Hcfg.
  destruct e, e'. unfold same_config in Hcfg. cbn in Hcfg.
  destruct Hcfg as (C1 & C2 & C3 & C4 & C5). subst.
  destruct A; try discriminate HA; try reflexivity.
  (* the programmable filter *)
  unfold process, select, fresh. cbn [checkUpdateUSB fst eng on_eng].
  unfold apply_filter. cbn [filter set_filter resetHistory set_voltageLTC2500 set_iir set_lp3 set_lp2 set_hp1 set_yln_1 is_fir iir coeffs engine_init gainLTC2500 offsetLTC2500].
  match goal with
  | |- context [Iir1.proc_iir ?c ?s1 ?x] =>
      pose proof (proc_iir1_ext c s1 iir_init x) as E
  end.
  cbn [xnhist ynhist iir_init] in E.
  assert (Hz : forall a, agree_hist (clear_hist a) (fun _ => f32_zero))
    by (intros a j Hj; now apply clear_hist_zero).
  specialize (E (Hz _) (Hz _)).
  destruct (Iir1.proc_iir _ {| xnhist := clear_hist _ |} _) as [h1 y1].
  destruct (Iir1.proc_iir _ iir_init _) as [h2 y2].
  cbn [snd] in E. subst y2. reflexivity.
Qed.

(** Selecting a filter leaves the ring of the moving average and the
    data ring of the FIR filters as they are. *)
Lemma select_keeps_rings (k : filter_kind) (e : engine) :
  avg (select fsin fcos k e) = avg e
  /\ FirScalar.dataBuffer (fir (select fsin fcos k e))
     = FirScalar.dataBuffer (fir e)
  /\ FirScalar.dataBufferInt (fir (select fsin fcos k e))
     = FirScalar.dataBufferInt (fir e)
  /\ FirScalar.fir_bufPos (fir (select fsin fcos k e))
     = FirScalar.fir_bufPos (fir e).
Proof.
  destruct k; try (repeat split; fail);
    unfold select; cbn [checkUpdateUSB fst eng on_eng];
    unfold reinit_fir, FirScalar.init_fir;
    cbn [filter set_filter fir set_fir avg];
    destruct (for_up _ _ _ _) as [fc fci]; repeat split.
Qed.

End Switch.

(** History of the moving average survives a switch to the scale filter
    and back: averaging over 2 samples, the first output after the
    switch back still contains the sample processed before it. *)
Lemma C3_counterexample :
  let id := fun x : float64 => x in
  let s0 := system_init no_coeffs in
  let s1 := fst (checkUpdateUSB id id s0 (settingFilter (Some movingAvg))) in
  let s2 := fst (checkUpdateUSB id id s1 (settingFilterProperty1 (b32_of_Z 2))) in
  let e := eng s2 in
  switch_back_output id id e movingAvg scaling [8388608] [] 8388608
  = Some (b32_of_Z 10)
  /\ option_map snd (process (fresh id id movingAvg e) 8388608)
     = Some (b32_of_Z 5).
Proof. vm_compute. split; reflexivity. Qed.

(** C3 (amended).  For the scale filter, the recursive filters of first
    to third order, the programmable filter and the user-defined
    filter: after [A] has run, [B] has been selected and has run, and
    [A] has been selected again, the first output of [A] is that of a
    freshly set up [A] with the same configuration on the same input.
    Selecting a filter never touches the ring of the moving average nor
    the data ring of the FIR filters. *)
Theorem C3_switch_back_is_fresh :
  forall (fsin fcos : float64 -> float64) (e e1 e2 : engine)
         (A B : filter_kind) (xsA xsB : list Z) (val : Z),
    resets_on_select A = true ->
    feed (select fsin fcos A e) xsA = Some e1 ->
    feed (select fsin fcos B e1) xsB = Some e2 ->
    switch_back_output fsin fcos e A B xsA xsB val
    = option_map snd (process (fresh fsin fcos A e) val)
    /\ (forall k e0,
          avg (select fsin fcos k e0) = avg e0
          /\ FirScalar.dataBuffer (fir (select fsin fcos k e0))
             = FirScalar.dataBuffer (fir e0)
          /\ FirScalar.dataBufferInt (fir (select fsin fcos k e0))
             = FirScalar.dataBufferInt (fir e0)
          /\ FirScalar.fir_bufPos (fir (select fsin fcos k e0))
             = FirScalar.fir_bufPos (fir e0)).
Proof.
  intros fsin fcos e e1 e2 A B xsA xsB val HA H1 H2.
  split; [| intros k e0; apply select_keeps_rings].
  unfold switch_back_output. rewrite H1, H2.
  apply select_is_fresh; [exact HA |].
  eapply same_config_trans; [apply (select_config fsin fcos A) |].
  eapply same_config_trans; [eapply feed_config; exact H1 |].
  eapply same_config_trans; [apply (select_config fsin fcos B) |].
  eapply feed_config; exact H2.
Qed.

(** The low pass of first order with cut-off 500 Hz, left for the high
    pass and selected again. *)
Lemma C3_switch_back_is_fresh_witness :
  let id := fun x : float64 => x in
  let s1 := fst (checkUpdateUSB id id (system_init no_coeffs)
                   (settingFilter (Some lpf1))) in
  let e := eng (fst (checkUpdateUSB id id s1
                       (settingFilterProperty1 (b32_of_Z 500)))) in
  switch_back_output id id e lpf1 hpf1 [1000000] [2000000] 3000000
  = option_map snd (process (fresh id id lpf1 e) 3000000).
Proof.
  intros id s1 e.
  set (e1 := match feed (select id id lpf1 e) [1000000] with
             | Some x => x | None => e end).
  set (e2 := match feed (select id id hpf1 e1) [2000000] with
             | Some x => x | None => e end).
  refine (proj1 (C3_switch_back_is_fresh id id e e1 e2 lpf1 hpf1
                   [1000000] [2000000] 3000000 _ _ _)).
  - reflexivity.
  - vm_compute. reflexivity.
  - vm_compute. reflexivity.
Defined.


(** ** Memory safety of the capture buffer *)

Lemma mult4 (x : Z) : x mod 4 = 0 -> x = 4 * (x / 4).
Proof. intros H. pose proof (Z.div_mod x 4 ltac:(lia)). lia. Qed.

Lemma acq_inv_init : acq_inv acq_init.
Proof. unfold acq_inv, maxLen. simpl. repeat split; try lia; auto. Qed.

(** What a firing does to the cursor and the flag. *)
Lemma spectralRead_cursor (c : capture) (v : Z) :
  let a := core c in
  let a' := core (fst (spectralRead c v)) in
  bufLen a' = bufLen a
  /\ ((bufPos a' = bufPos a /\ (full a' = full a \/ full a' = true))
      \/ (full a = false /\ bufPos a' = int32 (bufPos a + 4)
          /\ full a' = (bufLen a <=? uint32 (int32 (bufPos a + 4))))).
Proof.
  unfold spectralRead, pulse_gate.
  destruct c as [a m r w]. destruct a. cbn.
  destruct full0; [cbn; auto |].
  destruct m, w; cbn;
    repeat match goal with
           | |- context [if ?b then _ else _] =>
               let E := fresh "E" in destruct b eqn:E; cbn in E |- *
           end; auto;
    right; repeat split; auto.
Qed.

(** Every firing of the sampling interrupt keeps the invariant, so every
    record is stored inside [bufAD4020]. *)
Lemma spectralRead_inv (c : capture) (v : Z) :
  acq_inv (core c) -> acq_inv (core (fst (spectralRead c v))).
Proof.
  unfold acq_inv, maxLen. intros (Hp & Hp4 & Hl & Hl4 & Hroom).
  destruct (spectralRead_cursor c v) as (EL & Hcases). cbv zeta in *.
  rewrite EL.
  destruct Hcases as [(EP & EF) | (Hf & EP & EF)].
  - rewrite EP. repeat split; auto; try lia.
    destruct EF as [EF | EF]; rewrite EF; [exact Hroom | discriminate].
  - specialize (Hroom Hf).
    rewrite int32_id in EP, EF by (unfold in_int32; pow_consts; lia).
    rewrite uint32_id in EF by (pow_consts; lia).
    rewrite EP, EF.
    pose proof (mult4 _ Hp4) as Q1. pose proof (mult4 _ Hl4) as Q2.
    assert (M4 : (bufPos (core c) + 4) mod 4 = 0).
    { rewrite Q1. replace (4 * (bufPos (core c) / 4) + 4)
        with ((bufPos (core c) / 4 + 1) * 4) by lia. apply Z.mod_mul. lia. }
    repeat split; auto; lia.
Qed.

Lemma sendDataToPC_inv (c : capture) :
  acq_inv (core c) -> acq_inv (core (fst (sendDataToPC c))).
Proof.
  unfold acq_inv, maxLen. intros (Hp & Hp4 & Hl & Hl4 & Hroom).
  unfold sendDataToPC. destruct c as [a m r w]. destruct a. cbn in *.
  destruct full0; cbn; [| auto].
  destruct request0; cbn; repeat split; auto; lia.
Qed.

Lemma checkUpdateUSB_inv (fsin fcos : float64 -> float64) (s : system)
  (cmd : command) :
  acq_inv (core (cap s)) ->
  acq_inv (core (cap (fst (checkUpdateUSB fsin fcos s cmd)))).
Proof.
  intros H. destruct cmd; cbn -[min_u32 int32 maxLen Z.mul Z.modulo]; auto.
  - destruct m as [[| | |] |]; exact H.
  - destruct (min_u32_bounds n) as (B1 & B2).
    destruct H as (Hp & Hp4 & Hl & Hl4 & Hroom).
    unfold acq_inv, set_bufLen. cbn [bufPos bufLen full].
    repeat split; auto; lia.
  - destruct t; exact H.
  - destruct k as [[| | | | | | | | | | |] |]; exact H.
  - destruct (after_prop _ _ _ _); exact H.
  - destruct (after_prop _ _ _ _); exact H.
  - destruct (after_prop _ _ _ _); exact H.
  - destruct ((w =? rectWin) || (w =? hammingWin)); exact H.
  - destruct ((0 <=? a) && (a <=? 5)); exact H.
Qed.

(** ** Fuel of the summation loop *)

Lemma avg_loop_more_fuel (fuel : nat) :
  forall (k : nat) (d : Z -> float32) (idb : Z) (n : float32) (i : Z)
         (avg : float32) (reads : list Z) (r : float32 * list Z),
    Avg.avg_loop fuel d idb n i avg reads = Some r ->
    Avg.avg_loop (fuel + k) d idb n i avg reads = Some r.
Proof.
  induction fuel as [| fuel IH]; intros k d idb n i avg reads r.
  - cbn [Avg.avg_loop Nat.add].
    destruct (SFltb (b32_of_Z i) n) eqn:E; [discriminate |].
    intros H. destruct k; cbn [Avg.avg_loop]; now rewrite E.
  - cbn [Avg.avg_loop Nat.add].
    destruct (SFltb (b32_of_Z i) n); [apply IH | auto].
Qed.

(** The voltage set on the AD5791 is the output of the signal path. *)
Lemma readProcessOutput_dac (s s' : system) (ad val : Z) (o : outputs) :
  readProcessOutput s ad val = Some (s', o) ->
  option_map snd (process (eng s) val) = Some (dac o).
Proof.
  unfold readProcessOutput.
  set (s1 := if negb (is_spectral (mode (cap s))) then _ else s).
  assert (E : eng s1 = eng s)
    by (subst s1; destruct (negb (is_spectral (mode (cap s)))); reflexivity).
  rewrite E.
  destruct (process (eng s) val) as [[e y] |]; [| discriminate].
  destruct (excite _) as [s2 p]. intros H. inversion H. reflexivity.
Qed.

(* ================================================================== *)
(** * The converter libraries *)

(* ================================================================== *)
(** ** T4.cpp: the number formats *)

(** X1: for every [int32_t] above the minimum, [T4toSignMag] returns
    the word whose top bit is the sign and whose low 31 bits are the
    magnitude, so the sign-and-magnitude reading of the result is the
    argument; the minimum itself is mapped to 0. *)
Theorem X1_sign_magnitude (a : Z) :
  in_int32 a ->
  in_int32 (T4lib.T4toSignMag a)
  /\ uint32 (T4lib.T4toSignMag a)
     = (if a =? - 2 ^ 31 then 0
        else (if a <? 0 then 2 ^ 31 else 0) + Z.abs a)
  /\ (a <> - 2 ^ 31 -> signmag_value (uint32 (T4lib.T4toSignMag a)) = a).
Proof.
  unfold in_int32. intros Ha.
  assert (Hmask : int32 (int32 (Z.shiftl 1 31) - 1) = 2 ^ 31 - 1)
    by (vm_compute; reflexivity).
  unfold T4lib.T4toSignMag. rewrite Hmask.
  destruct (Z.ltb_spec a 0) as [Hneg | Hpos].
  - (* a xor (2^31 - 1) = - 2^31 - 1 - a for a negative 32-bit number *)
    assert (Hx : Z.lxor a (2 ^ 31 - 1) = - 2 ^ 31 - 1 - a).
    { replace (- 2 ^ 31 - 1 - a) with (Z.lnot (a + 2 ^ 31)) by (unfold Z.lnot; lia).
      apply Z.bits_inj'. intros n Hn.
      rewrite Z.lxor_spec, Z.lnot_spec by lia.
      destruct (Z.ltb_spec n 31) as [Hlt | Hge].
      - replace (2 ^ 31 - 1) with (Z.ones 31) by reflexivity.
        rewrite Z.ones_spec_low by lia.
        rewrite <- (Z.mod_pow2_bits_low (a + 2 ^ 31) 31 n) by lia.
        rewrite <- (Z.mod_pow2_bits_low a 31 n) by lia.
        replace ((a + 2 ^ 31) mod 2 ^ 31) with (a mod 2 ^ 31).
        + destruct (Z.testbit (a mod 2 ^ 31) n); reflexivity.
        + replace (a + 2 ^ 31) with (a + 1 * 2 ^ 31) by lia.
          rewrite Z.mod_add by lia. reflexivity.
      - replace (2 ^ 31 - 1) with (Z.ones 31) by reflexivity.
        rewrite Z.ones_spec_high by lia.
        rewrite (Z.bits_above_log2 (a + 2 ^ 31) n).
        + rewrite xorb_false_r.
          assert (Ht : Z.testbit a n = true).
          { apply Z.bits_above_log2_neg; [lia |].
            destruct (Z.eq_dec a (-1)) as [-> | Hne]; [simpl; lia |].
            apply Z.log2_lt_pow2; [lia |].
            apply Z.lt_le_trans with (2 ^ 31); [unfold Z.pred; lia |].
            apply Z.pow_le_mono_r; lia. }
          rewrite Ht. reflexivity.
        + lia.
        + destruct (Z.eq_dec (a + 2 ^ 31) 0) as [-> | Hne]; [simpl; lia |].
          apply Z.log2_lt_pow2; [lia |].
          apply Z.lt_le_trans with (2 ^ 31); [lia |].
          apply Z.pow_le_mono_r; lia. }
    rewrite Hx.
    rewrite (int32_id (- 2 ^ 31 - 1 - a)) by (unfold in_int32; lia).
    rewrite int32_id by (unfold in_int32; lia).
    replace (- 2 ^ 31 - 1 - a + 1) with (- 2 ^ 31 - a) by lia.
    split; [lia |].
    assert (Hu : uint32 (- 2 ^ 31 - a)
                 = if a =? - 2 ^ 31 then 0 else 2 ^ 31 + Z.abs a).
    { unfold uint32. destruct (Z.eqb_spec a (- 2 ^ 31)) as [-> | Hne].
      - reflexivity.
      - replace (- 2 ^ 31 - a) with (2 ^ 31 + Z.abs a + (-1) * 2 ^ 32) by lia.
        rewrite Z.mod_add by lia. apply Z.mod_small. lia. }
    split; [exact Hu |].
    intros Hne. rewrite Hu.
    destruct (Z.eqb_spec a (- 2 ^ 31)) as [-> | _]; [contradiction |].
    unfold signmag_value.
    assert (Hb : Z.testbit (2 ^ 31 + Z.abs a) 31 = true).
    { rewrite Z.testbit_true by lia.
      replace (2 ^ 31 + Z.abs a) with (Z.abs a + 1 * 2 ^ 31) by lia.
      rewrite Z.div_add by lia. rewrite Z.div_small by lia. reflexivity. }
    rewrite Hb.
    replace (2 ^ 31 + Z.abs a) with (Z.abs a + 1 * 2 ^ 31) by lia.
    rewrite Z.mod_add by lia. rewrite Z.mod_small by lia. lia.
  - split; [lia |].
    assert (Hu : uint32 a = a) by (unfold uint32; apply Z.mod_small; lia).
    rewrite Hu.
    destruct (Z.eqb_spec a (- 2 ^ 31)) as [-> | _]; [lia |].
    split; [lia |].
    intros _. unfold signmag_value.
    assert (Hb : Z.testbit a 31 = false).
    { destruct (Z.eq_dec a 0) as [-> | Hne]; [reflexivity |].
      apply Z.bits_above_log2; [lia |].
      apply Z.log2_lt_pow2; lia. }
    rewrite Hb. apply Z.mod_small. lia.
Qed.

Lemma X1_sign_magnitude_witness :
  in_int32 (-5)
  /\ uint32 (T4lib.T4toSignMag (-5)) = 2 ^ 31 + 5
  /\ signmag_value (uint32 (T4lib.T4toSignMag (-5))) = -5.
Proof.
  assert (H : in_int32 (-5)) by (unfold in_int32; lia).
  destruct (X1_sign_magnitude (-5) H) as (_ & H2 & H3).
  split; [exact H |]. split; [exact H2 |]. apply H3. lia.
Defined.

(** X2: [T4toExzess] adds 2^31 modulo 2^32: read as an unsigned
    number the result is the argument plus 2^31, so the order of the
    arguments is the unsigned order of the results. *)
Theorem X2_excess (a b : Z) :
  in_int32 a -> in_int32 b ->
  uint32 (T4lib.T4toExzess a) = a + 2 ^ 31
  /\ (a < b <-> uint32 (T4lib.T4toExzess a) < uint32 (T4lib.T4toExzess b)).
Proof.
  unfold in_int32. intros Ha Hb.
  assert (E : forall x, - 2 ^ 31 <= x < 2 ^ 31 ->
                        uint32 (T4lib.T4toExzess x) = x + 2 ^ 31).
  { intros x Hx. unfold T4lib.T4toExzess.
    replace (int32 (Z.shiftl 1 31)) with (- 2 ^ 31) by (vm_compute; reflexivity).
    unfold uint32, int32, wrap.
    change (2 ^ (32 - 1)) with (2 ^ 31).
    rewrite Zminus_mod_idemp_l.
    replace (x + - 2 ^ 31 + 2 ^ 31 - 2 ^ 31) with (x + 2 ^ 31 + (-1) * 2 ^ 32) by lia.
    rewrite Z.mod_add by lia. apply Z.mod_small. lia. }
  rewrite (E a Ha), (E b Hb). split; [reflexivity | lia].
Qed.

Lemma X2_excess_witness :
  uint32 (T4lib.T4toExzess (-3)) = -3 + 2 ^ 31
  /\ (-3 < 4 <-> uint32 (T4lib.T4toExzess (-3)) < uint32 (T4lib.T4toExzess 4)).
Proof.
  apply (X2_excess (-3) 4); unfold in_int32; lia.
Defined.

(** X3: [T4to1Comp] leaves a non-negative [int32_t] as it is and
    turns a negative one above the minimum into the 32-bit word
    2^32 - 1 - |a|, the magnitude with every bit inverted; the minimum
    wraps around to 2^31 - 1. *)
Theorem X3_ones_complement (a : Z) :
  in_int32 a ->
  uint32 (T4lib.T4to1Comp a)
  = if a =? - 2 ^ 31 then 2 ^ 31 - 1
    else if a <? 0 then 2 ^ 32 - 1 - Z.abs a
    else a.
Proof.
  unfold in_int32, T4lib.T4to1Comp. intros Ha.
  destruct (Z.eqb_spec a (- 2 ^ 31)) as [-> | Hne]; [vm_compute; reflexivity |].
  destruct (Z.ltb_spec a 0) as [Hneg | Hpos].
  - rewrite int32_id by (unfold in_int32; lia).
    unfold uint32.
    replace (a - 1) with (2 ^ 32 - 1 - Z.abs a + (-1) * 2 ^ 32) by lia.
    rewrite Z.mod_add by lia. apply Z.mod_small. lia.
  - unfold uint32. apply Z.mod_small. lia.
Qed.

Lemma X3_ones_complement_witness :
  uint32 (T4lib.T4to1Comp (-5)) = 2 ^ 32 - 1 - 5.
Proof.
  apply (X3_ones_complement (-5)). unfold in_int32. lia.
Defined.

(* ================================================================== *)
(** ** Bits on a serial bus *)

Lemma made_app (w w' : world) (l : list (Z * bool)) :
  writes w' = l ++ writes w -> made w w' = rev l.
Proof.
  intros E. unfold made. rewrite E, length_app.
  replace (length l + length (writes w) - length (writes w))%nat
    with (length l + 0)%nat by lia.
  rewrite firstn_app_2. simpl. rewrite app_nil_r. reflexivity.
Qed.

Lemma made_trans (w1 w2 w3 : world) (l1 l2 : list (Z * bool)) :
  writes w2 = l1 ++ writes w1 -> writes w3 = l2 ++ writes w2 ->
  writes w3 = (l2 ++ l1) ++ writes w1.
Proof. intros E1 E2. rewrite E2, E1, app_assoc. reflexivity. Qed.

Lemma bit_level_spec (x i : Z) :
  0 <= x -> 0 <= i -> Z_of_level (bit_level x i) = (x / 2 ^ i) mod 2.
Proof.
  intros Hx Hi. unfold bit_level, Z_of_level.
  rewrite Z.shiftr_div_pow2 by lia.
  assert (H0 : 0 <= x / 2 ^ i) by (apply Z.div_pos; [lia | apply Z.pow_pos_nonneg; lia]).
  rewrite Z.rem_mod_nonneg by lia.
  pose proof (Z.mod_pos_bound (x / 2 ^ i) 2 ltac:(lia)).
  destruct (Z.eqb_spec ((x / 2 ^ i) mod 2) 0); simpl; lia.
Qed.

Lemma bits_down_length (x : Z) (n : nat) : length (bits_down x n) = n.
Proof. induction n; simpl; congruence. Qed.

Lemma msb_bits_down (x : Z) (n : nat) :
  0 <= x -> msb_value (bits_down x n) = x mod 2 ^ Z.of_nat n.
Proof.
  intros Hx. induction n as [| n IH].
  - simpl. rewrite Z.mod_1_r. reflexivity.
  - cbn [bits_down msb_value]. rewrite bits_down_length, IH.
    rewrite bit_level_spec by lia.
    rewrite Nat2Z.inj_succ, Z.pow_succ_r by lia.
    set (p := 2 ^ Z.of_nat n).
    assert (Hp : 0 < p) by (apply Z.pow_pos_nonneg; lia).
    rewrite (Z.mul_comm 2 p).
    rewrite (Z.rem_mul_r x p 2) by lia. lia.
Qed.

Lemma msb_value_app (l1 l2 : list bool) :
  msb_value (l1 ++ l2)
  = msb_value l1 * 2 ^ Z.of_nat (length l2) + msb_value l2.
Proof.
  induction l1 as [| b l1 IH]; simpl; [lia |].
  rewrite IH, length_app, Nat2Z.inj_add, Z.pow_add_r by lia. lia.
Qed.

Lemma lsb_bits_up (x : Z) (n : nat) :
  0 <= x -> forall i, 0 <= i ->
  lsb_value (bits_up x i n) = (x / 2 ^ i) mod 2 ^ Z.of_nat n.
Proof.
  intros Hx. induction n as [| n IH]; intros i Hi.
  - simpl. rewrite Z.mod_1_r. reflexivity.
  - cbn [bits_up lsb_value]. rewrite IH by lia.
    rewrite bit_level_spec by lia.
    rewrite Nat2Z.inj_succ, Z.pow_succ_r by lia.
    assert (Hp : 0 < 2 ^ Z.of_nat n) by (apply Z.pow_pos_nonneg; lia).
    assert (Hq : 0 < 2 ^ i) by (apply Z.pow_pos_nonneg; lia).
    rewrite (Z.rem_mul_r (x / 2 ^ i) 2 (2 ^ Z.of_nat n)) by lia.
    rewrite Z.div_div by lia.
    rewrite Z.pow_add_r by lia. rewrite Z.pow_1_r. reflexivity.
Qed.

(** The debugging-free core of the software SPI of T4.cpp: what a
    device samples on the bus. *)
Lemma last_nonempty {A : Type} (a : A) (l : list A) (d d' : A) :
  last (a :: l) d = last (a :: l) d'.
Proof.
  revert a. induction l as [| x l IH]; intros a; [reflexivity |].
  change (last (x :: l) d = last (x :: l) d'). apply IH.
Qed.

Lemma rising_flat_map (clk dat : Z) (bits : list bool) :
  clk <> dat ->
  forall (c d : bool) (rest : list (Z * bool)),
    rising_bits clk dat c d
      (flat_map (fun b => [(clk, false); (dat, b); (clk, true)]) bits
       ++ (clk, false) :: rest)
    = bits ++ rising_bits clk dat false (last bits d) rest.
Proof.
  intros Hne.
  assert (Ec : (clk =? clk) = true) by apply Z.eqb_refl.
  assert (Ed : (dat =? clk) = false) by (apply Z.eqb_neq; congruence).
  assert (Edd : (dat =? dat) = true) by apply Z.eqb_refl.
  induction bits as [| b bits IH]; intros c d rest.
  - cbn [flat_map app rising_bits last]. rewrite Ec.
    destruct c; reflexivity.
  - cbn [flat_map app rising_bits]. rewrite Ec, Ed, Edd.
    replace (negb c && false) with false by (destruct c; reflexivity).
    cbn [negb andb]. rewrite IH.
    destruct bits as [| b0 bits]; [reflexivity |].
    change (last (b :: b0 :: bits) d) with (last (b0 :: bits) d).
    rewrite (last_nonempty b0 bits b d). reflexivity.
Qed.

Lemma rising_byte_events (clk dat : Z) (bits : list bool) :
  clk <> dat ->
  forall (c d : bool) (rest : list (Z * bool)),
    rising_bits clk dat c d (byte_events clk dat bits ++ rest)
    = bits ++ rising_bits clk dat false (last bits d) rest.
Proof.
  intros Hne c d rest. unfold byte_events.
  rewrite <- app_assoc. apply (rising_flat_map clk dat bits Hne).
Qed.

Lemma byte_at_div (k w : Z) :
  0 <= k -> 0 <= w -> byte_at k w = (w / 2 ^ (8 * k)) mod 2 ^ 8.
Proof.
  intros Hk Hw. unfold byte_at.
  rewrite Z.shiftr_div_pow2 by lia.
  change 255 with (Z.ones 8). rewrite Z.land_ones by lia. reflexivity.
Qed.

(** ** AD5791.cpp: the register write *)

(** X4: [AD5791regWrite] frames one transfer: SYNC goes low, the DAC
    samples exactly 24 bits at the rising clock edges, which spell the
    low 24 bits of the word most significant bit first (the top byte of
    the word is never sent), SYNC goes high and LDAC is pulsed low. *)
Theorem X4_regWrite_frame (data : Z) (w : world) (c d : bool) :
  0 <= data < 2 ^ 32 ->
  exists mid,
    made w (AD5791.AD5791regWrite data w)
    = (Pin.SYNC_AD5791, false) :: mid
      ++ [(Pin.SYNC_AD5791, true); (Pin.LDAC_AD5791, false);
          (Pin.LDAC_AD5791, true)]
    /\ (forall e, In e mid ->
                  fst e = Pin.SCLK_AD5791 \/ fst e = Pin.MOSI_AD5791)
    /\ length (rising_bits Pin.SCLK_AD5791 Pin.MOSI_AD5791 c d mid) = 24%nat
    /\ msb_value (rising_bits Pin.SCLK_AD5791 Pin.MOSI_AD5791 c d mid)
       = data mod 2 ^ 24.
Proof.
  intros Hd.
  set (ev := fun k => byte_events Pin.SCLK_AD5791 Pin.MOSI_AD5791
                        (bits_down (byte_at k data) 8)).
  exists (ev 2 ++ ev 1 ++ ev 0).
  split; [| split; [| split]].
  - rewrite (made_app w _
      (rev ((Pin.SYNC_AD5791, false) :: (ev 2 ++ ev 1 ++ ev 0)
            ++ [(Pin.SYNC_AD5791, true); (Pin.LDAC_AD5791, false);
                (Pin.LDAC_AD5791, true)]))).
    + apply rev_involutive.
    + reflexivity.
  - intros e He. unfold ev, byte_events in He.
    cbn [bits_down flat_map app] in He.
    repeat (destruct He as [<- | He]; [cbn; auto |]). destruct He.
  - unfold ev.
    rewrite <- (app_nil_r (byte_events _ _ (bits_down (byte_at 0 data) 8))).
    rewrite !rising_byte_events by discriminate.
    reflexivity.
  - unfold ev.
    rewrite <- (app_nil_r (byte_events _ _ (bits_down (byte_at 0 data) 8))).
    rewrite !rising_byte_events by discriminate.
    cbn [rising_bits]. rewrite app_nil_r.
    rewrite !msb_value_app, ?length_app, !bits_down_length.
    assert (Hb : forall k, 0 <= k -> 0 <= byte_at k data < 2 ^ 8).
    { intros k Hk. rewrite byte_at_div by lia. apply Z.mod_pos_bound. lia. }
    rewrite !msb_bits_down by (apply Hb; lia).
    rewrite !(Z.mod_small (byte_at _ data) (2 ^ Z.of_nat 8)) by (apply Hb; lia).
    rewrite !byte_at_div by lia.
    change (Z.of_nat (8 + 8)) with 16.
    change (Z.of_nat 8) with 8. change (8 * 0) with 0.
    change (8 * 1) with 8. change (8 * 2) with 16.
    rewrite Z.pow_0_r, Z.div_1_r.
    pose proof (Z.rem_mul_r data (2 ^ 8) (2 ^ 16) ltac:(lia) ltac:(lia)) as E1.
    pose proof (Z.rem_mul_r (data / 2 ^ 8) (2 ^ 8) (2 ^ 8) ltac:(lia) ltac:(lia)) as E2.
    rewrite Z.div_div in E2 by lia.
    change (2 ^ 8 * 2 ^ 16) with (2 ^ 24) in E1.
    change (2 ^ 8 * 2 ^ 8) with (2 ^ 16) in *.
    rewrite E1, E2. lia.
Qed.

Lemma X4_regWrite_frame_witness :
  exists mid,
    made idle_world (AD5791.AD5791regWrite AD5791.DAC0 idle_world)
    = (Pin.SYNC_AD5791, false) :: mid
      ++ [(Pin.SYNC_AD5791, true); (Pin.LDAC_AD5791, false);
          (Pin.LDAC_AD5791, true)]
    /\ (forall e, In e mid ->
                  fst e = Pin.SCLK_AD5791 \/ fst e = Pin.MOSI_AD5791)
    /\ length (rising_bits Pin.SCLK_AD5791 Pin.MOSI_AD5791 false false mid)
       = 24%nat
    /\ msb_value (rising_bits Pin.SCLK_AD5791 Pin.MOSI_AD5791 false false mid)
       = AD5791.DAC0 mod 2 ^ 24.
Proof.
  apply (X4_regWrite_frame AD5791.DAC0). vm_compute. split; [discriminate | reflexivity].
Defined.

(** ** T4.cpp: the software SPI *)

(** X5: [T4SPIsend] puts the byte on the bus least significant bit
    first (a device sampling at the rising clock edges of an idle-low
    clock reads the byte in that order), while the byte it returns is
    assembled most significant bit first from the eight levels read on
    MISO. *)
Theorem X5_T4SPIsend_bit_order (byte : Z) (w : world) (d : bool) :
  0 <= byte < 2 ^ 8 ->
  let r := T4lib.T4SPIsend byte w in
  lsb_value (rising_bits Pin.T4sclk Pin.T4mosi false d (made w (snd r))) = byte
  /\ fst r = msb_value (next_levels w Pin.T4miso 8).
Proof.
  intros Hb r. split.
  - rewrite (made_app w _
      (rev (flat_map (fun b => [(Pin.T4mosi, b); (Pin.T4sclk, true);
                                (Pin.T4sclk, false)])
                     (bits_up byte 0 8)))) by reflexivity.
    rewrite rev_involutive.
    change (rising_bits Pin.T4sclk Pin.T4mosi false d
              (flat_map (fun b => [(Pin.T4mosi, b); (Pin.T4sclk, true);
                                   (Pin.T4sclk, false)])
                        (bits_up byte 0 8)))
      with (bits_up byte 0 8).
    rewrite lsb_bits_up by lia.
    rewrite Z.pow_0_r, Z.div_1_r. apply Z.mod_small. exact Hb.
  - subst r. unfold T4lib.T4SPIsend, next_levels.
    cbn [for_up T4lib.send_step digitalWriteFast digitalReadFast fst snd
         writes level_at reads seq map msb_value length Nat.add].
    change (Pin.T4miso =? Pin.T4miso) with true. cbn iota.
    generalize (level_at w Pin.T4miso (reads w Pin.T4miso)).
    generalize (level_at w Pin.T4miso (S (reads w Pin.T4miso))).
    generalize (level_at w Pin.T4miso (S (S (reads w Pin.T4miso)))).
    generalize (level_at w Pin.T4miso (S (S (S (reads w Pin.T4miso))))).
    generalize (level_at w Pin.T4miso (S (S (S (S (reads w Pin.T4miso)))))).
    generalize (level_at w Pin.T4miso (S (S (S (S (S (reads w Pin.T4miso))))))).
    generalize (level_at w Pin.T4miso
                  (S (S (S (S (S (S (reads w Pin.T4miso)))))))).
    generalize (level_at w Pin.T4miso
                  (S (S (S (S (S (S (S (reads w Pin.T4miso))))))))).
    intros b7 b6 b5 b4 b3 b2 b1 b0.
    destruct b0, b1, b2, b3, b4, b5, b6, b7; vm_compute; reflexivity.
Qed.

Lemma X5_T4SPIsend_bit_order_witness :
  lsb_value (rising_bits Pin.T4sclk Pin.T4mosi false false
               (made idle_world (snd (T4lib.T4SPIsend 6 idle_world)))) = 6
  /\ fst (T4lib.T4SPIsend 6 idle_world)
     = msb_value (next_levels idle_world Pin.T4miso 8).
Proof.
  apply (X5_T4SPIsend_bit_order 6 idle_world false). lia.
Defined.

(** ** Comparison of floating-point numbers *)

Lemma SFcompare_antisym (x y : spec_float) (c : comparison) :
  SFcompare x y = Some c -> SFcompare y x = Some (CompOpp c).
Proof.
  destruct x as [sx | sx | | sx mx ex], y as [sy | sy | | sy my ey];
    simpl; try discriminate.
  9: { intros H. inversion H as [Hc]. clear H Hc. f_equal.
       assert (E1 : (ey ?= ex) = CompOpp (ex ?= ey))
         by apply Z.compare_antisym.
       assert (E2 : Pos.compare_cont Eq my mx
                    = CompOpp (Pos.compare_cont Eq mx my))
         by (symmetry; apply (Pos.compare_cont_antisym mx my Eq)).
       rewrite E1, E2.
       destruct sx, sy, (ex ?= ey), (Pos.compare_cont Eq mx my);
         reflexivity. }
  all: intros H; inversion H; clear H;
    try (destruct sx); try (destruct sy); reflexivity.
Qed.

Lemma SFcompare_refl (x : spec_float) :
  x <> S754_nan -> SFcompare x x = Some Eq.
Proof.
  destruct x as [s | s | | s m e]; simpl; intros H;
    try (destruct s; reflexivity); [congruence |].
  rewrite Z.compare_refl, Pos.compare_cont_refl. destruct s; reflexivity.
Qed.

Lemma SFleb_not_nan (x y : spec_float) :
  SFleb x y = true -> x <> S754_nan /\ y <> S754_nan.
Proof.
  unfold SFleb. destruct x, y; simpl; try discriminate;
    intros _; split; discriminate.
Qed.

Lemma SFleb_refl (x : spec_float) : x <> S754_nan -> SFleb x x = true.
Proof. intros H. unfold SFleb. rewrite SFcompare_refl by exact H. reflexivity. Qed.

Lemma SFcompare_defined (x y : spec_float) :
  x <> S754_nan -> y <> S754_nan -> exists c, SFcompare x y = Some c.
Proof.
  destruct x, y; simpl; intros Hx Hy; try congruence; eexists; reflexivity.
Qed.

(** Without a NaN, "not greater" is "less or equal". *)
Lemma SFltb_false_leb (x y : spec_float) :
  x <> S754_nan -> y <> S754_nan ->
  SFltb y x = false <-> SFleb x y = true.
Proof.
  intros Hx Hy. unfold SFltb, SFleb.
  destruct (SFcompare_defined y x Hy Hx) as [c Hc].
  rewrite Hc, (SFcompare_antisym y x c Hc).
  destruct c; simpl; split; congruence.
Qed.

(** ** AD5791.cpp: the voltage limits *)

(** X6: for limits with [minVoltage <= maxVoltage] and every voltage
    that is a number, [checkVoltage] returns a voltage within the
    limits, and the voltage itself when it already lies within them. *)
Theorem X6_checkVoltage_clamps (st : AD5791.state) (v : float32) :
  SFleb (AD5791.minVoltage st) (AD5791.maxVoltage st) = true ->
  v <> S754_nan ->
  let r := AD5791.checkVoltage st v in
  SFleb (AD5791.minVoltage st) r = true
  /\ SFleb r (AD5791.maxVoltage st) = true
  /\ (SFleb (AD5791.minVoltage st) v = true ->
      SFleb v (AD5791.maxVoltage st) = true -> r = v).
Proof.
  intros Hmm Hv r. subst r. unfold AD5791.checkVoltage.
  destruct (SFleb_not_nan _ _ Hmm) as [Hmin Hmax].
  destruct (SFltb (AD5791.maxVoltage st) v) eqn:E1.
  - split; [exact Hmm |]. split; [apply SFleb_refl; exact Hmax |].
    intros _ H. apply (SFltb_false_leb v _ Hv Hmax) in H. congruence.
  - apply (SFltb_false_leb v _ Hv Hmax) in E1.
    destruct (SFltb v (AD5791.minVoltage st)) eqn:E2.
    + split; [apply SFleb_refl; exact Hmin |]. split; [exact Hmm |].
      intros H _. apply (SFltb_false_leb _ v Hmin Hv) in H. congruence.
    + apply (SFltb_false_leb _ v Hmin Hv) in E2. auto.
Qed.

Lemma X6_checkVoltage_clamps_witness :
  let st := AD5791.AD5791initialize (b32_of_Z (-10)) (b32_of_Z 10)
              (AD5791.init idle_world) in
  let r := AD5791.checkVoltage st (b32_of_Z 12) in
  SFleb (AD5791.minVoltage st) r = true
  /\ SFleb r (AD5791.maxVoltage st) = true
  /\ (SFleb (AD5791.minVoltage st) (b32_of_Z 12) = true ->
      SFleb (b32_of_Z 12) (AD5791.maxVoltage st) = true -> r = b32_of_Z 12).
Proof.
  apply (X6_checkVoltage_clamps
           (AD5791.AD5791initialize (b32_of_Z (-10)) (b32_of_Z 10)
              (AD5791.init idle_world)) (b32_of_Z 12)).
  - vm_compute. reflexivity.
  - vm_compute. discriminate.
Defined.

(** ** Reading a conversion result bit by bit *)

Lemma next_levels_length (w : world) (pin : Z) (n : nat) :
  length (next_levels w pin n) = n.
Proof. unfold next_levels. rewrite length_map, length_seq. reflexivity. Qed.

Lemma next_levels_succ (w w' : world) (pin : Z) (n : nat) :
  level_at w' = level_at w -> reads w' pin = S (reads w pin) ->
  next_levels w pin (S n)
  = level_at w pin (reads w pin) :: next_levels w' pin n.
Proof.
  intros El Er. unfold next_levels.
  cbn [seq map Nat.add]. f_equal.
  rewrite <- seq_shift, map_map. apply map_ext. intros k.
  rewrite El, Er. f_equal. lia.
Qed.

Lemma msb_value_bounds (l : list bool) :
  0 <= msb_value l < 2 ^ Z.of_nat (length l).
Proof.
  induction l as [| b l IH]; [simpl; lia |].
  cbn [msb_value length]. rewrite Nat2Z.inj_succ, Z.pow_succ_r by lia.
  destruct b; unfold Z_of_level; lia.
Qed.

Lemma add_bit_value (val : Z) (b : bool) (x : Z) :
  0 <= x <= 30 -> - 2 ^ 31 <= val -> val + 2 ^ (x + 1) <= 2 ^ 31 ->
  add_bit val b x = val + Z_of_level b * 2 ^ x.
Proof.
  intros Hx Hlo Hhi. unfold add_bit.
  rewrite Z.shiftl_mul_pow2 by lia.
  assert (Hp : 0 < 2 ^ x) by (apply Z.pow_pos_nonneg; lia).
  assert (Hq : 2 ^ x <= 2 ^ 30) by (apply Z.pow_le_mono_r; lia).
  assert (Hs : 2 ^ (x + 1) = 2 * 2 ^ x)
    by (rewrite Z.pow_add_r by lia; rewrite Z.pow_1_r; lia).
  rewrite (int32_id (Z_of_level b * 2 ^ x))
    by (unfold in_int32; destruct b; unfold Z_of_level; lia).
  apply int32_id. unfold in_int32. destruct b; unfold Z_of_level; lia.
Qed.

Section ReadLoop.

Variable step : Z -> Z * world -> Z * world.
Variable pin : Z.

Hypothesis step_value : forall x val w,
  fst (step x (val, w)) = add_bit val (level_at w pin (reads w pin)) x.
Hypothesis step_levels : forall x val w,
  level_at (snd (step x (val, w))) = level_at w.
Hypothesis step_reads : forall x val w,
  reads (snd (step x (val, w))) pin = S (reads w pin).

Lemma read_loop (n : nat) :
  forall val w,
    (n <= 31)%nat -> - 2 ^ 31 <= val -> val + 2 ^ Z.of_nat n <= 2 ^ 31 ->
    fst (for_down n (Z.of_nat n - 1) step (val, w))
    = val + msb_value (next_levels w pin n).
Proof.
  induction n as [| n IH]; intros val w Hn Hlo Hhi.
  - simpl. lia.
  - cbn [for_down].
    destruct (step (Z.of_nat (S n) - 1) (val, w)) as [v1 w1] eqn:E.
    pose proof (step_value (Z.of_nat (S n) - 1) val w) as Hv.
    pose proof (step_levels (Z.of_nat (S n) - 1) val w) as Hl.
    pose proof (step_reads (Z.of_nat (S n) - 1) val w) as Hr.
    rewrite E in Hv, Hl, Hr. cbn [fst snd] in Hv, Hl, Hr.
    replace (Z.of_nat (S n) - 1) with (Z.of_nat n) in * by lia.
    rewrite add_bit_value in Hv by (try lia;
      replace (Z.of_nat n + 1) with (Z.of_nat (S n)) by lia; lia).
    rewrite (next_levels_succ w w1 pin n Hl Hr).
    cbn [msb_value]. rewrite next_levels_length.
    assert (Hp : 0 < 2 ^ Z.of_nat n) by (apply Z.pow_pos_nonneg; lia).
    assert (Hs : 2 ^ Z.of_nat (S n) = 2 * 2 ^ Z.of_nat n)
      by (rewrite Nat2Z.inj_succ, Z.pow_succ_r by lia; reflexivity).
    rewrite IH.
    + rewrite Hv. lia.
    + lia.
    + rewrite Hv. destruct (level_at w pin (reads w pin));
        unfold Z_of_level; lia.
    + rewrite Hv. destruct (level_at w pin (reads w pin));
        unfold Z_of_level; lia.
Qed.

End ReadLoop.

Lemma land_pow2 (v k : Z) :
  0 <= v -> 0 <= k -> Z.land v (2 ^ k) = 2 ^ k * ((v / 2 ^ k) mod 2).
Proof.
  intros Hv Hk. apply Z.bits_inj'. intros n Hn.
  rewrite Z.land_spec, Z.pow2_bits_eqb by lia.
  assert (Hb : Z.testbit v k = negb ((v / 2 ^ k) mod 2 =? 0)).
  { pose proof (Z.testbit_spec' v k Hk) as Ht.
    destruct (Z.testbit v k); simpl in Ht; rewrite <- Ht; reflexivity. }
  pose proof (Z.mod_pos_bound (v / 2 ^ k) 2 ltac:(lia)) as Hm.
  destruct (Z.eqb_spec k n) as [<- | Hne].
  - rewrite andb_true_r, Hb.
    destruct (Z.eqb_spec ((v / 2 ^ k) mod 2) 0) as [-> | Hn0].
    + rewrite Z.mul_0_r, Z.bits_0. reflexivity.
    + replace ((v / 2 ^ k) mod 2) with 1 by lia.
      rewrite Z.mul_1_r, Z.pow2_bits_true by lia. reflexivity.
  - rewrite andb_false_r.
    destruct (Z.eqb_spec ((v / 2 ^ k) mod 2) 0) as [-> | Hn0].
    + rewrite Z.mul_0_r, Z.bits_0. reflexivity.
    + replace ((v / 2 ^ k) mod 2) with 1 by lia.
      rewrite Z.mul_1_r, Z.pow2_bits_false by lia. reflexivity.
Qed.

(** ** AD4020.cpp: the conversion result *)

Lemma ad4020_read_loop (n : nat) (val : Z) (w : world) :
  (n <= 31)%nat -> - 2 ^ 31 <= val -> val + 2 ^ Z.of_nat n <= 2 ^ 31 ->
  fst (for_down n (Z.of_nat n - 1) AD4020.read_bit (val, w))
  = val + msb_value (next_levels w Pin.MISO_AD4020 n).
Proof.
  apply (read_loop AD4020.read_bit Pin.MISO_AD4020); intros; reflexivity.
Qed.

Lemma ad4020_sign_extend (v : Z) :
  0 <= v < 2 ^ 20 -> AD4020.sign_extend v = signed 20 v.
Proof.
  intros Hv. unfold AD4020.sign_extend, signed.
  change 524288 with (2 ^ 19). rewrite land_pow2 by lia.
  change (20 - 1) with 19.
  assert (Hd : v / 2 ^ 19 = if v <? 2 ^ 19 then 0 else 1).
  { destruct (Z.ltb_spec v (2 ^ 19)).
    - apply Z.div_small. lia.
    - symmetry. apply (Z.div_unique v (2 ^ 19) 1 (v - 2 ^ 19)); lia. }
  rewrite Hd. destruct (Z.ltb_spec v (2 ^ 19)); [reflexivity |].
  cbn [negb Z.modulo]. change (2 ^ 19 * (1 mod 2) =? 0) with false.
  cbn [negb]. unfold uint32. rewrite (Z.mod_small v) by lia.
  unfold int32, wrap. change (2 ^ (32 - 1)) with (2 ^ 31).
  replace (v + 4293918720 + 2 ^ 31)
    with (v - 2 ^ 20 + 2 ^ 31 + 1 * 2 ^ 32) by lia.
  rewrite Z.mod_add by lia. rewrite Z.mod_small by lia. lia.
Qed.

Lemma ad4020_isr_read (w : world) :
  fst (AD4020.isr_read w)
  = signed 20 (msb_value (next_levels w Pin.MISO_AD4020 20)).
Proof.
  set (b := level_at w Pin.MISO_AD4020 (reads w Pin.MISO_AD4020)).
  set (w2 := digitalWriteFast Pin.SCLK_AD4020 true
               (snd (digitalReadFast Pin.MISO_AD4020 w))).
  assert (E : AD4020.isr_read w
              = let '(val, w3) :=
                  for_down 19 18 AD4020.read_bit (add_bit 0 b 19, w2) in
                (AD4020.sign_extend val,
                 digitalWriteFast Pin.CNV_AD4020 true
                   (digitalWriteFast Pin.SCLK_AD4020 false w3)))
    by reflexivity.
  rewrite E. clear E.
  destruct (for_down 19 18 AD4020.read_bit (add_bit 0 b 19, w2))
    as [val w3] eqn:E2.
  cbn [fst].
  assert (Hl : level_at w2 = level_at w) by reflexivity.
  assert (Hr : reads w2 Pin.MISO_AD4020 = S (reads w Pin.MISO_AD4020))
    by reflexivity.
  assert (H0 : add_bit 0 b 19 = Z_of_level b * 2 ^ 19)
    by (rewrite add_bit_value by lia; lia).
  pose proof (ad4020_read_loop 19 (add_bit 0 b 19) w2) as HL.
  change (Z.of_nat 19 - 1) with 18 in HL. rewrite E2 in HL. cbn [fst] in HL.
  rewrite HL by (rewrite ?H0; try lia; destruct b; unfold Z_of_level; lia).
  rewrite (next_levels_succ w w2 Pin.MISO_AD4020 19 Hl Hr). fold b.
  cbn [msb_value]. rewrite next_levels_length, H0.
  apply ad4020_sign_extend.
  pose proof (msb_value_bounds (next_levels w2 Pin.MISO_AD4020 19)) as Hm.
  rewrite next_levels_length in Hm.
  change (Z.of_nat 19) with 19 in *.
  destruct b; unfold Z_of_level; lia.
Qed.

Lemma signed_code (n x : Z) :
  0 < n -> - 2 ^ (n - 1) <= x < 2 ^ (n - 1) -> signed n (x mod 2 ^ n) = x.
Proof.
  intros Hn Hx. unfold signed.
  assert (Hp : 2 ^ n = 2 * 2 ^ (n - 1)).
  { replace n with (n - 1 + 1) at 1 by lia.
    rewrite Z.pow_add_r by lia. rewrite Z.pow_1_r. lia. }
  assert (Hq : 0 < 2 ^ (n - 1)) by (apply Z.pow_pos_nonneg; lia).
  destruct (Z.ltb_spec x 0) as [Hneg | Hpos].
  - replace (x mod 2 ^ n) with (x + 2 ^ n).
    + destruct (Z.ltb_spec (x + 2 ^ n) (2 ^ (n - 1))); lia.
    + symmetry. replace x with (x + 2 ^ n + (-1) * 2 ^ n) at 1 by lia.
      rewrite Z.mod_add by lia. apply Z.mod_small. lia.
  - rewrite Z.mod_small by lia.
    destruct (Z.ltb_spec x (2 ^ (n - 1))); lia.
Qed.

Lemma ad4020_timing_pins (v : bool) (s : AD4020.state) :
  level_at (pins (AD4020.mach (AD4020.timing v s)))
  = level_at (pins (AD4020.mach s))
  /\ reads (pins (AD4020.mach (AD4020.timing v s)))
     = reads (pins (AD4020.mach s)).
Proof.
  unfold AD4020.timing. destruct (AD4020.useTiming s); split; reflexivity.
Qed.

Lemma next_levels_ext (w w' : world) (pin : Z) (n : nat) :
  level_at w' = level_at w -> reads w' = reads w ->
  next_levels w' pin n = next_levels w pin n.
Proof. intros El Er. unfold next_levels. rewrite El, Er. reflexivity. Qed.

Lemma ad4020_readValue_value (s : AD4020.state) :
  fst (AD4020.AD4020readValue s)
  = int32 (signed 20 (msb_value
                        (next_levels (pins (AD4020.mach s))
                                     Pin.MISO_AD4020 20))
           + AD4020.offsetCorrection s).
Proof.
  unfold AD4020.AD4020readValue. cbv zeta.
  set (s1 := AD4020.dw Pin.CNV_AD4020 false (AD4020.timing true s)).
  set (w := digitalWriteFast Pin.SCLK_AD4020 true (pins (AD4020.mach s1))).
  assert (Eo : AD4020.offsetCorrection s1 = AD4020.offsetCorrection s)
    by (subst s1; unfold AD4020.timing; destruct (AD4020.useTiming s);
        reflexivity).
  destruct (ad4020_timing_pins true s) as [El0 Er0].
  assert (El : level_at w = level_at (pins (AD4020.mach s))) by exact El0.
  assert (Er : reads w = reads (pins (AD4020.mach s))) by exact Er0.
  rewrite <- (next_levels_ext _ w Pin.MISO_AD4020 20 El Er).
  unfold digitalReadFast at 1. cbv beta iota.
  set (b := level_at w Pin.MISO_AD4020 (reads w Pin.MISO_AD4020)).
  set (w2 := {| writes := writes w; level_at := level_at w;
                reads := fun p => if p =? Pin.MISO_AD4020
                                  then S (reads w p) else reads w p |}).
  destruct (for_down 19 18 AD4020.read_bit (add_bit 0 b 19, w2))
    as [val w3] eqn:E2.
  cbn [fst]. rewrite Eo. f_equal. f_equal.
  assert (Hl : level_at w2 = level_at w) by reflexivity.
  assert (Hr : reads w2 Pin.MISO_AD4020 = S (reads w Pin.MISO_AD4020))
    by reflexivity.
  assert (H0 : add_bit 0 b 19 = Z_of_level b * 2 ^ 19)
    by (rewrite add_bit_value by lia; lia).
  pose proof (ad4020_read_loop 19 (add_bit 0 b 19) w2) as HL.
  change (Z.of_nat 19 - 1) with 18 in HL. rewrite E2 in HL. cbn [fst] in HL.
  rewrite HL by (rewrite ?H0; try lia; destruct b; unfold Z_of_level; lia).
  rewrite (next_levels_succ w w2 Pin.MISO_AD4020 19 Hl Hr). fold b.
  cbn [msb_value]. rewrite next_levels_length, H0.
  apply ad4020_sign_extend.
  pose proof (msb_value_bounds (next_levels w2 Pin.MISO_AD4020 19)) as Hm.
  rewrite next_levels_length in Hm.
  change (Z.of_nat 19) with 19 in *.
  destruct b; unfold Z_of_level; lia.
Qed.

(** X7: when the converter shifts out the 20-bit two's complement
    code of [x], most significant bit first, [AD4020readValue] returns
    [x] plus the offset correction (0 as the file initialises it). *)
Theorem X7_AD4020readValue_decodes (s : AD4020.state) (x : Z) :
  - 2 ^ 19 <= x < 2 ^ 19 ->
  next_levels (pins (AD4020.mach s)) Pin.MISO_AD4020 20
  = bits_down (x mod 2 ^ 20) 20 ->
  fst (AD4020.AD4020readValue s) = int32 (x + AD4020.offsetCorrection s).
Proof.
  intros Hx Hbits. rewrite ad4020_readValue_value, Hbits.
  rewrite msb_bits_down by (apply Z.mod_pos_bound; lia).
  change (Z.of_nat 20) with 20. rewrite Z.mod_mod by lia.
  rewrite signed_code by (change (20 - 1) with 19; lia). reflexivity.
Qed.

Lemma X7_AD4020readValue_decodes_witness :
  fst (AD4020.AD4020readValue
         (AD4020.init (machine_init
            (world_showing Pin.MISO_AD4020 (bits_down ((-3) mod 2 ^ 20) 20)))))
  = int32 (-3 + 0).
Proof.
  apply (X7_AD4020readValue_decodes
           (AD4020.init (machine_init
              (world_showing Pin.MISO_AD4020
                             (bits_down ((-3) mod 2 ^ 20) 20)))) (-3)).
  - lia.
  - vm_compute. reflexivity.
Defined.

(** ** AD4020.cpp: the interrupt service routine *)

Ltac ad4020_cbn :=
  cbn [AD4020.samplerate AD4020.oversamples AD4020.sampleCycle AD4020.readVal
       AD4020.offsetCorrection AD4020.regs AD4020.posReg AD4020.writeReg
       AD4020.readReg AD4020.full AD4020.initial AD4020.timerCounter
       AD4020.useTiming AD4020.noSkipping AD4020.mach
       AD4020.set_samplerate AD4020.set_oversamples AD4020.set_sampleCycle
       AD4020.set_readVal AD4020.set_offsetCorrection AD4020.set_regs
       AD4020.set_posReg AD4020.set_writeReg AD4020.set_readReg
       AD4020.set_full AD4020.set_initial AD4020.set_timerCounter
       AD4020.set_useTiming AD4020.set_noSkipping AD4020.set_mach
       AD4020.on_mach AD4020.dw AD4020.timing
       pins hw vector nvic irq sent printed
       set_pins set_hw set_vector set_nvic set_irq set_sent set_printed
       on_pins poke attach Serial_write
       digitalWriteFast writes level_at reads fst snd] in *.

Ltac same_split := unfold ad4020_same, ad4020_same_inputs; repeat split.

Lemma ad4020_timing_same (v : bool) (s : AD4020.state) :
  ad4020_same s (AD4020.timing v s)
  /\ ad4020_same_inputs s (AD4020.timing v s)
  /\ sent (AD4020.mach (AD4020.timing v s)) = sent (AD4020.mach s).
Proof.
  unfold AD4020.timing. destruct (AD4020.useTiming s); same_split.
Qed.

Lemma ad4020_enter_same (s : AD4020.state) :
  ad4020_same s (AD4020.isr_enter s)
  /\ ad4020_same_inputs s (AD4020.isr_enter s).
Proof.
  unfold AD4020.isr_enter, AD4020.timing.
  destruct s as [sr os sc rv oc rg pr wr rr fl ini tc ut ns m].
  ad4020_cbn.
  destruct ut; ad4020_cbn; destruct (tc =? 0), (tc =? 1); same_split.
Qed.

Lemma ad4020_convert_spec (s : AD4020.state) :
  fst (AD4020.isr_convert s) = ad4020_sample s
  /\ ad4020_same s (snd (AD4020.isr_convert s)).
Proof.
  unfold AD4020.isr_convert, ad4020_sample.
  rewrite <- ad4020_isr_read.
  destruct (AD4020.isr_read (pins (AD4020.mach s))) as [val w].
  split; [reflexivity | same_split].
Qed.

Lemma ad4020_sample_ext (s s' : AD4020.state) :
  ad4020_same s s' -> ad4020_same_inputs s s' ->
  ad4020_sample s' = ad4020_sample s.
Proof.
  intros Hs [El Er]. unfold ad4020_sample.
  rewrite (next_levels_ext _ _ Pin.MISO_AD4020 20 El Er).
  destruct Hs as (_ & _ & _ & _ & -> & _). reflexivity.
Qed.

(** What every interrupt does first: the value read is added to the
    sum and the cycle counter moves on. *)
Lemma ad4020_isr_head (s : AD4020.state) :
  exists s2,
    ad4020_same s s2
    /\ AD4020.readISR s
       = let s := AD4020.set_readVal
                    (uint32 (AD4020.readVal s + ad4020_sample s)) s2 in
         let s := AD4020.set_sampleCycle
                    (uint32 (AD4020.sampleCycle s + 1)) s in
         if AD4020.oversamples s <=? AD4020.sampleCycle s then
           let s := AD4020.store_sum s in
           if AD4020.regLen <=? AD4020.posReg s
           then AD4020.isr_switch s else AD4020.isr_finish s
         else AD4020.timing false s.
Proof.
  unfold AD4020.readISR.
  destruct (ad4020_enter_same s) as [Hs1 Hi1].
  destruct (ad4020_convert_spec (AD4020.isr_enter s)) as [Hv Hs2].
  destruct (AD4020.isr_convert (AD4020.isr_enter s)) as [val s2].
  cbn [fst snd] in Hv, Hs2.
  exists s2. split.
  - unfold ad4020_same in *. intuition congruence.
  - rewrite Hv, (ad4020_sample_ext _ _ Hs1 Hi1).
    destruct Hs2 as (_ & _ & _ & E & _). rewrite E.
    destruct Hs1 as (_ & _ & _ & E1 & _). rewrite E1. reflexivity.
Qed.

Lemma rem3_range (x : Z) : 0 <= x -> 0 <= Z.rem (x + 1) 3 < 3.
Proof.
  intros Hx. rewrite Z.rem_mod_nonneg by lia. apply Z.mod_pos_bound. lia.
Qed.

Lemma ad4020_finish_ring (s : AD4020.state) :
  let s' := AD4020.isr_finish s in
  AD4020.regs s' = AD4020.regs s /\ AD4020.posReg s' = AD4020.posReg s
  /\ AD4020.writeReg s' = AD4020.writeReg s
  /\ AD4020.readReg s' = AD4020.readReg s
  /\ AD4020.readVal s' = 0 /\ AD4020.sampleCycle s' = 0.
Proof.
  unfold AD4020.isr_finish, AD4020.timing.
  destruct s as [sr os sc rv oc rg pr wr rr fl ini tc ut ns m].
  ad4020_cbn. destruct ut; repeat split.
Qed.

Lemma ad4020_send_ring (s : AD4020.state) :
  let s' := AD4020.AD4020sendDataToPC s in
  AD4020.regs s' = AD4020.regs s /\ AD4020.posReg s' = AD4020.posReg s
  /\ AD4020.writeReg s' = AD4020.writeReg s
  /\ AD4020.readReg s'
     = (if AD4020.full s then Z.rem (AD4020.readReg s + 1) 3
        else AD4020.readReg s)
  /\ AD4020.readVal s' = AD4020.readVal s
  /\ AD4020.sampleCycle s' = AD4020.sampleCycle s
  /\ AD4020.initial s' = AD4020.initial s
  /\ AD4020.oversamples s' = AD4020.oversamples s
  /\ AD4020.offsetCorrection s' = AD4020.offsetCorrection s
  /\ AD4020.full s' = false.
Proof.
  unfold AD4020.AD4020sendDataToPC, AD4020.timing.
  destruct s as [sr os sc rv oc rg pr wr rr fl ini tc ut ns m].
  ad4020_cbn. destruct fl; cbn [negb]; [| repeat split].
  destruct ut; ad4020_cbn;
    destruct ((0 <=? rr) && (rr <=? 2)); ad4020_cbn; repeat split.
Qed.

Lemma ad4020_overrun_ring (s : AD4020.state) :
  0 <= AD4020.readReg s < 3 ->
  let s' := AD4020.isr_overrun s in
  AD4020.regs s' = AD4020.regs s /\ AD4020.posReg s' = AD4020.posReg s
  /\ AD4020.writeReg s' = AD4020.writeReg s
  /\ 0 <= AD4020.readReg s' < 3.
Proof.
  intros Hr. unfold AD4020.isr_overrun.
  destruct (0 <? AD4020.initial s).
  - cbv zeta.
    set (s1 := AD4020.on_mach (set_irq false) s).
    destruct (ad4020_send_ring s1) as (E1 & E2 & E3 & E4 & _).
    ad4020_cbn. rewrite E1, E2, E3, E4.
    repeat split; try reflexivity;
      subst s1; ad4020_cbn; destruct (AD4020.full s); try lia;
      apply rem3_range; lia.
  - cbv zeta.
    match goal with
    | |- context [AD4020.isr_finish ?t] =>
        destruct (ad4020_finish_ring t) as (E1 & E2 & E3 & E4 & _);
        rewrite E1, E2, E3, E4
    end.
    destruct s as [sr os sc rv oc rg pr wr rr fl ini tc ut ns m].
    ad4020_cbn. destruct (tc =? 0), (tc =? 1); ad4020_cbn; repeat split; lia.
Qed.

Lemma ad4020_switch_ring (s : AD4020.state) :
  0 <= AD4020.readReg s < 3 -> 0 <= AD4020.writeReg s ->
  let s' := AD4020.isr_switch s in
  AD4020.regs s' = AD4020.regs s /\ AD4020.posReg s' = 0
  /\ AD4020.writeReg s' = Z.rem (AD4020.writeReg s + 1) 3
  /\ 0 <= AD4020.readReg s' < 3.
Proof.
  intros Hr Hw. unfold AD4020.isr_switch. cbv zeta.
  set (s1 := AD4020.set_full true
               (AD4020.set_posReg 0
                  (AD4020.set_writeReg (Z.rem (AD4020.writeReg s + 1) 3) s))).
  assert (E : AD4020.regs s1 = AD4020.regs s /\ AD4020.posReg s1 = 0
              /\ AD4020.writeReg s1 = Z.rem (AD4020.writeReg s + 1) 3
              /\ AD4020.readReg s1 = AD4020.readReg s)
    by (repeat split).
  destruct E as (E1 & E2 & E3 & E4).
  destruct (AD4020.noSkipping s1 && (AD4020.writeReg s1 =? AD4020.readReg s1)).
  - destruct (ad4020_overrun_ring s1) as (F1 & F2 & F3 & F4); [lia |].
    rewrite F1, F2, F3. auto.
  - destruct (ad4020_finish_ring s1) as (F1 & F2 & F3 & F4 & _).
    rewrite F1, F2, F3, F4. repeat split; auto; lia.
Qed.

Lemma wrap16_id (x : Z) : - 2 ^ 15 <= x < 2 ^ 15 -> wrap 16 x = x.
Proof.
  intros H. unfold wrap. change (2 ^ (16 - 1)) with (2 ^ 15).
  rewrite Z.mod_small; lia.
Qed.

(** The four stores of a record. *)
Lemma ad4020_store_sum (s : AD4020.state) :
  0 <= AD4020.writeReg s < 3 -> 0 <= AD4020.posReg s <= 2 ^ 14 ->
  let s' := AD4020.store_sum s in
  let p := AD4020.posReg s in
  let v := AD4020.readVal s in
  AD4020.posReg s' = p + 4
  /\ AD4020.writeReg s' = AD4020.writeReg s
  /\ AD4020.readReg s' = AD4020.readReg s
  /\ AD4020.noSkipping s' = AD4020.noSkipping s
  /\ (forall k, 0 <= k < 4 ->
        AD4020.regs s' (AD4020.writeReg s) (p + k) = byte_at k v)
  /\ (forall r q, ~ (r = AD4020.writeReg s /\ p <= q < p + 4) ->
        AD4020.regs s' r q = AD4020.regs s r q).
Proof.
  intros Hw Hp. unfold AD4020.store_sum.
  replace ((0 <=? AD4020.writeReg s) && (AD4020.writeReg s <=? 2)) with true
    by (symmetry; apply andb_true_intro; split; apply Z.leb_le; lia).
  unfold AD4020.put.
  destruct s as [sr os sc rv oc rg pr wr rr fl ini tc ut ns m].
  ad4020_cbn.
  change (2 ^ 14) with 16384 in Hp.
  rewrite (wrap16_id (pr + 1)) by (change (2 ^ 15) with 32768; lia).
  rewrite (wrap16_id (pr + 1 + 1)) by (change (2 ^ 15) with 32768; lia).
  rewrite (wrap16_id (pr + 1 + 1 + 1)) by (change (2 ^ 15) with 32768; lia).
  rewrite (wrap16_id (pr + 1 + 1 + 1 + 1))
    by (change (2 ^ 15) with 32768; lia).
  repeat split; try lia.
  - intros k Hk. unfold upd2.
    assert (Hc : k = 0 \/ k = 1 \/ k = 2 \/ k = 3) by lia.
    rewrite !Z.eqb_refl. cbn [andb].
    destruct Hc as [-> | [-> | [-> | ->]]];
      repeat match goal with
             | |- context [?a =? ?b] =>
                 destruct (Z.eqb_spec a b); try lia
             end; reflexivity.
  - intros r q Hn. unfold upd2.
    repeat match goal with
           | |- context [?a =? ?b] =>
               destruct (Z.eqb_spec a b); cbn [andb];
               try (exfalso; apply Hn; split; lia)
           end; reflexivity.
Qed.

Lemma mod4_step (p : Z) : p mod 4 = 0 -> (p + 4) mod 4 = 0.
Proof.
  intros H. replace (p + 4) with (p + 1 * 4) by lia.
  rewrite Z.mod_add by lia. exact H.
Qed.

Lemma mod4_room (p n : Z) :
  p mod 4 = 0 -> n mod 4 = 0 -> p < n -> p + 4 <= n.
Proof.
  intros Hp Hn Hlt.
  pose proof (Z.div_mod p 4 ltac:(lia)).
  pose proof (Z.div_mod n 4 ltac:(lia)). lia.
Qed.

(** X8: the interrupt routine and [AD4020sendDataToPC] keep the write
    position inside the register, on a record boundary, and the two
    register numbers below 3; each interrupt changes at most the four
    bytes at the write position of the register being written, so no
    byte is stored outside the three registers. *)
Theorem X8_AD4020_ring_is_safe (s : AD4020.state) :
  ad4020_ring_ok s ->
  ad4020_ring_ok (AD4020.readISR s)
  /\ ad4020_ring_ok (AD4020.AD4020sendDataToPC s)
  /\ (forall r q,
        ~ (r = AD4020.writeReg s
           /\ AD4020.posReg s <= q < AD4020.posReg s + 4) ->
        AD4020.regs (AD4020.readISR s) r q = AD4020.regs s r q).
Proof.
  unfold ad4020_ring_ok, AD4020.regLen.
  intros (Hp0 & Hp1 & Hp4 & Hw & Hr).
  assert (Hsend : ad4020_ring_ok (AD4020.AD4020sendDataToPC s)).
  { destruct (ad4020_send_ring s) as (E1 & E2 & E3 & E4 & _).
    unfold ad4020_ring_ok, AD4020.regLen. rewrite E2, E3, E4.
    repeat split; try lia;
      destruct (AD4020.full s); try lia; apply rem3_range; lia. }
  destruct (ad4020_isr_head s) as (s2 & Hsame & E).
  rewrite E. clear E. cbv zeta.
  set (s4 := AD4020.set_sampleCycle _ (AD4020.set_readVal _ s2)).
  destruct Hsame as (_ & _ & _ & _ & _ & Eg & Ep & Ew & Er & _).
  assert (Eg4 : AD4020.regs s4 = AD4020.regs s) by exact Eg.
  assert (Ep4 : AD4020.posReg s4 = AD4020.posReg s) by exact Ep.
  assert (Ew4 : AD4020.writeReg s4 = AD4020.writeReg s) by exact Ew.
  assert (Er4 : AD4020.readReg s4 = AD4020.readReg s) by exact Er.
  clearbody s4.
  destruct (AD4020.oversamples s4 <=? AD4020.sampleCycle s4).
  - destruct (ad4020_store_sum s4) as (F1 & F2 & F3 & _ & _ & F6);
      [lia | change (2 ^ 14) with 16384; lia |].
    set (s5 := AD4020.store_sum s4) in *. clearbody s5.
    assert (Hregs : forall r q,
              ~ (r = AD4020.writeReg s
                 /\ AD4020.posReg s <= q < AD4020.posReg s + 4) ->
              AD4020.regs s5 r q = AD4020.regs s r q).
    { intros r q Hn. rewrite F6, Eg4; [reflexivity |].
      rewrite Ew4, Ep4. exact Hn. }
    destruct (Z.leb_spec AD4020.regLen (AD4020.posReg s5)) as [Hfull | Hroom];
      unfold AD4020.regLen in *.
    + destruct (ad4020_switch_ring s5) as (G1 & G2 & G3 & G4); [lia | lia |].
      rewrite G1, G2, G3.
      split; [| split; [exact Hsend | exact Hregs]].
      repeat split; try lia; try reflexivity; apply rem3_range; lia.
    + destruct (ad4020_finish_ring s5) as (G1 & G2 & G3 & G4 & _).
      rewrite G1, G2, G3, G4.
      split; [| split; [exact Hsend | exact Hregs]].
      rewrite F1, F2, F3, Ep4, Ew4, Er4.
      repeat split; try lia.
      * apply mod4_room; [apply mod4_step; exact Hp4 | reflexivity | lia].
      * apply mod4_step. exact Hp4.
  - destruct (ad4020_timing_same false s4)
      as ((_ & _ & _ & _ & _ & Tg & Tp & Tw & Tr & _) & _).
    rewrite Tg, Tp, Tw, Tr, Eg4, Ep4, Ew4, Er4.
    split; [| split; [exact Hsend | reflexivity]].
    repeat split; lia.
Qed.

Lemma X8_AD4020_ring_is_safe_witness :
  let s := AD4020.init (machine_init idle_world) in
  ad4020_ring_ok (AD4020.readISR s)
  /\ ad4020_ring_ok (AD4020.AD4020sendDataToPC s)
  /\ (forall r q,
        ~ (r = AD4020.writeReg s
           /\ AD4020.posReg s <= q < AD4020.posReg s + 4) ->
        AD4020.regs (AD4020.readISR s) r q = AD4020.regs s r q).
Proof.
  apply (X8_AD4020_ring_is_safe (AD4020.init (machine_init idle_world))).
  unfold ad4020_ring_ok. cbn. repeat split; lia.
Defined.

(** An interrupt that does not complete a record only accumulates. *)
Lemma ad4020_isr_accumulates (s : AD4020.state) :
  (AD4020.oversamples s <=? uint32 (AD4020.sampleCycle s + 1)) = false ->
  AD4020.readVal (AD4020.readISR s) = uint32 (AD4020.readVal s + ad4020_sample s)
  /\ AD4020.sampleCycle (AD4020.readISR s) = uint32 (AD4020.sampleCycle s + 1)
  /\ AD4020.oversamples (AD4020.readISR s) = AD4020.oversamples s
  /\ AD4020.regs (AD4020.readISR s) = AD4020.regs s
  /\ AD4020.posReg (AD4020.readISR s) = AD4020.posReg s
  /\ AD4020.writeReg (AD4020.readISR s) = AD4020.writeReg s
  /\ AD4020.readReg (AD4020.readISR s) = AD4020.readReg s.
Proof.
  intros Hc. destruct (ad4020_isr_head s) as (s2 & Hsame & E).
  rewrite E. clear E. cbv zeta.
  destruct Hsame as (_ & Eo & Ec & Ev & _ & Eg & Ep & Ew & Er & _).
  set (s4 := AD4020.set_sampleCycle _ (AD4020.set_readVal _ s2)).
  assert (Ho : AD4020.oversamples s4 = AD4020.oversamples s) by exact Eo.
  assert (Hs : AD4020.sampleCycle s4 = uint32 (AD4020.sampleCycle s + 1))
    by (subst s4; ad4020_cbn; rewrite Ec; reflexivity).
  rewrite Ho, Hs, Hc.
  destruct (ad4020_timing_same false s4)
    as ((_ & To & Tc & Tv & _ & Tg & Tp & Tw & Tr & _) & _).
  rewrite To, Tc, Tv, Tg, Tp, Tw, Tr, Hs.
  repeat split; assumption.
Qed.

(** An interrupt that completes a record stores the sum. *)
Lemma ad4020_isr_stores (s : AD4020.state) :
  (AD4020.oversamples s <=? uint32 (AD4020.sampleCycle s + 1)) = true ->
  ad4020_ring_ok s ->
  forall k, 0 <= k < 4 ->
    AD4020.regs (AD4020.readISR s) (AD4020.writeReg s) (AD4020.posReg s + k)
    = byte_at k (uint32 (AD4020.readVal s + ad4020_sample s)).
Proof.
  intros Hc (Hp0 & Hp1 & Hp4 & Hw & Hr) k Hk.
  unfold AD4020.regLen in Hp1.
  destruct (ad4020_isr_head s) as (s2 & Hsame & E).
  rewrite E. clear E. cbv zeta.
  destruct Hsame as (_ & Eo & Ec & Ev & _ & Eg & Ep & Ew & Er & _).
  set (s4 := AD4020.set_sampleCycle _ (AD4020.set_readVal _ s2)).
  assert (Ho : AD4020.oversamples s4 = AD4020.oversamples s) by exact Eo.
  assert (Hs : AD4020.sampleCycle s4 = uint32 (AD4020.sampleCycle s + 1))
    by (subst s4; ad4020_cbn; rewrite Ec; reflexivity).
  assert (Hv : AD4020.readVal s4
               = uint32 (AD4020.readVal s + ad4020_sample s))
    by reflexivity.
  assert (Ep4 : AD4020.posReg s4 = AD4020.posReg s) by exact Ep.
  assert (Ew4 : AD4020.writeReg s4 = AD4020.writeReg s) by exact Ew.
  assert (Er4 : AD4020.readReg s4 = AD4020.readReg s) by exact Er.
  rewrite Ho, Hs, Hc. clearbody s4.
  destruct (ad4020_store_sum s4) as (F1 & F2 & F3 & _ & F5 & _);
    [lia | change (2 ^ 14) with 16384; lia |].
  specialize (F5 k Hk). rewrite Ew4, Ep4, Hv in F5.
  set (s5 := AD4020.store_sum s4) in *. clearbody s5.
  destruct (AD4020.regLen <=? AD4020.posReg s5).
  - destruct (ad4020_switch_ring s5) as (G1 & _); [lia | lia |].
    rewrite G1. exact F5.
  - destruct (ad4020_finish_ring s5) as (G1 & _).
    rewrite G1. exact F5.
Qed.

Lemma iterate_S {A : Type} (f : A -> A) (n : nat) (s : A) :
  iterate f (S n) s = iterate f n (f s).
Proof. reflexivity. Qed.

Lemma observe_S {A B : Type} (f : A -> A) (g : A -> B) (n : nat) (s : A) :
  observe f g (S n) s = g s :: observe f g n (f s).
Proof. reflexivity. Qed.

Lemma uint32_add_l (a b : Z) : uint32 (uint32 a + b) = uint32 (a + b).
Proof. unfold uint32. apply Zplus_mod_idemp_l. Qed.

(** The sum over one cycle, for any step that accumulates below the
    factor and stores at the factor. *)
Section SumOfCycle.
Variable step : AD4020.state -> AD4020.state.

Hypothesis step_accumulates :
  forall s,
    (AD4020.oversamples s <=? uint32 (AD4020.sampleCycle s + 1)) = false ->
    AD4020.readVal (step s) = uint32 (AD4020.readVal s + ad4020_sample s)
    /\ AD4020.sampleCycle (step s) = uint32 (AD4020.sampleCycle s + 1)
    /\ AD4020.oversamples (step s) = AD4020.oversamples s
    /\ AD4020.regs (step s) = AD4020.regs s
    /\ AD4020.posReg (step s) = AD4020.posReg s
    /\ AD4020.writeReg (step s) = AD4020.writeReg s
    /\ AD4020.readReg (step s) = AD4020.readReg s.

Hypothesis step_stores :
  forall s,
    (AD4020.oversamples s <=? uint32 (AD4020.sampleCycle s + 1)) = true ->
    ad4020_ring_ok s ->
    forall k, 0 <= k < 4 ->
      AD4020.regs (step s) (AD4020.writeReg s) (AD4020.posReg s + k)
      = byte_at k (uint32 (AD4020.readVal s + ad4020_sample s)).

Lemma sum_of_cycle (n : nat) :
  forall s,
    AD4020.sampleCycle s + Z.of_nat (S n) = AD4020.oversamples s ->
    0 <= AD4020.sampleCycle s -> AD4020.oversamples s < 2 ^ 32 ->
    ad4020_ring_ok s ->
    le32 (AD4020.regs (iterate step (S n) s) (AD4020.writeReg s))
         (AD4020.posReg s)
    = uint32 (AD4020.readVal s
              + zsum (observe step ad4020_sample (S n) s)).
Proof.
  induction n as [| n IH]; intros s Hn Hc Ho Hring.
  - assert (Hcmp : (AD4020.oversamples s
                    <=? uint32 (AD4020.sampleCycle s + 1)) = true).
    { rewrite uint32_id by lia. apply Z.leb_le. lia. }
    cbn [iterate observe zsum fold_right].
    unfold le32.
    pose proof (step_stores s Hcmp Hring) as Hst.
    pose proof (Hst 0 ltac:(lia)) as H0. rewrite Z.add_0_r in H0.
    rewrite H0, (Hst 1), (Hst 2), (Hst 3) by lia.
    rewrite bytes_le32. rewrite Z.add_0_r.
    fold (uint32 (uint32 (AD4020.readVal s + ad4020_sample s))).
    unfold uint32. apply Z.mod_mod. lia.
  - assert (Hcmp : (AD4020.oversamples s
                    <=? uint32 (AD4020.sampleCycle s + 1)) = false).
    { rewrite uint32_id by lia. apply Z.leb_gt. lia. }
    destruct (step_accumulates s Hcmp)
      as (Ev & Ec & Eo & Eg & Ep & Ew & Er).
    rewrite (iterate_S step (S n) s), (observe_S step ad4020_sample (S n) s).
    rewrite <- Ew, <- Ep.
    rewrite IH.
    + rewrite Ev. cbn [zsum fold_right].
      fold (zsum (observe step ad4020_sample (S n) (step s))).
      rewrite uint32_add_l. f_equal. lia.
    + rewrite Ec, Eo, uint32_id by lia. lia.
    + rewrite Ec, uint32_id by lia. lia.
    + rewrite Eo. exact Ho.
    + unfold ad4020_ring_ok in *. rewrite Ep, Ew, Er. exact Hring.
Qed.
End SumOfCycle.

(** X9: with [oversamples] = N >= 1, the record that the N-th
    interrupt of a cycle stores is the sum of the N values read, modulo
    2^32, least significant byte first; the library does not divide by
    N. *)
Theorem X9_AD4020_record_is_sum (n : nat) (s : AD4020.state) :
  AD4020.oversamples s = Z.of_nat (S n) ->
  AD4020.oversamples s < 2 ^ 32 ->
  AD4020.sampleCycle s = 0 -> AD4020.readVal s = 0 ->
  ad4020_ring_ok s ->
  le32 (AD4020.regs (ad4020_ticks (S n) s) (AD4020.writeReg s))
       (AD4020.posReg s)
  = uint32 (zsum (ad4020_samples (S n) s)).
Proof.
  intros Hn Ho Hc Hv Hring.
  unfold ad4020_ticks, ad4020_samples.
  rewrite (sum_of_cycle AD4020.readISR ad4020_isr_accumulates
             ad4020_isr_stores n s).
  - rewrite Hv. reflexivity.
  - rewrite Hc. lia.
  - rewrite Hc. lia.
  - exact Ho.
  - exact Hring.
Qed.

Lemma X9_AD4020_record_is_sum_witness :
  let s := AD4020.set_oversamples 2
             (AD4020.init (machine_init
                (world_showing Pin.MISO_AD4020
                   (bits_down 5 20 ++ bits_down ((-2) mod 2 ^ 20) 20)))) in
  le32 (AD4020.regs (ad4020_ticks 2 s) (AD4020.writeReg s)) (AD4020.posReg s)
  = uint32 (zsum (ad4020_samples 2 s))
  /\ zsum (ad4020_samples 2 s) = 3.
Proof.
  split.
  - apply (X9_AD4020_record_is_sum 1);
      try reflexivity; unfold ad4020_ring_ok; cbn; repeat split; lia.
  - vm_compute. reflexivity.
Defined.

(** ** LTC2500.cpp: the configuration word *)

(** X10: for a filter type from 1 to 7 and a down-sampling exponent
    from 2 to 14, [LTC2500configureFilter] clocks twelve bits into the
    converter, most significant first: 1, 0, DGC, DGE, the four bits of
    the exponent and the four bits of the type (the clock being low
    before); for any other argument it writes no pin at all. *)
Theorem X10_LTC2500configureFilter_word
  (type downsampling : Z) (DGE DGC : bool) (w : world) (d : bool) :
  let w' := LTC2500.LTC2500configureFilter type downsampling DGE DGC w in
  if (1 <=? type) && (type <=? 7)
     && (2 <=? downsampling) && (downsampling <=? 14)
  then
    rising_bits Pin.SCLK_LTC2500 Pin.MOSI_LTC2500 false d (made w w')
    = [true; false; DGC; DGE]
        ++ bits_down downsampling 4 ++ bits_down type 4
  else w' = w.
Proof.
  intros w'. subst w'. unfold LTC2500.LTC2500configureFilter.
  destruct (Z.leb_spec 1 type) as [H1 | H1];
    [| replace (type <? 1) with true by (symmetry; apply Z.ltb_lt; lia);
       reflexivity].
  replace (type <? 1) with false by (symmetry; apply Z.ltb_ge; lia).
  destruct (Z.leb_spec type 7) as [H2 | H2];
    [| replace (7 <? type) with true by (symmetry; apply Z.ltb_lt; lia);
       reflexivity].
  replace (7 <? type) with false by (symmetry; apply Z.ltb_ge; lia).
  destruct (Z.leb_spec 2 downsampling) as [H3 | H3];
    [| replace (downsampling <? 2) with true
         by (symmetry; apply Z.ltb_lt; lia);
       reflexivity].
  replace (downsampling <? 2) with false by (symmetry; apply Z.ltb_ge; lia).
  destruct (Z.leb_spec downsampling 14) as [H4 | H4];
    [| replace (14 <? downsampling) with true
         by (symmetry; apply Z.ltb_lt; lia);
       reflexivity].
  replace (14 <? downsampling) with false by (symmetry; apply Z.ltb_ge; lia).
  cbn [orb andb].
  set (command := uint16 _).
  unfold LTC2500.LTC2500sendCommand.
  rewrite (made_app w _
    ([(Pin.MCLK_LTC2500, true); (Pin.MOSI_LTC2500, false)]
     ++ rev (flat_map (fun b => [(Pin.MOSI_LTC2500, b);
                                 (Pin.SCLK_LTC2500, true);
                                 (Pin.SCLK_LTC2500, false)])
                      (bits_down command 12))
     ++ [(Pin.DRL_LTC2500, false); (Pin.MCLK_LTC2500, false);
         (Pin.DRL_LTC2500, true)])) by reflexivity.
  rewrite !rev_app_distr, rev_involutive.
  change (rising_bits Pin.SCLK_LTC2500 Pin.MOSI_LTC2500 false d _)
    with (bits_down command 12).
  subst command.
  assert (Ht : type = 1 \/ type = 2 \/ type = 3 \/ type = 4 \/ type = 5
               \/ type = 6 \/ type = 7) by lia.
  assert (Hd : downsampling = 2 \/ downsampling = 3 \/ downsampling = 4
               \/ downsampling = 5 \/ downsampling = 6 \/ downsampling = 7
               \/ downsampling = 8 \/ downsampling = 9 \/ downsampling = 10
               \/ downsampling = 11 \/ downsampling = 12
               \/ downsampling = 13 \/ downsampling = 14) by lia.
  clear H1 H2 H3 H4.
  repeat (destruct Ht as [Ht | Ht]; [subst type |]); try subst type;
    repeat (destruct Hd as [Hd | Hd]; [subst downsampling |]);
    try subst downsampling;
    destruct DGE, DGC; vm_compute; reflexivity.
Qed.

(** ** LTC2500.cpp: the conversion result *)

Lemma ltc2500_wait_ready (fuel : nat) :
  forall (j : nat) (w : world),
    (j < fuel)%nat -> ready_after w j ->
    exists w',
      LTC2500.wait_ready fuel w = Some w'
      /\ writes w' = writes w
      /\ level_at w' = level_at w
      /\ reads w' Pin.MISO_LTC2500 = reads w Pin.MISO_LTC2500.
Proof.
  induction fuel as [| fuel IH]; intros j w Hj (Hbusy & Hready); [lia |].
  cbn [LTC2500.wait_ready digitalReadFast].
  destruct j as [| j].
  - cbn [Nat.add] in Hready. rewrite Hready.
    eexists. split; [reflexivity |]. repeat split.
  - pose proof (Hbusy O ltac:(lia)) as H0. cbn [Nat.add] in H0. rewrite H0.
    set (w1 := {| writes := writes w; level_at := level_at w;
                  reads := fun p => if p =? Pin.BUSY_LTC2500
                                    then S (reads w p) else reads w p |}).
    destruct (IH j w1) as (w' & E & Ew & El & Er).
    + lia.
    + split.
      * intros k Hk. subst w1. cbn [level_at reads].
        change (Pin.BUSY_LTC2500 =? Pin.BUSY_LTC2500) with true. cbn iota.
        replace (k + S (reads w Pin.BUSY_LTC2500))%nat
          with (S k + reads w Pin.BUSY_LTC2500)%nat by lia.
        apply Hbusy. lia.
      * subst w1. cbn [level_at reads].
        change (Pin.BUSY_LTC2500 =? Pin.BUSY_LTC2500) with true. cbn iota.
        replace (j + S (reads w Pin.BUSY_LTC2500))%nat
          with (S j + reads w Pin.BUSY_LTC2500)%nat by lia.
        exact Hready.
    + exists w'. split; [exact E |]. rewrite Ew, El, Er. repeat split.
Qed.

Lemma ltc2500_wait_busy (fuel : nat) :
  forall w : world,
    (forall k, (k < fuel)%nat ->
       level_at w Pin.BUSY_LTC2500 (k + reads w Pin.BUSY_LTC2500)%nat = true) ->
    LTC2500.wait_ready fuel w = None.
Proof.
  induction fuel as [| fuel IH]; intros w Hbusy; [reflexivity |].
  cbn [LTC2500.wait_ready digitalReadFast].
  pose proof (Hbusy O ltac:(lia)) as H0. cbn [Nat.add] in H0. rewrite H0.
  apply IH.
  intros k Hk. cbn [level_at reads].
  change (Pin.BUSY_LTC2500 =? Pin.BUSY_LTC2500) with true. cbn iota.
  replace (k + S (reads w Pin.BUSY_LTC2500))%nat
    with (S k + reads w Pin.BUSY_LTC2500)%nat by lia.
  apply Hbusy. lia.
Qed.

Lemma ltc2500_read_loop (n : nat) (val : Z) (w : world) :
  (n <= 31)%nat -> - 2 ^ 31 <= val -> val + 2 ^ Z.of_nat n <= 2 ^ 31 ->
  fst (for_down n (Z.of_nat n - 1) LTC2500.read_bit (val, w))
  = val + msb_value (next_levels w Pin.MISO_LTC2500 n).
Proof.
  apply (read_loop LTC2500.read_bit Pin.MISO_LTC2500); intros; reflexivity.
Qed.

Lemma ltc2500_sign_extend (v : Z) :
  0 <= v < 2 ^ 24 ->
  LTC2500.sign_extend LTC2500.noLatencyOutput v = signed 24 v.
Proof.
  intros Hv. unfold LTC2500.sign_extend, signed.
  change (LTC2500.noLatencyOutput =? LTC2500.noLatencyOutput) with true.
  cbn [andb].
  change 8388608 with (2 ^ 23). rewrite land_pow2 by lia.
  change (24 - 1) with 23.
  assert (Hd : v / 2 ^ 23 = if v <? 2 ^ 23 then 0 else 1).
  { destruct (Z.ltb_spec v (2 ^ 23)).
    - apply Z.div_small. lia.
    - symmetry. apply (Z.div_unique v (2 ^ 23) 1 (v - 2 ^ 23)); lia. }
  rewrite Hd. destruct (Z.ltb_spec v (2 ^ 23)); [reflexivity |].
  cbn [negb Z.modulo]. change (2 ^ 23 * (1 mod 2) =? 0) with false.
  cbn [negb]. unfold uint32. rewrite (Z.mod_small v) by lia.
  unfold int32, wrap. change (2 ^ (32 - 1)) with (2 ^ 31).
  replace (v + 4278190080 + 2 ^ 31)
    with (v - 2 ^ 24 + 2 ^ 31 + 1 * 2 ^ 32) by lia.
  rewrite Z.mod_add by lia. rewrite Z.mod_small by lia. lia.
Qed.

Lemma ltc2500_mode_pins (mode : Z) (s : LTC2500.state) :
  level_at (LTC2500.pins (LTC2500.LTC2500updateOutputMode mode s))
  = level_at (LTC2500.pins s)
  /\ reads (LTC2500.pins (LTC2500.LTC2500updateOutputMode mode s))
     = reads (LTC2500.pins s)
  /\ LTC2500.offsetCorrection (LTC2500.LTC2500updateOutputMode mode s)
     = LTC2500.offsetCorrection s
  /\ LTC2500.useTiming (LTC2500.LTC2500updateOutputMode mode s)
     = LTC2500.useTiming s
  /\ LTC2500.outputMode (LTC2500.LTC2500updateOutputMode mode s)
     = if (mode =? LTC2500.noLatencyOutput) || (mode =? LTC2500.filteredOutput)
       then mode else LTC2500.outputMode s.
Proof.
  unfold LTC2500.LTC2500updateOutputMode.
  destruct (mode =? LTC2500.noLatencyOutput);
    destruct (mode =? LTC2500.filteredOutput);
    destruct (mode =? LTC2500.silent); repeat split.
Qed.

Lemma ltc2500_timing_pins (v : bool) (s : LTC2500.state) :
  level_at (LTC2500.pins (LTC2500.timing v s)) = level_at (LTC2500.pins s)
  /\ reads (LTC2500.pins (LTC2500.timing v s)) = reads (LTC2500.pins s)
  /\ LTC2500.offsetCorrection (LTC2500.timing v s)
     = LTC2500.offsetCorrection s
  /\ LTC2500.outputMode (LTC2500.timing v s) = LTC2500.outputMode s.
Proof.
  unfold LTC2500.timing. destruct (LTC2500.useTiming s); repeat split.
Qed.


Lemma ltc2500_signed32 (b : bool) (l : list bool) :
  length l = 31%nat ->
  - 2 ^ 31 * Z_of_level b + msb_value l = signed 32 (msb_value (b :: l)).
Proof.
  intros Hl. pose proof (msb_value_bounds l) as Hm. rewrite Hl in Hm.
  change (Z.of_nat 31) with 31 in Hm.
  cbn [msb_value]. rewrite Hl. change (Z.of_nat 31) with 31.
  unfold signed. change (32 - 1) with 31.
  destruct b; unfold Z_of_level.
  - destruct (Z.ltb_spec (1 * 2 ^ 31 + msb_value l) (2 ^ 31)); lia.
  - destruct (Z.ltb_spec (0 * 2 ^ 31 + msb_value l) (2 ^ 31)); lia.
Qed.

Lemma ltc2500_readValue_value (fuel j : nat) (s : LTC2500.state) :
  (j < fuel)%nat -> ready_after (LTC2500.pins s) j ->
  LTC2500.outputMode s = LTC2500.noLatencyOutput
  \/ LTC2500.outputMode s = LTC2500.filteredOutput ->
  let n := ltc2500_width (LTC2500.outputMode s) in
  option_map fst (LTC2500.LTC2500readValue fuel s)
  = Some (int32 (signed n (msb_value
                             (next_levels (LTC2500.pins s)
                                          Pin.MISO_LTC2500 (Z.to_nat n)))
                 + LTC2500.offsetCorrection s)).
Proof.
  intros Hj Hready Hmode n. subst n.
  unfold LTC2500.LTC2500readValue. cbv zeta.
  set (s2 := LTC2500.dw Pin.MCLK_LTC2500 false
               (LTC2500.dw Pin.MCLK_LTC2500 true (LTC2500.timing true s))).
  destruct (ltc2500_timing_pins true s) as (Tl & Tr & To & Tm).
  assert (Em2 : LTC2500.outputMode s2 = LTC2500.outputMode s) by exact Tm.
  assert (El2 : level_at (LTC2500.pins s2) = level_at (LTC2500.pins s))
    by exact Tl.
  assert (Er2 : reads (LTC2500.pins s2) = reads (LTC2500.pins s))
    by exact Tr.
  assert (Eo2 : LTC2500.offsetCorrection s2 = LTC2500.offsetCorrection s)
    by exact To.
  clearbody s2. rewrite Em2.
  destruct (ltc2500_mode_pins (LTC2500.outputMode s) s2)
    as (Ml & Mr & Mo & _ & Mm).
  set (s3 := LTC2500.LTC2500updateOutputMode (LTC2500.outputMode s) s2) in *.
  assert (Em3 : LTC2500.outputMode s3 = LTC2500.outputMode s).
  { rewrite Mm, Em2.
    destruct ((LTC2500.outputMode s =? LTC2500.noLatencyOutput)
              || (LTC2500.outputMode s =? LTC2500.filteredOutput));
      reflexivity. }
  rewrite El2 in Ml. rewrite Er2 in Mr. rewrite Eo2 in Mo.
  clearbody s3. clear Mm.
  assert (Hready3 : ready_after (LTC2500.pins s3) j).
  { unfold ready_after in *. rewrite Ml, Mr. exact Hready. }
  destruct (ltc2500_wait_ready fuel j (LTC2500.pins s3) Hj Hready3)
    as (w & Ew & _ & Wl & Wr).
  rewrite Ew, Em3.
  assert (Hl : level_at w = level_at (LTC2500.pins s)) by congruence.
  assert (Hr : reads w Pin.MISO_LTC2500
               = reads (LTC2500.pins s) Pin.MISO_LTC2500) by congruence.
  assert (Hnext : forall k,
            next_levels (LTC2500.pins s) Pin.MISO_LTC2500 k
            = next_levels w Pin.MISO_LTC2500 k).
  { intros k. unfold next_levels. rewrite Hl, Hr. reflexivity. }
  rewrite Hnext. clear Hnext Hl Hr Wl Wr Ew Hready3 Hready.
  destruct Hmode as [Hm | Hm]; rewrite Hm; unfold ltc2500_width.
  - change (LTC2500.noLatencyOutput =? LTC2500.filteredOutput) with false.
    cbv iota.
    destruct (for_down 24 23 LTC2500.read_bit (0, w)) as [val w3] eqn:E2.
    cbn [option_map fst].
    destruct (ltc2500_mode_pins LTC2500.silent
                (LTC2500.on_pins (fun _ => w3) s3)) as (_ & _ & So & _ & Sm).
    set (s4 := LTC2500.LTC2500updateOutputMode LTC2500.silent
                 (LTC2500.on_pins (fun _ => w3) s3)) in *.
    change (LTC2500.outputMode (LTC2500.on_pins (fun _ => w3) s3))
      with (LTC2500.outputMode s3) in Sm.
    change (LTC2500.offsetCorrection (LTC2500.on_pins (fun _ => w3) s3))
      with (LTC2500.offsetCorrection s3) in So.
    change ((LTC2500.silent =? LTC2500.noLatencyOutput)
            || (LTC2500.silent =? LTC2500.filteredOutput)) with false in Sm.
    cbv iota in Sm.
    rewrite Sm, So, Em3, Hm, Mo. f_equal. f_equal. f_equal.
    pose proof (ltc2500_read_loop 24 0 w) as HL.
    change (Z.of_nat 24 - 1) with 23 in HL. rewrite E2 in HL.
    cbn [fst] in HL. rewrite HL by lia. rewrite Z.add_0_l.
    change (Z.to_nat 24) with 24%nat.
    apply ltc2500_sign_extend.
    pose proof (msb_value_bounds (next_levels w Pin.MISO_LTC2500 24)) as Hb.
    rewrite next_levels_length in Hb. exact Hb.
  - change (LTC2500.filteredOutput =? LTC2500.filteredOutput) with true.
    cbv iota.
    unfold digitalReadFast at 1. cbv beta iota.
    set (b := level_at w Pin.MISO_LTC2500 (reads w Pin.MISO_LTC2500)).
    set (w2 := {| writes := writes w; level_at := level_at w;
                  reads := fun p => if p =? Pin.MISO_LTC2500
                                    then S (reads w p) else reads w p |}).
    destruct (for_down 31 30 LTC2500.read_bit (add_bit 0 b 31, w2))
      as [val w3] eqn:E2.
    cbn [option_map fst].
    destruct (ltc2500_mode_pins LTC2500.silent
                (LTC2500.on_pins (fun _ => w3) s3)) as (_ & _ & So & _ & Sm).
    set (s4 := LTC2500.LTC2500updateOutputMode LTC2500.silent
                 (LTC2500.on_pins (fun _ => w3) s3)) in *.
    change (LTC2500.outputMode (LTC2500.on_pins (fun _ => w3) s3))
      with (LTC2500.outputMode s3) in Sm.
    change (LTC2500.offsetCorrection (LTC2500.on_pins (fun _ => w3) s3))
      with (LTC2500.offsetCorrection s3) in So.
    change ((LTC2500.silent =? LTC2500.noLatencyOutput)
            || (LTC2500.silent =? LTC2500.filteredOutput)) with false in Sm.
    cbv iota in Sm.
    rewrite Sm, So, Em3, Hm, Mo. f_equal. f_equal. f_equal.
    unfold LTC2500.sign_extend.
    change (LTC2500.filteredOutput =? LTC2500.noLatencyOutput) with false.
    cbn [andb].
    assert (H0 : add_bit 0 b 31 = - 2 ^ 31 * Z_of_level b)
      by (destruct b; vm_compute; reflexivity).
    assert (Hl : level_at w2 = level_at w) by reflexivity.
    assert (Hr : reads w2 Pin.MISO_LTC2500 = S (reads w Pin.MISO_LTC2500))
      by reflexivity.
    pose proof (ltc2500_read_loop 31 (add_bit 0 b 31) w2) as HL.
    change (Z.of_nat 31 - 1) with 30 in HL. rewrite E2 in HL.
    cbn [fst] in HL.
    rewrite HL by (rewrite ?H0; try lia; destruct b; unfold Z_of_level;
                   change (Z.of_nat 31) with 31; lia).
    change (Z.to_nat 32) with 32%nat.
    rewrite (next_levels_succ w w2 Pin.MISO_LTC2500 31 Hl Hr). fold b.
    rewrite H0. apply ltc2500_signed32. apply next_levels_length.
Qed.

(** X11: once the busy line reads low, [LTC2500readValue] returns the
    number the converter shifts out plus the offset correction: the 24
    bits of the no-latency output and the 32 bits of the filtered output
    are both read most significant bit first as two's complement. *)
Theorem X11_LTC2500readValue_decodes
  (fuel j : nat) (s : LTC2500.state) (x : Z) :
  (j < fuel)%nat -> ready_after (LTC2500.pins s) j ->
  LTC2500.outputMode s = LTC2500.noLatencyOutput
  \/ LTC2500.outputMode s = LTC2500.filteredOutput ->
  let n := ltc2500_width (LTC2500.outputMode s) in
  - 2 ^ (n - 1) <= x < 2 ^ (n - 1) ->
  next_levels (LTC2500.pins s) Pin.MISO_LTC2500 (Z.to_nat n)
  = bits_down (x mod 2 ^ n) (Z.to_nat n) ->
  option_map fst (LTC2500.LTC2500readValue fuel s)
  = Some (int32 (x + LTC2500.offsetCorrection s)).
Proof.
  intros Hj Hready Hmode n Hx Hbits.
  rewrite (ltc2500_readValue_value fuel j s Hj Hready Hmode).
  fold n. rewrite Hbits.
  assert (Hn : n = 24 \/ n = 32).
  { subst n. unfold ltc2500_width.
    destruct (LTC2500.outputMode s =? LTC2500.filteredOutput); lia. }
  rewrite msb_bits_down by (apply Z.mod_pos_bound; destruct Hn as [-> | ->]; lia).
  rewrite Z2Nat.id by lia. rewrite Z.mod_mod by (destruct Hn as [-> | ->]; lia).
  rewrite signed_code by lia. reflexivity.
Qed.

Lemma X11_LTC2500readValue_decodes_witness :
  option_map fst
    (LTC2500.LTC2500readValue 3
       (LTC2500.init (ltc2500_world 2 (bits_down ((-5) mod 2 ^ 24) 24))))
  = Some (-5)
  /\ option_map fst
       (LTC2500.LTC2500readValue 3
          (LTC2500.set_outputMode LTC2500.filteredOutput
             (LTC2500.init (ltc2500_world 2 (bits_down ((-5) mod 2 ^ 32) 32)))))
     = Some (-5).
Proof.
  split.
  - apply (X11_LTC2500readValue_decodes 3 2
             (LTC2500.init (ltc2500_world 2 (bits_down ((-5) mod 2 ^ 24) 24)))
             (-5)).
    + lia.
    + split; [intros k Hk | reflexivity].
      destruct k as [| [| k]]; [reflexivity | reflexivity | lia].
    + left. reflexivity.
    + vm_compute. split; [discriminate | reflexivity].
    + reflexivity.
  - apply (X11_LTC2500readValue_decodes 3 2
             (LTC2500.set_outputMode LTC2500.filteredOutput
                (LTC2500.init
                   (ltc2500_world 2 (bits_down ((-5) mod 2 ^ 32) 32))))
             (-5)).
    + lia.
    + split; [intros k Hk | reflexivity].
      destruct k as [| [| k]]; [reflexivity | reflexivity | lia].
    + right. reflexivity.
    + vm_compute. split; [discriminate | reflexivity].
    + reflexivity.
Defined.

(** ** T4.cpp: the serial command line *)

Section SerialLine.

Variable G : Type.







(** X13: [serialEvent] keeps the write position inside the buffer and
    writes no element outside the first [bufferLen] ones, whatever
    arrives on the bus; the handlers and the globals of the sketch are
    left alone. *)
Theorem X13_serialEvent_in_bounds
  (avail : list Ascii.ascii) (s : Serial.state G) :
  0 <= Serial.bufferPos G s < Serial.bufferLen ->
  let s' := fst (Serial.serialEvent G avail s) in
  0 <= Serial.bufferPos G s' < Serial.bufferLen
  /\ (forall i, ~ 0 <= i < Serial.bufferLen ->
        Serial.serialBuffer G s' i = Serial.serialBuffer G s i)
  /\ Serial.serialFuncs G s' = Serial.serialFuncs G s
  /\ Serial.globals G s' = Serial.globals G s.
Proof.
  intros Hp s'. subst s'. unfold Serial.serialEvent.
  destruct (Serial.checkingBuffer G s).
  - cbn [fst]. repeat split; try lia.
  - revert s Hp. unfold Serial.bufferLen.
    induction avail as [| c l IH]; intros s Hp.
    + cbn [Serial.take_chars fst]. repeat split; try lia.
    + cbn [Serial.take_chars].
      destruct (Ascii.eqb c Serial.newline).
      * cbn [fst Serial.bufferPos Serial.serialBuffer Serial.serialFuncs
             Serial.globals Serial.set_newCommand Serial.set_bufferPos
             Serial.set_serialBuffer].
        repeat split; try lia.
        intros i Hi. unfold upd.
        destruct (Z.eqb_spec i (Serial.bufferPos G s)); [lia | reflexivity].
      * set (s1 := Serial.set_bufferPos G _ _).
        assert (Hp1 : 0 <= Serial.bufferPos G s1 < 100).
        { subst s1. cbn [Serial.bufferPos Serial.set_bufferPos
                         Serial.set_serialBuffer].
          unfold Serial.bufferLen. rewrite Z.rem_mod_nonneg by lia.
          apply Z.mod_pos_bound. lia. }
        destruct (IH s1 Hp1) as (I1 & I2 & I3 & I4).
        split; [exact I1 |]. split; [| split; [exact I3 | exact I4]].
        intros i Hi. rewrite I2 by exact Hi.
        subst s1. cbn [Serial.serialBuffer Serial.set_bufferPos
                       Serial.set_serialBuffer].
        unfold upd.
        destruct (Z.eqb_spec i (Serial.bufferPos G s)); [lia | reflexivity].
Qed.

Lemma ask_frame (fs : list (Serial.handler G)) :
  forall s : Serial.state G,
    Serial.serialBuffer G (Serial.ask G fs s) = Serial.serialBuffer G s
    /\ Serial.newCommand G (Serial.ask G fs s) = Serial.newCommand G s
    /\ Serial.serialFuncs G (Serial.ask G fs s) = Serial.serialFuncs G s
    /\ Serial.bufferPos G (Serial.ask G fs s) = Serial.bufferPos G s.
Proof.
  induction fs as [| f fs IH]; intros s; [repeat split |].
  cbn [Serial.ask].
  destruct (f (Serial.buffer_string G s) (Serial.globals G s)) as [g b].
  destruct b; [repeat split |].
  destruct (IH (Serial.T4dw G Pin.FailPin true (Serial.set_globals G g s)))
    as (I1 & I2 & I3 & I4).
  rewrite I1, I2, I3, I4. repeat split.
Qed.

Lemma ask_refused (cmd : String.string) (fs : list (Serial.handler G)) :
  forall s : Serial.state G,
    Serial.buffer_string G s = cmd ->
    Forall (fun h : Serial.handler G => forall g, snd (h cmd g) = false) fs ->
    exists w,
      Serial.ask G fs s
      = Serial.set_pins G w
          (Serial.set_globals G
             (fold_left (fun g (h : Serial.handler G) => fst (h cmd g)) fs
                        (Serial.globals G s)) s).
Proof.
  induction fs as [| f fs IH]; intros s Hcmd Hall.
  - exists (Serial.pins G s). destruct s. reflexivity.
  - cbn [Serial.ask fold_left]. rewrite Hcmd.
    apply Forall_cons_iff in Hall. destruct Hall as [Hf Hrest].
    specialize (Hf (Serial.globals G s)).
    destruct (f cmd (Serial.globals G s)) as [g b]. cbn [snd] in Hf.
    subst b. cbn [fst].
    destruct (IH (Serial.T4dw G Pin.FailPin true (Serial.set_globals G g s)))
      as (w & E); [exact Hcmd | exact Hrest |].
    exists w. rewrite E. reflexivity.
Qed.

Lemma ask_app_accept (cmd : String.string)
  (pre post : list (Serial.handler G)) (f : Serial.handler G) :
  forall s : Serial.state G,
    Serial.buffer_string G s = cmd ->
    Forall (fun h : Serial.handler G => forall g, snd (h cmd g) = false) pre ->
    snd (f cmd (fold_left (fun g (h : Serial.handler G) => fst (h cmd g)) pre
                          (Serial.globals G s))) = true ->
    Serial.globals G (Serial.ask G (pre ++ f :: post) s)
    = fst (f cmd (fold_left (fun g (h : Serial.handler G) => fst (h cmd g))
                            pre (Serial.globals G s))).
Proof.
  induction pre as [| h pre IH]; intros s Hcmd Hall Hf.
  - cbn [app Serial.ask fold_left] in *. rewrite Hcmd.
    destruct (f cmd (Serial.globals G s)) as [g b]. cbn [snd] in Hf.
    subst b. reflexivity.
  - cbn [app Serial.ask fold_left] in *. rewrite Hcmd.
    apply Forall_cons_iff in Hall. destruct Hall as [Hh Hrest].
    specialize (Hh (Serial.globals G s)).
    destruct (h cmd (Serial.globals G s)) as [g b]. cbn [snd] in Hh.
    subst b. cbn [fst] in *.
    apply (IH (Serial.T4dw G Pin.FailPin true (Serial.set_globals G g s)));
      [exact Hcmd | exact Hrest | exact Hf].
Qed.

(** X14: [T4checkSerialBuffer] hands a new command to the registered
    functions in the order of their registration; the first that
    accepts it ends the search, so that the functions registered after
    it are not called; if none accepts, all have been called.  In both
    cases the command is then cleared and the flag reset; without a new
    command nothing happens. *)
Theorem X14_T4checkSerialBuffer_dispatch
  (s : Serial.state G) (pre post : list (Serial.handler G))
  (f : Serial.handler G) :
  let cmd := Serial.buffer_string G s in
  let run := fold_left (fun g (h : Serial.handler G) => fst (h cmd g)) in
  let s' := Serial.T4checkSerialBuffer G s in
  (Serial.newCommand G s = false -> s' = s)
  /\ (Serial.newCommand G s = true ->
      Serial.buffer_string G s' = String.EmptyString
      /\ Serial.newCommand G s' = false
      /\ Serial.serialFuncs G s' = Serial.serialFuncs G s
      /\ (Serial.serialFuncs G s = pre ++ f :: post ->
          Forall (fun h : Serial.handler G =>
                    forall g, snd (h cmd g) = false) pre ->
          snd (f cmd (run pre (Serial.globals G s))) = true ->
          Serial.globals G s' = fst (f cmd (run pre (Serial.globals G s))))
      /\ (Forall (fun h : Serial.handler G =>
                    forall g, snd (h cmd g) = false)
                 (Serial.serialFuncs G s) ->
          Serial.globals G s'
          = run (Serial.serialFuncs G s) (Serial.globals G s))).
Proof.
  intros cmd run s'. subst s'. unfold Serial.T4checkSerialBuffer.
  split; intros Hn; rewrite Hn; cbn [negb]; [reflexivity |].
  destruct (ask_frame (Serial.serialFuncs G s) s) as (A1 & A2 & A3 & A4).
  split; [| split; [reflexivity | split; [exact A3 | split]]].
  - unfold Serial.buffer_string, Serial.bufferLen.
    change (Z.to_nat (100 + 1)) with 101%nat.
    cbn [Serial.string_at Serial.serialBuffer Serial.T4dw Serial.set_pins
         Serial.set_newCommand Serial.T4clearSerialBuffer
         Serial.set_serialBuffer].
    unfold upd. rewrite Z.eqb_refl.
    change (Ascii.eqb Serial.NUL Serial.NUL) with true. reflexivity.
  - intros Hfs Hall Hf.
    change (Serial.globals G
              (Serial.ask G (Serial.serialFuncs G s) s)
            = fst (f cmd (run pre (Serial.globals G s)))).
    rewrite Hfs. apply ask_app_accept; [reflexivity | exact Hall | exact Hf].
  - intros Hall.
    change (Serial.globals G
              (Serial.ask G (Serial.serialFuncs G s) s)
            = run (Serial.serialFuncs G s) (Serial.globals G s)).
    destruct (ask_refused cmd (Serial.serialFuncs G s) s eq_refl Hall)
      as (w & E).
    rewrite E. reflexivity.
Qed.

(** X15: [T4addSerialFunc] keeps the functions in the order of their
    registration and at most [T4maxSerialFuncs] of them: of any
    sequence of registrations after the start the first twenty are
    kept and the others dropped. *)
Theorem X15_T4addSerialFunc_keeps_first_twenty
  (fs : list (Serial.handler G)) (w : world) (g : G) :
  Serial.serialFuncs G
    (fold_left (fun s f => Serial.T4addSerialFunc G f s) fs
               (Serial.init G w g))
  = firstn (Z.to_nat Serial.T4maxSerialFuncs) fs.
Proof.
  assert (Hgen : forall (s : Serial.state G),
            (length (Serial.serialFuncs G s) <= 20)%nat ->
            Serial.serialFuncs G
              (fold_left (fun s f => Serial.T4addSerialFunc G f s) fs s)
            = firstn 20 (Serial.serialFuncs G s ++ fs)).
  { induction fs as [| f fs IH]; intros s Hs.
    - cbn [fold_left]. rewrite app_nil_r. symmetry.
      apply firstn_all2. exact Hs.
    - cbn [fold_left]. unfold Serial.T4addSerialFunc at 2.
      unfold Serial.T4maxSerialFuncs.
      destruct (Z.leb_spec 20 (Z.of_nat (length (Serial.serialFuncs G s))))
        as [Hfull | Hroom].
      + rewrite IH by exact Hs.
        assert (Hl : length (Serial.serialFuncs G s) = 20%nat) by lia.
        rewrite !firstn_app, Hl. cbn [Nat.sub firstn]. reflexivity.
      + rewrite IH.
        * cbn [Serial.serialFuncs Serial.set_serialFuncs].
          rewrite <- app_assoc. reflexivity.
        * cbn [Serial.serialFuncs Serial.set_serialFuncs].
          rewrite length_app. cbn [length]. lia. }
  apply (Hgen (Serial.init G w g)). cbn. lia.
Qed.

End SerialLine.

Section SerialLineRuns.
Import Ascii.


Lemma X13_serialEvent_in_bounds_witness :
  let s := Serial.init unit idle_world tt in
  let s' := fst (Serial.serialEvent unit (repeat "x"%char 250) s) in
  0 <= Serial.bufferPos unit s' < Serial.bufferLen
  /\ (forall i, ~ 0 <= i < Serial.bufferLen ->
        Serial.serialBuffer unit s' i = Serial.serialBuffer unit s i)
  /\ Serial.serialFuncs unit s' = Serial.serialFuncs unit s
  /\ Serial.globals unit s' = Serial.globals unit s.
Proof.
  apply (X13_serialEvent_in_bounds unit (repeat "x"%char 250)
           (Serial.init unit idle_world tt)).
  unfold Serial.bufferLen. simpl. lia.
Defined.

Lemma X14_T4checkSerialBuffer_dispatch_witness :
  let h1 : Serial.handler Z := fun _ g => (g + 1, false) in
  let h2 : Serial.handler Z := fun _ g => (g * 10, true) in
  let h3 : Serial.handler Z := fun _ g => (0, true) in
  let s := Serial.set_newCommand Z true
             (Serial.set_serialFuncs Z [h1; h2; h3]
                (Serial.init Z idle_world 1)) in
  Serial.globals Z (Serial.T4checkSerialBuffer Z s) = 20
  /\ Serial.newCommand Z (Serial.T4checkSerialBuffer Z s) = false.
Proof.
  cbv zeta.
  destruct (X14_T4checkSerialBuffer_dispatch Z
              (Serial.set_newCommand Z true
                 (Serial.set_serialFuncs Z
                    [(fun _ g => (g + 1, false));
                     (fun _ g => (g * 10, true));
                     (fun _ g => (0, true))]
                    (Serial.init Z idle_world 1)))
              [(fun _ g => (g + 1, false))]
              [(fun _ g => (0, true))]
              (fun _ g => (g * 10, true))) as (_ & H).
  destruct (H eq_refl) as (_ & Hn & _ & Hacc & _).
  split; [| exact Hn].
  apply Hacc.
  - reflexivity.
  - constructor; [intros g; reflexivity | constructor].
  - reflexivity.
Defined.

End SerialLineRuns.

(** ** AD4020.cpp: the commands of the host *)

Section AD4020Commands.
Import String Ascii.
Local Open Scope string_scope.
Local Open Scope Z_scope.

Variable toInt : string -> Z.

Lemma remove0_app (x y : string) :
  Str.remove0 (String.length x) (x ++ y) = y.
Proof. induction x as [| c x IH]; [destruct y |]; auto. Qed.

Lemma startsWith_app (p v : string) : Str.startsWith (p ++ v) p = true.
Proof.
  unfold Str.startsWith. induction p as [| c p IH].
  - destruct v; reflexivity.
  - cbn [append prefix]. destruct (ascii_dec c c) as [_ | Hc];
      [exact IH | contradiction].
Qed.

Lemma remove0_seven (x y : string) :
  String.length x = 7%nat -> Str.remove0 7 (x ++ y) = y.
Proof. intros H. rewrite <- H. apply remove0_app. Qed.

Lemma length_append (x y : string) :
  String.length (x ++ y) = (String.length x + String.length y)%nat.
Proof. induction x as [| c x IH]; [reflexivity |]. simpl. rewrite IH. reflexivity. Qed.

Lemma append_longer (x y z : string) :
  String.length x = 7%nat -> (String.length z <= 5)%nat ->
  ((x ++ y)%string =? z)%string = false.
Proof.
  intros Hx Hz. destruct (String.eqb_spec (x ++ y) z) as [E | E];
    [| reflexivity].
  apply (f_equal String.length) in E.
  rewrite length_append in E. lia.
Qed.

(** X16: [case settingTiming] of [AD4020checkUpdate] has no [break] and
    runs into [case settingNoSkip], which removes seven more
    characters.  So a [timing=] command whose value is seven characters
    followed by [true] or [false] sets [noSkipping] and is answered
    with [true], [useTiming] staying as it is; the values [true] and
    [false] themselves set [useTiming] only. *)
Theorem X16_AD4020_timing_runs_into_noSkip (x : string) (s : AD4020.state) :
  String.length x = 7%nat ->
  AD4020.AD4020checkUpdate toInt ("AD4020.timing=" ++ x ++ "true") s
  = Some (AD4020.AD4020updateNoSkip true s, true)
  /\ AD4020.AD4020checkUpdate toInt ("AD4020.timing=" ++ x ++ "false") s
     = Some (AD4020.AD4020updateNoSkip false s, true)
  /\ AD4020.AD4020checkUpdate toInt "AD4020.timing=true" s
     = Some (AD4020.AD4020updateTiming true s, true)
  /\ AD4020.AD4020checkUpdate toInt "AD4020.timing=false" s
     = Some (AD4020.AD4020updateTiming false s, true).
Proof.
  intros Hx.
  assert (Hgen : forall v : string,
            AD4020.AD4020checkUpdate toInt ("AD4020.timing=" ++ v) s
            = let '(s1, b) :=
                if (v =? "true")%string
                then (AD4020.AD4020updateTiming true s, true)
                else if (v =? "false")%string
                     then (AD4020.AD4020updateTiming false s, true)
                     else (s, false) in
              Some (AD4020.case_noSkip v b s1)).
  { intros v. unfold AD4020.AD4020checkUpdate.
    replace (Str.startsWith ("AD4020.timing=" ++ v) "AD4020.") with true
      by reflexivity.
    replace (Str.remove0 7 ("AD4020.timing=" ++ v)) with ("timing=" ++ v)
      by reflexivity.
    replace (AD4020.checkParam ("timing=" ++ v)) with AD4020.settingTiming
      by (unfold AD4020.checkParam; rewrite (startsWith_app "timing=" v);
          reflexivity).
    replace (Str.remove0 7 ("timing=" ++ v)) with v by reflexivity.
    reflexivity. }
  repeat split.
  - rewrite Hgen, !append_longer by (exact Hx || (simpl; lia)).
    unfold AD4020.case_noSkip. cbv zeta.
    rewrite remove0_seven by exact Hx. reflexivity.
  - rewrite Hgen, !append_longer by (exact Hx || (simpl; lia)).
    unfold AD4020.case_noSkip. cbv zeta.
    rewrite remove0_seven by exact Hx. reflexivity.
Qed.

End AD4020Commands.

Section AD4020CommandRuns.
Import String Ascii.
Local Open Scope string_scope.

Lemma X16_AD4020_timing_runs_into_noSkip_witness :
  let s := AD4020.init (machine_init idle_world) in
  AD4020.AD4020checkUpdate (fun _ => 0%Z) "AD4020.timing=noSkip=false" s
  = Some (AD4020.AD4020updateNoSkip false s, true).
Proof.
  exact (proj1 (proj2
    (X16_AD4020_timing_runs_into_noSkip (fun _ => 0%Z) "noSkip="
       (AD4020.init (machine_init idle_world)) eq_refl))).
Defined.

End AD4020CommandRuns.

(** ** AD4020.cpp: the static sample rate *)

Lemma ad4020_store_sum_same (s : AD4020.state) :
  let s' := AD4020.store_sum s in
  AD4020.samplerate s' = AD4020.samplerate s
  /\ AD4020.oversamples s' = AD4020.oversamples s
  /\ AD4020.sampleCycle s' = AD4020.sampleCycle s
  /\ AD4020.readVal s' = AD4020.readVal s
  /\ AD4020.offsetCorrection s' = AD4020.offsetCorrection s
  /\ AD4020.full s' = AD4020.full s
  /\ AD4020.initial s' = AD4020.initial s
  /\ AD4020.timerCounter s' = AD4020.timerCounter s
  /\ AD4020.useTiming s' = AD4020.useTiming s
  /\ AD4020.mach s' = AD4020.mach s.
Proof.
  unfold AD4020.store_sum.
  destruct ((0 <=? AD4020.writeReg s) && (AD4020.writeReg s <=? 2));
    repeat split.
Qed.

Lemma ad4020_send_rate (s : AD4020.state) :
  AD4020.samplerate (AD4020.AD4020sendDataToPC s) = AD4020.samplerate s.
Proof.
  unfold AD4020.AD4020sendDataToPC, AD4020.timing.
  destruct s as [sr os sc rv oc rg pr wr rr fl ini tc ut ns m].
  ad4020_cbn. destruct fl, ut; ad4020_cbn;
    destruct ((0 <=? rr) && (rr <=? 2)); reflexivity.
Qed.

Lemma ad4020_finish_rate (s : AD4020.state) :
  AD4020.samplerate (AD4020.isr_finish s) = AD4020.samplerate s.
Proof.
  unfold AD4020.isr_finish.
  destruct (ad4020_timing_same false
              (AD4020.set_sampleCycle 0 (AD4020.set_readVal 0 s)))
    as ((E & _) & _).
  exact E.
Qed.

Lemma ad4020_overrun_rate (s : AD4020.state) :
  AD4020.samplerate (AD4020.isr_overrun s) = AD4020.samplerate s.
Proof.
  unfold AD4020.isr_overrun.
  destruct (0 <? AD4020.initial s).
  - cbv zeta. ad4020_cbn.
    rewrite (ad4020_send_rate (AD4020.on_mach (set_irq false) s)).
    reflexivity.
  - cbv zeta. rewrite ad4020_finish_rate.
    destruct (AD4020.timerCounter _ =? 0); [reflexivity |].
    destruct (AD4020.timerCounter _ =? 1); reflexivity.
Qed.

Lemma ad4020_switch_rate (s : AD4020.state) :
  AD4020.samplerate (AD4020.isr_switch s) = AD4020.samplerate s.
Proof.
  unfold AD4020.isr_switch. cbv zeta.
  destruct (AD4020.noSkipping _ && _).
  - rewrite ad4020_overrun_rate. reflexivity.
  - rewrite ad4020_finish_rate. reflexivity.
Qed.

Lemma ad4020_isr_rate (s : AD4020.state) :
  AD4020.samplerate (AD4020.readISR s) = AD4020.samplerate s.
Proof.
  destruct (ad4020_isr_head s) as (s2 & Hsame & E).
  rewrite E. clear E. cbv zeta.
  destruct Hsame as (Er & _).
  set (s4 := AD4020.set_sampleCycle _ (AD4020.set_readVal _ s2)).
  assert (E4 : AD4020.samplerate s4 = AD4020.samplerate s) by exact Er.
  clearbody s4.
  destruct (AD4020.oversamples s4 <=? AD4020.sampleCycle s4).
  - destruct (ad4020_store_sum_same s4) as (E5 & _).
    destruct (AD4020.regLen <=? AD4020.posReg (AD4020.store_sum s4)).
    + rewrite ad4020_switch_rate. congruence.
    + rewrite ad4020_finish_rate. congruence.
  - destruct (ad4020_timing_same false s4) as ((E & _) & _). congruence.
Qed.

Lemma ad4020_select_rate (rate : Z) (s s' : AD4020.state) :
  AD4020.select_timer rate s = Some s' ->
  AD4020.samplerate s' = AD4020.samplerate s.
Proof.
  unfold AD4020.select_timer.
  destruct (AD4020.timerCounter s =? 0).
  - cbv zeta. destruct (udiv ccRate rate); [| discriminate].
    intros E. inversion E. reflexivity.
  - destruct (AD4020.timerCounter s =? 1).
    + cbv zeta. destruct (udiv ccRate rate); [| discriminate].
      intros E. inversion E. reflexivity.
    + intros E. inversion E. reflexivity.
Qed.

Lemma ad4020_compare_rate (rate : Z) (s s' : AD4020.state) :
  AD4020.set_compare rate s = Some s' ->
  AD4020.samplerate s' = AD4020.samplerate s.
Proof.
  unfold AD4020.set_compare.
  destruct (AD4020.timerCounter s =? 0).
  - destruct (udiv ccRate rate); [| discriminate].
    intros E. inversion E. reflexivity.
  - destruct (AD4020.timerCounter s =? 1).
    + destruct (udiv ccRate rate); [| discriminate].
      intros E. inversion E. reflexivity.
    + intros E. inversion E. reflexivity.
Qed.


Lemma ad4020_initialize3_rate (rate n timer : Z) (s s' : AD4020.state) :
  AD4020.AD4020initialize3 rate n timer s = Some s' ->
  AD4020.samplerate s' = AD4020.samplerate s.
Proof.
  unfold AD4020.AD4020initialize3. cbv zeta.
  destruct (udiv ccRate rate) as [q |]; [| discriminate].
  intros E. inversion E. unfold AD4020.interSetup. cbv zeta.
  destruct (timer =? 0); [reflexivity |].
  destruct (timer =? 1); reflexivity.
Qed.

Lemma ad4020_updateSamplerate_rate (rate : Z) (s s' : AD4020.state) :
  AD4020.AD4020updateSamplerate rate s = Some s' ->
  AD4020.samplerate s' = AD4020.samplerate s.
Proof.
  unfold AD4020.AD4020updateSamplerate. cbv zeta.
  destruct (AD4020.set_compare rate (AD4020.on_mach (set_irq false) s))
    as [s1 |] eqn:E1; [| discriminate].
  intros E. inversion E.
  apply ad4020_compare_rate in E1. exact E1.
Qed.

Lemma ad4020_updateTimer_rate (timer : Z) (s s' : AD4020.state) :
  AD4020.AD4020updateTimer timer s = Some s' ->
  AD4020.samplerate s' = AD4020.samplerate s.
Proof.
  unfold AD4020.AD4020updateTimer. cbv zeta.
  destruct (AD4020.select_timer _ _) as [s1 |] eqn:E1; [| discriminate].
  intros E. inversion E.
  apply ad4020_select_rate in E1. exact E1.
Qed.

Lemma ad4020_update_rate (rate n timer : Z) (tm ns : bool)
  (s s' : AD4020.state) :
  AD4020.AD4020update rate n timer tm ns s = Some s' ->
  AD4020.samplerate s' = AD4020.samplerate s.
Proof.
  unfold AD4020.AD4020update. cbv zeta.
  destruct (AD4020.select_timer _ _) as [s1 |] eqn:E1; [| discriminate].
  intros E. inversion E.
  apply ad4020_select_rate in E1.
  destruct (ad4020_timing_same false (AD4020.on_mach (set_irq true) s1))
    as ((E2 & _) & _).
  rewrite E2.
  destruct (ad4020_timing_same true s) as ((E3 & _) & _).
  etransitivity; [exact E1 | exact E3].
Qed.

Lemma ad4020_readValue_rate (s : AD4020.state) :
  AD4020.samplerate (snd (AD4020.AD4020readValue s)) = AD4020.samplerate s.
Proof.
  unfold AD4020.AD4020readValue. cbv zeta.
  destruct (digitalReadFast _ _) as [b w].
  destruct (for_down 19 18 AD4020.read_bit _) as [val w3].
  cbn [snd].
  destruct (ad4020_timing_same false
    (AD4020.on_mach
       (set_pins (digitalWriteFast Pin.CNV_AD4020 true
                    (digitalWriteFast Pin.SCLK_AD4020 false w3)))
       (AD4020.dw Pin.CNV_AD4020 false (AD4020.timing true s))))
    as ((E2 & _) & _).
  rewrite E2.
  destruct (ad4020_timing_same true s) as ((E3 & _) & _).
  exact E3.
Qed.

Lemma ad4020_case_noSkip_rate (a : String.string) (b : bool)
  (s : AD4020.state) :
  AD4020.samplerate (fst (AD4020.case_noSkip a b s)) = AD4020.samplerate s.
Proof.
  unfold AD4020.case_noSkip. cbv zeta.
  destruct (String.eqb _ _); [reflexivity |].
  destruct (String.eqb _ _); reflexivity.
Qed.

Lemma ad4020_checkUpdate_rate (toInt : String.string -> Z)
  (a : String.string) (s s' : AD4020.state) (b : bool) :
  AD4020.AD4020checkUpdate toInt a s = Some (s', b) ->
  AD4020.samplerate s' = AD4020.samplerate s.
Proof.
  unfold AD4020.AD4020checkUpdate.
  destruct (Str.startsWith a _); [| intros E; inversion E; reflexivity].
  cbv zeta.
  destruct (_ =? AD4020.settingSamplerate).
  { destruct (AD4020.AD4020updateSamplerate _ s) as [s1 |] eqn:E1;
      [| discriminate].
    intros E. inversion E. subst.
    apply ad4020_updateSamplerate_rate in E1. exact E1. }
  destruct (_ =? AD4020.settingOversamples).
  { intros E. inversion E. reflexivity. }
  destruct (_ =? AD4020.settingTimer).
  { destruct (AD4020.AD4020updateTimer _ s) as [s1 |] eqn:E1;
      [| discriminate].
    intros E. inversion E. subst.
    apply ad4020_updateTimer_rate in E1. exact E1. }
  destruct (_ =? AD4020.settingTiming).
  { destruct (String.eqb _ _); [| destruct (String.eqb _ _)];
      intros E; injection E as E'; apply (f_equal fst) in E';
      cbn [fst] in E'; rewrite <- E', ad4020_case_noSkip_rate; reflexivity. }
  destruct (_ =? AD4020.settingNoSkip).
  { intros E. injection E as E'. apply (f_equal fst) in E'.
    cbn [fst] in E'. rewrite <- E', ad4020_case_noSkip_rate. reflexivity. }
  intros E. inversion E. reflexivity.
Qed.

Lemma some_eq {A : Type} (a b : A) : Some a = Some b -> a = b.
Proof. intros H. injection H as H. exact H. Qed.

Lemma ad4020_do_rate (toInt : String.string -> Z) (c : ad4020_call)
  (s s' : AD4020.state) :
  ad4020_do toInt c s = Some s' ->
  AD4020.samplerate s' = AD4020.samplerate s.
Proof.
  destruct c; cbn [ad4020_do]; intros E.
  - apply some_eq in E. subst s'. reflexivity.
  - apply some_eq in E. subst s'. reflexivity.
  - apply ad4020_initialize3_rate in E. exact E.
  - unfold AD4020.AD4020initialize5 in E.
    destruct (AD4020.AD4020initialize3 _ _ _ s) as [s1 |] eqn:E1;
      [| discriminate].
    apply some_eq in E. subst s'. apply ad4020_initialize3_rate in E1. exact E1.
  - apply ad4020_updateSamplerate_rate in E. exact E.
  - apply some_eq in E. subst s'. reflexivity.
  - apply ad4020_updateTimer_rate in E. exact E.
  - apply some_eq in E. subst s'. reflexivity.
  - apply some_eq in E. subst s'. reflexivity.
  - apply ad4020_update_rate in E. exact E.
  - destruct (AD4020.AD4020checkUpdate toInt a s) as [[s1 b] |] eqn:E1;
      [| discriminate].
    cbn [option_map fst] in E. apply some_eq in E. subst s'.
    apply ad4020_checkUpdate_rate in E1. exact E1.
  - apply some_eq in E. subst s'. apply ad4020_readValue_rate.
  - apply some_eq in E. subst s'. apply ad4020_send_rate.
  - apply some_eq in E. subst s'. apply ad4020_isr_rate.
Qed.

(** X17: the static [samplerate] is hidden by the parameter of the
    same name wherever a rate is passed, and no function assigns it: it
    keeps its initial value 0 through every sequence of calls and
    interrupts.  [AD4020updateTimer], the one function that reads it,
    therefore divides by zero for timer 0 and timer 1, and so does the
    host command that reaches it. *)
Theorem X17_AD4020_samplerate_stays_zero
  (toInt : String.string -> Z) (cs : list ad4020_call) (m : machine)
  (s : AD4020.state) :
  ad4020_calls toInt cs (AD4020.init m) = Some s ->
  AD4020.samplerate s = 0
  /\ AD4020.AD4020updateTimer 0 s = None
  /\ AD4020.AD4020updateTimer 1 s = None
  /\ (forall timer, AD4020.AD4020updateTimer timer s <> None ->
        timer <> 0 /\ timer <> 1).
Proof.
  intros Hrun.
  assert (Hrate : AD4020.samplerate s = 0).
  { change 0 with (AD4020.samplerate (AD4020.init m)).
    revert Hrun. generalize (AD4020.init m). clear m.
    induction cs as [| c cs IH]; intros s0 Hrun.
    - cbn [ad4020_calls] in Hrun. inversion Hrun. reflexivity.
    - cbn [ad4020_calls] in Hrun.
      destruct (ad4020_do toInt c s0) as [s1 |] eqn:E1; [| discriminate].
      apply ad4020_do_rate in E1. rewrite <- E1. apply IH. exact Hrun. }
  assert (Hdiv : forall timer, timer = 0 \/ timer = 1 ->
            AD4020.AD4020updateTimer timer s = None).
  { intros timer Ht. unfold AD4020.AD4020updateTimer, AD4020.select_timer.
    cbv zeta. ad4020_cbn. rewrite Hrate.
    destruct Ht as [-> | ->]; reflexivity. }
  split; [exact Hrate |].
  split; [apply Hdiv; left; reflexivity |].
  split; [apply Hdiv; right; reflexivity |].
  intros timer Hdef. split; intro Ht; apply Hdef; apply Hdiv; auto.
Qed.

Lemma X17_AD4020_samplerate_stays_zero_witness :
  let s0 := AD4020.init (machine_init idle_world) in
  let s := AD4020.AD4020sendDataToPC
             (AD4020.AD4020updateOversamples 4
                (AD4020.readISR (AD4020.AD4020initialize1 true s0))) in
  ad4020_calls (fun _ => 0)
    [call_initialize1 true; call_interrupt; call_updateOversamples 4;
     call_sendDataToPC] s0
  = Some s
  /\ AD4020.samplerate s = 0
  /\ AD4020.AD4020updateTimer 0 s = None.
Proof.
  cbv zeta. split; [reflexivity |].
  destruct (X17_AD4020_samplerate_stays_zero (fun _ => 0)
              [call_initialize1 true; call_interrupt;
               call_updateOversamples 4; call_sendDataToPC]
              (machine_init idle_world) _ eq_refl) as (H1 & H2 & _).
  split; [exact H1 | exact H2].
Defined.

(** ** AD4020.cpp: the return of the start-up phase *)

Lemma ad4020_startup_return (s : AD4020.state) :
  ad4020_ring_ok s ->
  AD4020.posReg s + 4 = AD4020.regLen ->
  (AD4020.oversamples s <=? uint32 (AD4020.sampleCycle s + 1)) = true ->
  AD4020.noSkipping s = true ->
  Z.rem (AD4020.writeReg s + 1) 3 = AD4020.readReg s ->
  0 < AD4020.initial s ->
  let s' := AD4020.readISR s in
  AD4020.readVal s' = uint32 (AD4020.readVal s + ad4020_sample s)
  /\ AD4020.sampleCycle s' = uint32 (AD4020.sampleCycle s + 1)
  /\ AD4020.oversamples s' = AD4020.oversamples s
  /\ AD4020.posReg s' = 0
  /\ AD4020.writeReg s' = Z.rem (AD4020.writeReg s + 1) 3
  /\ AD4020.readReg s' = Z.rem (AD4020.readReg s + 1) 3
  /\ AD4020.initial s' = (AD4020.initial s - 1) mod 2 ^ 8
  /\ AD4020.full s' = false.
Proof.
  intros (Hp0 & Hp1 & Hp4 & Hw & Hr) Hlast Hc Hns Hcatch Hini.
  unfold AD4020.regLen in *.
  destruct (ad4020_isr_head s) as (s2 & Hsame & E).
  cbv zeta. rewrite E. clear E. cbv zeta.
  destruct Hsame
    as (_ & Eo & Ec & Ev & _ & Eg & Ep & Ew & Er & _ & Ei & _ & _ & En).
  set (s4 := AD4020.set_sampleCycle _ (AD4020.set_readVal _ s2)).
  assert (Ho : AD4020.oversamples s4 = AD4020.oversamples s) by exact Eo.
  assert (Hs : AD4020.sampleCycle s4 = uint32 (AD4020.sampleCycle s + 1))
    by (subst s4; ad4020_cbn; rewrite Ec; reflexivity).
  assert (Hv : AD4020.readVal s4
               = uint32 (AD4020.readVal s + ad4020_sample s))
    by reflexivity.
  assert (Ep4 : AD4020.posReg s4 = AD4020.posReg s) by exact Ep.
  assert (Ew4 : AD4020.writeReg s4 = AD4020.writeReg s) by exact Ew.
  assert (Er4 : AD4020.readReg s4 = AD4020.readReg s) by exact Er.
  assert (Ei4 : AD4020.initial s4 = AD4020.initial s) by exact Ei.
  assert (En4 : AD4020.noSkipping s4 = AD4020.noSkipping s) by exact En.
  rewrite Ho, Hs, Hc. clearbody s4.
  destruct (ad4020_store_sum s4) as (F1 & F2 & F3 & F4 & _ & _);
    [lia | change (2 ^ 14) with 16384; lia |].
  destruct (ad4020_store_sum_same s4)
    as (_ & S2 & S3 & S4 & _ & _ & S7 & _).
  set (s5 := AD4020.store_sum s4) in *. clearbody s5.
  replace (AD4020.regLen <=? AD4020.posReg s5) with true
    by (symmetry; apply Z.leb_le; unfold AD4020.regLen; lia).
  unfold AD4020.isr_switch. cbv zeta.
  set (s6 := AD4020.set_full true
               (AD4020.set_posReg 0
                  (AD4020.set_writeReg (Z.rem (AD4020.writeReg s5 + 1) 3)
                     s5))).
  assert (T1 : AD4020.noSkipping s6 = true) by (subst s6; ad4020_cbn; congruence).
  assert (T2 : AD4020.writeReg s6 = Z.rem (AD4020.writeReg s + 1) 3)
    by (subst s6; ad4020_cbn; congruence).
  assert (T3 : AD4020.readReg s6 = AD4020.readReg s)
    by (subst s6; ad4020_cbn; congruence).
  assert (T4 : AD4020.initial s6 = AD4020.initial s)
    by (subst s6; ad4020_cbn; congruence).
  assert (T5 : AD4020.readVal s6
               = uint32 (AD4020.readVal s + ad4020_sample s))
    by (subst s6; ad4020_cbn; congruence).
  assert (T6 : AD4020.sampleCycle s6 = uint32 (AD4020.sampleCycle s + 1))
    by (subst s6; ad4020_cbn; congruence).
  assert (T7 : AD4020.oversamples s6 = AD4020.oversamples s)
    by (subst s6; ad4020_cbn; congruence).
  assert (T8 : AD4020.posReg s6 = 0) by reflexivity.
  assert (T9 : AD4020.full s6 = true) by reflexivity.
  clearbody s6.
  rewrite T1, T2, T3, Hcatch, Z.eqb_refl. cbn [andb].
  unfold AD4020.isr_overrun.
  replace (0 <? AD4020.initial s6) with true
    by (symmetry; apply Z.ltb_lt; lia).
  cbv zeta.
  set (s7 := AD4020.on_mach (set_irq false) s6).
  destruct (ad4020_send_ring s7)
    as (_ & G2 & G3 & G4 & G5 & G6 & G7 & G8 & _ & G10).
  assert (U : AD4020.full s7 = true) by exact T9.
  rewrite U in G4.
  ad4020_cbn.
  rewrite G2, G3, G4, G5, G6, G7, G8, G10.
  subst s7. ad4020_cbn.
  rewrite T2, T3, T4, T5, T6, T7, T8.
  repeat split; congruence.
Qed.

(** X18: when the register just filled catches up with the one being
    sent while the start-up count is not used up, [readISR] sends the
    data itself and returns before [readVal] and [sampleCycle] are
    cleared.  The sum and the count of the record just stored are
    therefore carried on, and the next interrupt stores, as the first
    record of the next register, that sum plus one more value. *)
Theorem X18_AD4020_startup_return_keeps_sum (s : AD4020.state) :
  ad4020_ring_ok s ->
  AD4020.posReg s + 4 = AD4020.regLen ->
  0 <= AD4020.sampleCycle s ->
  AD4020.oversamples s <= AD4020.sampleCycle s + 1 ->
  AD4020.sampleCycle s + 2 < 2 ^ 32 ->
  AD4020.noSkipping s = true ->
  Z.rem (AD4020.writeReg s + 1) 3 = AD4020.readReg s ->
  0 < AD4020.initial s ->
  let s' := AD4020.readISR s in
  AD4020.readVal s' = uint32 (AD4020.readVal s + ad4020_sample s)
  /\ AD4020.sampleCycle s' = AD4020.sampleCycle s + 1
  /\ le32 (AD4020.regs (AD4020.readISR s') (AD4020.writeReg s')) 0
     = uint32 (AD4020.readVal s + ad4020_sample s + ad4020_sample s').
Proof.
  intros Hring Hlast Hc0 Hos Hc2 Hns Hcatch Hini s'.
  assert (Hc : (AD4020.oversamples s
                <=? uint32 (AD4020.sampleCycle s + 1)) = true).
  { rewrite uint32_id by lia. apply Z.leb_le. exact Hos. }
  destruct (ad4020_startup_return s Hring Hlast Hc Hns Hcatch Hini)
    as (R1 & R2 & R3 & R4 & R5 & R6 & _ & _).
  fold s' in R1, R2, R3, R4, R5, R6.
  rewrite uint32_id in R2 by lia.
  split; [exact R1 |]. split; [exact R2 |].
  destruct Hring as (Hp0 & Hp1 & Hp4 & Hw & Hr).
  assert (Hring' : ad4020_ring_ok s').
  { unfold ad4020_ring_ok, AD4020.regLen. rewrite R4, R5, R6.
    repeat split; try lia; apply rem3_range; lia. }
  assert (Hc' : (AD4020.oversamples s'
                 <=? uint32 (AD4020.sampleCycle s' + 1)) = true).
  { rewrite R2, R3, uint32_id by lia. apply Z.leb_le. lia. }
  pose proof (ad4020_isr_stores s' Hc' Hring') as Hst.
  rewrite R4 in Hst.
  unfold le32.
  pose proof (Hst 0 ltac:(lia)) as H0. rewrite Z.add_0_r in H0.
  rewrite H0, (Hst 1), (Hst 2), (Hst 3) by lia.
  rewrite bytes_le32, R1.
  rewrite uint32_add_l. unfold uint32. apply Z.mod_mod. lia.
Qed.

Lemma X18_AD4020_startup_return_keeps_sum_witness :
  let s := AD4020.set_readReg 1
             (AD4020.set_posReg (AD4020.regLen - 4)
                (AD4020.init (machine_init
                   (world_showing Pin.MISO_AD4020
                      (bits_down 5 20 ++ bits_down 7 20))))) in
  let s' := AD4020.readISR s in
  AD4020.readVal s' = uint32 (AD4020.readVal s + ad4020_sample s)
  /\ AD4020.sampleCycle s' = AD4020.sampleCycle s + 1
  /\ le32 (AD4020.regs (AD4020.readISR s') (AD4020.writeReg s')) 0
     = uint32 (AD4020.readVal s + ad4020_sample s + ad4020_sample s').
Proof.
  apply (X18_AD4020_startup_return_keeps_sum
           (AD4020.set_readReg 1
              (AD4020.set_posReg (AD4020.regLen - 4)
                 (AD4020.init (machine_init
                    (world_showing Pin.MISO_AD4020
                       (bits_down 5 20 ++ bits_down 7 20))))))).
  - unfold ad4020_ring_ok, AD4020.regLen. cbn. repeat split; lia.
  - reflexivity.
  - cbn. lia.
  - cbn. lia.
  - cbn. lia.
  - reflexivity.
  - reflexivity.
  - cbn. lia.
Defined.

(** ** The capture buffer under every behaviour of the sketch *)

(** A firing changes the buffer at the four bytes of the cursor only,
    and only while the buffer is open. *)
Lemma spectralRead_buffer (c : capture) (v i : Z) :
  bufAD4020 (core (fst (spectralRead c v))) i <> bufAD4020 (core c) i ->
  full (core c) = false /\ bufPos (core c) <= i < bufPos (core c) + 4.
Proof.
  unfold spectralRead, pulse_gate.
  destruct c as [a m r w].
  destruct a as [off gn bl buf bp fl rq ss sr pr os sm sty vo su].
  cbn.
  destruct fl; [cbn; intros H; exfalso; apply H; reflexivity |].
  destruct m, w; cbn;
    repeat match goal with
           | |- context [if ?b then _ else _] =>
               let E := fresh "E" in destruct b eqn:E; cbn in E |- *
           end;
    intros H; try (exfalso; apply H; reflexivity);
    (split; [reflexivity |]);
    unfold store_record, upd in H;
    (destruct (Z.eqb_spec i (bp + 3)); [lia |]);
    (destruct (Z.eqb_spec i (bp + 2)); [lia |]);
    (destruct (Z.eqb_spec i (bp + 1)); [lia |]);
    (destruct (Z.eqb_spec i bp); [lia |]);
    exfalso; apply H; reflexivity.
Qed.

Lemma readProcessOutput_inv (s s' : system) (ad val : Z) (o : outputs) :
  readProcessOutput s ad val = Some (s', o) ->
  acq_inv (core (cap s)) -> acq_inv (core (cap s')).
Proof.
  unfold readProcessOutput. intros H Hinv.
  set (s1 := if negb (is_spectral (mode (cap s))) then _ else s) in H.
  assert (H1 : acq_inv (core (cap s1))).
  { subst s1. destruct (negb (is_spectral (mode (cap s)))); [| exact Hinv].
    apply spectralRead_inv. exact Hinv. }
  clearbody s1.
  destruct (process (eng s1) val) as [[e y] |]; [| discriminate].
  destruct (excite (on_eng (fun _ => e) s1)) as [s2 p] eqn:E.
  assert (H2 : core (cap s2) = core (cap s1)).
  { unfold excite in E. cbn [cap on_eng eng nproc nmax] in E.
    destruct (2 <=? ADready (cap s1));
      [| inversion E; reflexivity].
    revert E.
    destruct (nproc s1 =? 0);
      [destruct (mode (cap s1)) |
       destruct ((nproc s1 =? 1)
                 && match mode (cap s1) with
                    | shortPulse => true | _ => false end);
       [| destruct (Z.quot (nmax s1) 2 <=? nproc s1);
          [destruct (mode (cap s1)) |]]];
      cbn;
      match goal with
      | |- context [if ?b then _ else _] => destruct b
      end;
      intros E; inversion E; reflexivity. }
  inversion H. subst. rewrite H2. exact H1.
Qed.

(** X19: whatever the timers, the loop and the host do, in any order,
    the write cursor and the configured length stay multiples of four
    inside [bufAD4020]; every byte a firing stores lies inside the
    buffer, and a transmission reads no more than the buffer holds. *)
Theorem X19_capture_buffer_is_safe
  (fsin fcos : float64 -> float64) (c0 : iir_coeffs)
  (es : list sketch_event) (s : system) :
  sketch_run fsin fcos es (system_init c0) = Some s ->
  acq_inv (core (cap s))
  /\ (forall v i,
        bufAD4020 (core (fst (spectralRead (cap s) v))) i
        <> bufAD4020 (core (cap s)) i ->
        0 <= i < maxLen)
  /\ (forall tx, snd (sendDataToPC (cap s)) = Some tx ->
        Z.of_nat (length tx) <= maxLen).
Proof.
  intros Hrun.
  assert (Hinv : acq_inv (core (cap s))).
  { assert (H0 : acq_inv (core (cap (system_init c0)))) by exact acq_inv_init.
    revert Hrun H0. generalize (system_init c0).
    induction es as [| e es IH]; intros s0 Hrun H0.
    - cbn [sketch_run] in Hrun. injection Hrun as <-. exact H0.
    - cbn [sketch_run] in Hrun.
      destruct (sketch_step fsin fcos e s0) as [s1 |] eqn:E1;
        [| discriminate].
      apply (IH s1 Hrun).
      destruct e; cbn [sketch_step] in E1.
      + injection E1 as <-. apply spectralRead_inv. exact H0.
      + destruct (readProcessOutput s0 ad val) as [[s2 o] |] eqn:E2;
          [| discriminate].
        cbn [option_map fst] in E1. injection E1 as <-.
        exact (readProcessOutput_inv _ _ _ _ _ E2 H0).
      + injection E1 as <-. apply sendDataToPC_inv. exact H0.
      + injection E1 as <-. apply checkUpdateUSB_inv. exact H0. }
  split; [exact Hinv |].
  destruct Hinv as (Hp & Hp4 & Hl & Hl4 & Hroom).
  split.
  - intros v i Hne. apply spectralRead_buffer in Hne.
    destruct Hne as (Hf & Hi). specialize (Hroom Hf). lia.
  - intros tx Htx. unfold sendDataToPC in Htx.
    destruct (negb (full (core (cap s)))); [discriminate |].
    cbv zeta in Htx.
    destruct (negb (request _)); [discriminate |].
    cbn [snd] in Htx. injection Htx as <-.
    unfold T4sw. rewrite length_map, length_seq.
    cbn [core on_core bufLen set_sampleStart set_bufPos].
    rewrite Z2Nat.id by lia. lia.
Qed.

Lemma X19_capture_buffer_is_safe_witness :
  let s := on_cap (fun c => fst (sendDataToPC c))
             (on_cap (fun c => fst (spectralRead c 7))
                (fst (checkUpdateUSB id id (system_init no_coeffs)
                        (settingSize 2)))) in
  acq_inv (core (cap s))
  /\ (forall v i,
        bufAD4020 (core (fst (spectralRead (cap s) v))) i
        <> bufAD4020 (core (cap s)) i ->
        0 <= i < maxLen)
  /\ (forall tx, snd (sendDataToPC (cap s)) = Some tx ->
        Z.of_nat (length tx) <= maxLen).
Proof.
  apply (X19_capture_buffer_is_safe id id no_coeffs
           [ev_command (settingSize 2); ev_capture 7; ev_send]).
  reflexivity.
Defined.

(** ** iir.h: the histories of the programmable filter *)

Section IirFrame.

Variable c : iir_coeffs.

Lemma x_mul_then_shift_frame (n : nat) :
  forall (i : Z) (s : float32 * (Z -> float32)) (j : Z),
    j <= i - Z.of_nat n \/ i < j ->
    snd (for_down n i (x_mul_then_shift c) s) j = snd s j.
Proof.
  induction n as [| n IH]; intros i [yn xh] j Hj; [reflexivity |].
  cbn [for_down]. rewrite IH by lia.
  cbn [x_mul_then_shift snd]. apply upd_other. lia.
Qed.

Lemma x_shift_then_mul_frame (n : nat) :
  forall (i : Z) (s : float32 * (Z -> float32)) (j : Z),
    j <= i - Z.of_nat n \/ i < j ->
    snd (for_down n i (x_shift_then_mul c) s) j = snd s j.
Proof.
  induction n as [| n IH]; intros i [yn xh] j Hj; [reflexivity |].
  cbn [for_down]. rewrite IH by lia.
  cbn [x_shift_then_mul snd]. apply upd_other. lia.
Qed.

Lemma y_mul_then_shift_frame (n : nat) :
  forall (i : Z) (s : float32 * (Z -> float32)) (j : Z),
    j < i - Z.of_nat n \/ i <= j ->
    snd (for_down n i (y_mul_then_shift c) s) j = snd s j.
Proof.
  induction n as [| n IH]; intros i [yn yh] j Hj; [reflexivity |].
  cbn [for_down]. rewrite IH by lia.
  cbn [y_mul_then_shift snd]. apply upd_other. lia.
Qed.

Lemma y_shift_then_mul_frame (n : nat) :
  forall (i : Z) (s : float32 * (Z -> float32)) (j : Z),
    j < i - Z.of_nat n \/ i <= j ->
    snd (for_down n i (y_shift_then_mul c) s) j = snd s j.
Proof.
  induction n as [| n IH]; intros i [yn yh] j Hj; [reflexivity |].
  cbn [for_down]. rewrite IH by lia.
  cbn [y_shift_then_mul snd]. apply upd_other. lia.
Qed.

Lemma x_count (j : Z) :
  ~ 0 <= j < Niirmax ->
  j <= Z.min Niirmax (Nb c) - 1
       - Z.of_nat (down_count (Z.min Niirmax (Nb c) - 1) 0)
  \/ Z.min Niirmax (Nb c) - 1 < j.
Proof. unfold down_count, Niirmax. lia. Qed.

Lemma y_count (j : Z) :
  ~ 0 <= j < Niirmax ->
  j < Z.min Niirmax (Na c) - 1
      - Z.of_nat (down_count (Z.min Niirmax (Na c) - 1) 1)
  \/ Z.min Niirmax (Na c) - 1 <= j.
Proof. unfold down_count, Niirmax. lia. Qed.

Lemma iir_finish_frame (xh : Z -> float32) (s : float32 * (Z -> float32))
  (j : Z) :
  j <> 0 ->
  xnhist (fst (iir_finish c xh s)) = xh
  /\ ynhist (fst (iir_finish c xh s)) j = snd s j.
Proof.
  intros Hj. destruct s as [yn yh]. unfold iir_finish.
  cbn [fst snd xnhist ynhist]. split; [reflexivity |].
  apply upd_other. exact Hj.
Qed.

End IirFrame.

(** X20: whatever lengths [Nb] and [Na] the coefficient tables declare
    (they are cut to [Niirmax]), a step of the programmable filter, in
    each of its three versions and in both channels of the lock-in
    version, stores no element of the histories outside the first
    [Niirmax] ones. *)
Theorem X20_proc_iir_stays_in_histories
  (c : iir_coeffs) (st : iir_state) (l : Iir007.state)
  (xn xn' : float32) (j : Z) :
  ~ 0 <= j < Niirmax ->
  let same (r : iir_state) (s : iir_state) :=
    xnhist r j = xnhist s j /\ ynhist r j = ynhist s j in
  same (fst (Iir1.proc_iir c st xn)) st
  /\ same (fst (Iir2.proc_iir c st xn)) st
  /\ same (fst (Iir3.proc_iir c st xn)) st
  /\ same (Iir007.ch0 (fst (Iir007.proc_iir c l xn xn'))) (Iir007.ch0 l)
  /\ same (Iir007.ch1 (fst (Iir007.proc_iir c l xn xn'))) (Iir007.ch1 l).
Proof.
  intros Hj same. subst same. cbv beta.
  assert (Hj0 : j <> 0) by (unfold Niirmax in Hj; lia).
  pose proof (x_count c j Hj) as Hx. pose proof (y_count c j Hj) as Hy.
  repeat split.
  - unfold Iir1.proc_iir. cbv zeta.
    pose proof (x_mul_then_shift_frame c _ _ (f32_zero, xnhist st) j Hx) as E.
    destruct (for_down _ _ (x_mul_then_shift c) _) as [yx xh].
    destruct (iir_finish_frame c (upd xh 0 xn)
                (for_down (down_count (Z.min Niirmax (Na c) - 1) 1)
                   (Z.min Niirmax (Na c) - 1) (y_mul_then_shift c)
                   (b32_add yx (b32_mul (bn c 0) xn), ynhist st)) j Hj0)
      as (F1 & _).
    rewrite F1, upd_other by exact Hj0. exact E.
  - unfold Iir1.proc_iir. cbv zeta.
    destruct (for_down _ _ (x_mul_then_shift c) _) as [yx xh].
    destruct (iir_finish_frame c (upd xh 0 xn)
                (for_down (down_count (Z.min Niirmax (Na c) - 1) 1)
                   (Z.min Niirmax (Na c) - 1) (y_mul_then_shift c)
                   (b32_add yx (b32_mul (bn c 0) xn), ynhist st)) j Hj0)
      as (_ & F2).
    rewrite F2. apply (y_mul_then_shift_frame c _ _ (_, ynhist st) j Hy).
  - unfold Iir2.proc_iir. cbv zeta.
    pose proof (x_shift_then_mul_frame c _ _ (f32_zero, xnhist st) j Hx) as E.
    destruct (for_down _ _ (x_shift_then_mul c) _) as [yx xh].
    destruct (iir_finish_frame c (upd xh 0 xn)
                (for_down (down_count (Z.min Niirmax (Na c) - 1) 1)
                   (Z.min Niirmax (Na c) - 1) (y_mul_then_shift c)
                   (b32_add yx (b32_mul (bn c 0) (upd xh 0 xn 0)), ynhist st))
                j Hj0)
      as (F1 & _).
    rewrite F1, upd_other by exact Hj0. exact E.
  - unfold Iir2.proc_iir. cbv zeta.
    destruct (for_down _ _ (x_shift_then_mul c) _) as [yx xh].
    destruct (iir_finish_frame c (upd xh 0 xn)
                (for_down (down_count (Z.min Niirmax (Na c) - 1) 1)
                   (Z.min Niirmax (Na c) - 1) (y_mul_then_shift c)
                   (b32_add yx (b32_mul (bn c 0) (upd xh 0 xn 0)), ynhist st))
                j Hj0)
      as (_ & F2).
    rewrite F2. apply (y_mul_then_shift_frame c _ _ (_, ynhist st) j Hy).
  - unfold Iir3.proc_iir. cbv zeta.
    pose proof (x_mul_then_shift_frame c _ _ (f32_zero, xnhist st) j Hx) as E.
    destruct (for_down _ _ (x_mul_then_shift c) _) as [yx xh].
    destruct (iir_finish_frame c (upd xh 0 xn)
                (for_down (down_count (Z.min Niirmax (Na c) - 1) 1)
                   (Z.min Niirmax (Na c) - 1) (y_shift_then_mul c)
                   (b32_add yx (b32_mul (bn c 0) (xh 0)), ynhist st)) j Hj0)
      as (F1 & _).
    rewrite F1, upd_other by exact Hj0. exact E.
  - unfold Iir3.proc_iir. cbv zeta.
    destruct (for_down _ _ (x_mul_then_shift c) _) as [yx xh].
    destruct (iir_finish_frame c (upd xh 0 xn)
                (for_down (down_count (Z.min Niirmax (Na c) - 1) 1)
                   (Z.min Niirmax (Na c) - 1) (y_shift_then_mul c)
                   (b32_add yx (b32_mul (bn c 0) (xh 0)), ynhist st)) j Hj0)
      as (_ & F2).
    rewrite F2. apply (y_shift_then_mul_frame c _ _ (_, ynhist st) j Hy).
  - unfold Iir007.proc_iir. cbv zeta. rewrite for_down_x_body.
    pose proof (x_shift_then_mul_frame c _ _
                  (f32_zero, xnhist (Iir007.ch0 l)) j Hx) as E.
    destruct (for_down _ _ (x_shift_then_mul c) (_, xnhist (Iir007.ch0 l)))
      as [y0 xh0].
    destruct (for_down _ _ (x_shift_then_mul c) (_, xnhist (Iir007.ch1 l)))
      as [y1 xh1].
    rewrite for_down_y_body.
    destruct (for_down _ _ (y_shift_then_mul c) (_, ynhist (Iir007.ch0 l)))
      as [z0 yh0].
    destruct (for_down _ _ (y_shift_then_mul c) (_, ynhist (Iir007.ch1 l)))
      as [z1 yh1].
    cbn [iir_finish Iir007.ch0 fst xnhist].
    rewrite upd_other by exact Hj0. exact E.
  - unfold Iir007.proc_iir. cbv zeta. rewrite for_down_x_body.
    destruct (for_down _ _ (x_shift_then_mul c) (_, xnhist (Iir007.ch0 l)))
      as [y0 xh0].
    destruct (for_down _ _ (x_shift_then_mul c) (_, xnhist (Iir007.ch1 l)))
      as [y1 xh1].
    rewrite for_down_y_body.
    pose proof (y_shift_then_mul_frame c _ _
                  (b32_add y0 (b32_mul (bn c 0) (upd xh0 0 xn 0)),
                   ynhist (Iir007.ch0 l)) j Hy) as E.
    destruct (for_down _ _ (y_shift_then_mul c) (_, ynhist (Iir007.ch0 l)))
      as [z0 yh0].
    destruct (for_down _ _ (y_shift_then_mul c) (_, ynhist (Iir007.ch1 l)))
      as [z1 yh1].
    cbn [iir_finish Iir007.ch0 fst ynhist].
    rewrite upd_other by exact Hj0. exact E.
  - unfold Iir007.proc_iir. cbv zeta. rewrite for_down_x_body.
    pose proof (x_shift_then_mul_frame c _ _
                  (f32_zero, xnhist (Iir007.ch1 l)) j Hx) as E.
    destruct (for_down _ _ (x_shift_then_mul c) (_, xnhist (Iir007.ch0 l)))
      as [y0 xh0].
    destruct (for_down _ _ (x_shift_then_mul c) (_, xnhist (Iir007.ch1 l)))
      as [y1 xh1].
    rewrite for_down_y_body.
    destruct (for_down _ _ (y_shift_then_mul c) (_, ynhist (Iir007.ch0 l)))
      as [z0 yh0].
    destruct (for_down _ _ (y_shift_then_mul c) (_, ynhist (Iir007.ch1 l)))
      as [z1 yh1].
    cbn [iir_finish Iir007.ch1 fst xnhist].
    rewrite upd_other by exact Hj0. exact E.
  - unfold Iir007.proc_iir. cbv zeta. rewrite for_down_x_body.
    destruct (for_down _ _ (x_shift_then_mul c) (_, xnhist (Iir007.ch0 l)))
      as [y0 xh0].
    destruct (for_down _ _ (x_shift_then_mul c) (_, xnhist (Iir007.ch1 l)))
      as [y1 xh1].
    rewrite for_down_y_body.
    pose proof (y_shift_then_mul_frame c _ _
                  (b32_add y1 (b32_mul (bn c 0) (upd xh1 0 xn' 0)),
                   ynhist (Iir007.ch1 l)) j Hy) as E.
    destruct (for_down _ _ (y_shift_then_mul c) (_, ynhist (Iir007.ch0 l)))
      as [z0 yh0].
    destruct (for_down _ _ (y_shift_then_mul c) (_, ynhist (Iir007.ch1 l)))
      as [z1 yh1].
    cbn [iir_finish Iir007.ch1 fst ynhist].
    rewrite upd_other by exact Hj0. exact E.
Qed.

Lemma X20_proc_iir_stays_in_histories_witness :
  let c := {| bn := fun _ => b32_of_Z 1; Nb := 1000;
              an := fun _ => b32_of_Z 1; Na := 1000 |} in
  let st := {| xnhist := fun _ => b32_of_Z 2; ynhist := fun _ => b32_of_Z 3 |} in
  let l := {| Iir007.ch0 := st; Iir007.ch1 := st |} in
  let x := b32_of_Z 5 in
  (xnhist (fst (Iir1.proc_iir c st x)) 200 = xnhist st 200
   /\ ynhist (fst (Iir1.proc_iir c st x)) 200 = ynhist st 200)
  /\ (xnhist (fst (Iir2.proc_iir c st x)) 200 = xnhist st 200
      /\ ynhist (fst (Iir2.proc_iir c st x)) 200 = ynhist st 200)
  /\ (xnhist (fst (Iir3.proc_iir c st x)) 200 = xnhist st 200
      /\ ynhist (fst (Iir3.proc_iir c st x)) 200 = ynhist st 200)
  /\ (xnhist (Iir007.ch0 (fst (Iir007.proc_iir c l x x))) 200
      = xnhist (Iir007.ch0 l) 200
      /\ ynhist (Iir007.ch0 (fst (Iir007.proc_iir c l x x))) 200
         = ynhist (Iir007.ch0 l) 200)
  /\ (xnhist (Iir007.ch1 (fst (Iir007.proc_iir c l x x))) 200
      = xnhist (Iir007.ch1 l) 200
      /\ ynhist (Iir007.ch1 (fst (Iir007.proc_iir c l x x))) 200
         = ynhist (Iir007.ch1 l) 200).
Proof.
  cbv zeta.
  apply (X20_proc_iir_stays_in_histories
           {| bn := fun _ => b32_of_Z 1; Nb := 1000;
              an := fun _ => b32_of_Z 1; Na := 1000 |}
           {| xnhist := fun _ => b32_of_Z 2; ynhist := fun _ => b32_of_Z 3 |}
           {| Iir007.ch0 := {| xnhist := fun _ => b32_of_Z 2;
                               ynhist := fun _ => b32_of_Z 3 |};
              Iir007.ch1 := {| xnhist := fun _ => b32_of_Z 2;
                               ynhist := fun _ => b32_of_Z 3 |} |}
           (b32_of_Z 5) (b32_of_Z 5) 200).
  unfold Niirmax. lia.
Defined.

(** ** The lock-in filter (unnamed/part_007): its two channels *)

(** X21: the two channels of the lock-in filter do not touch each
    other: the output and the new history of a channel are determined
    by the input and the history of that channel alone. *)
Theorem X21_lockin_channels_are_separate
  (c : iir_coeffs) (l l' : Iir007.state) (x0 x1 x0' x1' : float32) :
  let r := Iir007.proc_iir c l x0 x1 in
  let r' := Iir007.proc_iir c l' x0' x1' in
  (Iir007.ch0 l = Iir007.ch0 l' -> x0 = x0' ->
   fst (snd r) = fst (snd r')
   /\ Iir007.ch0 (fst r) = Iir007.ch0 (fst r'))
  /\ (Iir007.ch1 l = Iir007.ch1 l' -> x1 = x1' ->
      snd (snd r) = snd (snd r')
      /\ Iir007.ch1 (fst r) = Iir007.ch1 (fst r')).
Proof.
  cbv zeta. unfold Iir007.proc_iir. cbv zeta.
  rewrite !for_down_x_body.
  destruct (for_down _ _ (x_shift_then_mul c) (_, xnhist (Iir007.ch0 l)))
    as [y0 xh0] eqn:A0.
  destruct (for_down _ _ (x_shift_then_mul c) (_, xnhist (Iir007.ch1 l)))
    as [y1 xh1] eqn:A1.
  destruct (for_down _ _ (x_shift_then_mul c) (_, xnhist (Iir007.ch0 l')))
    as [y0' xh0'] eqn:A0'.
  destruct (for_down _ _ (x_shift_then_mul c) (_, xnhist (Iir007.ch1 l')))
    as [y1' xh1'] eqn:A1'.
  rewrite !for_down_y_body.
  destruct (for_down _ _ (y_shift_then_mul c) (_, ynhist (Iir007.ch0 l)))
    as [z0 yh0] eqn:B0.
  destruct (for_down _ _ (y_shift_then_mul c) (_, ynhist (Iir007.ch1 l)))
    as [z1 yh1] eqn:B1.
  destruct (for_down _ _ (y_shift_then_mul c) (_, ynhist (Iir007.ch0 l')))
    as [z0' yh0'] eqn:B0'.
  destruct (for_down _ _ (y_shift_then_mul c) (_, ynhist (Iir007.ch1 l')))
    as [z1' yh1'] eqn:B1'.
  cbn [iir_finish fst snd Iir007.ch0 Iir007.ch1].
  split; intros El Ex; subst.
  - rewrite El in A0. rewrite A0 in A0'. injection A0' as <- <-.
    rewrite El in B0. rewrite B0 in B0'. injection B0' as <- <-.
    split; reflexivity.
  - rewrite El in A1. rewrite A1 in A1'. injection A1' as <- <-.
    rewrite El in B1. rewrite B1 in B1'. injection B1' as <- <-.
    split; reflexivity.
Qed.

(** ** SpectralProcessingDSMV.ino: the excitation of a cycle *)

Section Excitation.







End Excitation.


(** ** SpectralProcessingDSMV.ino: the number of taps set by the host *)

(** X23: whatever number the host sends with [set filterProperty3],
    also a negative or a huge one, the tap count stored for the selected
    filter is odd and lies between 1 and [NfilterMax]: it is [2*M + 1]
    with [M] half the number, cut to the range from 0 to [MfilterMax];
    the selected filter stays and the command is acknowledged. *)
Theorem X23_tap_count_is_cut_to_range
  (fsin fcos : float64 -> float64) (s : system) (n : Z) :
  let r := checkUpdateUSB fsin fcos s (settingFilterProperty3 n) in
  let M := Z.min (Z.quot (Z.max n 0) 2) FirScalar.MfilterMax in
  0 <= M <= FirScalar.MfilterMax
  /\ 1 <= 2 * M + 1 <= FirScalar.NfilterMax
  /\ props_of (eng (fst r)) 2 = b32_of_Z (2 * M + 1)
  /\ filter (eng (fst r)) = filter (eng s)
  /\ snd r = true.
Proof.
  intros r M.
  assert (HM : 0 <= M <= FirScalar.MfilterMax).
  { subst M. unfold FirScalar.MfilterMax.
    pose proof (Z.quot_pos (Z.max n 0) 2 ltac:(lia) ltac:(lia)). lia. }
  split; [exact HM |].
  split; [unfold FirScalar.NfilterMax; lia |].
  subst r. cbn [checkUpdateUSB]. fold M.
  unfold FirScalar.MfilterMax in HM.
  rewrite (uint16_id M) by lia.
  rewrite (uint16_id (2 * M + 1)) by lia.
  unfold after_prop.
  set (e := set_prop 2 (b32_of_Z (2 * M + 1)) (eng s)).
  assert (Ef : filter e = filter (eng s)) by reflexivity.
  assert (Ep : props_of e 2 = b32_of_Z (2 * M + 1)).
  { subst e. unfold props_of, set_prop.
    cbn [filterProperties set_filterProperties filter].
    rewrite !upd_same. reflexivity. }
  clearbody e.
  destruct (is_fir (filter e)); cbn [fst snd eng on_eng];
    repeat split; assumption.
Qed.

(** ** AD5791.cpp: the commands of the host *)

Section AD5791Commands.
Import String Ascii.
Local Open Scope string_scope.
Local Open Scope Z_scope.

Variable toFloat : string -> float32.

(** X24: [AD5791checkUpdate] answers [true] to every command that
    begins with [AD5791.], also to one it does not know and which
    therefore changes nothing; every other command it leaves alone and
    answers [false]. *)
Theorem X24_AD5791checkUpdate_answer
  (a : string) (st : AD5791.state) (r : AD5791.state * bool) :
  AD5791.AD5791checkUpdate toFloat a st = Some r ->
  snd r = Str.startsWith a "AD5791."
  /\ (Str.startsWith a "AD5791." = false
      \/ AD5791.checkParam (Str.remove0 7 a) = AD5791.invalid ->
      fst r = st).
Proof.
  unfold AD5791.AD5791checkUpdate.
  destruct (Str.startsWith a "AD5791.").
  - cbv zeta.
    destruct (Z.eqb_spec (AD5791.checkParam (Str.remove0 7 a))
                AD5791.settingVoltage) as [E0 | _].
    { destruct (AD5791.AD5791setVoltage _ st); [| discriminate].
      intros H. apply some_eq in H. subst r. split; [reflexivity |].
      intros [H | H]; [discriminate |].
      rewrite E0 in H. discriminate. }
    destruct (Z.eqb_spec (AD5791.checkParam (Str.remove0 7 a))
                AD5791.settingDefaultVoltage) as [E1 | _].
    { destruct (AD5791.AD5791setDefaultVoltage _ st); [| discriminate].
      intros H. apply some_eq in H. subst r. split; [reflexivity |].
      intros [H | H]; [discriminate |].
      rewrite E1 in H. discriminate. }
    destruct (Z.eqb_spec (AD5791.checkParam (Str.remove0 7 a))
                AD5791.commandStd) as [E2 | _].
    { intros H. apply some_eq in H. subst r. split; [reflexivity |].
      intros [H | H]; [discriminate |].
      rewrite E2 in H. discriminate. }
    destruct (Z.eqb_spec (AD5791.checkParam (Str.remove0 7 a))
                AD5791.commandClear) as [E3 | _].
    { intros H. apply some_eq in H. subst r. split; [reflexivity |].
      intros [H | H]; [discriminate |].
      rewrite E3 in H. discriminate. }
    destruct (Z.eqb_spec (AD5791.checkParam (Str.remove0 7 a))
                AD5791.commandOff) as [E4 | _].
    { intros H. apply some_eq in H. subst r. split; [reflexivity |].
      intros [H | H]; [discriminate |].
      rewrite E4 in H. discriminate. }
    intros H. apply some_eq in H. subst r. split; reflexivity.
  - intros H. apply some_eq in H. subst r. split; reflexivity.
Qed.

End AD5791Commands.

Section AD5791CommandRuns.
Import String Ascii.
Local Open Scope string_scope.

Lemma X24_AD5791checkUpdate_answer_witness :
  let st := AD5791.init idle_world in
  let r := (st, true) in
  snd r = Str.startsWith "AD5791.louder" "AD5791."
  /\ (Str.startsWith "AD5791.louder" "AD5791." = false
      \/ AD5791.checkParam (Str.remove0 7 "AD5791.louder") = AD5791.invalid ->
      fst r = st).
Proof.
  apply (X24_AD5791checkUpdate_answer (fun _ => f32_zero) "AD5791.louder"
           (AD5791.init idle_world) (AD5791.init idle_world, true)).
  reflexivity.
Defined.

End AD5791CommandRuns.

